(* ===== verification/_CoqProject ===== *)
-Q . S2P
Prelude.v
Wire.v
CircularBuffer.v
Crc32.v
SipHash.v
HashMap.v
Sync.v
Channel.v
Election.v
Peers.v
Memory.v
ElectionRun.v
ElectionNet.v
ElectionAsync.v
State.v
Schedule.v
Frame.v
Radiotap.v
Tx.v
Rx.v
TxRx.v
Amsdu.v
Print.v
Log.v
Os.v
Netutils.v
Io.v
IoInit.v
Dump.v
Apple.v
Calls.v
Daemon.v
DaemonRun.v
DaemonTimers.v
Traces.v
DaemonSafe.v
DaemonLive.v
EndToEnd.v
Follow.v
Multicast.v
Cluster.v
Survivors.v
Owl.v
Shutdown.v
