(* ===== verification/Prelude.v ===== *)
(** * Open Wireless Link (OWL): a verification library

    OWL is a daemon that speaks Apple Wireless Direct Link (AWDL): it puts a
    Wi-Fi card into monitor mode, discovers peers by the action frames they
    send, elects a master to synchronise with, hops channels with its peers
    in availability windows, and carries Ethernet frames between a virtual
    host device and the air.  The library follows the C sources, function by
    function, and proves what makes them correct.

    ** The program and its model

    Definitions keep the names of the C functions and structures.  Integers
    are [Z] with the wrap-around of their width written out, bytes are numbers
    below 256, memory blocks are lists of bytes.  A function is undefined
    ([None], or [Undef] of [outcome]) where the C code has undefined behaviour
    (an access outside an object, a null or uninitialised pointer, signed
    overflow); error codes are values, and the handlers that leave early by a
    macro or a [goto] run in the monad [M] of this file, which keeps what was
    written before.  Loops that are not structural carry fuel and end in
    [OutOfFuel]; the theorems show that the fuel the callers pass is enough.

    - Prelude: integers, bytes, [M], [outcome], tactics, shared lemmas.
    - Wire (src/src/wire.c, wire.h): frame buffers; [contents] is the list of
      bytes of a window, and every primitive is its list counterpart.
    - CircularBuffer (circular_buffer.c): the queue of multicast frames,
      against a bounded FIFO queue ([spec_put], [spec_get]).
    - Crc32, SipHash (crc32.c, siphash24.c): against the bitwise shift
      register and SipHash-2-4 on the padded message.
    - HashMap (hashmap.c), against finite maps ([to_map]); Peers (peers.c),
      the peer table on top of it with its heap of peers ([peers_rep]);
      Memory, the blocks tables, iterators and the queue allocate and free.
    - Sync (sync.c), Channel (channel.c, version.c), Schedule (schedule.c):
      windows, channel sequences, and when a frame may be sent.
    - Election, ElectionRun (election.c): the order on candidates, and the
      election over the peer table; ElectionNet, ElectionAsync: many nodes
      that announce, hear and elect in any order ([astep]).
    - State (state.c, state.h): the state of a node and its invariant
      [state_ok].
    - Frame (frame.h, frame.c, ieee80211.h): the layouts; Tx (tx.c), Rx (rx.c)
      build and take apart frames; Radiotap is the interface of the radiotap
      library; TxRx composes sender and receiver, Amsdu is the format of
      aggregated frames.
    - Print (election.c, peers.c, version.c): the texts for the log; Log
      (log.c, log.h): the logger, and the statistics the daemon writes with it.
    - Io (daemon/io.c, netutils.c): what the daemon does to its devices, as a
      trace of events.  Os is the log of calls into the system with their
      results; Netutils (daemon/netutils.c) and IoInit (daemon/io.c) are the
      configuration of the network and the opening of the devices on it;
      Dump (daemon/core.c) is the capture of frames that were not understood;
      Apple (netutils.c, io.c, corewlan.m) has the variants for macOS.  Calls
      runs the functions of Netutils and Dump that the events of a trace stand
      for ([performs]).
    - Daemon (daemon/core.c): one function per event handler, on a [world]:
      the state, the trace, and what waits on the host device.  Traces shows
      which events a handler can cause and joins it with their calls
      ([handle_calls]).  DaemonRun,
      DaemonTimers, DaemonSafe and DaemonLive hold the theorems: single
      events, timers, all runs ([reachable]), windows.  EndToEnd,
      Multicast and Follow put daemons together: a packet from host to host,
      a queue of packets from one host to the hosts that hear it, and a node
      that follows the clock and the channels of its master.  Cluster puts any
      number together ([cstep]) and simulates them by ElectionAsync;
      Survivors lets some of them disappear.
    - Owl (daemon/owl.c): the command line, detachment, start and end.
      Shutdown follows what the program holds from its start to its end.

    ** What is proved

    - Undefined behaviour, where it is and that there is no other: reception
      of arbitrary bytes, which can only write behind the array the caller has
      for the frames it produces ([Rx.rx_total_on_any_frame], and
      [Amsdu.amsdu_delivers] for when it does); every event in every reachable
      state of the daemon with the calls it makes ([DaemonSafe.daemon_safe]),
      with the exceptions of long aggregated frames and of objects the system
      denies; the whole program from its command line ([Owl.main_starts]),
      with the exceptions of missing memory, links and addresses of links; the
      buffers, where an offset is close to [INT_MAX] ([Wire.wire_reads_refine],
      [Wire.wire_writes_refine]); the printed table, where a length is not an
      [int] ([Print.peers_print_bounded]).
    - Refinement of abstract data types: buffers, queue, hash map, peer table,
      and the election, which elects the greatest admissible candidate
      whatever the order of the table.  An insertion fails only if there is no
      place and the allocator refuses the larger table.
    - Agreement: nodes that hear each other, in whatever order and however
      late, follow the same master after thirteen epochs, from any states
      ([ElectionAsync.election_stabilises_async]).  An epoch is a stretch in
      which all have elected, then announced, then heard each other.  Eleven
      of them outlast every claim no node stands behind, because the height
      of such a claim grows in each and the tree has a limit; one more and
      the greatest node knows itself, one more and the others have heard it.
      Whole daemons that exchange bytes do the same
      ([Cluster.cluster_agrees]), also when others they have heard of, a
      master among them, are gone ([Survivors.survivors_agree]).
    - Packets: a unicast packet goes from host to host unchanged
      ([EndToEnd.unicast_end_to_end]); multicast packets a host hands over
      leave, all of them and in order, after finitely many expirations of the
      timer, and whoever hears some of their frames hands these packets to
      its host, in that order ([Multicast.multicast_end_to_end]).
    - Clocks: a node that hears its master is in the
      same window from then on and on the same channel
      ([Follow.node_follows_master]).
    - Memory: a table frees what it allocates, once, whatever is done with it
      and whatever the allocator refuses ([Memory.table_memory_balanced]).
      From its start to its end the program releases every socket, descriptor
      and handle it keeps, once; of its memory it frees the queue and nothing
      else ([Shutdown.program_releases]).
    - Frames: exact bytes of what is sent, what a received frame changes, the
      round trip of action and data frames between two nodes, aggregation.
    - The daemon: what polling reads, when a unicast or multicast frame is
      sent, put off or dropped, that a queued multicast frame is sent in the
      first attempt inside a multicast window, after at most eleven
      expirations of its timer ([Multicast.multicast_progress]), what the
      timers do.
    - Devices: descriptors and handles are accounted for on every path, and
      netlink objects on those that are defined; which paths are not, and
      which failures are not reported; on macOS, which channel is set and when
      [ndp] runs.
    - The log: which messages are written, in full and under the lock, and
      that the statistics can be read back from it.
    Several theorems state a defect as the code has it: the size of the hash
    map after an overwriting put, the election height that wraps, the array
    of sixteen frames that a frame can overrun, the stale peers while the
    clock is below the timeout, the name of 64 characters without end, the
    failure to open the radio that is reported as success, the answer of
    [is_channel_available] that never returns to no, the standard error that
    [daemonize] closes although the log goes there, and, on macOS, a failing
    [fork] that turns the daemon into [ndp].

    ** Interfaces and hypotheses

    Code that is not in the repository is a class: the allocators
    ([CallocEnv], [MallocEnv] and their laws [CallocBounded], [MallocOk]), the
    radiotap library ([Radiotap], [RadiotapOk]), reads and writes of devices
    ([IoEnv]), uninitialised memory ([RxEnv], [StackEnv]), the system and
    its libraries ([Os], for macOS also [AppleEnv]), the event loop where it
    ends ([EventLoop], which handles events by [handle_calls]).  [OutRoom] is
    the size of the array a caller of [awdl_rx] provides, sixteen in the
    daemon.  Each has an instance for concrete inputs.  The host
    is a little-endian LP64 Linux system.  Clock readings are arguments.
    Times handed to the event loop are exact rationals where the code has
    [double].

    ** Fuel

    [PUT_FUEL] (23) bounds the nesting of rehashing: each level doubles the
    table, and [CallocBounded] refuses tables that an [int] cannot index.
    Iterators get one step per slot and one to end ([it_fuel]); loops over
    the elements of a frame and over subframes consume at least one byte
    per iteration ([tlv_fuel]); polling the host device fills a place of the
    queue in every iteration but two ([poll_fuel]).

    ** Not modelled

    The calls of the logger in the other files, which are output only (the
    two with an invalid format, in io.c, are undefined); the event loop itself
    (libev), of which the order of events is left open.  The heap of the
    daemon as a whole: Peers and Memory have the blocks of the table and of
    the queue, but the frames in the queue and the pending frame are values,
    and the end of the program is stated for any set of blocks that are live
    when the loop returns.  The unit tests and the submodules. *)

From Stdlib Require Import ZArith Lia ZifyBool.
From stdpp Require Import base tactics numbers list gmap.

Local Open Scope Z_scope.

(** ** Notations

    The notations of the library live in their own scope. *)

Declare Scope owl_scope.
Delimit Scope owl_scope with owl.

(** ** Machine integers

    A C integer of width [w] is a [Z]; the conversions write the wrap-around
    out.  The target is an LP64 Linux system: [int] has 32 bits, [long] and
    [size_t] have 64. *)

Definition u8 (z : Z) : Z := z mod 2 ^ 8.
Definition u16 (z : Z) : Z := z mod 2 ^ 16.
Definition u32 (z : Z) : Z := z mod 2 ^ 32.
Definition u64 (z : Z) : Z := z mod 2 ^ 64.

Definition is_u8 (z : Z) : Prop := 0 <= z < 2 ^ 8.
Definition is_u16 (z : Z) : Prop := 0 <= z < 2 ^ 16.
Definition is_u32 (z : Z) : Prop := 0 <= z < 2 ^ 32.
Definition is_u64 (z : Z) : Prop := 0 <= z < 2 ^ 64.

Definition INT_MIN : Z := - 2 ^ 31.
Definition INT_MAX : Z := 2 ^ 31 - 1.

Definition is_int (z : Z) : Prop := INT_MIN <= z <= INT_MAX.

#[global] Instance is_u8_dec z : Decision (is_u8 z) := _.
#[global] Instance is_u16_dec z : Decision (is_u16 z) := _.
#[global] Instance is_u32_dec z : Decision (is_u32 z) := _.
#[global] Instance is_u64_dec z : Decision (is_u64 z) := _.
#[global] Instance is_int_dec z : Decision (is_int z) := _.

(** Signed addition on [int]: overflow is undefined behaviour, [None]. *)
Definition int_add (a b : Z) : option Z :=
  if (INT_MIN <=? a + b) && (a + b <=? INT_MAX) then Some (a + b) else None.

(** Signed multiplication on [int], likewise. *)
Definition int_mul (a b : Z) : option Z :=
  if (INT_MIN <=? a * b) && (a * b <=? INT_MAX) then Some (a * b) else None.

(** Left shift on [int]: undefined for a negative operand or on overflow. *)
Definition int_shl (a n : Z) : option Z :=
  if (0 <=? a) && (Z.shiftl a n <=? INT_MAX) then Some (Z.shiftl a n) else None.

(** The truth value of a C condition as an [int]. *)
Definition c_bool (b : bool) : Z := if b then 1 else 0.

(** [Z.land] with a mask, as the test of a C condition. *)
Definition has_flag (v mask : Z) : bool := negb (Z.land v mask =? 0).

Create HintDb owl.

(** Comparisons and bit operations on [Z] are for [lia] and the lemmas, not
    for [simpl]. *)
#[global] Arguments Z.eqb : simpl never.
#[global] Arguments Z.leb : simpl never.
#[global] Arguments Z.ltb : simpl never.
#[global] Arguments Z.gtb : simpl never.
#[global] Arguments Z.geb : simpl never.
#[global] Arguments Z.land : simpl never.
#[global] Arguments Z.lor : simpl never.
#[global] Arguments Z.lxor : simpl never.
#[global] Arguments Z.shiftl : simpl never.
#[global] Arguments Z.shiftr : simpl never.
#[global] Arguments Z.pow : simpl never.

(** *** Tactics of the library *)

(** Splits every [if] and boolean [match] of the goal, keeping equations. *)
Ltac split_ifs :=
  repeat match goal with
  | |- context [if ?b then _ else _] =>
      lazymatch b with
      | context [if _ then _ else _] => fail
      | _ => let E := fresh "E" in destruct b eqn:E
      end
  end.

(** Takes the branch of the first [if] whose condition [lia] decides. *)
Ltac if_true :=
  match goal with
  | |- context [if ?b then _ else _] =>
      let H := fresh in assert (b = true) as H by (cbn [length]; lia);
      rewrite H; clear H; cbv beta iota
  end.

Ltac if_false :=
  match goal with
  | |- context [if ?b then _ else _] =>
      let H := fresh in assert (b = false) as H by (cbn [length]; lia);
      rewrite H; clear H; cbv beta iota
  end.

(** Unfolds the machine-integer predicates and calls [lia]. *)
Ltac int_lia :=
  unfold is_u8, is_u16, is_u32, is_u64, is_int, INT_MIN, INT_MAX in *;
  change (2 ^ 8) with 256 in *; change (2 ^ 16) with 65536 in *;
  change (2 ^ 32) with 4294967296 in *;
  change (2 ^ 31) with 2147483648 in *;
  change (2 ^ 64) with 18446744073709551616 in *;
  lia.

(** Destructs the hypotheses that say what an [option] computation returned. *)
Ltac simpl_opt :=
  repeat (simplify_option_eq || match goal with
  | H : Some _ = Some _ |- _ => injection H as H
  | H : (_, _) = (_, _) |- _ => injection H as H
  end).

Lemma u8_range z : is_u8 (u8 z).
Proof. unfold is_u8, u8. apply Z.mod_pos_bound. lia. Qed.
Lemma u16_range z : is_u16 (u16 z).
Proof. unfold is_u16, u16. apply Z.mod_pos_bound. lia. Qed.
Lemma u32_range z : is_u32 (u32 z).
Proof. unfold is_u32, u32. apply Z.mod_pos_bound. lia. Qed.
Lemma u64_range z : is_u64 (u64 z).
Proof. unfold is_u64, u64. apply Z.mod_pos_bound. lia. Qed.

Lemma u8_id z : is_u8 z → u8 z = z.
Proof. apply Z.mod_small. Qed.
Lemma u16_id z : is_u16 z → u16 z = z.
Proof. apply Z.mod_small. Qed.
Lemma u32_id z : is_u32 z → u32 z = z.
Proof. apply Z.mod_small. Qed.
Lemma u64_id z : is_u64 z → u64 z = z.
Proof. apply Z.mod_small. Qed.

#[export] Hint Resolve u8_range u16_range u32_range u64_range : owl.

Lemma int_add_Some a b : is_int (a + b) → int_add a b = Some (a + b).
Proof. unfold int_add. intros. split_ifs; [done|int_lia]. Qed.

(** A property of the bytes below [n] checked by computation. *)
Lemma forall_below (n : nat) (P : Z → bool) :
  forallb (λ i, P (Z.of_nat i)) (seq 0 n) = true → ∀ z, 0 <= z < Z.of_nat n → P z = true.
Proof.
  intros Hf z Hz. rewrite <- (Z2Nat.id z) by lia.
  apply (proj1 (forallb_forall _ _) Hf). apply in_seq. lia.
Qed.

(** ** Bytes and byte orders *)

Fixpoint le_bytes (n : nat) (z : Z) : list Z :=
  match n with
  | O => []
  | S n => z mod 256 :: le_bytes n (z / 256)
  end.

Fixpoint le_val (bs : list Z) : Z :=
  match bs with
  | [] => 0
  | b :: bs => b + 256 * le_val bs
  end.

Definition be_bytes (n : nat) (z : Z) : list Z := reverse (le_bytes n z).
Definition be_val (bs : list Z) : Z := le_val (reverse bs).

Abbreviation bytes_ok := (Forall is_u8).

(** A property of every member of an explicit list. *)
Ltac solve_list :=
  repeat (apply Forall_cons_2; [done || int_lia || auto with owl|]); apply Forall_nil_2.

Lemma length_le_bytes n z : length (le_bytes n z) = n.
Proof. revert z. induction n; simpl; auto. Qed.

Lemma length_be_bytes n z : length (be_bytes n z) = n.
Proof. unfold be_bytes. by rewrite length_reverse, length_le_bytes. Qed.

Lemma le_bytes_ok n z : bytes_ok (le_bytes n z).
Proof.
  revert z. induction n as [|n IH]; intros z; simpl; constructor; auto.
  apply u8_range.
Qed.

Lemma be_bytes_ok n z : bytes_ok (be_bytes n z).
Proof. unfold be_bytes. apply Forall_reverse, le_bytes_ok. Qed.

Lemma le_val_bytes n z : le_val (le_bytes n z) = z mod 256 ^ Z.of_nat n.
Proof.
  revert z. induction n as [|n IH]; intros z; simpl; [by rewrite Z.mod_1_r|].
  rewrite IH, Nat2Z.inj_succ, Z.pow_succ_r by lia.
  rewrite Z.rem_mul_r by lia. lia.
Qed.

Lemma be_val_bytes n z : be_val (be_bytes n z) = z mod 256 ^ Z.of_nat n.
Proof. unfold be_val, be_bytes. by rewrite reverse_involutive, le_val_bytes. Qed.

Lemma le_val_bound bs : bytes_ok bs → 0 <= le_val bs < 256 ^ Z.of_nat (length bs).
Proof.
  induction 1 as [|b bs Hb Hbs IH]; [simpl; lia|]. cbn [le_val length].
  rewrite Nat2Z.inj_succ, Z.pow_succ_r by lia. int_lia.
Qed.

Lemma be_val_bound bs : bytes_ok bs → 0 <= be_val bs < 256 ^ Z.of_nat (length bs).
Proof.
  intros H. unfold be_val. rewrite <- (length_reverse bs).
  by apply le_val_bound, Forall_reverse.
Qed.

Lemma le_bytes_val bs : bytes_ok bs → le_bytes (length bs) (le_val bs) = bs.
Proof.
  induction 1 as [|b bs Hb Hbs IH]; simpl; [done|].
  rewrite (Z.mul_comm 256), Z.mod_add, Z.div_add by lia.
  rewrite Z.mod_small, Z.div_small, Z.add_0_l by int_lia. by rewrite IH.
Qed.

(** [memcmp] of two blocks of one length: only the sign of the result is
    specified, the model returns -1, 0 or 1. *)
Fixpoint memcmp (a b : list Z) : Z :=
  match a, b with
  | x :: a, y :: b => if x <? y then -1 else if x >? y then 1 else memcmp a b
  | _, _ => 0
  end.

Lemma memcmp_refl a : memcmp a a = 0.
Proof. induction a; simpl; [done|]. by if_false; if_false. Qed.

Lemma memcmp_eq a b : length a = length b → memcmp a b = 0 ↔ a = b.
Proof.
  revert b. induction a as [|x a IH]; intros [|y b]; simpl; try done. intros [= Hl].
  split_ifs; split; try lia; try (intros [=]; lia).
  - intros H. f_equal; [lia|]. by apply IH.
  - intros [= _ ->]. by apply IH.
Qed.

Lemma memcmp_range a b : -1 <= memcmp a b <= 1.
Proof.
  revert b. induction a as [|x a IH]; intros [|y b]; simpl; try lia. split_ifs; [lia|lia|apply IH].
Qed.

Lemma memcmp_opp a b : memcmp b a = - memcmp a b.
Proof.
  revert b. induction a as [|x a IH]; intros [|y b]; simpl; try done.
  rewrite IH. split_ifs; lia.
Qed.

(** The order is transitive: one lemma for the strict and the weak one. *)
Lemma memcmp_trans a b c :
  length a = length b → length b = length c →
  0 <= memcmp a b → 0 <= memcmp b c →
  memcmp a c = Z.max (memcmp a b) (memcmp b c).
Proof.
  revert b c. induction a as [|x a IH]; intros [|y b] [|z c]; simpl; try done.
  intros [= H1] [= H2]. specialize (IH b c H1 H2). split_ifs; try lia.
  all: pose proof (memcmp_range a b); pose proof (memcmp_range b c); lia.
Qed.

(** ** Memory blocks

    A block of memory is the list of its bytes; an access outside the block
    is undefined behaviour, [None]. *)

Definition load (blk : list Z) (off n : Z) : option (list Z) :=
  if (0 <=? off) && (0 <=? n) && (off + n <=? Z.of_nat (length blk))
  then Some (take (Z.to_nat n) (drop (Z.to_nat off) blk)) else None.

Definition store (blk : list Z) (off : Z) (bs : list Z) : option (list Z) :=
  if (0 <=? off) && (off + Z.of_nat (length bs) <=? Z.of_nat (length blk))
  then Some (take (Z.to_nat off) blk ++ bs ++ drop (Z.to_nat off + length bs) blk)
  else None.

Lemma load_Some blk off n :
  0 <= off → 0 <= n → off + n <= Z.of_nat (length blk) →
  load blk off n = Some (take (Z.to_nat n) (drop (Z.to_nat off) blk)).
Proof. unfold load. intros. split_ifs; [done|lia]. Qed.

Lemma load_length blk off n bs :
  load blk off n = Some bs → Z.of_nat (length bs) = n.
Proof.
  unfold load. split_ifs; [|done]. intros [= <-].
  rewrite length_take, length_drop. lia.
Qed.

Lemma load_ok blk off n bs : bytes_ok blk → load blk off n = Some bs → bytes_ok bs.
Proof.
  unfold load. split_ifs; [|done]. intros ? [= <-].
  by apply Forall_take, Forall_drop.
Qed.

Lemma store_Some blk off bs :
  0 <= off → off + Z.of_nat (length bs) <= Z.of_nat (length blk) →
  store blk off bs =
    Some (take (Z.to_nat off) blk ++ bs ++ drop (Z.to_nat off + length bs) blk).
Proof. unfold store. intros. split_ifs; [done|lia]. Qed.

Lemma store_length blk off bs blk' :
  store blk off bs = Some blk' → length blk' = length blk.
Proof.
  unfold store. split_ifs; [|done]. intros [= <-].
  rewrite !length_app, length_take, length_drop. lia.
Qed.

Lemma store_ok blk off bs blk' :
  bytes_ok blk → bytes_ok bs → store blk off bs = Some blk' → bytes_ok blk'.
Proof.
  unfold store. split_ifs; [|done]. intros ?? [= <-].
  rewrite !Forall_app. auto using Forall_take, Forall_drop.
Qed.

(** What was stored is what is loaded back. *)
Lemma load_store_eq blk off bs blk' :
  store blk off bs = Some blk' →
  load blk' off (Z.of_nat (length bs)) = Some bs.
Proof.
  intros Hs. pose proof (store_length _ _ _ _ Hs) as Hl. revert Hs.
  unfold store. split_ifs; [|done]. intros [= <-].
  rewrite load_Some by lia. rewrite drop_app_length' by (rewrite length_take; lia).
  by rewrite Nat2Z.id, take_app_length.
Qed.

(** A store inside the middle part of a block only changes that part. *)
Lemma store_middle pre r post k bs :
  0 <= k → k + Z.of_nat (length bs) <= Z.of_nat (length r) →
  store (pre ++ r ++ post) (Z.of_nat (length pre) + k) bs =
    (λ r', pre ++ r' ++ post) <$> store r k bs.
Proof.
  intros. rewrite !store_Some by (rewrite ?length_app; lia). simpl.
  rewrite Z2Nat.inj_add, Nat2Z.id, take_app_add by lia.
  rewrite <- Nat.add_assoc, drop_app_add by done.
  rewrite take_app_le, drop_app_le by lia. by rewrite <- !app_assoc.
Qed.

(** ** Lists *)

Lemma filter_ext_in {A} (P Q : A → Prop) `{∀ x, Decision (P x)} `{∀ x, Decision (Q x)}
    (l : list A) :
  (∀ x, x ∈ l → P x ↔ Q x) → filter P l = filter Q l.
Proof.
  induction l as [|x l IH]; intros HPQ; [done|].
  rewrite !filter_cons, IH by (intros; apply HPQ; by right).
  destruct (HPQ x) as [? ?]; [left|]. repeat case_decide; done || exfalso; auto.
Qed.

Lemma omap_ext_in {A B} (f g : A → option B) (l : list A) :
  (∀ x, x ∈ l → f x = g x) → omap f l = omap g l.
Proof.
  induction l as [|x l IH]; intros Hfg; simpl; [done|].
  rewrite (Hfg x) by left. case_match; [f_equal|]; apply IH; intros; apply Hfg; by right.
Qed.

(** ** Outcomes

    The result of a computation that may run out of fuel or be undefined. *)

Inductive outcome (A : Type) : Type :=
  | Done (a : A)
  | OutOfFuel
  | Undef.
Arguments Done {A} a.
Arguments OutOfFuel {A}.
Arguments Undef {A}.

#[global] Instance outcome_ret : MRet outcome := λ A a, Done a.
#[global] Instance outcome_bind : MBind outcome := λ A B f o,
  match o with Done a => f a | OutOfFuel => OutOfFuel | Undef => Undef end.

Definition of_option {A} (o : option A) : outcome A :=
  match o with Some a => Done a | None => Undef end.

(** ** The handler monad

    The functions of the program thread a state and leave early, by [return]
    or by [goto wire_error].  A computation of type [M S A] is undefined
    ([None]), returns early with a code ([inl]) or goes on with a value
    ([inr]); in the last two cases the state it reached is kept, so that a
    handler that fails half way keeps what it had already written. *)

Definition M (S A : Type) : Type := S → option (S * (Z + A)).

#[global] Instance M_ret S : MRet (M S) := λ A a s, Some (s, inr a).
#[global] Instance M_bind S : MBind (M S) := λ A B f m s,
  match m s with
  | None => None
  | Some (s', inl r) => Some (s', inl r)
  | Some (s', inr a) => f a s'
  end.

Definition get_st {S} : M S S := λ s, Some (s, inr s).
Definition modify {S} (f : S → S) : M S unit := λ s, Some (f s, inr tt).
Definition lift {S A} (o : option A) : M S A := λ s,
  match o with None => None | Some a => Some (s, inr a) end.
Definition return_with {S A} (r : Z) : M S A := λ s, Some (s, inl r).
Definition guard_ret {S} (b : bool) (r : Z) : M S unit :=
  if b then return_with r else mret tt.

(** The call of a whole function: its [return] value is the result. *)
Definition run {S} (m : M S Z) (s : S) : option (S * Z) :=
  match m s with
  | None => None
  | Some (s', inl r) => Some (s', r)
  | Some (s', inr r) => Some (s', r)
  end.

Lemma bind_ret_l {S A B} (a : A) (f : A → M S B) s : (mret a ≫= f) s = f a s.
Proof. done. Qed.

(** *** Safety

    [safe I m Q]: from a state in [I] the computation is defined and ends in
    a state in [I]; if it goes on, with a value in [Q]. *)

Definition safe {S A} (I : S → Prop) (m : M S A) (Q : A → Prop) : Prop :=
  ∀ s, I s → ∃ s' r, m s = Some (s', r) ∧ I s' ∧
    match r with inl _ => True | inr a => Q a end.

Section safe.
Context {S : Type} (I : S → Prop).

Lemma safe_ret {A} (a : A) (Q : A → Prop) : Q a → safe I (mret a) Q.
Proof. intros Ha s Hs. by exists s, (inr a). Qed.

Lemma safe_bind {A B} (m : M S A) (f : A → M S B) Q R :
  safe I m Q → (∀ a, Q a → safe I (f a) R) → safe I (m ≫= f) R.
Proof.
  intros Hm Hf s Hs. destruct (Hm s Hs) as (s' & r & Hr & Hs' & HQ).
  unfold mbind, M_bind. rewrite Hr. destruct r as [r|a]; [by exists s', (inl r)|]. by apply Hf.
Qed.

Lemma safe_get (Q : S → Prop) : (∀ s, I s → Q s) → safe I get_st Q.
Proof. intros HQ s Hs. exists s, (inr s). auto. Qed.

Lemma safe_modify (f : S → S) (Q : unit → Prop) :
  (∀ s, I s → I (f s)) → Q tt → safe I (modify f) Q.
Proof. intros Hf HQ s Hs. exists (f s), (inr tt). auto. Qed.

Lemma safe_lift {A} (o : option A) (Q : A → Prop) : (∃ a, o = Some a ∧ Q a) → safe I (lift o) Q.
Proof. intros (a & -> & Ha) s Hs. by exists s, (inr a). Qed.

Lemma safe_guard (b : bool) r : safe I (guard_ret b r) (λ _, b = false).
Proof. intros s Hs. destruct b; [by exists s, (inl r)|by exists s, (inr tt)]. Qed.

Lemma safe_weaken {A} (m : M S A) (Q R : A → Prop) :
  safe I m Q → (∀ a, Q a → R a) → safe I m R.
Proof.
  intros Hm HQR s Hs. destruct (Hm s Hs) as (s' & [r|a] & ? & ? & ?); eauto 10.
Qed.

Lemma safe_run (m : M S Z) Q s : safe I m Q → I s → ∃ s' r, run m s = Some (s', r) ∧ I s'.
Proof.
  intros Hm Hs. destruct (Hm s Hs) as (s' & r & Hr & Hs' & _). unfold run. rewrite Hr.
  destruct r; eauto.
Qed.
End safe.
