(* ===== verification/Wire.v ===== *)
(** * Wire: checked access to frame buffers (src/wire.c, src/wire.h)

    A [buf] is a window ([data], [len]) on a block of bytes.  The model keeps
    the whole block and the offsets of [orig] and [data] in it, so that an
    access the bounds check should have refused is undefined behaviour
    ([None]) and not a default value.  [contents] is the abstract view, the
    list of bytes of the window; the theorems say that every primitive is its
    list counterpart on that view. *)

From Stdlib Require Import ZArith Lia ZifyBool.
From stdpp Require Import base tactics numbers list.
From S2P Require Import Prelude.

Local Open Scope Z_scope.

(** ** Data *)

Record buf := mk_buf {
  b_mem : list Z;   (* the block [orig] and [data] point into *)
  b_orig : Z;       (* offset of [orig] in it *)
  b_data : Z;       (* offset of [data] in it *)
  b_len : Z;
  b_owned : bool }.

(** A [const uint8_t *] is a block and an offset. *)
Abbreviation byteptr := (list Z * Z)%type.

(** [enum wire_error] *)
Definition OUT_OF_BOUNDS : Z := -1.
Definition ETHER_ADDR_LEN : Z := 6.

(** What a [read_*] function delivers: its [int] result and the value stored
    through the output pointer.  The value is [None] when the function wrote
    none, or when the access itself is outside the block. *)
Abbreviation rd A := (option (Z * option A)).

(** ** Construction and windows *)

(** [block] is the memory [malloc] returned. *)
Definition buf_new_owned (len : Z) (block : list Z) : option buf :=
  if len <? 0 then None else Some (mk_buf block 0 0 len true).

Definition buf_new_const (data : byteptr) (len : Z) : option buf :=
  if len <? 0 then None else Some (mk_buf data.1 data.2 data.2 len false).

(** The pointer to the bytes that [buf_free] hands to [free], if any. *)
Definition buf_free (b : buf) : option byteptr :=
  if b_owned b then Some (b_mem b, b_orig b) else None.

Definition buf_data (b : buf) : byteptr := (b_mem b, b_data b).

Definition buf_len (b : buf) : Z := b_len b.

Definition buf_strip (b : buf) (len : Z) : buf * Z :=
  if (len >? b_len b) || (len <? 0) then (b, OUT_OF_BOUNDS)
  else (mk_buf (b_mem b) (b_orig b) (b_data b + len) (b_len b - len) (b_owned b), len).

Definition buf_take (b : buf) (len : Z) : buf * Z :=
  if (len >? b_len b) || (len <? 0) then (b, OUT_OF_BOUNDS)
  else (mk_buf (b_mem b) (b_orig b) (b_data b) (b_len b - len) (b_owned b), len).

(** The test [offset < 0 || offset + n > buf->len] all accesses start with. *)
Definition out_of_bounds (b : buf) (offset n : Z) : option bool :=
  if offset <? 0 then Some true else
  e ← int_add offset n; Some (e >? b_len b).

(** ** Writing *)

Definition set_mem (b : buf) (m : list Z) : buf :=
  mk_buf m (b_orig b) (b_data b) (b_len b) (b_owned b).

Definition write_u8 (b : buf) (offset value : Z) : option (buf * Z) :=
  o ← out_of_bounds b offset 1;
  if o : bool then Some (b, OUT_OF_BOUNDS) else
  m ← store (b_mem b) (b_data b + offset) [u8 value];
  Some (set_mem b m, 1).

Definition write_le16 (b : buf) (offset value : Z) : option (buf * Z) :=
  o ← out_of_bounds b offset 2;
  if o : bool then Some (b, OUT_OF_BOUNDS) else
  m ← store (b_mem b) (b_data b + offset) (le_bytes 2 value);
  Some (set_mem b m, 2).

Definition write_be16 (b : buf) (offset value : Z) : option (buf * Z) :=
  o ← out_of_bounds b offset 2;
  if o : bool then Some (b, OUT_OF_BOUNDS) else
  m ← store (b_mem b) (b_data b + offset) (be_bytes 2 value);
  Some (set_mem b m, 2).

Definition write_le32 (b : buf) (offset value : Z) : option (buf * Z) :=
  o ← out_of_bounds b offset 4;
  if o : bool then Some (b, OUT_OF_BOUNDS) else
  m ← store (b_mem b) (b_data b + offset) (le_bytes 4 value);
  Some (set_mem b m, 4).

Definition write_be32 (b : buf) (offset value : Z) : option (buf * Z) :=
  o ← out_of_bounds b offset 4;
  if o : bool then Some (b, OUT_OF_BOUNDS) else
  m ← store (b_mem b) (b_data b + offset) (be_bytes 4 value);
  Some (set_mem b m, 4).

(** [addr] is the list of the six octets. *)
Definition write_ether_addr (b : buf) (offset : Z) (addr : list Z) : option (buf * Z) :=
  o ← out_of_bounds b offset ETHER_ADDR_LEN;
  if o : bool then Some (b, OUT_OF_BOUNDS) else
  m ← store (b_mem b) (b_data b + offset) addr;
  Some (set_mem b m, ETHER_ADDR_LEN).

(** [memcpy] converts a negative [length] to a huge [size_t]; loading from
    [bytes] is then outside its block. *)
Definition write_bytes (b : buf) (offset : Z) (bytes : byteptr) (length : Z) :
    option (buf * Z) :=
  o ← out_of_bounds b offset length;
  if o : bool then Some (b, OUT_OF_BOUNDS) else
  src ← load bytes.1 bytes.2 length;
  m ← store (b_mem b) (b_data b + offset) src;
  Some (set_mem b m, length).

(** ** Reading *)

Definition read_u8 (b : buf) (offset : Z) : rd Z :=
  o ← out_of_bounds b offset 1;
  if o : bool then Some (OUT_OF_BOUNDS, None) else
  Some (1, le_val <$> load (b_mem b) (b_data b + offset) 1).

Definition read_le16 (b : buf) (offset : Z) : rd Z :=
  o ← out_of_bounds b offset 2;
  if o : bool then Some (OUT_OF_BOUNDS, None) else
  Some (2, le_val <$> load (b_mem b) (b_data b + offset) 2).

Definition read_be16 (b : buf) (offset : Z) : rd Z :=
  o ← out_of_bounds b offset 2;
  if o : bool then Some (OUT_OF_BOUNDS, None) else
  Some (2, be_val <$> load (b_mem b) (b_data b + offset) 2).

Definition read_le32 (b : buf) (offset : Z) : rd Z :=
  o ← out_of_bounds b offset 4;
  if o : bool then Some (OUT_OF_BOUNDS, None) else
  Some (4, le_val <$> load (b_mem b) (b_data b + offset) 4).

Definition read_be32 (b : buf) (offset : Z) : rd Z :=
  o ← out_of_bounds b offset 4;
  if o : bool then Some (OUT_OF_BOUNDS, None) else
  Some (4, be_val <$> load (b_mem b) (b_data b + offset) 4).

Definition read_ether_addr (b : buf) (offset : Z) : rd (list Z) :=
  o ← out_of_bounds b offset ETHER_ADDR_LEN;
  if o : bool then Some (OUT_OF_BOUNDS, None) else
  Some (ETHER_ADDR_LEN, load (b_mem b) (b_data b + offset) ETHER_ADDR_LEN).

Definition read_bytes (b : buf) (offset length : Z) : rd byteptr :=
  o ← out_of_bounds b offset length;
  if o : bool then Some (OUT_OF_BOUNDS, None) else
  Some (length, Some (b_mem b, b_data b + offset)).

Definition read_bytes_copy (b : buf) (offset length : Z) : rd (list Z) :=
  o ← out_of_bounds b offset length;
  if o : bool then Some (OUT_OF_BOUNDS, None) else
  Some (length, load (b_mem b) (b_data b + offset) length).

(** [CHECKED_READ]: a negative result jumps to [wire_error]. *)
Definition checked {S A} (err : Z) (r : rd A) : M S A := λ s,
  match r with
  | None => None
  | Some (rc, v) =>
      if rc <? 0 then Some (s, inl err) else
      match v with None => None | Some a => Some (s, inr a) end
  end.

(** [CHECKED_READ] with a [NULL] output pointer. *)
Definition checked_null {S A} (err : Z) (r : rd A) : M S unit := λ s,
  match r with
  | None => None
  | Some (rc, _) => if rc <? 0 then Some (s, inl err) else Some (s, inr tt)
  end.

(** [BUF_STRIP] and [BUF_TAKE], on a computation whose state is the buffer. *)
Definition strip_checked (err len : Z) : M buf unit := λ b,
  let '(b', rc) := buf_strip b len in
  if rc <? 0 then Some (b', inl err) else Some (b', inr tt).

Definition take_checked (err len : Z) : M buf unit := λ b,
  let '(b', rc) := buf_take b len in
  if rc <? 0 then Some (b', inl err) else Some (b', inr tt).

(** A [read_*] function written with the [READ_*] macros. *)
Definition reader {A} (m : M unit (Z * A)) : rd A :=
  match m tt with
  | None => None
  | Some (_, inl r) => Some (r, None)
  | Some (_, inr (rc, a)) => Some (rc, Some a)
  end.

(** The value of [read_int_string] is what it stores from [str] on: the
    characters and the trailing zero. *)
Definition read_int_string (b : buf) (offset length : Z) : rd (list Z) := reader (
  len ← checked OUT_OF_BOUNDS (read_u8 b offset);
  let len := if len >? length then u8 length else len in
  o1 ← lift (int_add offset 1);
  str ← checked OUT_OF_BOUNDS (read_bytes_copy b o1 len);
  mret (len + 1, str ++ [0])).

(** The three output values of [read_tlv] are the type, the length and the
    pointer to the value. *)
Definition read_tlv (b : buf) (offset : Z) : rd (Z * Z * byteptr) := reader (
  type ← checked OUT_OF_BOUNDS (read_u8 b offset);
  o1 ← lift (int_add offset 1);
  len ← checked OUT_OF_BOUNDS (read_le16 b o1);
  o3 ← lift (int_add offset 3);
  val ← checked OUT_OF_BOUNDS (read_bytes b o3 len);
  mret (len + 3, (type, len, val))).

(** ** The abstract view *)

(** The bytes of the window. *)
Definition contents (b : buf) : list Z :=
  take (Z.to_nat (b_len b)) (drop (Z.to_nat (b_data b)) (b_mem b)).

(** A well-formed buffer is a window inside its block. *)
Record buf_wf (b : buf) : Prop := {
  wf_data : 0 <= b_data b;
  wf_len : 0 <= b_len b <= INT_MAX;
  wf_in : b_data b + b_len b <= Z.of_nat (length (b_mem b));
  wf_bytes : bytes_ok (b_mem b) }.

(** Reading and writing on the list of bytes. *)
Definition spec_read {A} (dec : list Z → A) (n : Z) (l : list Z) (o : Z) : Z * option A :=
  if (0 <=? o) && (o + n <=? Z.of_nat (length l))
  then (n, Some (dec (take (Z.to_nat n) (drop (Z.to_nat o) l))))
  else (OUT_OF_BOUNDS, None).

Definition spec_write (bs l : list Z) (o : Z) : list Z * Z :=
  if (0 <=? o) && (o + Z.of_nat (length bs) <=? Z.of_nat (length l))
  then (take (Z.to_nat o) l ++ bs ++ drop (Z.to_nat o + length bs) l, Z.of_nat (length bs))
  else (l, OUT_OF_BOUNDS).

(** A type-length-value element and its parser on lists. *)
Definition tlv_bytes (type : Z) (val : list Z) : list Z :=
  type :: le_bytes 2 (Z.of_nat (length val)) ++ val.

Definition parse_tlv (l : list Z) : option (Z * list Z * list Z) :=
  match l with
  | t :: b0 :: b1 :: r =>
      let n := Z.to_nat (le_val [b0; b1]) in
      if (n <=? length r)%nat then Some (t, take n r, drop n r) else None
  | _ => None
  end.

(** ** Lemmas *)

Lemma contents_length b : buf_wf b → Z.of_nat (length (contents b)) = b_len b.
Proof.
  intros []. unfold contents. rewrite length_take, length_drop. lia.
Qed.

Lemma contents_ok b : buf_wf b → bytes_ok (contents b).
Proof. intros []. by apply Forall_take, Forall_drop. Qed.

#[export] Hint Resolve contents_ok : owl.

Lemma out_of_bounds_spec b o n :
  buf_wf b → o + n <= INT_MAX → 0 <= n →
  out_of_bounds b o n = Some (negb ((0 <=? o) && (o + n <=? Z.of_nat (length (contents b))))).
Proof.
  intros W ??. pose proof (contents_length b W) as ->. unfold out_of_bounds.
  destruct (o <? 0) eqn:Eo; [f_equal; lia|].
  rewrite int_add_Some by int_lia. simpl. f_equal. lia.
Qed.

Lemma load_contents b o n :
  buf_wf b → 0 <= o → 0 <= n → o + n <= Z.of_nat (length (contents b)) →
  load (b_mem b) (b_data b + o) n =
    Some (take (Z.to_nat n) (drop (Z.to_nat o) (contents b))).
Proof.
  intros W ? ? H. rewrite contents_length in H by done. destruct W.
  rewrite load_Some by lia. unfold contents. f_equal.
  rewrite List.skipn_firstn_comm, drop_drop, take_take.
  f_equal; [lia|f_equal; lia].
Qed.

(** The shape all reading primitives share. *)
Lemma read_gen {A} (dec : list Z → A) b o n :
  buf_wf b → o + n <= INT_MAX → 0 <= n →
  (x ← out_of_bounds b o n;
   if x : bool then Some (OUT_OF_BOUNDS, None) else
   Some (n, dec <$> load (b_mem b) (b_data b + o) n)) =
  Some (spec_read dec n (contents b) o).
Proof.
  intros W ??. rewrite out_of_bounds_spec by done. unfold spec_read. simpl.
  destruct ((0 <=? o) && _) eqn:E; simpl; [|done].
  by rewrite load_contents by (done || lia).
Qed.

Lemma buf_strip_spec b n :
  buf_wf b → 0 <= n <= Z.of_nat (length (contents b)) →
  ∃ b', buf_strip b n = (b', n) ∧ buf_wf b' ∧
        contents b' = drop (Z.to_nat n) (contents b) ∧ b_mem b' = b_mem b.
Proof.
  intros W H. pose proof (contents_length b W) as L. destruct W.
  unfold buf_strip. destruct ((n >? b_len b) || (n <? 0)) eqn:E; [lia|].
  eexists; split; [done|]. split; [constructor; simpl; lia || done|].
  split; [|done]. unfold contents; simpl.
  rewrite List.skipn_firstn_comm, drop_drop. f_equal; [lia|f_equal; lia].
Qed.

Lemma buf_take_spec b n :
  buf_wf b → 0 <= n <= Z.of_nat (length (contents b)) →
  ∃ b', buf_take b n = (b', n) ∧ buf_wf b' ∧
        contents b' = take (length (contents b) - Z.to_nat n) (contents b).
Proof.
  intros W H. pose proof (contents_length b W) as L. destruct W.
  unfold buf_take. destruct ((n >? b_len b) || (n <? 0)) eqn:E; [lia|].
  eexists; split; [done|]. split; [constructor; simpl; lia || done|].
  unfold contents in *; simpl. rewrite take_take. f_equal. lia.
Qed.

(** The shape all writing primitives share. *)
Definition write_raw (b : buf) (offset n : Z) (bs : list Z) : option (buf * Z) :=
  o ← out_of_bounds b offset n;
  if o : bool then Some (b, OUT_OF_BOUNDS) else
  m ← store (b_mem b) (b_data b + offset) bs;
  Some (set_mem b m, n).

(** What a write does to a buffer: the window becomes [l], the bytes of the
    block outside the window stay. *)
Definition written (b : buf) (l : list Z) (b' : buf) : Prop :=
  contents b' = l ∧ buf_wf b' ∧ b_data b' = b_data b ∧ b_len b' = b_len b ∧
  take (Z.to_nat (b_data b)) (b_mem b') = take (Z.to_nat (b_data b)) (b_mem b) ∧
  drop (Z.to_nat (b_data b + b_len b)) (b_mem b') =
    drop (Z.to_nat (b_data b + b_len b)) (b_mem b).

Lemma split_block b :
  buf_wf b →
  ∃ pre post, b_mem b = pre ++ contents b ++ post ∧
              Z.of_nat (length pre) = b_data b.
Proof.
  intros []. exists (take (Z.to_nat (b_data b)) (b_mem b)).
  exists (drop (Z.to_nat (b_len b)) (drop (Z.to_nat (b_data b)) (b_mem b))).
  unfold contents. rewrite !take_drop, length_take. split; [done|lia].
Qed.

Lemma write_raw_spec b o n bs :
  buf_wf b → o + n <= INT_MAX → Z.of_nat (length bs) = n → bytes_ok bs →
  ∃ b', write_raw b o n bs = Some (b', (spec_write bs (contents b) o).2) ∧
        written b (spec_write bs (contents b) o).1 b'.
Proof.
  intros W ? Hn Hb. unfold write_raw. rewrite out_of_bounds_spec by (done || lia).
  unfold spec_write. rewrite Hn. simpl. pose proof (contents_length b W) as L.
  destruct ((0 <=? o) && _) eqn:E; simpl; [|by exists b].
  destruct (split_block b W) as (pre & post & Hm & Hd).
  rewrite Hm, <- Hd, store_middle by lia. rewrite store_Some by lia. simpl.
  set (l' := take _ _ ++ bs ++ _). assert (length l' = length (contents b)) as Hl'.
  { unfold l'. rewrite !length_app, length_take, length_drop. lia. }
  eexists; split; [done|]. unfold written, set_mem. simpl. rewrite Hm.
  assert (Z.to_nat (b_data b) = length pre) as Hp by lia.
  assert (Z.to_nat (b_data b + b_len b) = (length pre + length (contents b))%nat) as Hq by lia.
  rewrite Hp, Hq, !take_app_length, !drop_app_add, drop_app_length.
  rewrite <- Hl', drop_app_length. unfold contents at 1. simpl.
  rewrite Hp, drop_app_length, take_app_length' by lia.
  split_and!; try done. pose proof (contents_ok b W). destruct W as [?? Hin Hok].
  rewrite Hm in Hin, Hok. rewrite !length_app in Hin. rewrite !Forall_app in Hok.
  constructor; simpl; rewrite ?length_app, ?Forall_app; try lia.
  unfold l'. rewrite !Forall_app.
  destruct Hok as (?&?&?). auto 6 using Forall_take, Forall_drop.
Qed.

Lemma spec_write_read {A} (dec : list Z → A) bs l o :
  (spec_write bs l o).2 <> OUT_OF_BOUNDS →
  spec_read dec (Z.of_nat (length bs)) (spec_write bs l o).1 o =
    (Z.of_nat (length bs), Some (dec bs)).
Proof.
  unfold spec_write. destruct ((0 <=? o) && _) eqn:E; [intros _; simpl|done].
  unfold spec_read. rewrite !length_app, length_take, length_drop.
  rewrite drop_app_length' by (rewrite length_take; lia).
  rewrite Nat2Z.id, take_app_length. split_ifs; [done|lia].
Qed.

Lemma checked_spec {S A} err (dec : list Z → A) n l o (s : S) :
  0 <= n →
  checked err (Some (spec_read dec n l o)) s =
    if (0 <=? o) && (o + n <=? Z.of_nat (length l))
    then Some (s, inr (dec (take (Z.to_nat n) (drop (Z.to_nat o) l))))
    else Some (s, inl err).
Proof.
  intros. unfold checked, spec_read. destruct ((0 <=? o) && _) eqn:E; [|done].
  destruct (n <? 0) eqn:E'; [lia|done].
Qed.

Lemma read_u8_spec b o :
  buf_wf b → o + 1 <= INT_MAX → read_u8 b o = Some (spec_read le_val 1 (contents b) o).
Proof. intros. by apply read_gen. Qed.
Lemma read_le16_spec b o :
  buf_wf b → o + 2 <= INT_MAX → read_le16 b o = Some (spec_read le_val 2 (contents b) o).
Proof. intros. by apply read_gen. Qed.
Lemma read_be16_spec b o :
  buf_wf b → o + 2 <= INT_MAX → read_be16 b o = Some (spec_read be_val 2 (contents b) o).
Proof. intros. by apply read_gen. Qed.
Lemma read_le32_spec b o :
  buf_wf b → o + 4 <= INT_MAX → read_le32 b o = Some (spec_read le_val 4 (contents b) o).
Proof. intros. by apply read_gen. Qed.
Lemma read_be32_spec b o :
  buf_wf b → o + 4 <= INT_MAX → read_be32 b o = Some (spec_read be_val 4 (contents b) o).
Proof. intros. by apply read_gen. Qed.
Lemma read_bytes_copy_spec b o n :
  buf_wf b → o + n <= INT_MAX → 0 <= n →
  read_bytes_copy b o n = Some (spec_read id n (contents b) o).
Proof.
  intros. rewrite <- (read_gen id) by done. unfold read_bytes_copy.
  by rewrite option_fmap_id.
Qed.
Lemma read_ether_addr_spec b o :
  buf_wf b → o + 6 <= INT_MAX → read_ether_addr b o = Some (spec_read id 6 (contents b) o).
Proof. intros. by apply read_bytes_copy_spec. Qed.

Lemma read_bytes_spec b o n :
  buf_wf b → o + n <= INT_MAX → 0 <= n →
  read_bytes b o n =
    Some (if (0 <=? o) && (o + n <=? Z.of_nat (length (contents b)))
          then (n, Some (b_mem b, b_data b + o)) else (OUT_OF_BOUNDS, None)).
Proof.
  intros. unfold read_bytes. rewrite out_of_bounds_spec by done. simpl.
  by destruct ((0 <=? o) && _).
Qed.

(** A sub-window of a buffer, as [buf_new_const] makes it from a pointer
    [read_bytes] returned. *)
Lemma sub_buf b o n vb :
  buf_wf b → 0 <= o → 0 <= n → o + n <= Z.of_nat (length (contents b)) →
  buf_new_const (b_mem b, b_data b + o) n = Some vb →
  buf_wf vb ∧ contents vb = take (Z.to_nat n) (drop (Z.to_nat o) (contents b)).
Proof.
  intros W ???. pose proof (contents_length b W) as L.
  unfold buf_new_const. destruct (n <? 0) eqn:E; [lia|]. intros [= <-].
  pose proof (load_contents b o n W ltac:(done) ltac:(done) ltac:(done)) as Hl.
  destruct W. split; [constructor; simpl; lia || done|].
  rewrite load_Some in Hl by lia. by injection Hl as Hl.
Qed.

Definition write_ok (w : option (buf * Z)) (b : buf) (bs : list Z) (o : Z) : Prop :=
  ∃ b', w = Some (b', (spec_write bs (contents b) o).2) ∧
        written b (spec_write bs (contents b) o).1 b'.

(** ** Properties *)

(** A small buffer, a window of eight bytes in a block of ten. *)
Definition sample_buf : buf := mk_buf [0; 21; 2; 0; 52; 1; 9; 8; 7; 0] 0 1 8 false.

Lemma sample_buf_wf : buf_wf sample_buf.
Proof. constructor; simpl; try int_lia. repeat constructor; int_lia. Qed.

(** Where [offset + n] is not an [int]. *)
Lemma out_of_bounds_overflow b o n : 0 <= o → INT_MAX < o + n → out_of_bounds b o n = None.
Proof. intros. unfold out_of_bounds, int_add. if_false. by if_false. Qed.

(** A read, for every offset. *)
Lemma read_any {A} (dec : list Z → A) b o n : buf_wf b → 0 <= n <= INT_MAX →
  (o1 ← out_of_bounds b o n;
   if o1 : bool then Some (OUT_OF_BOUNDS, None) else
   Some (n, dec <$> load (b_mem b) (b_data b + o) n)) =
  if INT_MAX <? o + n then None else Some (spec_read dec n (contents b) o).
Proof.
  intros W Hn. destruct (INT_MAX <? o + n) eqn:E; [by rewrite out_of_bounds_overflow by lia|].
  apply read_gen; [done|lia..].
Qed.

Lemma write_any b o n bs : buf_wf b → 0 <= n <= INT_MAX → Z.of_nat (length bs) = n → bytes_ok bs →
  if INT_MAX <? o + n then write_raw b o n bs = None else write_ok (write_raw b o n bs) b bs o.
Proof.
  intros W Hn Hl Hb. destruct (INT_MAX <? o + n) eqn:E.
  - unfold write_raw. by rewrite out_of_bounds_overflow by lia.
  - apply write_raw_spec; [done|lia|done..].
Qed.

(** C27: every fixed-size [read_*] primitive, at any offset.  Where the end of
    the range, [offset + n], is not an [int], the test of the range itself
    overflows and the call is undefined; at every other offset the result is
    [OUT_OF_BOUNDS] exactly when the range is not inside the buffer, and
    otherwise the width and the value of those bytes in its byte order,
    without touching memory outside the window. *)
Theorem wire_reads_refine b o :
  buf_wf b →
  read_u8 b o = (if INT_MAX <? o + 1 then None else Some (spec_read le_val 1 (contents b) o)) ∧
  read_le16 b o = (if INT_MAX <? o + 2 then None else Some (spec_read le_val 2 (contents b) o)) ∧
  read_be16 b o = (if INT_MAX <? o + 2 then None else Some (spec_read be_val 2 (contents b) o)) ∧
  read_le32 b o = (if INT_MAX <? o + 4 then None else Some (spec_read le_val 4 (contents b) o)) ∧
  read_be32 b o = (if INT_MAX <? o + 4 then None else Some (spec_read be_val 4 (contents b) o)) ∧
  read_ether_addr b o = (if INT_MAX <? o + 6 then None else Some (spec_read id 6 (contents b) o)).
Proof.
  intros W. split_and!.
  1-5: apply read_any; [done|int_lia].
  rewrite <- (read_any id) by (done || int_lia). unfold read_ether_addr. by rewrite option_fmap_id.
Qed.

Lemma wire_reads_refine_witness :
  read_u8 sample_buf 7 = Some (1, Some 7) ∧ read_u8 sample_buf 8 = Some (-1, None) ∧
  read_le32 sample_buf (INT_MAX - 3) = None.
Proof.
  destruct (wire_reads_refine sample_buf 7 sample_buf_wf) as [-> _].
  destruct (wire_reads_refine sample_buf 8 sample_buf_wf) as [-> _].
  destruct (wire_reads_refine sample_buf (INT_MAX - 3) sample_buf_wf) as (_ & _ & _ & -> & _).
  split_and!; reflexivity.
Defined.

(** C28: every [write_*] primitive, at any offset.  Where the end of the
    range, [offset + n], is not an [int], the test overflows and the call is
    undefined; at every other offset a range that is not inside the buffer is
    refused and nothing changes; otherwise exactly that range of the window
    is replaced by the bytes of the value, the rest of the block stays as it
    is and the buffer is well formed again. *)
Theorem wire_writes_refine b o v addr bytes :
  buf_wf b → bytes_ok addr → length addr = 6%nat → bytes_ok bytes → Z.of_nat (length bytes) <= INT_MAX →
  let writes w n bs := if INT_MAX <? o + n then w = None else write_ok w b bs o in
  writes (write_u8 b o v) 1 [u8 v] ∧
  writes (write_le16 b o v) 2 (le_bytes 2 v) ∧
  writes (write_be16 b o v) 2 (be_bytes 2 v) ∧
  writes (write_le32 b o v) 4 (le_bytes 4 v) ∧
  writes (write_be32 b o v) 4 (be_bytes 4 v) ∧
  writes (write_ether_addr b o addr) 6 addr ∧
  writes (write_bytes b o (bytes, 0) (Z.of_nat (length bytes))) (Z.of_nat (length bytes)) bytes.
Proof.
  intros W ????. cbv zeta. split_and!.
  1-6: apply (write_any b o); unfold ETHER_ADDR_LEN; rewrite ?length_le_bytes, ?length_be_bytes;
    solve [done | simpl; lia | int_lia | eauto using le_bytes_ok, be_bytes_ok with owl].
  - replace (write_bytes b o (bytes, 0) (Z.of_nat (length bytes)))
      with (write_raw b o (Z.of_nat (length bytes)) bytes).
    + by apply write_any; [done|lia|..].
    + unfold write_raw, write_bytes. rewrite load_Some by (simpl; lia). simpl.
      by rewrite Nat2Z.id, take_ge by done.
Qed.

Lemma wire_writes_refine_witness :
  (∃ b', write_le16 sample_buf 6 258 = Some (b', 2) ∧ contents b' = [21; 2; 0; 52; 1; 9; 2; 1]) ∧
  write_le16 sample_buf (INT_MAX - 1) 258 = None.
Proof.
  split.
  - destruct (wire_writes_refine sample_buf 6 258 [1; 2; 3; 4; 5; 6] [7] sample_buf_wf)
      as (_ & (b' & Hw & Hc & _) & _); try (simpl; int_lia).
    1-2: repeat constructor; int_lia.
    exists b'. split; [exact Hw|exact Hc].
  - destruct (wire_writes_refine sample_buf (INT_MAX - 1) 258 [1; 2; 3; 4; 5; 6] [7] sample_buf_wf)
      as (_ & Hw & _); try (simpl; int_lia).
    1-2: repeat constructor; int_lia.
    exact Hw.
Defined.

Lemma write_read_gen {A} (dec : list Z → A) b o n bs b' rc :
  buf_wf b → o + n <= INT_MAX → Z.of_nat (length bs) = n → bytes_ok bs →
  write_raw b o n bs = Some (b', rc) → rc <> OUT_OF_BOUNDS →
  buf_wf b' ∧ spec_read dec n (contents b') o = (n, Some (dec bs)).
Proof.
  intros W ? Hn Hb Hw Hrc.
  destruct (write_raw_spec b o n bs W ltac:(done) Hn Hb) as (b'' & Hw' & Hc & W' & _).
  rewrite Hw in Hw'. injection Hw' as <- ->. split; [done|].
  rewrite Hc, <- Hn. by apply spec_write_read.
Qed.

(** A value written at an offset is the value read back from it, in every
    width and byte order (modulo the width), whenever the write succeeded. *)
Theorem wire_write_read b o v addr b' rc :
  buf_wf b → o + 6 <= INT_MAX → rc <> OUT_OF_BOUNDS →
  bytes_ok addr → length addr = 6%nat →
  (write_u8 b o v = Some (b', rc) → read_u8 b' o = Some (1, Some (u8 v))) ∧
  (write_le16 b o v = Some (b', rc) → read_le16 b' o = Some (2, Some (u16 v))) ∧
  (write_be16 b o v = Some (b', rc) → read_be16 b' o = Some (2, Some (u16 v))) ∧
  (write_le32 b o v = Some (b', rc) → read_le32 b' o = Some (4, Some (u32 v))) ∧
  (write_be32 b o v = Some (b', rc) → read_be32 b' o = Some (4, Some (u32 v))) ∧
  (write_ether_addr b o addr = Some (b', rc) →
     read_ether_addr b' o = Some (6, Some addr)).
Proof.
  intros W Ho Hrc Ha Hl. split_and!; intros Hw.
  - destruct (write_read_gen le_val b o 1 [u8 v] b' rc W ltac:(lia)) as [W' Hs]; auto.
    { eauto with owl. }
    rewrite read_u8_spec, Hs by (done || lia). simpl.
    by rewrite Z.mul_0_r, Z.add_0_r.
  - destruct (write_read_gen le_val b o 2 (le_bytes 2 v) b' rc W ltac:(lia)) as [W' Hs];
      auto using le_bytes_ok.
    by rewrite read_le16_spec, Hs, le_val_bytes by (done || lia).
  - destruct (write_read_gen be_val b o 2 (be_bytes 2 v) b' rc W ltac:(lia)) as [W' Hs];
      auto using be_bytes_ok.
    by rewrite read_be16_spec, Hs, be_val_bytes by (done || lia).
  - destruct (write_read_gen le_val b o 4 (le_bytes 4 v) b' rc W ltac:(lia)) as [W' Hs];
      auto using le_bytes_ok.
    by rewrite read_le32_spec, Hs, le_val_bytes by (done || lia).
  - destruct (write_read_gen be_val b o 4 (be_bytes 4 v) b' rc W ltac:(lia)) as [W' Hs];
      auto using be_bytes_ok.
    by rewrite read_be32_spec, Hs, be_val_bytes by (done || lia).
  - destruct (write_read_gen id b o 6 addr b' rc W ltac:(lia)) as [W' Hs]; auto with lia.
    by rewrite read_ether_addr_spec, Hs by (done || lia).
Qed.

(** *** Type-length-value elements *)

Lemma parse_tlv_bytes type val rest :
  Z.of_nat (length val) < 2 ^ 16 →
  parse_tlv (tlv_bytes type val ++ rest) = Some (type, val, rest).
Proof.
  intros. unfold tlv_bytes. cbn [le_bytes app]. unfold parse_tlv.
  change [?a; ?b] with (le_bytes 2 (Z.of_nat (length val))).
  rewrite le_val_bytes, Z.mod_small, Nat2Z.id by (split; [lia|done]).
  rewrite length_app, take_app_length, drop_app_length.
  by destruct (_ <=? _)%nat eqn:E; [|apply Nat.leb_gt in E; lia].
Qed.

Lemma read_tlv_gen b :
  buf_wf b →
  read_tlv b 0 = Some
    match parse_tlv (contents b) with
    | None => (OUT_OF_BOUNDS, None)
    | Some (t, v, _) =>
        let n := Z.of_nat (length v) in
        (n + 3, Some (t, n, (b_mem b, b_data b + 3)))
    end.
Proof.
  intros W. pose proof (contents_ok b W) as Hok. unfold read_tlv, reader.
  change (int_add 0 1) with (Some 1). change (int_add 0 3) with (Some 3).
  unfold mbind, M_bind, lift, mret, M_ret.
  rewrite read_u8_spec, read_le16_spec by (done || int_lia).
  rewrite !checked_spec by lia.
  destruct (contents b) as [|t [|b0 [|b1 r]]] eqn:E; try reflexivity.
  inversion_clear Hok as [|?? Ht Hok']. inversion_clear Hok' as [|?? H0 Hok''].
  inversion_clear Hok'' as [|?? H1 Hr].
  if_true. rewrite checked_spec by lia. if_true.
  change (take _ (drop (Z.to_nat 0) _)) with [t].
  change (take _ (drop (Z.to_nat 1) _)) with [b0; b1].
  assert (0 <= le_val [b0; b1] < 2 ^ 16) as Hn by (simpl; int_lia).
  rewrite read_bytes_spec by (done || int_lia). rewrite E. unfold checked, parse_tlv.
  cbn [length]. set (n := le_val [b0; b1]) in *. change (le_val [t]) with (t + 0).
  rewrite Z.add_0_r.
  destruct (Z.to_nat n <=? length r)%nat eqn:En.
  - apply Nat.leb_le in En. rewrite length_take, Nat.min_l, Z2Nat.id by lia.
    split_ifs; try lia. done.
  - apply Nat.leb_gt in En. split_ifs; try lia; done.
Qed.

Lemma parse_tlv_inv l t v rest :
  bytes_ok l → parse_tlv l = Some (t, v, rest) →
  l = tlv_bytes t v ++ rest ∧ Z.of_nat (length v) < 2 ^ 16.
Proof.
  intros Hok. destruct l as [|t' [|b0 [|b1 r]]]; try done. unfold parse_tlv.
  inversion_clear Hok as [|?? Ht Hok']. inversion_clear Hok' as [|?? H0 Hok''].
  inversion_clear Hok'' as [|?? H1 Hr].
  assert (bytes_ok [b0; b1]) as Hb by auto.
  pose proof (le_val_bound _ Hb) as Hbd. change (256 ^ _) with (2 ^ 16) in Hbd.
  remember (le_val [b0; b1]) as n eqn:Hn. cbv zeta.
  destruct (_ <=? _)%nat eqn:E; [|done]. apply Nat.leb_le in E. intros [= <- <- <-].
  rewrite length_take, Nat.min_l by done. split; [|lia].
  unfold tlv_bytes. rewrite length_take, Nat.min_l, Z2Nat.id, Hn by lia.
  change 2%nat with (length [b0; b1]). rewrite le_bytes_val by done.
  cbn [app]. by rewrite take_drop.
Qed.

Lemma read_tlv_step b :
  buf_wf b →
  match parse_tlv (contents b) with
  | None => read_tlv b 0 = Some (OUT_OF_BOUNDS, None)
  | Some (t, v, rest) =>
      contents b = tlv_bytes t v ++ rest ∧
      ∃ p vb b', let n := Z.of_nat (length v) in
        read_tlv b 0 = Some (n + 3, Some (t, n, p)) ∧
        buf_new_const p n = Some vb ∧ buf_wf vb ∧ contents vb = v ∧
        buf_strip b (n + 3) = (b', n + 3) ∧ buf_wf b' ∧ contents b' = rest
  end.
Proof.
  intros W. pose proof (read_tlv_gen b W) as Hr.
  destruct (parse_tlv (contents b)) as [[[t v] rest]|] eqn:E; [|done].
  destruct (parse_tlv_inv _ _ _ _ (contents_ok b W) E) as [Hc Hl]. split; [done|].
  assert (length (contents b) = (3 + length v + length rest)%nat) as Hlen.
  { rewrite Hc, length_app. simpl. lia. }
  assert (∃ vb, buf_new_const (b_mem b, b_data b + 3) (Z.of_nat (length v)) = Some vb)
    as [vb Hvb].
  { unfold buf_new_const. if_false. eauto. }
  destruct (sub_buf b 3 (Z.of_nat (length v)) vb W) as [Wv Hv]; [lia..|done|].
  destruct (buf_strip_spec b (Z.of_nat (length v) + 3) W) as (b' & Hs & W' & Hd & _); [lia|].
  exists (b_mem b, b_data b + 3), vb, b'. split_and!; try done.
  - rewrite Hv, Hc, Nat2Z.id. change (Z.to_nat 3) with 3%nat.
    unfold tlv_bytes. simpl. by rewrite drop_0, take_app_length.
  - rewrite Hd, Hc. replace (Z.to_nat _) with (3 + length v)%nat by lia.
    unfold tlv_bytes. cbn [le_bytes app skipn Nat.add]. by rewrite drop_app_length.
Qed.

(** [read_tlv] followed by [buf_strip] parses the type-length-value
    grammar: it fails with [OUT_OF_BOUNDS] exactly when the buffer does not
    start with a complete element, and otherwise delivers the element's type,
    length and a window on exactly its value, and stripping the returned
    number of bytes leaves exactly the rest of the buffer. *)
Theorem read_tlv_refine b :
  buf_wf b →
  match parse_tlv (contents b) with
  | None => read_tlv b 0 = Some (OUT_OF_BOUNDS, None)
  | Some (t, v, rest) =>
      contents b = tlv_bytes t v ++ rest ∧
      ∃ p vb b', let n := Z.of_nat (length v) in
        read_tlv b 0 = Some (n + 3, Some (t, n, p)) ∧
        buf_new_const p n = Some vb ∧ buf_wf vb ∧ contents vb = v ∧
        buf_strip b (n + 3) = (b', n + 3) ∧ buf_wf b' ∧ contents b' = rest
  end.
Proof. apply read_tlv_step. Qed.

Lemma le_val_1 l i : 0 <= i < Z.of_nat (length l) →
  le_val (take (Z.to_nat 1) (drop (Z.to_nat i) l)) = default 0 (l !! Z.to_nat i).
Proof.
  intros. rewrite <- (Nat.add_0_r (Z.to_nat i)) at 2. rewrite <- lookup_drop.
  destruct (drop (Z.to_nat i) l) eqn:E; simpl; [done|lia].
Qed.

Lemma read_int_string_gen b o length' :
  buf_wf b → 0 <= o → o + 256 <= INT_MAX → 0 <= length' →
  let l := contents b in
  let n := Z.min (default 0 (l !! Z.to_nat o)) length' in
  read_int_string b o length' = Some
    (if o + 1 + n <=? Z.of_nat (length l) then
       if o + 1 <=? Z.of_nat (length l)
       then (n + 1, Some (take (Z.to_nat n) (drop (Z.to_nat (o + 1)) l) ++ [0]))
       else (OUT_OF_BOUNDS, None)
     else (OUT_OF_BOUNDS, None)) ∧
  (∀ rc str, read_int_string b o length' = Some (rc, Some str) →
     rc = Z.of_nat (length str) ∧ Z.of_nat (length str) <= length' + 1 ∧
     last str = Some 0).
Proof.
  intros W ? Ho Hcap l n. pose proof (contents_ok b W) as Hok.
  assert (0 <= n <= 255) as Hn.
  { unfold n. destruct (l !! Z.to_nat o) as [x|] eqn:Ex; simpl; [|lia].
    pose proof (Forall_lookup_1 _ _ _ _ Hok Ex). int_lia. }
  match goal with |- ?P ∧ _ => assert P as Heq end.
  { unfold read_int_string, reader, mbind, M_bind, mret, M_ret, lift.
    rewrite read_u8_spec, checked_spec by (done || int_lia). fold l.
    destruct ((0 <=? o) && _) eqn:E; [|by split_ifs; try done; lia].
    rewrite le_val_1, int_add_Some by int_lia.
    replace (if _ >? _ then _ else _) with n.
    2: { unfold n, u8. split_ifs; [rewrite Z.mod_small; int_lia|lia]. }
    rewrite read_bytes_copy_spec, checked_spec by (done || int_lia). fold l.
    unfold id. split_ifs; try done; lia. }
  split; [exact Heq|]. rewrite Heq. intros rc str.
  split_ifs; [|done|done]. intros [= <- <-].
  rewrite last_snoc, length_app, length_take, length_drop. simpl.
  split_and!; [lia| |done]. unfold n in *. lia.
Qed.

(** [read_int_string] reads a length-prefixed string: the declared length
    is clipped to the capacity [length] of the destination, the string is
    refused when the clipped length runs past the buffer, and what is stored
    (the characters and the terminating zero) never exceeds
    [length + 1] bytes. *)
Theorem read_int_string_spec b o length' :
  buf_wf b → 0 <= o → o + 256 <= INT_MAX → 0 <= length' →
  let l := contents b in
  let n := Z.min (default 0 (l !! Z.to_nat o)) length' in
  read_int_string b o length' = Some
    (if o + 1 + n <=? Z.of_nat (length l) then
       if o + 1 <=? Z.of_nat (length l)
       then (n + 1, Some (take (Z.to_nat n) (drop (Z.to_nat (o + 1)) l) ++ [0]))
       else (OUT_OF_BOUNDS, None)
     else (OUT_OF_BOUNDS, None)) ∧
  (∀ rc str, read_int_string b o length' = Some (rc, Some str) →
     rc = Z.of_nat (length str) ∧ Z.of_nat (length str) <= length' + 1 ∧
     last str = Some 0).
Proof. apply read_int_string_gen. Qed.

(** *** Reads are safe

    A checked read of a well-formed buffer keeps every invariant and delivers
    a value of its type. *)

Section safe_reads.
Context {S : Type} (I : S → Prop) (b : buf) (W : buf_wf b) (err : Z).

Lemma safe_checked {A} (dec : list Z → A) n o (Q : A → Prop) :
  0 <= n →
  (∀ bs, bytes_ok bs → Z.of_nat (length bs) = n → Q (dec bs)) →
  safe I (checked err (Some (spec_read dec n (contents b) o))) Q.
Proof.
  intros Hn HQ s Hs. rewrite checked_spec by done.
  destruct ((0 <=? o) && _) eqn:E; [|by exists s, (inl err)].
  eexists s, (inr _). split_and!; [done..|]. apply HQ.
  - apply Forall_take, Forall_drop. by apply contents_ok.
  - rewrite length_take, length_drop. lia.
Qed.

Lemma safe_read_u8 o : o + 1 <= INT_MAX → safe I (checked err (read_u8 b o)) is_u8.
Proof.
  intros. rewrite read_u8_spec by done. apply safe_checked; [lia|].
  intros bs Hb Hl. pose proof (le_val_bound bs Hb). unfold is_u8. rewrite Hl in *. done.
Qed.
Lemma safe_read_le16 o : o + 2 <= INT_MAX → safe I (checked err (read_le16 b o)) is_u16.
Proof.
  intros. rewrite read_le16_spec by done. apply safe_checked; [lia|].
  intros bs Hb Hl. pose proof (le_val_bound bs Hb). unfold is_u16. rewrite Hl in *. done.
Qed.
Lemma safe_read_be16 o : o + 2 <= INT_MAX → safe I (checked err (read_be16 b o)) is_u16.
Proof.
  intros. rewrite read_be16_spec by done. apply safe_checked; [lia|].
  intros bs Hb Hl. pose proof (be_val_bound bs Hb). unfold is_u16. rewrite Hl in *. done.
Qed.
Lemma safe_read_le32 o : o + 4 <= INT_MAX → safe I (checked err (read_le32 b o)) is_u32.
Proof.
  intros. rewrite read_le32_spec by done. apply safe_checked; [lia|].
  intros bs Hb Hl. pose proof (le_val_bound bs Hb). unfold is_u32. rewrite Hl in *. done.
Qed.
Lemma safe_read_bytes_copy o n :
  o + n <= INT_MAX → 0 <= n →
  safe I (checked err (read_bytes_copy b o n)) (λ bs, bytes_ok bs ∧ Z.of_nat (length bs) = n).
Proof. intros. rewrite read_bytes_copy_spec by done. apply safe_checked; [lia|]. auto. Qed.
Lemma safe_read_ether_addr o :
  o + 6 <= INT_MAX →
  safe I (checked err (read_ether_addr b o)) (λ bs, length bs = 6%nat ∧ bytes_ok bs).
Proof.
  intros. rewrite read_ether_addr_spec by done. apply safe_checked; [lia|]. intros bs ? ?. unfold id. split; [lia|done].
Qed.
Lemma safe_read_int_string o cap :
  0 <= o → o + 256 <= INT_MAX → 0 <= cap →
  safe I (checked err (read_int_string b o cap)) (λ str, Z.of_nat (length str) <= cap + 1).
Proof.
  intros H1 H2 H3 s Hs. destruct (read_int_string_gen b o cap W H1 H2 H3) as [Heq Hlen].
  revert Hlen. rewrite Heq. intros Hlen. unfold checked, OUT_OF_BOUNDS in *.
  assert (0 <= Z.min (default 0 (contents b !! Z.to_nat o)) cap).
  { destruct (contents b !! Z.to_nat o) as [x|] eqn:Ex; simpl; [|lia].
    pose proof (Forall_lookup_1 _ _ _ _ (contents_ok b W) Ex). int_lia. }
  split_ifs; try lia; try (by exists s, (inl err)).
  eexists s, (inr _). split_and!; [done..|]. eapply Hlen. reflexivity.
Qed.

(** A read whose value is not used. *)
Lemma safe_null {A} (r : rd A) (Q : A → Prop) (R : unit → Prop) :
  safe I (checked err r) Q → R tt → safe I (checked_null err r) R.
Proof.
  intros Hr HR s Hs. destruct (Hr s Hs) as (s' & x & Hx & Hs' & _).
  unfold checked, checked_null in *. destruct r as [[rc v]|]; [|done].
  destruct (rc <? 0); [by exists s, (inl err)|by exists s, (inr tt)].
Qed.
End safe_reads.

(** *** Writes one after the other *)

Lemma spec_write_app bs pre post o :
  o = Z.of_nat (length pre) → (length bs <= length post)%nat →
  spec_write bs (pre ++ post) o = (pre ++ bs ++ drop (length bs) post, Z.of_nat (length bs)).
Proof.
  intros -> Hl. unfold spec_write. rewrite length_app. if_true.
  by rewrite Nat2Z.id, take_app_length, drop_app_add.
Qed.

Lemma write_addr_spec b o a :
  buf_wf b → o + 6 <= INT_MAX → length a = 6%nat → bytes_ok a →
  write_ok (write_ether_addr b o a) b a o.
Proof. intros. apply (write_raw_spec b o 6); auto with lia. Qed.

Lemma write_be16_spec b o v :
  buf_wf b → o + 2 <= INT_MAX → write_ok (write_be16 b o v) b (be_bytes 2 v) o.
Proof. intros. apply (write_raw_spec b o 2); auto using be_bytes_ok. Qed.

(** Copying the window of another buffer. *)
Lemma write_buf_spec b o f :
  buf_wf b → buf_wf f → o + buf_len f <= INT_MAX →
  write_ok (write_bytes b o (buf_data f) (buf_len f)) b (contents f) o.
Proof.
  intros W Wf Ho. pose proof (contents_length f Wf) as Hl.
  assert (write_bytes b o (buf_data f) (buf_len f) = write_raw b o (buf_len f) (contents f)) as ->.
  { unfold write_bytes, write_raw, buf_data, buf_len. simpl.
    rewrite <- (Z.add_0_r (b_data f)), load_contents by (done || lia). simpl.
    rewrite drop_0, take_ge by lia. done. }
  apply write_raw_spec; auto with owl.
Qed.
