(* ===== verification/CircularBuffer.v ===== *)
(** * CircularBuffer: the ring of pointers (src/circular_buffer.c)

    The daemon queues multicast frames in it.  The model keeps the array, the
    two indices and the [full] flag; an access outside the array is undefined
    behaviour ([None]).  [spec_put], [spec_put2] and [spec_get] are the bounded
    FIFO queue the ring promises to be, [rep] is the simulation relation, and [circular_buf_refines]
    says that no sequence of operations tells the two apart. *)

From Stdlib Require Import ZArith Lia ZifyBool.
From stdpp Require Import base tactics numbers list.
From S2P Require Import Prelude.

Local Open Scope Z_scope.

Section circular_buffer.
Context {V : Type}.

(** ** Data *)

Record circular_buf := mk_cbuf {
  c_buffer : list V;
  c_head : Z;
  c_tail : Z;
  c_max : Z;
  c_full : Z }.

(** ** Operations *)

Definition circular_buf_full (c : circular_buf) : Z := c_full c.

Definition circular_buf_empty (c : circular_buf) : Z :=
  c_bool ((c_full c =? 0) && (c_head c =? c_tail c)).

Definition advance_pointer (c : circular_buf) : circular_buf :=
  let tail := if negb (c_full c =? 0) then u64 (c_tail c + 1) mod c_max c else c_tail c in
  let head := u64 (c_head c + 1) mod c_max c in
  mk_cbuf (c_buffer c) head tail (c_max c) (c_bool (head =? tail)).

Definition retreat_pointer (c : circular_buf) : circular_buf :=
  mk_cbuf (c_buffer c) (c_head c) (u64 (c_tail c + 1) mod c_max c) (c_max c) 0.

Definition circular_buf_reset (c : circular_buf) : circular_buf :=
  mk_cbuf (c_buffer c) 0 0 (c_max c) 0.

(** [block] is the array [malloc] returned; a zero [size] fails the
    [assert], as does a buffer that is not empty after the reset. *)
Definition circular_buf_init (size : Z) (block : list V) : option circular_buf :=
  if size =? 0 then None else
  let c := circular_buf_reset (mk_cbuf block 0 0 size 0) in
  if circular_buf_empty c =? 0 then None else Some c.

Definition circular_buf_size (c : circular_buf) : Z :=
  if c_full c =? 0 then
    if c_head c >=? c_tail c then u64 (c_head c - c_tail c)
    else u64 (c_max c + c_head c - c_tail c)
  else c_max c.

Definition circular_buf_capacity (c : circular_buf) : Z := c_max c.

(** [cbuf->buffer[cbuf->head] = data] *)
Definition store_head (c : circular_buf) (data : V) : option circular_buf :=
  if (0 <=? c_head c) && (c_head c <? Z.of_nat (length (c_buffer c)))
  then Some (mk_cbuf (<[Z.to_nat (c_head c) := data]> (c_buffer c))
               (c_head c) (c_tail c) (c_max c) (c_full c))
  else None.

Definition circular_buf_put (c : circular_buf) (data : V) : option circular_buf :=
  c ← store_head c data; Some (advance_pointer c).

Definition circular_buf_put2 (c : circular_buf) (data : V) : option (circular_buf * Z) :=
  if circular_buf_full c =? 0 then
    c ← store_head c data; Some (advance_pointer c, 0)
  else Some (c, -1).

Definition circular_buf_get (c : circular_buf) (peek : bool) :
    option (circular_buf * Z * option V) :=
  if circular_buf_empty c =? 0 then
    data ← c_buffer c !! Z.to_nat (c_tail c);
    Some (if peek then c else retreat_pointer c, 0, Some data)
  else Some (c, -1, None).

(** ** The specification: a bounded queue *)

Definition spec_put (cap : Z) (q : list V) (x : V) : list V :=
  if Z.of_nat (length q) =? cap then tail q ++ [x] else q ++ [x].

Definition spec_put2 (cap : Z) (q : list V) (x : V) : list V * Z :=
  if Z.of_nat (length q) =? cap then (q, -1) else (q ++ [x], 0).

Definition spec_get (q : list V) (peek : bool) : list V * Z * option V :=
  match q with
  | [] => (q, -1, None)
  | x :: q' => (if peek then q else q', 0, Some x)
  end.

(** The simulation relation. *)
Record rep (c : circular_buf) (q : list V) : Prop := {
  rep_max : 0 < c_max c < 2 ^ 64;
  rep_arr : Z.of_nat (length (c_buffer c)) = c_max c;
  rep_tail : 0 <= c_tail c < c_max c;
  rep_len : Z.of_nat (length q) <= c_max c;
  rep_head : c_head c = (c_tail c + Z.of_nat (length q)) mod c_max c;
  rep_full : c_full c = c_bool (Z.of_nat (length q) =? c_max c);
  rep_elem : ∀ i x, q !! i = Some x →
    c_buffer c !! Z.to_nat ((c_tail c + Z.of_nat i) mod c_max c) = Some x }.

Lemma wrap_mod t k m : 0 <= t < m → 0 <= k <= m →
  (t + k) mod m = if t + k <? m then t + k else t + k - m.
Proof.
  intros. destruct (t + k <? m) eqn:E; [by apply Z.mod_small; lia|].
  rewrite <- (Z.mod_add _ (-1)) by lia. rewrite Z.mod_small; lia.
Qed.

Lemma succ_mod t m : 0 <= t < m → m < 2 ^ 64 → u64 (t + 1) mod m = (t + 1) mod m.
Proof. intros. rewrite u64_id by int_lia. done. Qed.

Lemma rep_empty c q : rep c q → circular_buf_empty c = c_bool (bool_decide (q = [])).
Proof.
  intros []. unfold circular_buf_empty. f_equal. rewrite rep_full0, rep_head0, wrap_mod by lia.
  destruct q; [rewrite bool_decide_eq_true_2 by done|rewrite bool_decide_eq_false_2 by done];
    simpl; unfold c_bool; split_ifs; lia.
Qed.

Lemma rep_size c q : rep c q → circular_buf_size c = Z.of_nat (length q).
Proof.
  intros []. unfold circular_buf_size. rewrite rep_full0, rep_head0, wrap_mod by lia.
  unfold c_bool. split_ifs; try lia; rewrite u64_id by int_lia; lia.
Qed.

Lemma rep_init size block : 0 < size < 2 ^ 64 → Z.of_nat (length block) = size →
  ∃ c, circular_buf_init size block = Some c ∧ rep c [] ∧ c_max c = size.
Proof.
  intros. unfold circular_buf_init. if_false. simpl.
  eexists; split; [done|]. split; [|done].
  constructor; simpl; rewrite ?Z.mod_small by lia; try done; try lia.
  unfold c_bool. split_ifs; lia.
Qed.

Lemma rep_reset c q : rep c q → rep (circular_buf_reset c) [].
Proof.
  intros []. constructor; simpl; rewrite ?Z.mod_small by lia; try done; try lia.
  unfold c_bool. split_ifs; lia.
Qed.

(** Where the [i]-th element after the second oldest one is. *)
Lemma next_slot t i m : 0 <= t < m → 0 <= i → i < m →
  ((t + 1) mod m + i) mod m = (t + (i + 1)) mod m.
Proof. intros. rewrite Z.add_mod_idemp_l by lia. f_equal. lia. Qed.

Definition stored (c : circular_buf) (x : V) : circular_buf :=
  mk_cbuf (<[Z.to_nat (c_head c) := x]> (c_buffer c)) (c_head c) (c_tail c) (c_max c) (c_full c).

Lemma rep_store_head c q x : rep c q → store_head c x = Some (stored c x).
Proof.
  intros []. unfold store_head.
  pose proof (Z.mod_pos_bound (c_tail c + Z.of_nat (length q)) (c_max c)).
  by if_true.
Qed.

(** Putting into a full ring overwrites the oldest element. *)
Lemma advance_full c y q x :
  rep c (y :: q) → Z.of_nat (length (y :: q)) = c_max c →
  rep (advance_pointer (stored c x)) (q ++ [x]).
Proof.
  intros [] Hlen. assert (c_head c = c_tail c) as Hht.
  { rewrite rep_head0, Hlen, wrap_mod by lia. split_ifs; lia. }
  unfold advance_pointer, stored; simpl. rewrite rep_full0, Hlen, Z.eqb_refl, Hht.
  rewrite succ_mod by lia. simpl.
  pose proof (Z.mod_pos_bound (c_tail c + 1) (c_max c) ltac:(lia)) as Hs.
  assert (Z.of_nat (length (q ++ [x])) = c_max c) as Hlen'.
  { rewrite length_app. simpl in *. lia. }
  constructor; simpl; rewrite ?length_insert, ?Hlen'; try lia.
  - rewrite (wrap_mod _ (c_max c)) by lia. split_ifs; lia.
  - by rewrite !Z.eqb_refl.
  - intros i z Hi. pose proof (lookup_lt_Some _ _ _ Hi) as Hlt.
    rewrite next_slot by lia. apply lookup_app_Some in Hi as [Hi|[Hge Hi]].
    + pose proof (lookup_lt_Some _ _ _ Hi). simpl in Hlen.
      rewrite list_lookup_insert_ne.
      * rewrite <- (rep_elem0 (S i) z Hi). do 3 f_equal. lia.
      * rewrite wrap_mod by lia. split_ifs; lia.
    + apply list_lookup_singleton_Some in Hi as [Hi <-].
      replace (Z.of_nat i + 1) with (c_max c) by (simpl in Hlen; lia).
      rewrite wrap_mod by lia. if_false. rewrite Z.add_simpl_r.
      by rewrite list_lookup_insert_eq by lia.
Qed.

Lemma advance_room c q x :
  rep c q → Z.of_nat (length q) < c_max c →
  rep (advance_pointer (stored c x)) (q ++ [x]).
Proof.
  intros [] Hlen. unfold advance_pointer, stored; simpl.
  assert (c_full c = 0) as -> by (rewrite rep_full0; unfold c_bool; split_ifs; lia).
  pose proof (Z.mod_pos_bound (c_tail c + Z.of_nat (length q)) (c_max c) ltac:(lia)) as Hs.
  simpl. rewrite succ_mod by lia. rewrite rep_head0, Z.add_mod_idemp_l by lia.
  assert (Z.of_nat (length (q ++ [x])) = Z.of_nat (length q) + 1) as Hlen'.
  { rewrite length_app. simpl. lia. }
  constructor; simpl; rewrite ?length_insert, ?Hlen'; try lia.
  - f_equal. lia.
  - rewrite <- Z.add_assoc, wrap_mod by lia. unfold c_bool. split_ifs; lia.
  - intros i z Hi. pose proof (lookup_lt_Some _ _ _ Hi) as Hlt.
    apply lookup_app_Some in Hi as [Hi|[Hge Hi]].
    + pose proof (lookup_lt_Some _ _ _ Hi).
      rewrite list_lookup_insert_ne; [by apply rep_elem0|].
      rewrite !wrap_mod by lia. split_ifs; lia.
    + apply list_lookup_singleton_Some in Hi as [Hi <-].
      replace i with (length q) by lia. by rewrite list_lookup_insert_eq by lia.
Qed.

Lemma rep_advance c q x : rep c q →
  rep (advance_pointer (stored c x)) (spec_put (c_max c) q x).
Proof.
  intros R. pose proof (rep_len _ _ R). unfold spec_put. split_ifs.
  - destruct q as [|y q]; [pose proof (rep_max _ _ R); simpl in *; lia|].
    apply (advance_full c y); [done|by apply Z.eqb_eq].
  - apply advance_room; [done|lia].
Qed.

Lemma rep_put c q x : rep c q →
  ∃ c', circular_buf_put c x = Some c' ∧ rep c' (spec_put (c_max c) q x) ∧ c_max c' = c_max c.
Proof.
  intros R. unfold circular_buf_put. rewrite (rep_store_head _ _ x R). simpl.
  eexists; split; [done|]. split; [by apply rep_advance|done].
Qed.

Lemma rep_put2 c q x : rep c q →
  ∃ c', circular_buf_put2 c x = Some (c', (spec_put2 (c_max c) q x).2) ∧
        rep c' (spec_put2 (c_max c) q x).1 ∧ c_max c' = c_max c.
Proof.
  intros R. unfold circular_buf_put2, circular_buf_full, spec_put2.
  pose proof (rep_advance c q x R) as Ha. revert Ha. unfold spec_put.
  rewrite (rep_full _ _ R), (rep_store_head _ _ x R).
  destruct (_ =? c_max c) eqn:E; simpl; intros; eauto.
Qed.

Lemma rep_get c q peek : rep c q →
  ∃ c', circular_buf_get c peek = Some (c', (spec_get q peek).1.2, (spec_get q peek).2) ∧
        rep c' (spec_get q peek).1.1 ∧ c_max c' = c_max c.
Proof.
  intros R. unfold circular_buf_get. rewrite (rep_empty _ _ R).
  destruct q as [|x q]; simpl; [by eauto|]. destruct R.
  pose proof (rep_elem0 O x eq_refl) as Hx.
  rewrite Z.add_0_r, Z.mod_small in Hx by lia. rewrite Hx. simpl.
  eexists; split; [done|]. destruct peek; [by split|]. split; [|done].
  simpl in rep_len0. unfold retreat_pointer.
  constructor; simpl; rewrite ?succ_mod by lia; try lia.
  - by apply Z.mod_pos_bound; lia.
  - rewrite rep_head0, next_slot by lia. f_equal. simpl. lia.
  - unfold c_bool. split_ifs; lia.
  - intros i z Hi. pose proof (lookup_lt_Some _ _ _ Hi). rewrite next_slot by lia.
    rewrite <- (rep_elem0 (S i) z Hi). do 3 f_equal. lia.
Qed.

(** ** Traces

    A client calls the operations in some order; what it observes is the list
    of their results. *)

Inductive cb_op :=
  | OpPut (x : V) | OpPut2 (x : V) | OpGet (peek : bool)
  | OpSize | OpEmpty | OpFull | OpCapacity | OpReset.

Definition impl_step (c : circular_buf) (op : cb_op) :
    option (circular_buf * (Z * option V)) :=
  match op with
  | OpPut x => c ← circular_buf_put c x; Some (c, (0, None))
  | OpPut2 x => r ← circular_buf_put2 c x; Some (r.1, (r.2, None))
  | OpGet peek => r ← circular_buf_get c peek; Some (r.1.1, (r.1.2, r.2))
  | OpSize => Some (c, (circular_buf_size c, None))
  | OpEmpty => Some (c, (circular_buf_empty c, None))
  | OpFull => Some (c, (circular_buf_full c, None))
  | OpCapacity => Some (c, (circular_buf_capacity c, None))
  | OpReset => Some (circular_buf_reset c, (0, None))
  end.

Definition spec_step (cap : Z) (q : list V) (op : cb_op) : list V * (Z * option V) :=
  match op with
  | OpPut x => (spec_put cap q x, (0, None))
  | OpPut2 x => ((spec_put2 cap q x).1, ((spec_put2 cap q x).2, None))
  | OpGet peek => ((spec_get q peek).1.1, ((spec_get q peek).1.2, (spec_get q peek).2))
  | OpSize => (q, (Z.of_nat (length q), None))
  | OpEmpty => (q, (c_bool (bool_decide (q = [])), None))
  | OpFull => (q, (c_bool (Z.of_nat (length q) =? cap), None))
  | OpCapacity => (q, (cap, None))
  | OpReset => ([], (0, None))
  end.

Fixpoint impl_run (c : circular_buf) (ops : list cb_op) : option (list (Z * option V)) :=
  match ops with
  | [] => Some []
  | op :: ops => r ← impl_step c op; rs ← impl_run r.1 ops; Some (r.2 :: rs)
  end.

Fixpoint spec_run (cap : Z) (q : list V) (ops : list cb_op) : list (Z * option V) :=
  match ops with
  | [] => []
  | op :: ops => (spec_step cap q op).2 :: spec_run cap (spec_step cap q op).1 ops
  end.

Lemma step_sim c q op : rep c q →
  ∃ c', impl_step c op = Some (c', (spec_step (c_max c) q op).2) ∧
        rep c' (spec_step (c_max c) q op).1 ∧ c_max c' = c_max c.
Proof.
  intros R. destruct op as [x|x|peek| | | | |]; simpl.
  - destruct (rep_put c q x R) as (c' & -> & ?). eauto.
  - destruct (rep_put2 c q x R) as (c' & -> & ?). eauto.
  - destruct (rep_get c q peek R) as (c' & -> & ?). eauto.
  - rewrite (rep_size c q R). eauto.
  - rewrite (rep_empty c q R). eauto.
  - unfold circular_buf_full. rewrite (rep_full c q R). eauto.
  - eauto.
  - eauto using rep_reset.
Qed.

Lemma run_sim ops c q : rep c q → impl_run c ops = Some (spec_run (c_max c) q ops).
Proof.
  revert c q. induction ops as [|op ops IH]; intros c q R; [done|]. simpl.
  destruct (step_sim c q op R) as (c' & -> & R' & Hm). simpl.
  by rewrite (IH c' _ R'), Hm.
Qed.

(** C12: the ring buffer is a bounded FIFO queue.  For every capacity and every
    sequence of operations (putting with and without overwriting, getting,
    peeking, the size, empty, full and capacity tests, reset), no operation
    accesses memory outside the array and the results are those of the queue
    specification: elements come out in the order they were put, a put into a
    full ring drops the oldest element, [circular_buf_put2] refuses instead. *)
Theorem circular_buf_refines size block ops :
  0 < size < 2 ^ 64 → Z.of_nat (length block) = size →
  ∃ c, circular_buf_init size block = Some c ∧
       impl_run c ops = Some (spec_run size [] ops).
Proof.
  intros Hs Hb. destruct (rep_init size block Hs Hb) as (c & Hc & R & Hm).
  exists c. split; [done|]. rewrite <- Hm. by apply run_sim.
Qed.
End circular_buffer.

Arguments circular_buf V : clear implicits.
Arguments cb_op V : clear implicits.

Lemma circular_buf_refines_witness :
  ∃ c, circular_buf_init 2 [0; 0] = Some c ∧
    impl_run c [OpPut 1; OpPut 2; OpPut 3; OpPut2 4; OpGet false; OpSize; OpGet true; OpFull]
    = Some [(0, None); (0, None); (0, None); (-1, None); (0, Some 2); (1, None);
            (0, Some 3); (0, None)].
Proof.
  destruct (circular_buf_refines 2 [0; 0]
    [OpPut 1; OpPut 2; OpPut 3; OpPut2 4; OpGet false; OpSize; OpGet true; OpFull])
    as (c & Hc & Hr); [lia|reflexivity|].
  exists c. split; [exact Hc|]. rewrite Hr. vm_compute. reflexivity.
Defined.
