(* ===== verification/Crc32.v ===== *)
(** * Crc32: the frame check sequence (src/crc32.c)

    [crc32] is the table-driven loop of the program, with the table copied
    from the source; [crc_ref] is the bit-by-bit shift register of IEEE 802.3
    (reflected polynomial [0xedb88320]). *)

From Stdlib Require Import ZArith Lia ZifyBool.
From stdpp Require Import base tactics numbers list.
From S2P Require Import Prelude.

Local Open Scope Z_scope.

(** ** The program *)

Definition crc32_tab : list Z := [
  0x00000000; 0x77073096; 0xee0e612c; 0x990951ba; 0x076dc419; 0x706af48f;
  0xe963a535; 0x9e6495a3; 0x0edb8832; 0x79dcb8a4; 0xe0d5e91e; 0x97d2d988;
  0x09b64c2b; 0x7eb17cbd; 0xe7b82d07; 0x90bf1d91; 0x1db71064; 0x6ab020f2;
  0xf3b97148; 0x84be41de; 0x1adad47d; 0x6ddde4eb; 0xf4d4b551; 0x83d385c7;
  0x136c9856; 0x646ba8c0; 0xfd62f97a; 0x8a65c9ec; 0x14015c4f; 0x63066cd9;
  0xfa0f3d63; 0x8d080df5; 0x3b6e20c8; 0x4c69105e; 0xd56041e4; 0xa2677172;
  0x3c03e4d1; 0x4b04d447; 0xd20d85fd; 0xa50ab56b; 0x35b5a8fa; 0x42b2986c;
  0xdbbbc9d6; 0xacbcf940; 0x32d86ce3; 0x45df5c75; 0xdcd60dcf; 0xabd13d59;
  0x26d930ac; 0x51de003a; 0xc8d75180; 0xbfd06116; 0x21b4f4b5; 0x56b3c423;
  0xcfba9599; 0xb8bda50f; 0x2802b89e; 0x5f058808; 0xc60cd9b2; 0xb10be924;
  0x2f6f7c87; 0x58684c11; 0xc1611dab; 0xb6662d3d; 0x76dc4190; 0x01db7106;
  0x98d220bc; 0xefd5102a; 0x71b18589; 0x06b6b51f; 0x9fbfe4a5; 0xe8b8d433;
  0x7807c9a2; 0x0f00f934; 0x9609a88e; 0xe10e9818; 0x7f6a0dbb; 0x086d3d2d;
  0x91646c97; 0xe6635c01; 0x6b6b51f4; 0x1c6c6162; 0x856530d8; 0xf262004e;
  0x6c0695ed; 0x1b01a57b; 0x8208f4c1; 0xf50fc457; 0x65b0d9c6; 0x12b7e950;
  0x8bbeb8ea; 0xfcb9887c; 0x62dd1ddf; 0x15da2d49; 0x8cd37cf3; 0xfbd44c65;
  0x4db26158; 0x3ab551ce; 0xa3bc0074; 0xd4bb30e2; 0x4adfa541; 0x3dd895d7;
  0xa4d1c46d; 0xd3d6f4fb; 0x4369e96a; 0x346ed9fc; 0xad678846; 0xda60b8d0;
  0x44042d73; 0x33031de5; 0xaa0a4c5f; 0xdd0d7cc9; 0x5005713c; 0x270241aa;
  0xbe0b1010; 0xc90c2086; 0x5768b525; 0x206f85b3; 0xb966d409; 0xce61e49f;
  0x5edef90e; 0x29d9c998; 0xb0d09822; 0xc7d7a8b4; 0x59b33d17; 0x2eb40d81;
  0xb7bd5c3b; 0xc0ba6cad; 0xedb88320; 0x9abfb3b6; 0x03b6e20c; 0x74b1d29a;
  0xead54739; 0x9dd277af; 0x04db2615; 0x73dc1683; 0xe3630b12; 0x94643b84;
  0x0d6d6a3e; 0x7a6a5aa8; 0xe40ecf0b; 0x9309ff9d; 0x0a00ae27; 0x7d079eb1;
  0xf00f9344; 0x8708a3d2; 0x1e01f268; 0x6906c2fe; 0xf762575d; 0x806567cb;
  0x196c3671; 0x6e6b06e7; 0xfed41b76; 0x89d32be0; 0x10da7a5a; 0x67dd4acc;
  0xf9b9df6f; 0x8ebeeff9; 0x17b7be43; 0x60b08ed5; 0xd6d6a3e8; 0xa1d1937e;
  0x38d8c2c4; 0x4fdff252; 0xd1bb67f1; 0xa6bc5767; 0x3fb506dd; 0x48b2364b;
  0xd80d2bda; 0xaf0a1b4c; 0x36034af6; 0x41047a60; 0xdf60efc3; 0xa867df55;
  0x316e8eef; 0x4669be79; 0xcb61b38c; 0xbc66831a; 0x256fd2a0; 0x5268e236;
  0xcc0c7795; 0xbb0b4703; 0x220216b9; 0x5505262f; 0xc5ba3bbe; 0xb2bd0b28;
  0x2bb45a92; 0x5cb36a04; 0xc2d7ffa7; 0xb5d0cf31; 0x2cd99e8b; 0x5bdeae1d;
  0x9b64c2b0; 0xec63f226; 0x756aa39c; 0x026d930a; 0x9c0906a9; 0xeb0e363f;
  0x72076785; 0x05005713; 0x95bf4a82; 0xe2b87a14; 0x7bb12bae; 0x0cb61b38;
  0x92d28e9b; 0xe5d5be0d; 0x7cdcefb7; 0x0bdbdf21; 0x86d3d2d4; 0xf1d4e242;
  0x68ddb3f8; 0x1fda836e; 0x81be16cd; 0xf6b9265b; 0x6fb077e1; 0x18b74777;
  0x88085ae6; 0xff0f6a70; 0x66063bca; 0x11010b5c; 0x8f659eff; 0xf862ae69;
  0x616bffd3; 0x166ccf45; 0xa00ae278; 0xd70dd2ee; 0x4e048354; 0x3903b3c2;
  0xa7672661; 0xd06016f7; 0x4969474d; 0x3e6e77db; 0xaed16a4a; 0xd9d65adc;
  0x40df0b66; 0x37d83bf0; 0xa9bcae53; 0xdebb9ec5; 0x47b2cf7f; 0x30b5ffe9;
  0xbdbdf21c; 0xcabac28a; 0x53b39330; 0x24b4a3a6; 0xbad03605; 0xcdd70693;
  0x54de5729; 0x23d967bf; 0xb3667a2e; 0xc4614ab8; 0x5d681b02; 0x2a6f2b94;
  0xb40bbe37; 0xc30c8ea1; 0x5a05df1b; 0x2d02ef8d].

Definition crc32_step (crc b : Z) : Z :=
  Z.lxor (default 0 (crc32_tab !! Z.to_nat (Z.land (Z.lxor crc b) 0xff)))
         (Z.shiftr crc 8).

(** The argument is the list of the [size] bytes [buf] points to. *)
Definition crc32 (buf : list Z) : Z :=
  Z.lxor (foldl crc32_step 0xffffffff buf) 0xffffffff.

(** ** The reference *)

Definition crc_bit (c : Z) : Z :=
  Z.lxor (Z.shiftr c 1) (if Z.testbit c 0 then 0xedb88320 else 0).

Definition crc_bits (n : nat) (c : Z) : Z := Nat.iter n crc_bit c.

Definition crc_ref_step (c b : Z) : Z := crc_bits 8 (Z.lxor c b).

Definition crc_ref (buf : list Z) : Z :=
  Z.lxor (foldl crc_ref_step 0xffffffff buf) 0xffffffff.

(** ** Lemmas *)

(** Bits that have not reached the low end of the register only move. *)
Lemma crc_bit_shift a y : crc_bit (Z.lxor a (Z.shiftl y 1)) = Z.lxor (crc_bit a) y.
Proof.
  unfold crc_bit. rewrite Z.shiftr_lxor, Z.lxor_spec, Z.shiftl_spec by lia.
  rewrite (Z.testbit_neg_r y) by lia. rewrite xorb_false_r.
  rewrite Z.shiftr_shiftl_l by lia. rewrite Z.sub_diag, Z.shiftl_0_r.
  rewrite !Z.lxor_assoc. f_equal. apply Z.lxor_comm.
Qed.

Lemma crc_bits_shift n a y :
  crc_bits n (Z.lxor a (Z.shiftl y (Z.of_nat n))) = Z.lxor (crc_bits n a) y.
Proof.
  revert a y. induction n as [|n IH]; intros a y; [by rewrite Z.shiftl_0_r|].
  unfold crc_bits in *. rewrite !Nat.iter_succ_r.
  replace (Z.of_nat (S n)) with (Z.of_nat n + 1) by lia.
  rewrite <- Z.shiftl_shiftl by lia. by rewrite crc_bit_shift, IH.
Qed.

Lemma crc_bits_add n m c : crc_bits n (crc_bits m c) = crc_bits (n + m) c.
Proof. unfold crc_bits. by rewrite Nat.iter_add. Qed.

(** The table holds the register's response to each byte. *)
Lemma crc32_tab_spec i :
  0 <= i < 256 → crc32_tab !! Z.to_nat i = Some (crc_bits 8 i).
Proof.
  intros Hi. assert (crc32_tab = crc_bits 8 <$> seqZ 0 256) as -> by (vm_compute; reflexivity).
  by rewrite list_lookup_fmap, lookup_seqZ_lt, Z2Nat.id, Z.add_0_l by lia.
Qed.

Lemma split_low8 c : c = Z.lxor (Z.land c 0xff) (Z.shiftl (Z.shiftr c 8) 8).
Proof.
  apply Z.bits_inj'. intros n Hn. change 0xff with (Z.ones 8).
  rewrite Z.lxor_spec, Z.land_spec, Z.testbit_ones_nonneg, Z.shiftl_spec by lia.
  destruct (n <? 8) eqn:E.
  - rewrite (Z.testbit_neg_r (Z.shiftr c 8)) by lia. by rewrite andb_true_r, xorb_false_r.
  - rewrite Z.shiftr_spec, andb_false_r, xorb_false_l by lia. f_equal. lia.
Qed.

Lemma crc32_step_eq c b : is_u8 b → crc32_step c b = crc_ref_step c b.
Proof.
  intros Hb. unfold crc32_step, crc_ref_step.
  assert (0 <= Z.land (Z.lxor c b) 0xff < 256).
  { change 0xff with (Z.ones 8). rewrite Z.land_ones by lia. apply Z.mod_pos_bound. lia. }
  rewrite crc32_tab_spec by done. unfold default, from_option, id. symmetry.
  rewrite (split_low8 (Z.lxor c b)) at 1.
  rewrite (crc_bits_shift 8), Z.shiftr_lxor.
  rewrite (Z.shiftr_div_pow2 b), Z.div_small by (done || lia). by rewrite Z.lxor_0_r.
Qed.

Lemma crc32_foldl_eq buf c : bytes_ok buf → foldl crc32_step c buf = foldl crc_ref_step c buf.
Proof.
  revert c. induction buf as [|b buf IH]; intros c H; [done|].
  apply Forall_cons in H as [Hb H]. simpl. by rewrite crc32_step_eq, IH.
Qed.

(** C29: the table-driven [crc32] computes the CRC-32 of IEEE 802.3, the
    bit-by-bit division by the reflected polynomial, on every byte string. *)
Theorem crc32_correct buf : bytes_ok buf → crc32 buf = crc_ref buf.
Proof. intros. unfold crc32, crc_ref. by rewrite crc32_foldl_eq. Qed.

(** "123456789", the standard check value. *)
Lemma crc32_correct_witness :
  crc_ref [49; 50; 51; 52; 53; 54; 55; 56; 57] = 0xcbf43926.
Proof.
  rewrite <- (crc32_correct [49; 50; 51; 52; 53; 54; 55; 56; 57]).
  - vm_compute. reflexivity.
  - repeat constructor; int_lia.
Defined.

(** Four bytes fed to the register are 32 steps on the register combined with
    the little-endian word they form. *)
Lemma crc_ref_word b0 b1 b2 b3 c :
  foldl crc_ref_step c [b0; b1; b2; b3] =
    crc_bits 32 (Z.lxor c (Z.lxor b0 (Z.lxor (Z.shiftl b1 8)
                          (Z.lxor (Z.shiftl b2 16) (Z.shiftl b3 24))))).
Proof.
  assert (∀ n c b, crc_ref_step (crc_bits n c) b =
            crc_bits (8 + n) (Z.lxor c (Z.shiftl b (Z.of_nat n)))) as Hs.
  { intros n c' b. unfold crc_ref_step. by rewrite <- crc_bits_add, crc_bits_shift. }
  cbn [foldl]. unfold crc_ref_step at 4.
  rewrite (Hs 8%nat), (Hs 16%nat), (Hs 24%nat). by rewrite !Z.lxor_assoc.
Qed.

Lemma lor_lxor_disjoint a b n : 0 <= n → 0 <= a < 2 ^ n →
  Z.lxor a (Z.shiftl b n) = a + 2 ^ n * b.
Proof.
  intros Hn Ha. rewrite <- Z.add_nocarry_lxor.
  - rewrite Z.shiftl_mul_pow2 by done. lia.
  - apply Z.bits_inj'. intros i Hi.
    rewrite Z.land_spec, Z.shiftl_spec, Z.bits_0 by done.
    destruct (i <? n) eqn:E.
    + by rewrite (Z.testbit_neg_r b), andb_false_r by lia.
    + by rewrite <- (Z.mod_small a (2 ^ n)), Z.mod_pow2_bits_high by lia.
Qed.

Lemma word_le_val b0 b1 b2 b3 :
  bytes_ok [b0; b1; b2; b3] →
  Z.lxor b0 (Z.lxor (Z.shiftl b1 8) (Z.lxor (Z.shiftl b2 16) (Z.shiftl b3 24))) =
    le_val [b0; b1; b2; b3].
Proof.
  intros H. rewrite !Forall_cons in H. destruct H as (H0 & H1 & H2 & H3 & _).
  change 24 with (8 + 16). change 16 with (8 + 8). rewrite <- !Z.shiftl_shiftl by lia.
  rewrite <- !Z.shiftl_lxor. rewrite !lor_lxor_disjoint by (done || lia).
  simpl. change (2 ^ 8) with 256. lia.
Qed.

Lemma lxor_u32 a b : is_u32 a → is_u32 b → is_u32 (Z.lxor a b).
Proof.
  unfold is_u32. intros Ha Hb.
  assert (Z.lxor a b = Z.lxor a b mod 2 ^ 32) as ->; [|apply Z.mod_pos_bound; lia].
  rewrite <- (Z.mod_small a (2 ^ 32)) at 1 by done.
  rewrite <- (Z.mod_small b (2 ^ 32)) at 1 by done.
  rewrite <- !Z.land_ones by lia. apply Z.bits_inj'. intros n Hn.
  rewrite !Z.land_spec, !Z.lxor_spec, !Z.land_spec. by destruct (Z.testbit (Z.ones 32) n),
    (Z.testbit a n), (Z.testbit b n).
Qed.

Lemma crc_bit_u32 c : is_u32 c → is_u32 (crc_bit c).
Proof.
  intros Hc. unfold crc_bit. apply lxor_u32; [|split_ifs; int_lia].
  rewrite Z.shiftr_div_pow2 by lia. change (2 ^ 1) with 2.
  unfold is_u32 in *. split; [apply Z.div_pos; lia|].
  apply Z.div_lt_upper_bound; lia.
Qed.

Lemma crc_bits_u32 n c : is_u32 c → is_u32 (crc_bits n c).
Proof. intros. induction n as [|n IH]; [done|]. by apply crc_bit_u32. Qed.

Lemma crc_foldl_u32 buf c : bytes_ok buf → is_u32 c → is_u32 (foldl crc_ref_step c buf).
Proof.
  revert c. induction buf as [|b buf IH]; intros c H Hc; [done|].
  apply Forall_cons in H as [Hb H]. cbn [foldl]. apply IH; [done|].
  apply crc_bits_u32, lxor_u32; [done|int_lia].
Qed.

(** A frame followed by its own check sequence (the bytes
    [ieee80211_add_fcs] appends, little endian) has the constant CRC
    [0x2144df1c]: receivers recognise an intact frame by that residue,
    whatever the frame holds. *)
Theorem crc32_residue buf :
  bytes_ok buf → crc32 (buf ++ le_bytes 4 (crc32 buf)) = 0x2144df1c.
Proof.
  intros H. rewrite !crc32_correct by auto using Forall_app_2, le_bytes_ok.
  unfold crc_ref at 1. rewrite foldl_app. unfold crc_ref.
  set (s := foldl crc_ref_step 0xffffffff buf).
  assert (is_u32 s) as Hs by (apply crc_foldl_u32; [done|int_lia]).
  assert (is_u32 (Z.lxor s 0xffffffff)) as Hx by (apply lxor_u32; [done|int_lia]).
  set (x := Z.lxor s 0xffffffff) in *. pose proof (le_val_bytes 4 x) as Hv.
  pose proof (le_bytes_ok 4 x) as Hok. cbn [le_bytes] in *.
  rewrite crc_ref_word, word_le_val by done. rewrite Hv, Z.mod_small by done.
  unfold x. rewrite <- Z.lxor_assoc, Z.lxor_nilpotent. vm_compute. reflexivity.
Qed.
