(* ===== verification/SipHash.v ===== *)
(** * SipHash: the keyed hash of the peer table (src/siphash24.c)

    [siphash24] follows the program: the loop over the whole 8-byte words and
    the fall-through [switch] that gathers the last word.  [sip_ref] is
    SipHash-2-4 as its authors define it, on the padded message, and shares
    nothing with the program: rounds are made of two half rounds, rotations
    are arithmetic, the constants come from their text.  Words are
    64-bit values in [Z]; the host is little endian, so that [load64_le] and
    [store64_le], which copy the bytes, are the little-endian conversions. *)

From Stdlib Require Import ZArith Lia ZifyBool Ascii String.
From stdpp Require Import base tactics numbers list.
From S2P Require Import Prelude.

Local Open Scope Z_scope.

(** ** The program *)

Definition load64_le (src : list Z) : Z := le_val (take 8 src).

Definition store64_le (w : Z) : list Z := le_bytes 8 w.

Definition rotl64 (x b : Z) : Z := Z.lor (u64 (Z.shiftl x b)) (Z.shiftr x (64 - b)).

Record sip := mk_sip { v0 : Z; v1 : Z; v2 : Z; v3 : Z }.

Definition SIPROUND (s : sip) : sip :=
  let '(mk_sip v0 v1 v2 v3) := s in
  let v0 := u64 (v0 + v1) in
  let v1 := rotl64 v1 13 in
  let v1 := Z.lxor v1 v0 in
  let v0 := rotl64 v0 32 in
  let v2 := u64 (v2 + v3) in
  let v3 := rotl64 v3 16 in
  let v3 := Z.lxor v3 v2 in
  let v0 := u64 (v0 + v3) in
  let v3 := rotl64 v3 21 in
  let v3 := Z.lxor v3 v0 in
  let v2 := u64 (v2 + v1) in
  let v1 := rotl64 v1 17 in
  let v1 := Z.lxor v1 v2 in
  let v2 := rotl64 v2 32 in
  mk_sip v0 v1 v2 v3.

(** The constants, xored with the two key words. *)
Definition sip_init (k : list Z) : sip :=
  let k0 := load64_le k in
  let k1 := load64_le (drop 8 k) in
  mk_sip (Z.lxor 0x736f6d6570736575 k0) (Z.lxor 0x646f72616e646f6d k1)
         (Z.lxor 0x6c7967656e657261 k0) (Z.lxor 0x7465646279746573 k1).

(** One message word: two rounds between the xors with the word. *)
Definition sip_word (s : sip) (m : Z) : sip :=
  let s := mk_sip (v0 s) (v1 s) (v2 s) (Z.lxor (v3 s) m) in
  let s := SIPROUND (SIPROUND s) in
  mk_sip (Z.lxor (v0 s) m) (v1 s) (v2 s) (v3 s).

(** [for (; in != end; in += 8)]: [n] whole words; the rest of [in] is left. *)
Fixpoint sip_blocks (n : nat) (inp : list Z) (s : sip) : list Z * sip :=
  match n with
  | O => (inp, s)
  | S n => sip_blocks n (drop 8 inp) (sip_word s (load64_le inp))
  end.

(** [case i+1: b |= ((uint64_t) in[i]) << (8 * i);], which every [left] above
    [i] reaches by falling through. *)
Definition sip_case (left : Z) (inp : list Z) (b i : Z) : Z :=
  if left >? i then Z.lor b (u64 (Z.shiftl (default 0 (inp !! Z.to_nat i)) (8 * i))) else b.

(** The rounds after the last word. *)
Definition sip_final (s : sip) : Z :=
  let s := mk_sip (v0 s) (v1 s) (Z.lxor (v2 s) 0xff) (v3 s) in
  let s := SIPROUND (SIPROUND (SIPROUND (SIPROUND s))) in
  Z.lxor (Z.lxor (Z.lxor (v0 s) (v1 s)) (v2 s)) (v3 s).

Definition siphash24 (inp k : list Z) : list Z :=
  let inlen := Z.of_nat (length inp) in
  let left := Z.land inlen 7 in
  let b := u64 (Z.shiftl inlen 56) in
  let '(inp, s) := sip_blocks (Z.to_nat (inlen / 8)) inp (sip_init k) in
  let b := foldl (sip_case left inp) b [6; 5; 4; 3; 2; 1; 0] in
  store64_le (sip_final (sip_word s b)).

(** ** The reference *)

(** The message is padded with zeros and, as the last byte, its length. *)
Definition sip_pad (inp : list Z) : list Z :=
  inp ++ replicate (7 - length inp mod 8) 0 ++ [Z.of_nat (length inp) mod 256].

Fixpoint words64 (n : nat) (bs : list Z) : list Z :=
  match n with
  | O => []
  | S n => le_val (take 8 bs) :: words64 n (drop 8 bs)
  end.

(** A word rotated to the left by [n] bits. *)
Definition rotate (n x : Z) : Z := (x * 2 ^ n) mod 2 ^ 64 + x / 2 ^ (64 - n).

(** Half a round, on the words [(a, b, c, d)]: both pairs are added, rotated
    by [m] and [n] bits and mixed, and the first sum is rotated by half a
    word. *)
Definition half_round (m n : Z) (v : Z * Z * Z * Z) : Z * Z * Z * Z :=
  let '(a, b, c, d) := v in
  let a := (a + b) mod 2 ^ 64 in
  let c := (c + d) mod 2 ^ 64 in
  (rotate 32 a, Z.lxor (rotate m b) a, c, Z.lxor (rotate n d) c).

(** The second half exchanges the first and the third word. *)
Definition sip_round (v : Z * Z * Z * Z) : Z * Z * Z * Z :=
  let '(a, b, c, d) := half_round 13 16 v in
  let '(c, b, a, d) := half_round 17 21 (c, b, a, d) in
  (a, b, c, d).

(** The initial state: the key and eight letters of the text per word. *)
Definition nothing_up_my_sleeve : list Z :=
  (λ c, Z.of_N (N_of_ascii c)) <$> list_ascii_of_string "somepseudorandomlygeneratedbytes".

Definition sip_start (k : list Z) : Z * Z * Z * Z :=
  let letters i := be_val (take 8 (drop (8 * i) nothing_up_my_sleeve)) in
  let k0 := le_val (take 8 k) in
  let k1 := le_val (drop 8 k) in
  (Z.lxor k0 (letters 0%nat), Z.lxor k1 (letters 1%nat), Z.lxor k0 (letters 2%nat), Z.lxor k1 (letters 3%nat)).

(** Two rounds per word of the message, four at the end. *)
Definition sip_compress (v : Z * Z * Z * Z) (m : Z) : Z * Z * Z * Z :=
  let '(a, b, c, d) := v in
  let '(a, b, c, d) := Nat.iter 2 sip_round (a, b, c, Z.lxor d m) in
  (Z.lxor a m, b, c, d).

Definition sip_finish (v : Z * Z * Z * Z) : Z :=
  let '(a, b, c, d) := v in
  let '(a, b, c, d) := Nat.iter 4 sip_round (a, b, Z.lxor c 0xff, d) in
  Z.lxor a (Z.lxor b (Z.lxor c d)).

Definition sip_ref (inp k : list Z) : Z :=
  sip_finish (foldl sip_compress (sip_start k) (words64 (length inp / 8 + 1) (sip_pad inp))).

(** ** Lemmas *)

Lemma sip_blocks_spec n inp s :
  sip_blocks n inp s = (drop (8 * n) inp, foldl sip_word s (words64 n inp)).
Proof.
  revert inp s. induction n as [|n IH]; intros inp s; [done|].
  cbn [sip_blocks words64 foldl]. rewrite IH, drop_drop. f_equal. f_equal. lia.
Qed.

Lemma words64_app n rest bs :
  length bs = (8 * n)%nat → words64 (n + 1) (bs ++ rest) = words64 n bs ++ [le_val (take 8 rest)].
Proof.
  revert bs. induction n as [|n IH]; intros bs Hl; simpl.
  - destruct bs; [done|simpl in Hl; lia].
  - rewrite take_app_le, drop_app_le by lia.
    rewrite IH; [done|]. rewrite length_drop. lia.
Qed.

Lemma words64_take n bs k : (8 * n <= k)%nat → words64 n (take k bs) = words64 n bs.
Proof.
  revert bs k. induction n as [|n IH]; intros bs k Hk; [done|]. cbn [words64].
  rewrite take_take, Nat.min_l, List.skipn_firstn_comm, IH by lia. done.
Qed.

Lemma lor_byte h y i : is_u8 y → 0 <= i →
  Z.lor (Z.shiftl h (8 * (i + 1))) (Z.shiftl y (8 * i)) = Z.shiftl (y + 256 * h) (8 * i).
Proof.
  intros Hy Hi. replace (8 * (i + 1)) with (8 + 8 * i) by lia.
  rewrite <- Z.shiftl_shiftl, <- Z.shiftl_lor by lia. f_equal.
  assert (Z.land (Z.shiftl h 8) y = 0) as Hd.
  { apply Z.bits_inj'. intros n Hn. rewrite Z.land_spec, Z.shiftl_spec, Z.bits_0 by done.
    destruct (n <? 8) eqn:E.
    - by rewrite Z.testbit_neg_r by lia.
    - rewrite <- (Z.mod_small y (2 ^ 8)), Z.mod_pow2_bits_high by (done || lia).
      by rewrite andb_false_r. }
  rewrite <- Z.lxor_lor, <- Z.add_nocarry_lxor by done.
  rewrite Z.shiftl_mul_pow2 by lia. change (2 ^ 8) with 256. lia.
Qed.

(** Falling through is gathering the zero-padded tail. *)
Lemma sip_case_pad tl left b i :
  bytes_ok tl → Z.of_nat (length tl) = left → left <= 7 → 0 <= i < 7 →
  sip_case left tl b i =
    Z.lor b (Z.shiftl (default 0 ((tl ++ replicate (7 - length tl) 0) !! Z.to_nat i)) (8 * i)).
Proof.
  intros Hok Hl H7 Hi. unfold sip_case. split_ifs.
  - rewrite lookup_app_l by lia.
    destruct (tl !! Z.to_nat i) as [y|] eqn:Ey.
    + pose proof (Forall_lookup_1 _ _ _ _ Hok Ey) as Hy. simpl. rewrite u64_id; [done|].
      rewrite Z.shiftl_mul_pow2 by lia. unfold is_u64.
      assert (2 ^ (8 * i) <= 2 ^ 48) by (apply Z.pow_le_mono_r; lia).
      assert (0 < 2 ^ (8 * i)) by (apply Z.pow_pos_nonneg; lia).
      assert (0 <= y * 2 ^ (8 * i)) by (apply Z.mul_nonneg_nonneg; int_lia).
      assert (y * 2 ^ (8 * i) <= 255 * 2 ^ 48) by (apply Z.mul_le_mono_nonneg; int_lia).
      lia.
    + apply lookup_ge_None in Ey. lia.
  - rewrite lookup_app_r by lia. rewrite lookup_replicate_2 by lia. simpl.
    by rewrite Z.shiftl_0_l, Z.lor_0_r.
Qed.

Lemma sip_tail tl left L :
  bytes_ok tl → Z.of_nat (length tl) = left → left <= 7 →
  foldl (sip_case left tl) (Z.shiftl L 56) [6; 5; 4; 3; 2; 1; 0] =
    le_val (tl ++ replicate (7 - length tl) 0 ++ [L]).
Proof.
  intros Hok Hl H7. cbn [foldl]. rewrite !sip_case_pad by (done || lia).
  rewrite app_assoc. set (p := tl ++ replicate _ 0).
  assert (bytes_ok p) as Hp.
  { apply Forall_app_2; [done|]. apply Forall_replicate. int_lia. }
  assert (length p = 7%nat) as Hlen by (unfold p; rewrite length_app, length_replicate; lia).
  destruct p as [|p0 [|p1 [|p2 [|p3 [|p4 [|p5 [|p6 [|]]]]]]]]; try discriminate Hlen.
  rewrite !Forall_cons in Hp. destruct Hp as (?&?&?&?&?&?&?&_).
  change (default 0 (_ !! Z.to_nat 6)) with p6. change (default 0 (_ !! Z.to_nat 5)) with p5.
  change (default 0 (_ !! Z.to_nat 4)) with p4. change (default 0 (_ !! Z.to_nat 3)) with p3.
  change (default 0 (_ !! Z.to_nat 2)) with p2. change (default 0 (_ !! Z.to_nat 1)) with p1.
  change (default 0 (_ !! Z.to_nat 0)) with p0. change 56 with (8 * (6 + 1)).
  rewrite (lor_byte L p6 6) by (done || lia).
  change (8 * 6) with (8 * (5 + 1)). rewrite (lor_byte _ p5 5) by (done || lia).
  change (8 * 5) with (8 * (4 + 1)). rewrite (lor_byte _ p4 4) by (done || lia).
  change (8 * 4) with (8 * (3 + 1)). rewrite (lor_byte _ p3 3) by (done || lia).
  change (8 * 3) with (8 * (2 + 1)). rewrite (lor_byte _ p2 2) by (done || lia).
  change (8 * 2) with (8 * (1 + 1)). rewrite (lor_byte _ p1 1) by (done || lia).
  change (8 * 1) with (8 * (0 + 1)). rewrite (lor_byte _ p0 0) by (done || lia).
  rewrite Z.mul_0_r, Z.shiftl_0_r. simpl. lia.
Qed.

Lemma sip_pad_words inp :
  let n := (length inp / 8)%nat in
  let tl := drop (8 * n) inp in
  words64 (n + 1) (sip_pad inp) =
    words64 n inp ++
    [le_val (tl ++ replicate (7 - length tl) 0 ++ [Z.of_nat (length inp) mod 256])].
Proof.
  intros n tl. pose proof (Nat.div_mod_eq (length inp) 8) as Hdm. fold n in Hdm.
  pose proof (Nat.mod_upper_bound (length inp) 8 ltac:(lia)) as Hb.
  assert (length tl = length inp mod 8)%nat as Htl by (unfold tl; rewrite length_drop; lia).
  unfold sip_pad. rewrite <- Htl. rewrite <- (take_drop (8 * n) inp) at 1. fold tl.
  rewrite <- app_assoc, words64_app by (rewrite length_take; lia).
  rewrite words64_take by lia. rewrite take_ge; [done|].
  rewrite !length_app, length_replicate. simpl. lia.
Qed.

(** *** The rounds *)

Definition sip_tuple (s : sip) : Z * Z * Z * Z := (v0 s, v1 s, v2 s, v3 s).

Definition sip_ok (s : sip) : Prop := is_u64 (v0 s) ∧ is_u64 (v1 s) ∧ is_u64 (v2 s) ∧ is_u64 (v3 s).

Lemma u64_high_bits x i : is_u64 x → 64 <= i → Z.testbit x i = false.
Proof. intros Hx Hi. rewrite <- (Z.mod_small x (2 ^ 64)) by done. by apply Z.mod_pow2_bits_high. Qed.

Lemma u64_from_bits x : 0 <= x → (∀ i, 64 <= i → Z.testbit x i = false) → is_u64 x.
Proof.
  intros Hx Hb. split; [done|]. rewrite (Z.div_mod x (2 ^ 64)) by lia.
  assert (x / 2 ^ 64 = 0) as ->; [|pose proof (Z.mod_pos_bound x (2 ^ 64)); lia].
  apply Z.bits_inj'. intros i Hi. rewrite Z.div_pow2_bits, Z.bits_0 by lia. apply Hb. lia.
Qed.

Lemma rotl64_rotate x n : is_u64 x → 0 < n < 64 → rotl64 x n = rotate n x.
Proof.
  intros Hx Hn. unfold rotl64, rotate, u64. rewrite Z.shiftl_mul_pow2, Z.shiftr_div_pow2 by lia.
  assert (Z.land (x * 2 ^ n mod 2 ^ 64) (x / 2 ^ (64 - n)) = 0) as Hd.
  { apply Z.bits_inj'. intros i Hi. rewrite Z.land_spec, Z.bits_0. destruct (decide (i < n)) as [Hin|Hin].
    - rewrite Z.mod_pow2_bits_low, Z.mul_pow2_bits_low by lia. done.
    - rewrite <- Z.shiftr_div_pow2, Z.shiftr_spec by lia. rewrite (u64_high_bits x) by (done || lia). apply andb_false_r. }
  by rewrite <- Z.lxor_lor, <- Z.add_nocarry_lxor by done.
Qed.

Lemma is_u64_lxor x y : is_u64 x → is_u64 y → is_u64 (Z.lxor x y).
Proof.
  intros Hx Hy. apply u64_from_bits; [apply Z.lxor_nonneg; destruct Hx, Hy; tauto|].
  intros i Hi. by rewrite Z.lxor_spec, !u64_high_bits.
Qed.

Lemma is_u64_rotl x n : is_u64 x → 0 < n < 64 → is_u64 (rotl64 x n).
Proof.
  intros Hx Hn. pose proof (u64_range (Z.shiftl x n)) as Hl.
  assert (0 <= Z.shiftr x (64 - n)) as Hr by (apply Z.shiftr_nonneg; apply Hx).
  apply u64_from_bits; [apply Z.lor_nonneg; split; [apply Hl|done]|].
  intros i Hi. unfold rotl64. rewrite Z.lor_spec, Z.shiftr_spec, !u64_high_bits by (done || lia). done.
Qed.

Lemma SIPROUND_ref s : sip_ok s → sip_ok (SIPROUND s) ∧ sip_tuple (SIPROUND s) = sip_round (sip_tuple s).
Proof.
  destruct s as [a b c d]. intros (Ha & Hb & Hc & Hd). cbn [v0 v1 v2 v3] in *.
  unfold SIPROUND, sip_round, half_round, sip_tuple, sip_ok. cbn [v0 v1 v2 v3].
  assert (is_u64 (Z.lxor (rotl64 b 13) (u64 (a + b)))) by auto using is_u64_lxor, is_u64_rotl, u64_range with lia.
  assert (is_u64 (Z.lxor (rotl64 d 16) (u64 (c + d)))) by auto using is_u64_lxor, is_u64_rotl, u64_range with lia.
  split; [split_and!; auto 6 using is_u64_lxor, is_u64_rotl, u64_range with lia|].
  fold (u64 (a + b)) (u64 (c + d)). rewrite <- (rotl64_rotate b 13), <- (rotl64_rotate d 16) by (done || lia).
  rewrite <- (rotl64_rotate (u64 (a + b)) 32) by (apply u64_range || lia). cbv iota beta.
  rewrite <- !rotl64_rotate by (first [done | apply u64_range | lia]). done.
Qed.

Lemma sip_word_ref s m : sip_ok s → is_u64 m →
  sip_ok (sip_word s m) ∧ sip_tuple (sip_word s m) = sip_compress (sip_tuple s) m.
Proof.
  intros (Ha & Hb & Hc & Hd) Hm. unfold sip_word, sip_compress, sip_tuple at 2. cbn [Nat.iter nat_rect].
  set (s1 := mk_sip _ _ _ (Z.lxor (v3 s) m)). assert (sip_ok s1) as H1 by (split_and!; first [done | by apply is_u64_lxor]).
  destruct (SIPROUND_ref s1 H1) as [H2 E2]. destruct (SIPROUND_ref _ H2) as [H3 E3].
  change (v0 s, v1 s, v2 s, Z.lxor (v3 s) m) with (sip_tuple s1). rewrite <- E2, <- E3.
  clear E2 E3. revert H3. generalize (SIPROUND (SIPROUND s1)). intros s3 (G0 & G1 & G2 & G3).
  split; [|reflexivity]. split; [by apply is_u64_lxor|]. split; [exact G1|]. split; [exact G2|exact G3].
Qed.

Lemma sip_final_ref s : sip_ok s → sip_final s = sip_finish (sip_tuple s).
Proof.
  intros (Ha & Hb & Hc & Hd). unfold sip_final, sip_finish, sip_tuple. cbn [Nat.iter nat_rect].
  set (s1 := mk_sip _ _ (Z.lxor (v2 s) 0xff) _).
  assert (sip_ok s1) as H1 by (split_and!; first [done | apply is_u64_lxor; [done|unfold is_u64; lia]]).
  destruct (SIPROUND_ref s1 H1) as [H2 E2]. destruct (SIPROUND_ref _ H2) as [H3 E3].
  destruct (SIPROUND_ref _ H3) as [H4 E4]. destruct (SIPROUND_ref _ H4) as [H5 E5].
  change (v0 s, v1 s, Z.lxor (v2 s) 255, v3 s) with (sip_tuple s1). rewrite <- E2, <- E3, <- E4, <- E5.
  generalize (SIPROUND (SIPROUND (SIPROUND (SIPROUND s1)))). intros s5. unfold sip_tuple. by rewrite !Z.lxor_assoc.
Qed.

Lemma le_val_u64 bs : bytes_ok bs → (length bs <= 8)%nat → is_u64 (le_val bs).
Proof.
  intros Hb Hl. pose proof (le_val_bound bs Hb) as [H0 H1]. split; [done|].
  eapply Z.lt_le_trans; [exact H1|]. change (2 ^ 64) with (256 ^ 8). apply Z.pow_le_mono_r; lia.
Qed.

Lemma sip_init_ref k : bytes_ok k → length k = 16%nat → sip_ok (sip_init k) ∧ sip_tuple (sip_init k) = sip_start k.
Proof.
  intros Hk Hl. unfold sip_init, sip_start, load64_le, sip_tuple, sip_ok. cbn [v0 v1 v2 v3].
  rewrite (take_ge (drop 8 k)) by (rewrite length_drop; lia).
  assert (is_u64 (le_val (take 8 k))) by (apply le_val_u64; [by apply Forall_take|rewrite length_take; lia]).
  assert (is_u64 (le_val (drop 8 k))) by (apply le_val_u64; [by apply Forall_drop|rewrite length_drop; lia]).
  split; [split_and!; (apply is_u64_lxor; [unfold is_u64; lia|done])|].
  rewrite !(Z.lxor_comm (le_val _)). reflexivity.
Qed.

Lemma sip_words_ref ws : ∀ s, sip_ok s → Forall is_u64 ws →
  sip_ok (foldl sip_word s ws) ∧ sip_tuple (foldl sip_word s ws) = foldl sip_compress (sip_tuple s) ws.
Proof.
  induction ws as [|m ws IH]; intros s Hs Hws; [done|]. apply Forall_cons in Hws as [Hm Hws]. cbn [foldl].
  destruct (sip_word_ref s m Hs Hm) as [H1 <-]. by apply IH.
Qed.

Lemma words64_u64 n : ∀ bs, bytes_ok bs → Forall is_u64 (words64 n bs).
Proof.
  induction n as [|n IH]; intros bs Hb; constructor.
  - apply le_val_u64; [by apply Forall_take|rewrite length_take; lia].
  - apply IH. by apply Forall_drop.
Qed.

(** The loop and the [switch] go over the words of the padded message. *)
Lemma siphash24_words inp k : bytes_ok inp →
  siphash24 inp k =
    le_bytes 8 (sip_final (foldl sip_word (sip_init k) (words64 (length inp / 8 + 1) (sip_pad inp)))).
Proof.
  intros Hok. unfold siphash24, store64_le. rewrite sip_blocks_spec.
  set (n := (length inp / 8)%nat).
  assert (Z.to_nat (Z.of_nat (length inp) / 8) = n) as ->.
  { change 8 with (Z.of_nat 8). by rewrite <- Nat2Z.inj_div, Nat2Z.id. }
  pose proof (sip_pad_words inp) as Hw. cbv zeta in Hw. fold n in Hw. rewrite Hw.
  set (tl := drop (8 * n) inp).
  pose proof (Nat.div_mod_eq (length inp) 8) as Hdm. fold n in Hdm.
  pose proof (Nat.mod_upper_bound (length inp) 8 ltac:(lia)) as Hb.
  assert (length tl = length inp mod 8)%nat as Htl by (unfold tl; rewrite length_drop; lia).
  rewrite foldl_app. cbn [foldl]. do 3 f_equal.
  change 7 with (Z.ones 3). rewrite Z.land_ones by lia. change (2 ^ 3) with (Z.of_nat 8).
  rewrite <- Nat2Z.inj_mod. unfold u64. rewrite Z.shiftl_mul_pow2 by lia.
  change (2 ^ 64) with (256 * 2 ^ 56). rewrite Z.mul_mod_distr_r by lia.
  rewrite <- (Z.shiftl_mul_pow2 (_ mod 256)) by lia.
  apply (sip_tail tl); [by apply Forall_drop|lia..].
Qed.

(** C30: the loop and the fall-through [switch] of [siphash24] compute
    SipHash-2-4 of the padded message, as the independent reference has it,
    for every key of sixteen bytes and every message, and the eight bytes
    stored are the little-endian value of that hash. *)
Theorem siphash24_correct inp k :
  bytes_ok inp → bytes_ok k → length k = 16%nat → siphash24 inp k = le_bytes 8 (sip_ref inp k).
Proof.
  intros Hok Hk Hlk. rewrite siphash24_words by done. unfold sip_ref. f_equal.
  destruct (sip_init_ref k Hk Hlk) as [H0 E0]. rewrite <- E0.
  destruct (sip_words_ref (words64 (length inp / 8 + 1) (sip_pad inp)) (sip_init k) H0) as [H1 E1].
  - apply words64_u64. unfold sip_pad. apply Forall_app_2; [done|]. apply Forall_app_2; [apply Forall_replicate; int_lia|].
    constructor; [|constructor]. unfold is_u8. pose proof (Z.mod_pos_bound (Z.of_nat (length inp)) 256). lia.
  - by rewrite sip_final_ref, E1.
Qed.

(** The test vector of the SipHash paper: key 00..0f, message 00..0e. *)
Lemma siphash24_correct_witness :
  le_bytes 8 (sip_ref (seqZ 0 15) (seqZ 0 16)) = le_bytes 8 0xa129ca6149be45e5.
Proof.
  rewrite <- (siphash24_correct (seqZ 0 15) (seqZ 0 16)).
  - vm_compute. reflexivity.
  - apply Forall_forall. intros x Hx. apply elem_of_seqZ in Hx. int_lia.
  - apply Forall_forall. intros x Hx. apply elem_of_seqZ in Hx. int_lia.
  - reflexivity.
Defined.

Lemma siphash24_ok inp k : bytes_ok (siphash24 inp k) ∧ length (siphash24 inp k) = 8%nat.
Proof.
  unfold siphash24, store64_le. destruct (sip_blocks _ _ _).
  split; [apply le_bytes_ok|apply length_le_bytes].
Qed.
