(* ===== verification/HashMap.v ===== *)
(** * HashMap: the open-addressing table behind the peer table (src/hashmap.c)

    The table is an array of slots probed linearly over at most
    [MAX_CHAIN_LENGTH] slots; it doubles when it is half full or when a chain
    has no room.  Keys are the [key_size] bytes a key pointer points to,
    values are addresses ([any_t], [NULL] is 0).  [to_map] is the abstract
    view, a finite map from keys to addresses; the theorems say that under
    [hm_inv] every operation is the finite-map operation on that view. *)

From Stdlib Require Import ZArith Lia ZifyBool.
From stdpp Require Import base tactics numbers list gmap.
From S2P Require Import Prelude SipHash.

Local Open Scope Z_scope.

(** ** Data *)

(** [enum map_status] *)
Definition MAP_OK : Z := 0.
Definition MAP_OMEM : Z := -1.
Definition MAP_FULL : Z := -2.
Definition MAP_MISSING : Z := -3.

Definition INITIAL_SIZE : Z := 256.
Definition MAX_CHAIN_LENGTH : nat := 8.

Definition siphash24_KEYBYTES : nat := 16.

(** [any_t]: an address. *)
Abbreviation any_t := Z.
Definition NULL : any_t := 0.

(** The bytes a [mkey_t] points to; [None] is the null pointer. *)
Abbreviation mkey := (list Z).

Record hashmap_element := mk_elem {
  e_key : option mkey;
  e_in_use : Z;
  e_data : any_t }.

Record hashmap_map := mk_map {
  m_table_size : Z;
  m_size : Z;
  m_key_size : Z;
  m_data : list hashmap_element;
  m_seed : list Z }.

(** A slot as [calloc] makes it and as removal leaves it. *)
Definition blank : hashmap_element := mk_elem None 0 NULL.

(** The allocator: whether a request for so many elements succeeds. *)
Class CallocEnv := calloc_ok : Z → bool.

Definition set_data (m : hashmap_map) (d : list hashmap_element) (size : Z) : hashmap_map :=
  mk_map (m_table_size m) size (m_key_size m) d (m_seed m).

(** ** Operations *)

(** [calloc_ok] stands for the allocations of the table and of its array. *)
Definition hashmap_new `{CallocEnv} (key_size : Z) : option hashmap_map :=
  if calloc_ok INITIAL_SIZE
  then Some (mk_map INITIAL_SIZE 0 key_size (replicate (Z.to_nat INITIAL_SIZE) blank)
               (replicate siphash24_KEYBYTES 0))
  else None.

Definition hashmap_hash_int (m : hashmap_map) (key : mkey) : Z :=
  le_val (siphash24 key (m_seed m)) mod m_table_size m.

(** [in_use == 1 && memcmp(slot.key, key, key_size) == 0]; comparing with a
    null key is undefined. *)
Definition key_matches (e : hashmap_element) (key : mkey) : option bool :=
  if e_in_use e =? 1 then k ← e_key e; Some (bool_decide (k = key)) else Some false.

(** The probing loop of [hashmap_hash]. *)
Fixpoint hash_probe (m : hashmap_map) (key : mkey) (n : nat) (curr : Z) : option Z :=
  match n with
  | O => Some MAP_FULL
  | S n =>
      e ← m_data m !! Z.to_nat curr;
      if e_in_use e =? 0 then Some curr else
      b ← key_matches e key;
      if b : bool then Some curr else
      hash_probe m key n ((curr + 1) mod m_table_size m)
  end.

Definition hashmap_hash (m : hashmap_map) (key : mkey) : option Z :=
  if m_size m >=? m_table_size m / 2 then Some MAP_FULL
  else hash_probe m key MAX_CHAIN_LENGTH (hashmap_hash_int m key).

(** [m->data[index]] set to a key and value, and [m->size++]. *)
Definition set_slot (m : hashmap_map) (index : Z) (key : mkey) (value : any_t) :
    option hashmap_map :=
  _ ← m_data m !! Z.to_nat index;
  Some (set_data m (<[Z.to_nat index := mk_elem (Some key) 1 value]> (m_data m)) (m_size m + 1)).

Section rehash.
Context `{CallocEnv}.
(** [hashmap_put], which the rehashing loop calls. *)
Variable put : hashmap_map → mkey → any_t → outcome (hashmap_map * Z).

(** The loop of [hashmap_rehash] over the old array. *)
Fixpoint rehash_loop (curr : list hashmap_element) (m : hashmap_map) :
    outcome (hashmap_map * Z) :=
  match curr with
  | [] => Done (m, MAP_OK)
  | e :: curr =>
      if e_in_use e =? 0 then rehash_loop curr m else
      k ← of_option (e_key e);
      r ← put m k (e_data e);
      if negb (r.2 =? MAP_OK) then Done r else rehash_loop curr r.1
  end.

Definition rehash_with (m : hashmap_map) : outcome (hashmap_map * Z) :=
  n ← of_option (int_mul 2 (m_table_size m));
  if negb (calloc_ok n) then Done (m, MAP_OMEM) else
  rehash_loop (m_data m)
    (mk_map n 0 (m_key_size m) (replicate (Z.to_nat n) blank) (m_seed m)).
End rehash.

(** [hashmap_put] and [hashmap_rehash] call each other; every rehash doubles
    the table, so that the fuel counts doublings. *)
Fixpoint hashmap_put `{CallocEnv} (fuel : nat) (m : hashmap_map) (key : mkey) (value : any_t) :
    outcome (hashmap_map * Z) :=
  match fuel with
  | O => OutOfFuel
  | S fuel =>
      index ← of_option (hashmap_hash m key);
      if index =? MAP_FULL then
        r ← rehash_with (hashmap_put fuel) m;
        if r.2 =? MAP_OMEM then Done (r.1, MAP_OMEM)
        else hashmap_put fuel r.1 key value
      else
        m ← of_option (set_slot m index key value);
        Done (m, MAP_OK)
  end.

Definition hashmap_rehash `{CallocEnv} (fuel : nat) (m : hashmap_map) :
    outcome (hashmap_map * Z) :=
  rehash_with (hashmap_put fuel) m.

(** The probing loop of [hashmap_get]: the index of the matching slot. *)
Fixpoint get_probe (m : hashmap_map) (key : mkey) (n : nat) (curr : Z) : option (option Z) :=
  match n with
  | O => Some None
  | S n =>
      e ← m_data m !! Z.to_nat curr;
      b ← key_matches e key;
      if b : bool then Some (Some curr) else
      get_probe m key n ((curr + 1) mod m_table_size m)
  end.

(** Blanking a slot, and [m->size--]. *)
Definition clear_slot (m : hashmap_map) (index : Z) : hashmap_map :=
  set_data m (<[Z.to_nat index := blank]> (m_data m)) (m_size m - 1).

(** The result: the map, the status and what is stored through [arg]. *)
Definition hashmap_get (m : hashmap_map) (key : mkey) (remove : bool) :
    option (hashmap_map * Z * any_t) :=
  o ← get_probe m key MAX_CHAIN_LENGTH (hashmap_hash_int m key);
  match o with
  | Some curr =>
      e ← m_data m !! Z.to_nat curr;
      Some (if remove then clear_slot m curr else m, MAP_OK, e_data e)
  | None => Some (m, MAP_MISSING, NULL)
  end.

(** [None] is the null pointer. *)
Definition hashmap_length (m : option hashmap_map) : Z :=
  match m with Some m => m_size m | None => 0 end.

(** *** Iterators: an iterator is the map and an index, initially -1. *)

Definition hashmap_it_new : Z := -1.

(** The scan [for (it->i++; it->i < table_size; it->i++)], [n] slots left. *)
Fixpoint it_scan (n : nat) (m : hashmap_map) (i : Z) : option (Z * option hashmap_element) :=
  match n with
  | O => Some (i, None)
  | S n =>
      e ← m_data m !! Z.to_nat i;
      if e_in_use e =? 0 then it_scan n m (i + 1) else Some (i, Some e)
  end.

(** The new index and the element found; no element is [MAP_MISSING]. *)
Definition hashmap_it_next (m : hashmap_map) (i : Z) : option (Z * option hashmap_element) :=
  it_scan (Z.to_nat (m_table_size m - (i + 1))) m (i + 1).

Definition hashmap_it_remove (m : hashmap_map) (i : Z) : option (hashmap_map * Z) :=
  if (i <? 0) || (i >=? m_table_size m) then Some (m, MAP_MISSING) else
  e ← m_data m !! Z.to_nat i;
  if e_in_use e =? 0 then Some (m, MAP_MISSING) else Some (clear_slot m i, MAP_OK).

(** The client's loop [while (hashmap_it_next(it, ..) == MAP_OK) body]: the
    body sees the element and says whether [hashmap_it_remove] is called on
    the iterator. *)
Fixpoint while_next {St} (fuel : nat) (body : St → hashmap_element → option (St * bool))
    (s : St) (m : hashmap_map) (i : Z) : outcome (St * hashmap_map) :=
  match fuel with
  | O => OutOfFuel
  | S fuel =>
      r ← of_option (hashmap_it_next m i);
      match r.2 with
      | None => Done (s, m)
      | Some e =>
          b ← of_option (body s e);
          m ← (if b.2 : bool then of_option (fst <$> hashmap_it_remove m r.1) else Done m);
          while_next fuel body b.1 m r.1
      end
  end.

(** One iteration per slot and the last one that finds nothing. *)
Definition it_fuel (m : hashmap_map) : nat := S (Z.to_nat (m_table_size m)).

(** ** The abstract view and the invariant *)

Definition slot_entry (e : hashmap_element) : option (mkey * any_t) :=
  if e_in_use e =? 0 then None else k ← e_key e; Some (k, e_data e).

Definition entries_of (d : list hashmap_element) : list (mkey * any_t) := omap slot_entry d.
#[global] Arguments entries_of : simpl never.
Abbreviation entries m := (entries_of (m_data m)).

Definition to_map (m : hashmap_map) : gmap mkey any_t := list_to_map (entries m).

(** A used slot carries a key and lies in the probing chain of that key. *)
Definition slot_ok (m : hashmap_map) (i : nat) (e : hashmap_element) : Prop :=
  e_in_use e = 0 ∨
  (e_in_use e = 1 ∧ ∃ k j, e_key e = Some k ∧ (j < MAX_CHAIN_LENGTH)%nat ∧
     Z.of_nat i = (hashmap_hash_int m k + Z.of_nat j) mod m_table_size m).

Definition MAX_TABLE : Z := 2 ^ 30.

Record hm_inv (m : hashmap_map) : Prop := {
  inv_table : INITIAL_SIZE <= m_table_size m < MAX_TABLE;
  inv_len : Z.of_nat (length (m_data m)) = m_table_size m;
  inv_slots : ∀ i e, m_data m !! i = Some e → slot_ok m i e;
  inv_nodup : NoDup (entries m).*1;
  inv_count : m_size m = Z.of_nat (length (entries m)) }.

(** A request for [2^30] slots (24 GiB) does not succeed. *)
Class CallocBounded `{CallocEnv} : Prop :=
  calloc_bounded n : MAX_TABLE <= n → calloc_ok n = false.

(** The doublings that take the smallest table beyond any allocation. *)
Definition PUT_FUEL : nat := 23.

(** A slot in use with key [k]. *)
Definition holds (e : hashmap_element) (k : mkey) : Prop :=
  e_in_use e = 1 ∧ e_key e = Some k.

#[global] Instance holds_dec e k : Decision (holds e k) := _.

(** ** Lemmas on slots and entries *)

Lemma slot_entry_holds m i e k v :
  slot_ok m i e → slot_entry e = Some (k, v) ↔ holds e k ∧ e_data e = v.
Proof.
  unfold slot_ok, slot_entry, holds. intros [Hs|(Hs & k' & j & Hk & _)].
  - rewrite Hs. simpl. split; [done|]. by intros [[? _] _].
  - rewrite Hs, Hk. simpl. split; [by intros [= -> ->]|]. by intros [[_ [= ->]] ->].
Qed.

Lemma key_matches_spec m i e k :
  slot_ok m i e → key_matches e k = Some (bool_decide (holds e k)).
Proof.
  unfold slot_ok, key_matches. intros [Hs|(Hs & k' & j & Hk & _)]; rewrite Hs; simpl.
  - rewrite bool_decide_eq_false_2; [done|]. unfold holds. intros [? _]; congruence.
  - rewrite Hk. simpl. f_equal. apply bool_decide_ext. unfold holds. split; [by intros ->|].
    intros [_ ?]; congruence.
Qed.

Lemma to_map_Some m k v :
  hm_inv m →
  to_map m !! k = Some v ↔ ∃ i e, m_data m !! i = Some e ∧ holds e k ∧ e_data e = v.
Proof.
  intros I. unfold to_map. rewrite <- elem_of_list_to_map by apply I.
  unfold entries_of. rewrite list_elem_of_omap. split.
  - intros (e & He & Hs). apply list_elem_of_lookup in He as [i Hi].
    exists i, e. split; [done|]. by apply (slot_entry_holds m i); [apply I|].
  - intros (i & e & Hi & He). exists e. split; [by apply list_elem_of_lookup; eauto|].
    apply (slot_entry_holds m i); [by apply I|done].
Qed.

Lemma to_map_None m k i e :
  hm_inv m → to_map m !! k = None → m_data m !! i = Some e → ¬ holds e k.
Proof.
  intros I Hn Hi He. assert (to_map m !! k = Some (e_data e)) as Hc; [|by rewrite Hc in Hn].
  apply to_map_Some; eauto.
Qed.

Lemma entries_cons e d : entries_of (e :: d) = option_list (slot_entry e) ++ entries_of d.
Proof. unfold entries_of. simpl. by destruct (slot_entry e). Qed.

(** The entries around a slot. *)
Lemma entries_insert d i e e' :
  d !! i = Some e →
  entries_of (<[i := e']> d) =
    entries_of (take i d) ++ option_list (slot_entry e') ++ entries_of (drop (S i) d).
Proof.
  intros Hi. rewrite insert_take_drop by (by eapply lookup_lt_Some).
  unfold entries_of. rewrite omap_app. simpl. by destruct (slot_entry e').
Qed.

Lemma entries_split d i e :
  d !! i = Some e →
  entries_of d =
    entries_of (take i d) ++ option_list (slot_entry e) ++ entries_of (drop (S i) d).
Proof. intros Hi. rewrite <- (list_insert_id d i e) at 1 by done. by apply (entries_insert d i e e). Qed.

Lemma slot_ok_ext m m' i e :
  m_table_size m' = m_table_size m → m_seed m' = m_seed m → slot_ok m i e → slot_ok m' i e.
Proof. unfold slot_ok, hashmap_hash_int. by intros -> ->. Qed.

Lemma hash_int_range m k : hm_inv m → 0 <= hashmap_hash_int m k < m_table_size m.
Proof.
  intros []. unfold INITIAL_SIZE in *. apply Z.mod_pos_bound. lia.
Qed.

Lemma step_mod c j T : 0 < T → ((c + 1) mod T + Z.of_nat j) mod T = (c + Z.of_nat (S j)) mod T.
Proof. intros. rewrite Z.add_mod_idemp_l by lia. f_equal. lia. Qed.

Lemma in_table m c : hm_inv m → 0 <= c < m_table_size m → ∃ e, m_data m !! Z.to_nat c = Some e.
Proof. intros [] ?. apply lookup_lt_is_Some. lia. Qed.

(** Blanking a used slot deletes its key. *)
Lemma clear_slot_spec m i e k :
  hm_inv m → 0 <= i → m_data m !! Z.to_nat i = Some e → holds e k →
  hm_inv (clear_slot m i) ∧ to_map (clear_slot m i) = delete k (to_map m).
Proof.
  intros I Hi0 Hi Hk. pose proof (entries_split _ _ _ Hi) as Hs.
  pose proof (entries_insert _ _ _ blank Hi) as Hb.
  assert (slot_entry e = Some (k, e_data e)) as He.
  { apply (slot_entry_holds m (Z.to_nat i)); [by apply I|done]. }
  rewrite He in Hs. simpl in Hs, Hb. pose proof (inv_nodup _ I) as Hnd.
  rewrite Hs, fmap_app, fmap_cons in Hnd. apply NoDup_app in Hnd as (H1 & H2 & H3).
  apply NoDup_cons in H3 as [H4 H5]. simpl in *.
  assert (k ∉ (entries_of (take (Z.to_nat i) (m_data m))).*1) as H6.
  { intros Hin. eapply H2; [done|]. by left. }
  split.
  - destruct I. constructor; simpl; try done.
    + by rewrite length_insert.
    + intros i' e' He'. apply list_lookup_insert_Some in He' as [(<- & <- & _)|[_ He']].
      * by left.
      * by eapply slot_ok_ext; [..|apply inv_slots0].
    + rewrite Hb, fmap_app. apply NoDup_app. split_and!; try done.
      intros x Hx Hx'. eapply H2; [done|]. by right.
    + rewrite inv_count0, Hs, Hb, !length_app. simpl. lia.
  - unfold to_map. simpl. rewrite Hb, Hs, !list_to_map_app. simpl.
    rewrite <- insert_union_r, delete_insert_eq by by apply not_elem_of_list_to_map_1.
    rewrite delete_id; [done|].
    apply lookup_union_None. split; by apply not_elem_of_list_to_map_1.
Qed.

(** Filling a free slot of the chain of a new key inserts it. *)
Lemma set_slot_spec m i e k v j :
  hm_inv m → to_map m !! k = None → (j < MAX_CHAIN_LENGTH)%nat →
  i = (hashmap_hash_int m k + Z.of_nat j) mod m_table_size m →
  m_data m !! Z.to_nat i = Some e → e_in_use e = 0 →
  ∃ m', set_slot m i k v = Some m' ∧ hm_inv m' ∧ to_map m' = <[k := v]> (to_map m) ∧
        m_table_size m' = m_table_size m ∧ m_seed m' = m_seed m.
Proof.
  intros I Hn Hj Hij Hi He. unfold set_slot. rewrite Hi. simpl.
  eexists; split; [done|].
  pose proof (entries_split _ _ _ Hi) as Hs.
  pose proof (entries_insert _ _ _ (mk_elem (Some k) 1 v) Hi) as Hb.
  assert (slot_entry e = None) as Hse by (unfold slot_entry; by rewrite He).
  rewrite Hse in Hs. simpl in Hs, Hb. unfold to_map in Hn. rewrite Hs in Hn.
  apply not_elem_of_list_to_map_2 in Hn. rewrite fmap_app in Hn.
  apply not_elem_of_app in Hn as [Hn1 Hn2].
  pose proof (inv_nodup _ I) as Hnd. rewrite Hs, fmap_app in Hnd.
  apply NoDup_app in Hnd as (H1 & H2 & H3).
  assert (0 <= i) by (pose proof (inv_table _ I); unfold INITIAL_SIZE in *; subst i;
    apply Z.mod_pos_bound; lia).
  split_and!; [|unfold to_map; simpl; rewrite Hb, Hs, !list_to_map_app; simpl|done..].
  - destruct I. constructor; simpl; try done.
    + by rewrite length_insert.
    + intros i' e' He'. apply list_lookup_insert_Some in He' as [(<- & <- & _)|[_ He']].
      * right. split; [done|]. exists k, j. split_and!; [done..|].
        rewrite Z2Nat.id by done. exact Hij.
      * by eapply slot_ok_ext; [..|apply inv_slots0].
    + rewrite Hb, fmap_app. apply NoDup_app. split_and!; try done.
      * intros x Hx [->|Hx']%elem_of_cons; [done|]. by eapply H2.
      * by apply NoDup_cons.
    + rewrite inv_count0, Hs, Hb, !length_app. simpl. lia.
  - by rewrite insert_union_r by by apply not_elem_of_list_to_map_1.
Qed.

Lemma get_probe_spec m key n curr :
  hm_inv m → 0 <= curr < m_table_size m →
  (∃ c e, get_probe m key n curr = Some (Some c) ∧ 0 <= c ∧
          m_data m !! Z.to_nat c = Some e ∧ holds e key) ∨
  (get_probe m key n curr = Some None ∧
   ∀ j e, (j < n)%nat →
     m_data m !! Z.to_nat ((curr + Z.of_nat j) mod m_table_size m) = Some e → ¬ holds e key).
Proof.
  intros I. pose proof (inv_table _ I) as HT. unfold INITIAL_SIZE in HT.
  revert curr. induction n as [|n IH]; intros curr Hc; simpl; [right; split; [done|lia]|].
  destruct (in_table m curr I Hc) as [e He]. rewrite He. simpl.
  rewrite (key_matches_spec m (Z.to_nat curr)) by by apply I. simpl.
  case_bool_decide as Hh; [left; exists curr, e; split_and!; done || lia|].
  destruct (IH ((curr + 1) mod m_table_size m)) as [Hl|[Hr Hno]];
    [apply Z.mod_pos_bound; lia|by left|]. right. split; [done|].
  intros [|j] e' Hj He'.
  - rewrite Z.add_0_r, Z.mod_small in He' by lia. congruence.
  - apply (Hno j); [lia|]. by rewrite step_mod by lia.
Qed.

Lemma hash_probe_spec m key n curr :
  hm_inv m → to_map m !! key = None → 0 <= curr < m_table_size m →
  hash_probe m key n curr = Some MAP_FULL ∨
  ∃ j e, (j < n)%nat ∧
    hash_probe m key n curr = Some ((curr + Z.of_nat j) mod m_table_size m) ∧
    m_data m !! Z.to_nat ((curr + Z.of_nat j) mod m_table_size m) = Some e ∧ e_in_use e = 0.
Proof.
  intros I Hn. pose proof (inv_table _ I) as HT. unfold INITIAL_SIZE in HT.
  revert curr. induction n as [|n IH]; intros curr Hc; simpl; [by left|].
  destruct (in_table m curr I Hc) as [e He]. rewrite He. simpl.
  destruct (e_in_use e =? 0) eqn:Eu.
  { right. exists O, e. rewrite Z.add_0_r, Z.mod_small by lia. split_and!; [lia|done..|lia]. }
  rewrite (key_matches_spec m (Z.to_nat curr)) by by apply I. simpl.
  rewrite bool_decide_eq_false_2 by by eapply to_map_None.
  destruct (IH ((curr + 1) mod m_table_size m)) as [->|(j & e' & Hj & -> & He' & Hu)];
    [apply Z.mod_pos_bound; lia|by left|].
  right. exists (S j), e'. rewrite step_mod in * by lia. split_and!; [lia|done..].
Qed.

(** [hashmap_get] finds exactly the keys of the abstract map. *)
Lemma get_lookup m key :
  hm_inv m →
  ∃ o, get_probe m key MAX_CHAIN_LENGTH (hashmap_hash_int m key) = Some o ∧
    match o with
    | Some c => ∃ e, 0 <= c ∧ m_data m !! Z.to_nat c = Some e ∧ holds e key ∧
                     to_map m !! key = Some (e_data e)
    | None => to_map m !! key = None
    end.
Proof.
  intros I. destruct (get_probe_spec m key MAX_CHAIN_LENGTH (hashmap_hash_int m key) I)
    as [(c & e & Hg & Hc & He & Hh)|[Hg Hno]]; [by apply hash_int_range|..].
  - exists (Some c). split; [done|]. exists e. split_and!; [done..|].
    apply to_map_Some; eauto 6.
  - exists None. split; [done|]. destruct (to_map m !! key) as [v|] eqn:Ev; [exfalso|done].
    apply (to_map_Some m key v I) in Ev as (i & e & Hi & [Hu Hk] & _).
    destruct (inv_slots _ I i e Hi) as [?|(_ & k & j & Hk' & Hj & Hij)]; [lia|].
    assert (k = key) as -> by congruence.
    apply (Hno j e Hj); [|by split]. rewrite <- Hij, Nat2Z.id. done.
Qed.

Lemma hashmap_get_spec m key remove :
  hm_inv m →
  match to_map m !! key with
  | Some v =>
      ∃ m', hashmap_get m key remove = Some (m', MAP_OK, v) ∧ hm_inv m' ∧
            to_map m' = if remove then delete key (to_map m) else to_map m
  | None => hashmap_get m key remove = Some (m, MAP_MISSING, NULL)
  end.
Proof.
  intros I. unfold hashmap_get. destruct (get_lookup m key I) as (o & -> & Ho). simpl.
  destruct o as [c|]; [|by rewrite Ho].
  destruct Ho as (e & Hc & He & Hh & ->). rewrite He. simpl.
  eexists; split; [done|]. destruct remove; [|done]. by apply (clear_slot_spec m c e).
Qed.

(** *** Insertion *)

(** What is left when no memory was given for an array twice the size of the
    one the table has by then.  Entries are lost only if the table had been
    doubled before. *)
Definition refused `{CallocEnv} (m m' : hashmap_map) : Prop :=
  calloc_ok (2 * m_table_size m') = false ∧ to_map m' ⊆ to_map m ∧
  (m_table_size m' = m_table_size m → m' = m).

Definition put_post `{CallocEnv} (m : hashmap_map) (k : mkey) (v : any_t) (m' : hashmap_map) (st : Z) : Prop :=
  hm_inv m' ∧ m_table_size m <= m_table_size m' ∧
  ((st = MAP_OK ∧ to_map m' = <[k := v]> (to_map m)) ∨
   (st = MAP_OMEM ∧ hashmap_hash m k = Some MAP_FULL ∧ refused m m')).

Lemma entries_replicate n : entries_of (replicate n blank) = [].
Proof. by induction n. Qed.

Lemma empty_inv n ks seed :
  INITIAL_SIZE <= n < MAX_TABLE →
  hm_inv (mk_map n 0 ks (replicate (Z.to_nat n) blank) seed) ∧
  to_map (mk_map n 0 ks (replicate (Z.to_nat n) blank) seed) = ∅.
Proof.
  intros Hn. unfold INITIAL_SIZE in Hn. split.
  - constructor; simpl; rewrite ?entries_replicate, ?length_replicate;
      unfold INITIAL_SIZE; try (done || lia); [|constructor].
    intros i e He. apply lookup_replicate in He as [-> _]. by left.
  - unfold to_map. simpl. by rewrite entries_replicate.
Qed.

Definition slot_shape (e : hashmap_element) : Prop :=
  e_in_use e = 0 ∨ (e_in_use e = 1 ∧ ∃ k, e_key e = Some k).

Section put_lemmas.
Context `{CallocEnv} (put : hashmap_map → mkey → any_t → outcome (hashmap_map * Z)).
(** The tables for which [put] is known to work, closed under growth. *)
Context (enough : Z → Prop) (Hmono : ∀ a b, a <= b → enough a → enough b).
Hypothesis Hput : ∀ m k v, hm_inv m → enough (m_table_size m) → to_map m !! k = None →
  ∃ m' st, put m k v = Done (m', st) ∧ put_post m k v m' st.

Lemma rehash_loop_spec curr m :
  Forall slot_shape curr → NoDup (entries_of curr).*1 →
  hm_inv m → enough (m_table_size m) →
  (∀ k, k ∈ (entries_of curr).*1 → to_map m !! k = None) →
  ∃ m' st, rehash_loop put curr m = Done (m', st) ∧ hm_inv m' ∧
    m_table_size m <= m_table_size m' ∧
    ((st = MAP_OK ∧ to_map m' = to_map m ∪ list_to_map (entries_of curr)) ∨
     (st = MAP_OMEM ∧ to_map m' ⊆ to_map m ∪ list_to_map (entries_of curr) ∧
      calloc_ok (2 * m_table_size m') = false)).
Proof.
  revert m. induction curr as [|e curr IH]; intros m Hsh Hnd I He Hdis; simpl.
  { exists m, MAP_OK. split_and!; try done. left. by rewrite (right_id_L ∅ (∪)). }
  apply Forall_cons in Hsh as [[Hu|(Hu & k & Hk)] Hsh].
  { rewrite Hu. simpl. unfold entries_of in *. simpl in *.
    assert (slot_entry e = None) as Hse by (unfold slot_entry; by rewrite Hu).
    rewrite Hse in *. by apply IH. }
  rewrite Hu, Hk. simpl. unfold entries_of in *. simpl in *.
  assert (slot_entry e = Some (k, e_data e)) as Hse by (unfold slot_entry; by rewrite Hu, Hk).
  rewrite Hse in *. simpl in *. apply NoDup_cons in Hnd as [Hk' Hnd].
  assert (to_map m !! k = None) as Hn by (apply Hdis; by left).
  destruct (Hput m k (e_data e) I He Hn) as (m1 & st & -> & I1 & HT & Hpost). simpl.
  destruct Hpost as [[-> Hm1]|(-> & _ & Hc & Hm1 & _)]; simpl.
  - destruct (IH m1) as (m' & st & -> & I' & HT' & Hc); try done.
    + by eapply Hmono.
    + intros k0 Hk0. rewrite Hm1, lookup_insert_ne by (intros ->; done).
      apply Hdis. by right.
    + exists m', st. rewrite <- insert_union_r, insert_union_l, <- Hm1 by done.
      split_and!; try done. lia.
  - exists m1, MAP_OMEM. split_and!; try done. right. split; [done|].
    split; [|done]. etrans; [done|]. apply map_union_subseteq_l.
Qed.
End put_lemmas.

Lemma inv_shape m : hm_inv m → Forall slot_shape (m_data m).
Proof.
  intros I. apply Forall_lookup. intros i e Hi.
  destruct (inv_slots _ I i e Hi) as [?|(? & k & _ & ? & _)]; [by left|right; eauto].
Qed.

(** With the table large enough for the fuel, [hashmap_put] of a new key
    returns; it never runs out of fuel and is never undefined. *)
Lemma hashmap_put_total `{CallocBounded} f m k v :
  hm_inv m → MAX_TABLE <= m_table_size m * 2 ^ Z.of_nat f → to_map m !! k = None →
  ∃ m' st, hashmap_put (S f) m k v = Done (m', st) ∧ put_post m k v m' st.
Proof.
  revert m k v. induction f as [|f IH]; intros m k v I Hf Hn.
  { pose proof (inv_table _ I). change (2 ^ Z.of_nat 0) with 1 in Hf. lia. }
  pose proof (inv_table _ I) as HT. unfold INITIAL_SIZE, MAX_TABLE in HT.
  assert (hashmap_hash m k = Some MAP_FULL ∨
    ∃ j e, (j < MAX_CHAIN_LENGTH)%nat ∧
      let i := (hashmap_hash_int m k + Z.of_nat j) mod m_table_size m in
      hashmap_hash m k = Some i ∧ m_data m !! Z.to_nat i = Some e ∧ e_in_use e = 0) as Hh.
  { unfold hashmap_hash. destruct (m_size m >=? _); [by left|].
    apply hash_probe_spec; [done..|]. by apply hash_int_range. }
  remember (S f) as f1 eqn:Hf1. cbn [hashmap_put].
  destruct Hh as [Hfull|(j & e & Hj & -> & He & Hu)].
  2: { simpl. set (i := (_ + _) mod _) in *. assert (0 <= i) by (apply Z.mod_pos_bound; lia).
    destruct (i =? MAP_FULL) eqn:Ei; [unfold MAP_FULL in Ei; lia|].
    destruct (set_slot_spec m i e k v j) as (m' & -> & I' & Hm & HT' & _); [done..|]. simpl.
    exists m', MAP_OK. split; [done|]. split_and!; [done|lia|by left]. }
  rewrite Hfull. simpl. unfold rehash_with, int_mul, INT_MIN, INT_MAX. if_true. simpl.
  destruct (calloc_ok (2 * m_table_size m)) eqn:Ec; simpl.
  2: { exists m, MAP_OMEM. split; [done|]. split_and!; [done|lia|by right]. }
  assert (2 * m_table_size m < MAX_TABLE) as H2.
  { destruct (Z_lt_le_dec (2 * m_table_size m) MAX_TABLE) as [|Hle]; [done|].
    rewrite (calloc_bounded _ Hle) in Ec. done. }
  rewrite Hf1, Nat2Z.inj_succ, Z.pow_succ_r in Hf by lia.
  destruct (empty_inv (2 * m_table_size m) (m_key_size m) (m_seed m)) as [I0 Hm0].
  { unfold INITIAL_SIZE. lia. }
  destruct (rehash_loop_spec (hashmap_put f1) (λ T, MAX_TABLE <= T * 2 ^ Z.of_nat f))
    with (curr := m_data m)
         (m := mk_map (2 * m_table_size m) 0 (m_key_size m)
                 (replicate (Z.to_nat (2 * m_table_size m)) blank) (m_seed m))
    as (m1 & st & -> & I1 & HT1 & Hpost); simpl; try done.
  - intros a b Hab Ha. assert (0 < 2 ^ Z.of_nat f) by (apply Z.pow_pos_nonneg; lia). nia.
  - by apply inv_shape.
  - by apply I.
  - nia.
  - intros k' _. by rewrite Hm0.
  - simpl in HT1. rewrite Hm0, (left_id_L ∅ (∪)) in Hpost. fold (to_map m) in Hpost.
    destruct Hpost as [[-> Hm1]|(-> & Hm1 & Hc)]; simpl.
    + destruct (IH m1 k v I1) as (m' & st & -> & I' & HT' & Hp).
      * assert (0 < 2 ^ Z.of_nat f) by (apply Z.pow_pos_nonneg; lia). nia.
      * by rewrite Hm1.
      * exists m', st. split; [done|]. unfold put_post, refused in *. rewrite Hm1 in Hp. split; [done|]. split; [lia|].
        destruct Hp as [?|(-> & _ & ? & ? & _)]; [by left|]. right. split_and!; [done..|lia].
    + exists m1, MAP_OMEM. split; [done|]. split; [done|]. split; [lia|]. right. split; [done|]. split; [done|].
      split_and!; [done..|lia].
Qed.

(** *** Iteration *)

(** The loop as a pass over the array: what is left of it and the state. *)
Fixpoint fold_slots {St} (body : St → hashmap_element → option (St * bool))
    (d : list hashmap_element) (s : St) : option (St * list hashmap_element) :=
  match d with
  | [] => Some (s, [])
  | e :: d =>
      if e_in_use e =? 0 then
        r ← fold_slots body d s; Some (r.1, e :: r.2)
      else
        b ← body s e;
        r ← fold_slots body d b.1;
        Some (r.1, (if b.2 : bool then blank else e) :: r.2)
  end.

Fixpoint used (d : list hashmap_element) : Z :=
  match d with
  | [] => 0
  | e :: d => (if e_in_use e =? 0 then 0 else 1) + used d
  end.

Lemma it_next_skip m l1 e l2 :
  m_data m = l1 ++ e :: l2 → m_table_size m = Z.of_nat (length (m_data m)) →
  hashmap_it_next m (Z.of_nat (length l1) - 1) =
    if e_in_use e =? 0 then hashmap_it_next m (Z.of_nat (length (l1 ++ [e])) - 1)
    else Some (Z.of_nat (length l1), Some e).
Proof.
  intros Hd HT. unfold hashmap_it_next. rewrite HT, Hd, !length_app. simpl.
  replace (Z.to_nat _) with (S (length l2)) by lia. simpl.
  replace (Z.of_nat (length l1) - 1 + 1) with (Z.of_nat (length l1)) by lia.
  rewrite Nat2Z.id, Hd, lookup_app_r, Nat.sub_diag by done. simpl.
  destruct (e_in_use e =? 0); [|done]. f_equal; lia.
Qed.

Lemma set_data_id m d size : m_data m = d → m_size m = size → set_data m d size = m.
Proof. intros <- <-. by destruct m. Qed.

Lemma while_next_spec {St} (body : St → hashmap_element → option (St * bool)) l2 :
  ∀ fuel s m l1, m_data m = l1 ++ l2 → m_table_size m = Z.of_nat (length (m_data m)) →
  (length l2 < fuel)%nat →
  while_next fuel body s m (Z.of_nat (length l1) - 1) =
    match fold_slots body l2 s with
    | None => Undef
    | Some (s', l2') => Done (s', set_data m (l1 ++ l2') (m_size m - (used l2 - used l2')))
    end.
Proof.
  induction l2 as [|e l2 IH]; intros fuel s m l1 Hd HT Hf;
    (destruct fuel as [|fuel]; [simpl in Hf; lia|]); cbn [while_next].
  { rewrite app_nil_r in Hd. unfold hashmap_it_next. rewrite HT, Hd.
    replace (Z.to_nat _) with O by lia. simpl. rewrite app_nil_r.
    by rewrite set_data_id by (done || lia). }
  rewrite (it_next_skip m l1 e l2) by done. cbn [fold_slots used].
  destruct (e_in_use e =? 0) eqn:Eu.
  - specialize (IH (S fuel) s m (l1 ++ [e])). cbn [while_next] in IH.
    rewrite IH by (rewrite <- ?app_assoc; simpl in *; done || lia).
    destruct (fold_slots body l2 s) as [[s' l2']|]; simpl; [|done].
    rewrite <- app_assoc. simpl. rewrite Eu. done.
  - simpl. destruct (body s e) as [[s1 rm]|]; simpl; [|done].
    destruct rm; simpl.
    + unfold hashmap_it_remove. rewrite HT, Hd, length_app. simpl.
      if_false. rewrite Nat2Z.id, lookup_app_r, Nat.sub_diag by done. simpl. rewrite Eu. simpl.
      assert (m_data (clear_slot m (Z.of_nat (length l1))) = (l1 ++ [blank]) ++ l2) as Hd'.
      { unfold clear_slot. simpl. rewrite Nat2Z.id, Hd, <- app_assoc.
        by rewrite insert_app_r_alt, Nat.sub_diag by done. }
      specialize (IH fuel s1 (clear_slot m (Z.of_nat (length l1))) (l1 ++ [blank])).
      rewrite length_app in IH. simpl in IH.
      replace (Z.of_nat (length l1 + 1) - 1) with (Z.of_nat (length l1)) in IH by lia.
      rewrite IH; [|done| |simpl in Hf; lia].
      2: { simpl. rewrite length_insert. exact HT. }
      destruct (fold_slots body l2 s1) as [[s' l2']|]; simpl; [|done].
      unfold set_data. simpl. rewrite <- app_assoc. simpl. do 3 f_equal. lia.
    + specialize (IH fuel s1 m (l1 ++ [e])). rewrite length_app in IH. simpl in IH.
      replace (Z.of_nat (length l1 + 1) - 1) with (Z.of_nat (length l1)) in IH by lia.
      rewrite IH by (rewrite <- ?app_assoc; simpl in *; done || lia).
      destruct (fold_slots body l2 s1) as [[s' l2']|]; simpl; [|done].
      rewrite <- app_assoc. simpl. rewrite Eu. do 3 f_equal. lia.
Qed.

(** The client's loop from a fresh iterator. *)
(** One iteration of a loop that removes nothing. *)
Lemma while_next_step {St} fuel (body : St → any_t → option St) s m i :
  while_next (S fuel) (λ s e, s ← body s (e_data e); Some (s, false)) s m i =
    (r ← of_option (hashmap_it_next m i);
     match r.2 with
     | None => Done (s, m)
     | Some e =>
         s ← of_option (body s (e_data e));
         while_next fuel (λ s e, s ← body s (e_data e); Some (s, false)) s m r.1
     end).
Proof.
  cbn [while_next]. destruct (hashmap_it_next m i) as [[i' [e|]]|]; simpl; [|done..].
  by destruct (body s (e_data e)).
Qed.

Lemma while_next_all {St} (body : St → hashmap_element → option (St * bool)) s m :
  hm_inv m →
  while_next (it_fuel m) body s m hashmap_it_new =
    match fold_slots body (m_data m) s with
    | None => Undef
    | Some (s', d') => Done (s', set_data m d' (m_size m - (used (m_data m) - used d')))
    end.
Proof.
  intros []. change hashmap_it_new with (Z.of_nat (length (@nil hashmap_element)) - 1).
  rewrite (while_next_spec body (m_data m)); [done|done|lia|].
  unfold it_fuel. lia.
Qed.

(** The same pass on the entries: the state and the entries that stay. *)
Fixpoint fold_entries {St} (f : St → any_t → option (St * bool))
    (l : list (mkey * any_t)) (s : St) : option (St * list (mkey * any_t)) :=
  match l with
  | [] => Some (s, [])
  | kv :: l =>
      b ← f s kv.2;
      r ← fold_entries f l b.1;
      Some (r.1, if b.2 : bool then r.2 else kv :: r.2)
  end.

(** Slots are kept or blanked. *)
Definition thinned : list hashmap_element → list hashmap_element → Prop :=
  Forall2 (λ e e', e' = e ∨ e' = blank).

Lemma fold_slots_entries {St} (f : St → any_t → option (St * bool)) d s :
  Forall slot_shape d →
  match fold_entries f (entries_of d) s with
  | None => fold_slots (λ s e, f s (e_data e)) d s = None
  | Some (s', l') =>
      ∃ d', fold_slots (λ s e, f s (e_data e)) d s = Some (s', d') ∧
            entries_of d' = l' ∧ thinned d d'
  end.
Proof.
  intros Hd. revert s. induction Hd as [|e d He Hd IH]; intros s; simpl.
  { exists []. split_and!; [done..|constructor]. }
  rewrite entries_cons. assert (slot_entry e =
    if e_in_use e =? 0 then None else k ← e_key e; Some (k, e_data e)) as Hse by done.
  destruct He as [Hu|(Hu & k & Hk)]; rewrite Hu, ?Hk in *; simpl in *; rewrite Hse; simpl.
  - specialize (IH s). destruct (fold_entries f (entries_of d) s) as [[s' l']|].
    + destruct IH as (d' & -> & Hl & Ht). exists (e :: d'). simpl.
      rewrite entries_cons, Hse. split_and!; [done..|by constructor; [left|]].
    + by rewrite IH.
  - destruct (f s (e_data e)) as [[s1 rm]|]; simpl; [|done]. specialize (IH s1).
    destruct (fold_entries f (entries_of d) s1) as [[s' l']|]; simpl; [|by rewrite IH].
    destruct IH as (d' & -> & Hl & Ht). simpl. destruct rm; simpl.
    + exists (blank :: d'). split_and!; [done..|by constructor; [right|]].
    + exists (e :: d'). rewrite entries_cons, Hse, <- Hl.
      split_and!; [done..|by constructor; [left|]].
Qed.

Lemma used_entries d : Forall slot_shape d → used d = Z.of_nat (length (entries_of d)).
Proof.
  induction 1 as [|e d He Hd IH]; [done|]. rewrite entries_cons, length_app. simpl.
  unfold slot_entry. destruct He as [Hu|(Hu & k & Hk)]; rewrite Hu, ?Hk; simpl; lia.
Qed.

Lemma thinned_sublist d d' : thinned d d' → entries_of d' `sublist_of` entries_of d.
Proof.
  induction 1 as [|e e' d d' He Hd IH]; [done|]. rewrite !entries_cons.
  destruct He as [->| ->]; [by apply sublist_app|].
  by apply sublist_inserts_l.
Qed.

Lemma thinned_inv m d' :
  hm_inv m → thinned (m_data m) d' →
  hm_inv (set_data m d' (m_size m - (used (m_data m) - used d'))).
Proof.
  intros I Ht. pose proof (thinned_sublist _ _ Ht) as Hsub.
  assert (∀ i e', d' !! i = Some e' → slot_ok m i e') as Hok.
  { intros i e' Hi. destruct (Forall2_lookup_r _ _ _ _ _ Ht Hi) as (e & He & [->| ->]).
    - by apply I.
    - by left. }
  assert (Forall slot_shape d') as Hsh.
  { apply Forall_lookup. intros i e' Hi.
    destruct (Hok i e' Hi) as [?|(? & k & _ & ? & _)]; [by left|right; eauto]. }
  constructor; simpl; try by apply I.
  - rewrite <- (Forall2_length _ _ _ Ht). apply I.
  - intros i e' Hi. by eapply slot_ok_ext; [..|apply Hok].
  - eapply sublist_NoDup; [apply I|]. by apply fmap_sublist.
  - rewrite (inv_count _ I), !used_entries by (by apply inv_shape || done). lia.
Qed.

(** A client's loop visits the entries one by one, in table order, and leaves
    a well-formed table of those it did not remove. *)
Lemma while_next_entries {St} (f : St → any_t → option (St * bool)) s m :
  hm_inv m →
  match fold_entries f (entries m) s with
  | None => while_next (it_fuel m) (λ s e, f s (e_data e)) s m hashmap_it_new = Undef
  | Some (s', l') =>
      ∃ m', while_next (it_fuel m) (λ s e, f s (e_data e)) s m hashmap_it_new = Done (s', m') ∧
            hm_inv m' ∧ entries m' = l' ∧ m_table_size m' = m_table_size m
  end.
Proof.
  intros I. rewrite (while_next_all _ _ _ I).
  pose proof (fold_slots_entries f (m_data m) s (inv_shape _ I)) as Hf.
  destruct (fold_entries f (entries m) s) as [[s' l']|]; [|by rewrite Hf].
  destruct Hf as (d' & -> & Hl & Ht). eexists; split; [done|].
  split; [by apply thinned_inv|done].
Qed.

(** ** Properties *)

(** C11: on a well-formed table [hashmap_get] is the lookup of the abstract
    map, with [remove] also the deletion: it finds every stored key and no
    other within its bounded probe, never reads outside the array, and the
    table stays well formed. *)
Theorem hashmap_get_refines m key remove :
  hm_inv m →
  match to_map m !! key with
  | Some v =>
      ∃ m', hashmap_get m key remove = Some (m', MAP_OK, v) ∧ hm_inv m' ∧
            to_map m' = if remove then delete key (to_map m) else to_map m
  | None => hashmap_get m key remove = Some (m, MAP_MISSING, NULL)
  end.
Proof. apply hashmap_get_spec. Qed.

(** A table with one entry, made with an allocator that refuses [2^30]
    slots. *)
Definition small_calloc : CallocEnv := λ n, n <? MAX_TABLE.

Lemma small_calloc_bounded : @CallocBounded small_calloc.
Proof. intros n Hn. unfold calloc_ok, small_calloc. lia. Qed.

Definition empty_map : hashmap_map :=
  mk_map INITIAL_SIZE 0 6 (replicate (Z.to_nat INITIAL_SIZE) blank)
    (replicate siphash24_KEYBYTES 0).

Lemma empty_map_inv : hm_inv empty_map ∧ to_map empty_map = ∅.
Proof. apply empty_inv. unfold INITIAL_SIZE, MAX_TABLE. lia. Qed.

Definition put_or_same (m : hashmap_map) (k : mkey) (v : any_t) : hashmap_map :=
  match @hashmap_put small_calloc PUT_FUEL m k v with Done (m', _) => m' | _ => m end.

Definition sample_key : mkey := [1; 1; 1; 1; 1; 1].
Definition sample_map : hashmap_map := put_or_same empty_map sample_key 4096.

Lemma put_fuel_enough m :
  hm_inv m → MAX_TABLE <= m_table_size m * 2 ^ Z.of_nat (pred PUT_FUEL).
Proof.
  intros []. unfold MAX_TABLE, INITIAL_SIZE in *.
  change (2 ^ Z.of_nat (pred PUT_FUEL)) with 4194304. lia.
Qed.

Lemma hashmap_put_fuel `{CallocBounded} m k v :
  hm_inv m → to_map m !! k = None →
  ∃ m' st, hashmap_put PUT_FUEL m k v = Done (m', st) ∧ put_post m k v m' st.
Proof. intros I. apply (hashmap_put_total (pred PUT_FUEL)); auto using put_fuel_enough. Qed.

Lemma sample_map_inv : hm_inv sample_map ∧ to_map sample_map !! sample_key = Some 4096.
Proof.
  destruct empty_map_inv as [I Hm]. pose proof small_calloc_bounded as Hb.
  destruct (@hashmap_put_fuel small_calloc Hb empty_map sample_key 4096 I)
    as (m' & st & Hp & I' & _ & Hc); [by rewrite Hm|].
  assert (sample_map = m') as <- by (unfold sample_map, put_or_same; by rewrite Hp).
  split; [done|]. vm_compute. reflexivity.
Qed.

Lemma put_empty_inv k : hm_inv (put_or_same empty_map k 4096).
Proof.
  destruct empty_map_inv as [I Hm]. pose proof small_calloc_bounded as Hb.
  destruct (@hashmap_put_fuel small_calloc Hb empty_map k 4096 I) as (m' & st & Hp & I' & _ & _); [by rewrite Hm|].
  unfold put_or_same. by rewrite Hp.
Qed.

Lemma hashmap_get_refines_witness :
  ∃ m', hashmap_get sample_map sample_key true = Some (m', MAP_OK, 4096) ∧
        to_map m' !! sample_key = None.
Proof.
  destruct sample_map_inv as [I Hl].
  pose proof (hashmap_get_refines sample_map sample_key true I) as H.
  rewrite Hl in H. destruct H as (m' & Hg & _ & Hm').
  exists m'. split; [exact Hg|]. rewrite Hm'. apply lookup_delete_eq.
Defined.

(** C10: inserting a new key returns, whatever collisions, rehashing and
    nested rehashing it takes: the mutual recursion of [hashmap_put] and
    [hashmap_rehash] ends (the allocator gives no array of [2^30] slots or
    more), no array access or [int] computation is undefined, and the table is
    well formed again.  Either the status is [MAP_OK] and the abstract map
    gained exactly that key and value.  Or the status is [MAP_OMEM]: then
    there was no place within the probe, the allocator refused an array
    twice the size of the one the table has at the end, and nothing was
    added; if the table still has its old size nothing changed at all, but
    if it had been doubled before, entries that were not moved yet are
    lost. *)
Theorem hashmap_put_refines `{CallocBounded} m key value :
  hm_inv m → to_map m !! key = None →
  ∃ m' st, hashmap_put PUT_FUEL m key value = Done (m', st) ∧ hm_inv m' ∧
    ((st = MAP_OK ∧ to_map m' = <[key := value]> (to_map m)) ∨
     (st = MAP_OMEM ∧ hashmap_hash m key = Some MAP_FULL ∧
      calloc_ok (2 * m_table_size m') = false ∧ to_map m' ⊆ to_map m ∧
      (m_table_size m' = m_table_size m → m' = m))).
Proof.
  intros I Hn. destruct (hashmap_put_fuel m key value I Hn) as (m' & st & Hp & I' & _ & Hc).
  eauto.
Qed.

Lemma hashmap_put_refines_witness :
  ∃ m', @hashmap_put small_calloc PUT_FUEL sample_map [2; 2; 2; 2; 2; 2] 8192 = Done (m', MAP_OK) ∧
    hm_inv m' ∧ to_map m' = <[[2; 2; 2; 2; 2; 2] := 8192]> (to_map sample_map).
Proof.
  destruct sample_map_inv as [I _].
  destruct (@hashmap_put_refines small_calloc small_calloc_bounded sample_map
    [2; 2; 2; 2; 2; 2] 8192 I) as (m' & st & Hp & I' & [[-> Hm]|(_ & Hf & _)]).
  - vm_compute. reflexivity.
  - exists m'. split; [exact Hp|]. split; [exact I'|exact Hm].
  - exfalso. vm_compute in Hf. discriminate Hf.
Defined.

(** Iterating with [hashmap_it_new] and [hashmap_it_next] until
    [MAP_MISSING] terminates, visits every entry of the table exactly once
    and changes nothing. *)
Theorem hashmap_iterate_all m :
  hm_inv m →
  ∃ vs, while_next (it_fuel m) (λ s e, Some (s ++ [e_data e], false)) [] m hashmap_it_new
          = Done (vs, m) ∧
        vs ≡ₚ (map_to_list (to_map m)).*2.
Proof.
  intros I. rewrite (while_next_all _ _ _ I).
  assert (∀ d s, Forall slot_shape d →
    fold_slots (λ s e, Some (s ++ [e_data e], false)) d s = Some (s ++ (entries_of d).*2, d)) as Hd.
  { intros d s Hd. revert s. induction Hd as [|e d He Hd IH]; intros s; simpl.
    - by rewrite app_nil_r.
    - rewrite entries_cons. unfold slot_entry.
      destruct He as [Hu|(Hu & k & Hk)]; rewrite Hu, ?Hk; simpl; rewrite IH; simpl; [done|].
      by rewrite <- app_assoc. }
  rewrite Hd by by apply inv_shape. eexists; split.
  - f_equal. f_equal. apply set_data_id; [done|lia].
  - simpl. unfold to_map. rewrite map_to_list_to_map by apply I. done.
Qed.

(** [hashmap_put] counts every call: putting a key that is already in
    the table overwrites its slot and still increments [size], so that
    [hashmap_length] no longer is the number of entries (the peer table only
    puts keys it has just looked up in vain). *)
Theorem hashmap_put_twice_counts_twice :
  let m1 := put_or_same empty_map sample_key 4096 in
  let m2 := put_or_same m1 sample_key 8192 in
  entries m2 = [(sample_key, 8192)] ∧ hashmap_length (Some m2) = 2.
Proof. vm_compute. split; reflexivity. Qed.

(** Clients reason with the lemmas, not by unfolding the loops. *)
#[global] Arguments hashmap_get : simpl never.
#[global] Opaque hashmap_put while_next.
