(* ===== verification/Sync.v ===== *)
(** * Sync: availability windows (src/sync.c, src/sync.h)

    Time is counted in microseconds ([uint64_t]) and time units (TU, 1024
    microseconds).  An availability window (AW) lasts [aw_period] TU, an
    extended one (EAW) [presence_mode] of them; [last_update] is the start of
    a known EAW and [aw_counter] its number.  The program only ever uses the
    periods [awdl_sync_state_init] sets ([sync_ok]); all counters wrap. *)

From Stdlib Require Import ZArith Lia ZifyBool.
From stdpp Require Import base tactics numbers list.
From S2P Require Import Prelude.

Local Open Scope Z_scope.

Local Ltac Zify.zify_post_hook ::= Z.div_mod_to_equations.

(** ** Data *)

Record awdl_sync_state := mk_sync {
  aw_counter : Z;
  sync_last_update : Z;
  aw_period : Z;
  presence_mode : Z;
  meas_err : Z;
  meas_total : Z }.

(** ** Operations *)

(** The [static inline] functions of ieee80211.h, on [unsigned long]. *)
Definition ieee80211_tu_to_usec (tu : Z) : Z := u64 (1024 * u64 tu).
Definition ieee80211_usec_to_tu (usec : Z) : Z := u64 usec / 1024.

Definition awdl_sync_state_init (now : Z) : awdl_sync_state :=
  mk_sync 0 now 16 4 0 0.

Definition awdl_sync_next_aw_tu (now_usec : Z) (state : awdl_sync_state) : Z :=
  let eaw_period := presence_mode state * aw_period state in
  let time_since := ieee80211_usec_to_tu (u64 (now_usec - sync_last_update state)) in
  let next_aw_tu := u64 (eaw_period - time_since mod eaw_period) in
  u16 next_aw_tu.

Definition awdl_sync_next_aw_us (now_usec : Z) (state : awdl_sync_state) : Z :=
  let eaw_period := ieee80211_tu_to_usec (presence_mode state * aw_period state) in
  let time_since := u64 (now_usec - sync_last_update state) in
  u64 (eaw_period - time_since mod eaw_period).

Definition awdl_sync_current_aw (now_usec : Z) (state : awdl_sync_state) : Z :=
  let eaw_period := presence_mode state * aw_period state in
  let time_since := ieee80211_usec_to_tu (u64 (now_usec - sync_last_update state)) in
  let current_aw :=
    u64 (u64 (aw_counter state + (time_since mod eaw_period) / aw_period state) +
         u64 (presence_mode state * (time_since / eaw_period))) in
  u16 current_aw.

Definition awdl_sync_current_eaw (now_usec : Z) (state : awdl_sync_state) : Z :=
  u16 (awdl_sync_current_aw now_usec state / presence_mode state).

(** Computed on [int]. *)
Definition awdl_sync_error_tu (now_usec time_to_next_aw counter : Z) (state : awdl_sync_state) : Z :=
  (counter / presence_mode state - awdl_sync_current_eaw now_usec state) *
    presence_mode state * aw_period state -
  (time_to_next_aw - awdl_sync_next_aw_tu now_usec state).

Definition awdl_sync_update_last (now_usec time_to_next_aw counter : Z)
    (state : awdl_sync_state) : awdl_sync_state :=
  let eaw_period := presence_mode state * aw_period state in
  mk_sync (Z.land counter 0xfffc)
    (u64 (now_usec - ieee80211_tu_to_usec (u64 (eaw_period - time_to_next_aw))))
    (aw_period state) (presence_mode state) (meas_err state) (meas_total state).

(** ** Invariant *)

Record sync_ok (s : awdl_sync_state) : Prop := {
  ok_period : aw_period s = 16;
  ok_mode : presence_mode s = 4;
  ok_counter : is_u16 (aw_counter s);
  ok_aligned : aw_counter s mod 4 = 0;
  ok_last : is_u64 (sync_last_update s) }.

(** The time since the start of the known EAW. *)
Definition elapsed (now : Z) (s : awdl_sync_state) : Z := u64 (now - sync_last_update s).

Lemma elapsed_range now s : is_u64 (elapsed now s).
Proof. apply u64_range. Qed.

Lemma elapsed_add now s d :
  0 <= d → elapsed now s + d < 2 ^ 64 → elapsed (u64 (now + d)) s = elapsed now s + d.
Proof.
  intros Hd Hlt. pose proof (elapsed_range now s).
  rewrite <- (u64_id (elapsed now s + d)) by int_lia.
  unfold elapsed, u64. rewrite Zminus_mod_idemp_l, Z.add_mod_idemp_l by lia. f_equal. lia.
Qed.

Lemma u16_u64 z : u16 (u64 z) = u16 z.
Proof.
  unfold u16, u64. replace (2 ^ 64) with (2 ^ 16 * 2 ^ 48) by lia.
  rewrite Z.rem_mul_r, Z.mul_comm, Z.mod_add, Z.mod_mod by lia. done.
Qed.

Lemma next_aw_tu_eq now s : sync_ok s →
  awdl_sync_next_aw_tu now s = 64 - (elapsed now s / 1024) mod 64.
Proof.
  intros []. unfold awdl_sync_next_aw_tu, ieee80211_usec_to_tu.
  rewrite ok_period0, ok_mode0. change (4 * 16) with 64.
  rewrite (u64_id (u64 _)) by auto with owl. fold (elapsed now s).
  pose proof (Z.mod_pos_bound (elapsed now s / 1024) 64 ltac:(lia)).
  rewrite u64_id, u16_id by int_lia. done.
Qed.

Lemma next_aw_us_eq now s : sync_ok s →
  awdl_sync_next_aw_us now s = 65536 - elapsed now s mod 65536.
Proof.
  intros []. unfold awdl_sync_next_aw_us, ieee80211_tu_to_usec.
  rewrite ok_period0, ok_mode0. change (u64 (1024 * u64 (4 * 16))) with 65536.
  fold (elapsed now s).
  pose proof (Z.mod_pos_bound (elapsed now s) 65536 ltac:(lia)).
  rewrite u64_id by int_lia. done.
Qed.

(** The AW number is the number of 16-TU periods since the known one. *)
Lemma current_aw_eq now s : sync_ok s →
  awdl_sync_current_aw now s = u16 (aw_counter s + elapsed now s / 16384).
Proof.
  intros []. unfold awdl_sync_current_aw, ieee80211_usec_to_tu.
  rewrite ok_period0, ok_mode0. change (4 * 16) with 64.
  rewrite (u64_id (u64 _)) by auto with owl. fold (elapsed now s).
  set (x := elapsed now s / 1024).
  replace (elapsed now s / 16384) with (x / 16)
    by (unfold x; rewrite Z.div_div by lia; done).
  unfold u64 at 1 2 3. rewrite <- Z.add_mod by lia. fold (u64 (aw_counter s + x mod 64 / 16 + 4 * (x / 64))).
  rewrite u16_u64. f_equal. clearbody x. lia.
Qed.

Lemma current_eaw_eq now s : sync_ok s →
  awdl_sync_current_eaw now s = u16 (aw_counter s + elapsed now s / 16384) / 4.
Proof.
  intros Hs. unfold awdl_sync_current_eaw. rewrite (ok_mode _ Hs), current_aw_eq by done.
  pose proof (u16_range (aw_counter s + elapsed now s / 16384)).
  apply u16_id. int_lia.
Qed.

Lemma land_fffc c : is_u16 c → Z.land c 0xfffc = 4 * (c / 4).
Proof.
  intros Hc. replace 0xfffc with (Z.shiftl (Z.ones 14) 2) by done.
  apply Z.bits_inj'. intros n Hn.
  replace (4 * (c / 4)) with (Z.shiftl (Z.shiftr c 2) 2)
    by (rewrite Z.shiftl_mul_pow2, Z.shiftr_div_pow2 by lia; change (2 ^ 2) with 4; lia).
  rewrite Z.land_spec, !Z.shiftl_spec by done.
  destruct (decide (n < 2)) as [|].
  { rewrite !(Z.testbit_neg_r _ (n - 2)) by lia. apply andb_false_r. }
  rewrite Z.shiftr_spec, Z.sub_add by lia.
  destruct (decide (n < 16)) as [|].
  { rewrite Z.ones_spec_low by lia. apply andb_true_r. }
  rewrite (Z.bits_above_log2 c n); [done|int_lia|].
  destruct (decide (c = 0)) as [->|]; [simpl; lia|].
  apply Z.log2_lt_pow2; [int_lia|]. apply Z.lt_le_trans with (2 ^ 16); [int_lia|].
  apply Z.pow_le_mono_r; lia.
Qed.

Lemma sync_init_ok now : is_u64 now → sync_ok (awdl_sync_state_init now).
Proof. constructor; simpl; [done|done|int_lia|done|done]. Qed.

Lemma sync_update_ok now t c s :
  sync_ok s → is_u16 c → sync_ok (awdl_sync_update_last now t c s).
Proof.
  intros [] Hc. constructor; simpl; [done|done| | |auto with owl]; rewrite land_fffc by done; int_lia.
Qed.
#[export] Hint Resolve sync_init_ok sync_update_ok : owl.

(** The next extended window starts when the time it is away has passed. *)
Lemma next_eaw_start now s :
  sync_ok s → elapsed now s + 65536 < 2 ^ 64 →
  let t := u64 (now + awdl_sync_next_aw_us now s) in
  elapsed t s mod 65536 = 0 ∧
  awdl_sync_current_eaw t s = (awdl_sync_current_eaw now s + 1) mod 16384.
Proof.
  intros Hs Hlt t. subst t. rewrite !current_eaw_eq, next_aw_us_eq by done.
  pose proof (Z.mod_pos_bound (elapsed now s) 65536 ltac:(lia)).
  rewrite elapsed_add by lia. destruct Hs as [_ _ Hc Ha _]. unfold u16, is_u16 in *.
  change (2 ^ 16) with 65536 in *. pose proof (elapsed_range now s) as He. unfold is_u64 in He.
  set (x := elapsed now s) in *. set (c := aw_counter s) in *. clearbody x c. clear Hlt He. split; lia.
Qed.

(** After a correction the start of the known EAW lies [64 - t] TU back. *)
Lemma elapsed_update now t c s : sync_ok s → is_u64 now →
  elapsed now (awdl_sync_update_last now t c s) = u64 (1024 * (64 - t)).
Proof.
  intros [] Hn. unfold elapsed, awdl_sync_update_last, ieee80211_tu_to_usec; simpl.
  rewrite ok_period0, ok_mode0. change (4 * 16) with 64.
  unfold u64. rewrite Zminus_mod_idemp_r, Z.mod_mod, Z.mul_mod_idemp_r by lia.
  replace (now - (now - _)) with ((1024 * ((64 - t) mod 2 ^ 64)) mod 2 ^ 64) by lia.
  by rewrite Z.mod_mod, Z.mul_mod_idemp_r by lia.
Qed.

(** ** Properties *)

(** For the periods the program uses, [awdl_sync_next_aw_tu] and
    [awdl_sync_next_aw_us] return the time to the next extended window, never
    zero and at most one whole window, and the two agree up to the rounding
    of one TU; [awdl_sync_error_tu] stays within [int] whatever a master
    advertises. *)
Theorem sync_next_aw_agree now s t c :
  sync_ok s → is_u16 t → is_u16 c →
  1 <= awdl_sync_next_aw_tu now s <= 64 ∧
  1 <= awdl_sync_next_aw_us now s <= 64 * 1024 ∧
  (awdl_sync_next_aw_tu now s - 1) * 1024 < awdl_sync_next_aw_us now s
    <= awdl_sync_next_aw_tu now s * 1024 ∧
  is_int (awdl_sync_error_tu now t c s).
Proof.
  intros Hs Ht Hc. unfold awdl_sync_error_tu.
  rewrite next_aw_tu_eq, next_aw_us_eq, current_eaw_eq by done.
  destruct Hs as [-> -> _ _ _].
  pose proof (u16_range (aw_counter s + elapsed now s / 16384)) as Hr.
  set (y := u16 _) in *. clearbody y.
  pose proof (elapsed_range now s) as He. set (x := elapsed now s) in *. clearbody x.
  int_lia.
Qed.

(** The window counter is a clock: [k] windows of 16 TU later it has
    advanced by exactly [k], modulo its sixteen bits, and the extended
    counter is a quarter of it, as long as the time since the last update fits the 64 bits. *)
Theorem sync_aw_clock now s k :
  sync_ok s → 0 <= k → elapsed now s + k * 16384 < 2 ^ 64 →
  awdl_sync_current_aw (u64 (now + k * 16384)) s =
    u16 (awdl_sync_current_aw now s + k) ∧
  awdl_sync_current_eaw (u64 (now + k * 16384)) s =
    awdl_sync_current_aw (u64 (now + k * 16384)) s / 4.
Proof.
  intros Hs Hk Hlt. rewrite current_eaw_eq, !current_aw_eq by done. split; [|done].
  rewrite elapsed_add by lia. rewrite Z.div_add by lia. unfold u16. rewrite Z.add_mod_idemp_l by lia. f_equal. lia.
Qed.

(** *** Following a master *)

(** The node adopts what the master announced at its time [now]; [late] is
    the part of a time unit the announcement does not tell. *)
Lemma follow_elapsed now sm tsft s d :
  sync_ok sm → sync_ok s → is_u64 tsft → 0 <= d → elapsed now sm + d < 2 ^ 64 →
  let late := elapsed now sm mod 1024 in
  let s' := awdl_sync_update_last tsft (awdl_sync_next_aw_tu now sm) (awdl_sync_current_aw now sm) s in
  elapsed (u64 (tsft + late + d)) s' = elapsed now sm mod 65536 + d ∧
  aw_counter s' = 4 * ((aw_counter sm / 4 + elapsed now sm / 65536) mod 16384).
Proof.
  intros Hm Hs Ht Hd Hlt late s'. pose proof (elapsed_range now sm) as HE. set (E := elapsed now sm) in *.
  assert (elapsed tsft s' = 1024 * ((E / 1024) mod 64)) as He.
  { unfold s'. rewrite elapsed_update, next_aw_tu_eq by done. fold E.
    rewrite u64_id; [lia|]. pose proof (Z.mod_pos_bound (E / 1024) 64). int_lia. }
  split.
  - assert (1024 * ((E / 1024) mod 64) + late = E mod 65536) as Hsum by (unfold late; int_lia).
    rewrite <- Z.add_assoc, elapsed_add, He; [lia|unfold late; int_lia|]. rewrite He. unfold late in *. int_lia.
  - unfold s'. cbn [aw_counter awdl_sync_update_last]. rewrite current_aw_eq by done. rewrite land_fffc by auto with owl.
    fold E. f_equal. destruct Hm as [_ _ Hc Ha _]. unfold u16. change (2 ^ 16) with 65536. int_lia.
Qed.

Lemma follow_master now sm tsft s d :
  sync_ok sm → sync_ok s → is_u64 tsft → 0 <= d → elapsed now sm + d < 2 ^ 64 →
  let late := elapsed now sm mod 1024 in
  let s' := awdl_sync_update_last tsft (awdl_sync_next_aw_tu now sm) (awdl_sync_current_aw now sm) s in
  awdl_sync_current_aw (u64 (tsft + late + d)) s' = awdl_sync_current_aw (u64 (now + d)) sm ∧
  awdl_sync_next_aw_us (u64 (tsft + late + d)) s' = awdl_sync_next_aw_us (u64 (now + d)) sm.
Proof.
  intros Hm Hs Ht Hd Hlt late s'.
  destruct (follow_elapsed now sm tsft s d Hm Hs Ht Hd Hlt) as [He Hc]. fold late s' in He, Hc.
  assert (sync_ok s') as Hs' by (unfold s'; apply sync_update_ok; [done|]; rewrite current_aw_eq by done; auto with owl).
  rewrite !current_aw_eq, !next_aw_us_eq, He, Hc, (elapsed_add now sm d) by done.
  pose proof (elapsed_range now sm) as HE. set (E := elapsed now sm) in *. clearbody E. clear He Hc.
  destruct Hm as [_ _ Hcm Ha _]. split; [|int_lia].
  unfold u16. change (2 ^ 16) with 65536. int_lia.
Qed.

(** Adopting a master's timing with [awdl_sync_update_last] keeps the
    state well formed and brings the synchronisation error against the very
    same announcement to zero, exactly when the extended counter the
    announcement implies for the moment of reception does not wrap. *)
Theorem sync_update_error_zero now t c s :
  sync_ok s → is_u64 now → is_u16 t → is_u16 c →
  let s' := awdl_sync_update_last now t c s in
  sync_ok s' ∧
  (awdl_sync_error_tu now t c s' = 0 ↔ 0 <= c / 4 + (64 - t) / 64 < 2 ^ 14).
Proof.
  intros Hs Hn Ht Hc s'. assert (sync_ok s') as Hs' by (subst s'; auto with owl).
  split; [done|]. unfold awdl_sync_error_tu.
  rewrite next_aw_tu_eq, current_eaw_eq by done. subst s'. rewrite elapsed_update by done.
  destruct Hs' as [-> -> _ _ _]. cbn [awdl_sync_update_last aw_counter].
  rewrite land_fffc by done. unfold u64, u16.
  change (2 ^ 64) with 18446744073709551616. change (2 ^ 16) with 65536.
  change (2 ^ 14) with 16384.
  destruct (decide (t <= 64)) as [|].
  - rewrite (Z.mod_small (1024 * (64 - t))) by int_lia. int_lia.
  - rewrite <- (Z.mod_add (1024 * (64 - t)) 1 18446744073709551616) by lia.
    rewrite (Z.mod_small (1024 * (64 - t) + _)) by int_lia. int_lia.
Qed.
