(* ===== verification/Channel.v ===== *)
(** * Channel: channels, channel sequences and protocol versions
    (src/channel.c, src/channel.h, src/version.c, src/version.h)

    A channel is the two-byte union of channel.h; which byte is the channel
    number depends on the encoding.  Enumerations are [Z], because values
    from the wire are cast to them unchecked.  Arithmetic on [int] is in
    [option]: overflow is [None]. *)

From Stdlib Require Import ZArith Lia ZifyBool.
From stdpp Require Import base tactics numbers list strings.
From S2P Require Import Prelude.

Local Open Scope Z_scope.

Local Ltac Zify.zify_post_hook ::= Z.to_euclidean_division_equations.

(** ** Data *)

Definition AWDL_CHANSEQ_LENGTH : nat := 16.

(** [enum awdl_chan_encoding] *)
Definition AWDL_CHAN_ENC_SIMPLE : Z := 0.
Definition AWDL_CHAN_ENC_LEGACY : Z := 1.
Definition AWDL_CHAN_ENC_OPCLASS : Z := 3.

(** The union: [simple.chan_num] and [opclass.chan_num] are [val[0]],
    [legacy.chan_num] and [opclass.opclass] are [val[1]]. *)
Record awdl_chan := mk_chan { chan_val0 : Z; chan_val1 : Z }.

#[global] Instance awdl_chan_eq_dec : EqDecision awdl_chan.
Proof. solve_decision. Defined.

(** Both members are bytes. *)
Definition chan_ok (c : awdl_chan) : Prop := is_u8 (chan_val0 c) ∧ is_u8 (chan_val1 c).

Definition CHAN_NULL : awdl_chan := mk_chan 0 0x00.
Definition CHAN_OPCLASS_6 : awdl_chan := mk_chan 6 0x51.
Definition CHAN_OPCLASS_44 : awdl_chan := mk_chan 44 0x80.
Definition CHAN_OPCLASS_149 : awdl_chan := mk_chan 149 0x80.

Record awdl_channel_state := mk_channel {
  ch_enc : Z;
  ch_sequence : list awdl_chan;
  ch_master : awdl_chan;
  ch_current : awdl_chan }.

(** ** Channel sequences *)

(** The loop [for (int i = 0; i < AWDL_CHANSEQ_LENGTH; i++, seq++)] with
    [f i] stored at [seq]: [n] iterations are left. *)
Fixpoint chanseq_loop (f : nat → awdl_chan) (n i : nat) (seq : list awdl_chan) :
    option (list awdl_chan) :=
  match n with
  | O => Some seq
  | S n =>
      _ ← seq !! i;
      chanseq_loop f n (S i) (<[i := f i]> seq)
  end.

Definition awdl_chanseq_init : list awdl_chan → option (list awdl_chan) :=
  chanseq_loop (λ i, if (i <? 8)%nat then CHAN_OPCLASS_149 else CHAN_OPCLASS_6)
    AWDL_CHANSEQ_LENGTH 0.

Definition awdl_chanseq_init_idle : list awdl_chan → option (list awdl_chan) :=
  chanseq_loop (λ i,
    match i with
    | 8%nat => CHAN_OPCLASS_6
    | 0%nat | 9%nat | 10%nat => CHAN_OPCLASS_149
    | _ => CHAN_NULL
    end) AWDL_CHANSEQ_LENGTH 0.

Definition awdl_chanseq_init_static (seq : list awdl_chan) (chan : awdl_chan) :
    option (list awdl_chan) :=
  chanseq_loop (λ _, chan) AWDL_CHANSEQ_LENGTH 0 seq.

Definition awdl_chan_num (chan : awdl_chan) (enc : Z) : Z :=
  if enc =? AWDL_CHAN_ENC_SIMPLE then chan_val0 chan
  else if enc =? AWDL_CHAN_ENC_LEGACY then chan_val1 chan
  else if enc =? AWDL_CHAN_ENC_OPCLASS then chan_val0 chan
  else 0.

Definition awdl_chan_encoding_size (enc : Z) : Z :=
  if enc =? AWDL_CHAN_ENC_SIMPLE then 1
  else if (enc =? AWDL_CHAN_ENC_LEGACY) || (enc =? AWDL_CHAN_ENC_OPCLASS) then 2
  else -1.

(** ** Frequencies *)

Definition ieee80211_channel_to_frequency (chan : Z) : option Z :=
  if chan <=? 0 then Some 0
  else if chan =? 14 then Some 2484
  else if chan <? 14 then c ← int_mul chan 5; int_add 2407 c
  else if chan <? 32 then Some 0
  else if (chan >=? 182) && (chan <=? 196) then c ← int_mul chan 5; int_add 4000 c
  else c ← int_mul chan 5; int_add 5000 c.

Definition ieee80211_frequency_to_channel (freq : Z) : option Z :=
  if freq =? 2484 then Some 14
  else if freq <? 2484 then d ← int_add freq (-2407); Some (Z.quot d 5)
  else if (freq >=? 4910) && (freq <=? 4980) then Some (Z.quot (freq - 4000) 5)
  else if freq <=? 45000 then Some (Z.quot (freq - 5000) 5)
  else if (freq >=? 58320) && (freq <=? 64800) then Some (Z.quot (freq - 56160) 2160)
  else Some 0.

(** ** Versions *)

Definition awdl_version (major minor : Z) : option Z :=
  m ← int_shl major 4;
  Some (u8 (Z.lor (u8 (Z.land m 0xf0)) (Z.land minor 0x0f))).

Definition awdl_version_major (version : Z) : Z := Z.land (Z.shiftr version 4) 0xf.
Definition awdl_version_minor (version : Z) : Z := Z.land version 0xf.

Definition AWDL_DEVCLASS_MACOS : Z := 1.
Definition AWDL_DEVCLASS_IOS : Z := 2.
Definition AWDL_DEVCLASS_TVOS : Z := 8.

Definition awdl_devclass_to_str (devclass : Z) : string :=
  if devclass =? AWDL_DEVCLASS_MACOS then "macOS"
  else if devclass =? AWDL_DEVCLASS_IOS then "iOS"
  else if devclass =? AWDL_DEVCLASS_TVOS then "tvOS"
  else "Unknown".

(** ** Lemmas *)

Lemma chanseq_loop_spec f n : ∀ i pre s,
  length pre = i → length s = n →
  chanseq_loop f n i (pre ++ s) = Some (pre ++ map f (seq i n)).
Proof.
  induction n as [|n IH]; intros i pre s Hp Hs; simpl.
  { by apply nil_length_inv in Hs as ->. }
  destruct s as [|c s]; [done|]. injection Hs as Hs.
  rewrite lookup_app_r, <- Hp, Nat.sub_diag by lia. simpl.
  rewrite insert_app_r_alt, Nat.sub_diag by lia. simpl.
  rewrite cons_middle, app_assoc, (IH (S (length pre))) by (rewrite ?length_app; simpl; lia).
  by rewrite <- app_assoc.
Qed.

Lemma chanseq_fill f s :
  length s = AWDL_CHANSEQ_LENGTH →
  chanseq_loop f AWDL_CHANSEQ_LENGTH 0 s = Some (map f (seq 0 AWDL_CHANSEQ_LENGTH)).
Proof. intros Hs. by apply (chanseq_loop_spec f _ 0 []). Qed.

Lemma chanseq_init_static_eq s c :
  length s = AWDL_CHANSEQ_LENGTH →
  awdl_chanseq_init_static s c = Some (replicate AWDL_CHANSEQ_LENGTH c).
Proof. intros Hs. unfold awdl_chanseq_init_static. by rewrite chanseq_fill. Qed.

(** Four bits above four bits. *)
Lemma pack_nibbles a b : 0 <= a < 16 → 0 <= b < 16 → Z.lor (Z.shiftl a 4) b = 16 * a + b.
Proof.
  intros Ha Hb. pose proof (forall_below 256 (λ v,
    Z.lor (Z.shiftl (v / 16) 4) (v mod 16) =? v) eq_refl (16 * a + b) ltac:(lia)) as H.
  apply Z.eqb_eq in H. rewrite (Z.mul_comm 16), Z.div_add_l, Z.div_small, Z.add_0_r in H by lia.
  rewrite (Z.add_comm (a * 16)), Z.mod_add, Z.mod_small in H by lia. lia.
Qed.

Lemma awdl_version_eq major minor :
  0 <= major < 2 ^ 27 → awdl_version major minor = Some (16 * (major mod 16) + minor mod 16).
Proof.
  intros Hm. unfold awdl_version, int_shl, INT_MAX.
  change 0xf0 with (Z.shiftl (Z.ones 4) 4). change 0x0f with (Z.ones 4).
  assert (Z.shiftl major 4 = major * 16) as Hs by (by rewrite Z.shiftl_mul_pow2 by lia).
  rewrite Hs at 1. if_true. simpl. rewrite <- Z.shiftl_land, !Z.land_ones by lia.
  change (2 ^ 4) with 16. pose proof (Z.mod_pos_bound major 16 ltac:(lia)).
  pose proof (Z.mod_pos_bound minor 16 ltac:(lia)).
  rewrite (u8_id (Z.shiftl _ 4)) by (rewrite Z.shiftl_mul_pow2 by lia; int_lia).
  rewrite pack_nibbles, u8_id by int_lia. done.
Qed.

Lemma unpack_byte a b : 0 <= a < 16 → 0 <= b < 16 →
  awdl_version_major (16 * a + b) = a ∧ awdl_version_minor (16 * a + b) = b.
Proof.
  intros Ha Hb. unfold awdl_version_major, awdl_version_minor.
  change 0xf with (Z.ones 4). rewrite !Z.land_ones, Z.shiftr_div_pow2 by lia.
  change (2 ^ 4) with 16. lia.
Qed.

Lemma pack_byte v : is_u8 v →
  awdl_version (awdl_version_major v) (awdl_version_minor v) = Some v.
Proof.
  intros Hv. pose proof (forall_below 256 (λ v, bool_decide
    (awdl_version (awdl_version_major v) (awdl_version_minor v) = Some v)) eq_refl v Hv) as H.
  by apply bool_decide_eq_true in H.
Qed.

(** ** Properties *)

(** On the channel numbers of the 2.4 GHz and 5 GHz bands the program can
    use, from 1 to 14 and from 32 up to the DMG limit, converting a channel
    to its frequency and back yields the channel, with no [int] overflow; so
    no two of these channels share a frequency. *)
Theorem channel_frequency_roundtrip chan :
  1 <= chan <= 14 ∨ 32 <= chan <= 8000 →
  ∃ freq, ieee80211_channel_to_frequency chan = Some freq ∧ 0 < freq ∧
          ieee80211_frequency_to_channel freq = Some chan.
Proof.
  intros Hc. unfold ieee80211_channel_to_frequency, ieee80211_frequency_to_channel,
    int_mul, int_add, INT_MIN, INT_MAX. change (2 ^ 31) with 2147483648.
  split_ifs; try lia; simpl; split_ifs; try lia;
    (eexists; split; [reflexivity|]; split; [lia|]; split_ifs; try lia; simpl; f_equal; lia).
Qed.

Lemma channel_frequency_roundtrip_witness :
  ∃ freq, ieee80211_channel_to_frequency 44 = Some freq ∧ 0 < freq ∧
          ieee80211_frequency_to_channel freq = Some 44.
Proof. apply (channel_frequency_roundtrip 44). lia. Defined.

(** [awdl_version] packs a major and a minor number into one byte from
    which [awdl_version_major] and [awdl_version_minor] read back their low
    four bits, and every byte is the packing of its own two parts. *)
Theorem version_roundtrip major minor v :
  0 <= major < 2 ^ 27 → is_u8 v →
  (∃ b, awdl_version major minor = Some b ∧ is_u8 b ∧
        awdl_version_major b = major mod 16 ∧ awdl_version_minor b = minor mod 16) ∧
  awdl_version (awdl_version_major v) (awdl_version_minor v) = Some v.
Proof.
  intros Hm Hv. split; [|by apply (pack_byte v)].
  rewrite awdl_version_eq by done. eexists; split; [done|].
  pose proof (Z.mod_pos_bound major 16 ltac:(lia)).
  pose proof (Z.mod_pos_bound minor 16 ltac:(lia)).
  split; [int_lia|]. apply unpack_byte; lia.
Qed.

Lemma version_roundtrip_witness :
  0 <= 3 < 2 ^ 27 ∧ awdl_version (awdl_version_major 0x34) (awdl_version_minor 0x34) = Some 0x34.
Proof. split; [lia|]. apply (version_roundtrip 3 4 0x34); int_lia. Defined.
