(* ===== verification/Election.v ===== *)
(** * Election: the master election (src/election.c, src/election.h)

    The state of one node in the election, how two states compare, and the
    part of [awdl_election_run] that considers one peer.  The loop over the
    peer table is in ElectionRun.  Addresses are lists of six bytes, metrics,
    counters and heights are [uint32_t]. *)

From Stdlib Require Import ZArith Lia ZifyBool.
From stdpp Require Import base tactics numbers list.
From S2P Require Import Prelude.

Local Open Scope Z_scope.

(** ** Data *)

Abbreviation ether_addr := (list Z).

(** A [struct ether_addr] is six bytes. *)
Definition addr_ok (a : ether_addr) : Prop := length a = 6%nat ∧ bytes_ok a.

Definition AWDL_ELECTION_TREE_MAX_HEIGHT : Z := 10.
Definition AWDL_ELECTION_METRIC_INIT : Z := 60.
Definition AWDL_ELECTION_COUNTER_INIT : Z := 0.

Record awdl_election_state := mk_election {
  master_addr : ether_addr;
  sync_addr : ether_addr;
  self_addr : ether_addr;
  height : Z;
  master_metric : Z;
  self_metric : Z;
  master_counter : Z;
  self_counter : Z }.

(** ** Operations *)

Definition compare (a b : Z) : Z := if a <? b then -1 else c_bool (a >? b).

Definition compare_ether_addr (a b : ether_addr) : Z := memcmp a b.

Definition awdl_election_is_sync_master (state : awdl_election_state) (addr : ether_addr) : bool :=
  compare_ether_addr (sync_addr state) addr =? 0.

Definition awdl_election_reset_metric (state : awdl_election_state) : awdl_election_state :=
  mk_election (master_addr state) (sync_addr state) (self_addr state) (height state)
    (master_metric state) AWDL_ELECTION_METRIC_INIT
    (master_counter state) AWDL_ELECTION_COUNTER_INIT.

Definition awdl_election_reset_self (state : awdl_election_state) : awdl_election_state :=
  mk_election (self_addr state) (self_addr state) (self_addr state) 0
    (self_metric state) (self_metric state)
    (self_counter state) (self_counter state).

(** [state] is the memory before the call. *)
Definition awdl_election_state_init (state : awdl_election_state) (self : ether_addr) :
    awdl_election_state :=
  awdl_election_reset_self (awdl_election_reset_metric
    (mk_election self self self (height state) (master_metric state) (self_metric state)
       (master_counter state) (self_counter state))).

Definition awdl_election_compare_master (a b : awdl_election_state) : Z :=
  let result := compare (master_counter a) (master_counter b) in
  if result =? 0 then compare (master_metric a) (master_metric b) else result.

(** The guards of the loop that do not depend on the current candidate: the
    tree limit (on [uint32_t]) and the sync cycle. *)
Definition peer_eligible (self : ether_addr) (peer_state : awdl_election_state) : bool :=
  negb (u32 (height peer_state + 1) >? AWDL_ELECTION_TREE_MAX_HEIGHT) &&
  negb (awdl_election_is_sync_master peer_state self).

(** The comparison of a peer with the current candidate: [true] is "accept". *)
Definition peer_preferred (peer_state master_state : awdl_election_state) : bool :=
  let cmp_metric := awdl_election_compare_master peer_state master_state in
  if cmp_metric <? 0 then false
  else if cmp_metric =? 0 then
    if height peer_state >? height master_state then false
    else if height peer_state =? height master_state then
      negb (compare_ether_addr (self_addr peer_state) (self_addr master_state) <=? 0)
    else true
  else true.

(** The adoption of a new master. *)
Definition adopt_master (state master_state : awdl_election_state) : awdl_election_state :=
  mk_election (master_addr master_state) (self_addr master_state) (self_addr state)
    (u32 (height master_state + 1)) (master_metric master_state) (self_metric state)
    (master_counter master_state) (self_counter state).

(** ** Well-formedness *)

Record election_ok (s : awdl_election_state) : Prop := {
  ok_master : addr_ok (master_addr s);
  ok_sync : addr_ok (sync_addr s);
  ok_self : addr_ok (self_addr s);
  ok_height : is_u32 (height s);
  ok_master_metric : is_u32 (master_metric s);
  ok_self_metric : is_u32 (self_metric s);
  ok_master_counter : is_u32 (master_counter s);
  ok_self_counter : is_u32 (self_counter s) }.

Lemma reset_self_ok s : election_ok s → election_ok (awdl_election_reset_self s).
Proof. intros []. constructor; simpl; done || int_lia. Qed.

Lemma election_init_ok s a : addr_ok a → election_ok (awdl_election_state_init s a).
Proof. intros. constructor; simpl; done || (vm_compute; split; done || congruence). Qed.

Lemma adopt_master_ok s m : election_ok s → election_ok m → election_ok (adopt_master s m).
Proof. intros [] []. constructor; simpl; done || apply u32_range. Qed.
#[export] Hint Resolve reset_self_ok election_init_ok adopt_master_ok : owl.

(** ** The order of the election

    [peer_preferred] is a strict weak order: candidates are ranked by counter,
    then metric, then smaller height, then larger address. *)

Definition rank (a b : awdl_election_state) : Z :=
  if negb (master_counter a =? master_counter b) then Z.sgn (master_counter a - master_counter b)
  else if negb (master_metric a =? master_metric b) then Z.sgn (master_metric a - master_metric b)
  else if negb (height a =? height b) then Z.sgn (height b - height a)
  else memcmp (self_addr a) (self_addr b).

Lemma preferred_rank a b : peer_preferred a b = (0 <? rank a b).
Proof.
  unfold peer_preferred, awdl_election_compare_master, compare, rank, compare_ether_addr, c_bool.
  split_ifs; lia.
Qed.

Lemma rank_refl a : rank a a = 0.
Proof. unfold rank. rewrite !Z.eqb_refl. apply memcmp_refl. Qed.

Lemma rank_opp a b : rank b a = - rank a b.
Proof.
  unfold rank. rewrite (memcmp_opp (self_addr a)).
  rewrite (Z.eqb_sym (master_counter b)), (Z.eqb_sym (master_metric b)), (Z.eqb_sym (height b)).
  split_ifs; lia.
Qed.

Lemma rank_trans a b c :
  addr_ok (self_addr a) → addr_ok (self_addr b) → addr_ok (self_addr c) →
  0 <= rank a b → 0 <= rank b c → 0 <= rank a c.
Proof.
  intros [La _] [Lb _] [Lc _]. unfold rank.
  pose proof (memcmp_trans (self_addr a) (self_addr b) (self_addr c)) as Ht.
  rewrite La, Lb, Lc in Ht. specialize (Ht eq_refl eq_refl).
  split_ifs; lia.
Qed.

Lemma rank_total_eq a b :
  addr_ok (self_addr a) → addr_ok (self_addr b) → rank a b = 0 → self_addr a = self_addr b.
Proof.
  intros [La _] [Lb _]. unfold rank. split_ifs; try lia.
  by apply memcmp_eq; rewrite La, Lb.
Qed.

(** ** The choice among a list of candidates *)

(** The loop of the election on the states of the valid peers. *)
Fixpoint elect (self : ether_addr) (peers : list awdl_election_state)
    (master : awdl_election_state) : awdl_election_state :=
  match peers with
  | [] => master
  | p :: peers =>
      elect self peers
        (if peer_eligible self p && peer_preferred p master then p else master)
  end.

(** The candidates that pass the guards. *)
Definition eligible (self : ether_addr) (peers : list awdl_election_state) :
    list awdl_election_state :=
  filter (λ p : awdl_election_state, peer_eligible self p = true) peers.

Lemma elect_best self peers m :
  Forall (λ p : awdl_election_state, addr_ok (self_addr p)) (m :: peers) →
  (elect self peers m = m ∨ elect self peers m ∈ eligible self peers) ∧
  ∀ p, p = m ∨ p ∈ eligible self peers →
       0 <= rank (elect self peers m) p.
Proof.
  unfold eligible. revert m. induction peers as [|q peers IH]; intros m Hok; simpl.
  { split; [by left|]. intros p [->|Hp]; [by rewrite rank_refl|by apply elem_of_nil in Hp]. }
  apply Forall_cons in Hok as [Hm [Hq Hok]%Forall_cons].
  set (m' := if peer_eligible self q && peer_preferred q m then q else m).
  assert (addr_ok (self_addr m')) as Hm' by (subst m'; by case_match).
  destruct (IH m') as [Hin Hmax]; [by constructor|]. split.
  - rewrite filter_cons. destruct Hin as [->|Hin].
    + subst m'. destruct (peer_eligible self q) eqn:E; simpl; [|by left].
      destruct (peer_preferred q m); [right; by left|by left].
    + right. case_decide; [by right|done].
  - assert (addr_ok (self_addr (elect self peers m'))) as He.
    { destruct Hin as [->|Hin]; [done|]. apply list_elem_of_filter in Hin as [_ Hin].
      by apply (proj1 (Forall_forall _ _) Hok). }
    pose proof (Hmax m' (or_introl eq_refl)) as Hge.
    intros p Hp. assert (p ∈ filter (λ p : awdl_election_state, peer_eligible self p = true) peers ∨
      0 <= rank m' p ∧ addr_ok (self_addr p)) as [Hp'|[Hp' Hok']].
    { subst m'. destruct Hp as [->|Hp].
      - right. split; [|done]. destruct (peer_eligible self q && peer_preferred q m) eqn:E; [|by rewrite rank_refl].
        apply andb_true_iff in E as [_ E]. rewrite preferred_rank in E. lia.
      - rewrite filter_cons in Hp. case_decide as Hd; [|by left].
        apply elem_of_cons in Hp as [->|Hp]; [|by left]. right. split; [|done].
        rewrite Hd. simpl.
        destruct (peer_preferred q m) eqn:E; [by rewrite rank_refl|].
        rewrite preferred_rank in E. rewrite rank_opp. lia. }
    + apply Hmax. by right.
    + by apply (rank_trans _ m').
Qed.

Lemma rank_strict_l a b c :
  addr_ok (self_addr a) → addr_ok (self_addr b) → addr_ok (self_addr c) →
  0 < rank a b → 0 <= rank b c → 0 < rank a c.
Proof.
  intros Ha Hb Hc Hab Hbc. destruct (Z.lt_ge_cases 0 (rank a c)) as [|Hle]; [done|].
  assert (0 <= rank b a) by (apply (rank_trans b c a); rewrite ?(rank_opp a c); auto; lia).
  pose proof (rank_opp a b). lia.
Qed.

Lemma rank_strict_r a b c :
  addr_ok (self_addr a) → addr_ok (self_addr b) → addr_ok (self_addr c) →
  0 <= rank a b → 0 < rank b c → 0 < rank a c.
Proof.
  intros Ha Hb Hc Hab Hbc. destruct (Z.lt_ge_cases 0 (rank a c)) as [|Hle]; [done|].
  assert (0 <= rank c b) by (apply (rank_trans c a b); rewrite ?(rank_opp a c); auto; lia).
  pose proof (rank_opp b c). lia.
Qed.
