(* ===== verification/Peers.v ===== *)
(** * Peers: the table of discovered peers (src/peers.c, src/peers.h)

    The table is a hash map from addresses to pointers; the peers it points
    to live in a heap of their own.  [peers_rep] relates table and heap to
    the abstract view, a finite map from addresses to peers: every pointer of
    the table is live and no two keys share one, and no peer of the heap is
    unreachable ([no_leak]).  Callbacks are functions on a state of their own
    that see the peer. *)

From Stdlib Require Import ZArith Lia ZifyBool.
From stdpp Require Import base tactics numbers list gmap.
From S2P Require Import Prelude SipHash HashMap Channel Election.

Local Open Scope Z_scope.

(** ** Data *)

Definition HOST_NAME_LENGTH_MAX : Z := 64.

(** [enum peers_status] *)
Definition PEERS_UPDATE : Z := 1.
Definition PEERS_OK : Z := 0.
Definition PEERS_MISSING : Z := -1.
Definition PEERS_INTERNAL : Z := -2.

Record awdl_peer := mk_peer {
  peer_addr : ether_addr;
  last_update : Z;
  election : awdl_election_state;
  sequence : list awdl_chan;
  sync_offset : Z;
  peer_name : list Z;
  country_code : list Z;
  infra_addr : ether_addr;
  version : Z;
  devclass : Z;
  supports_v2 : Z;
  sent_mif : Z;
  is_valid : Z }.

Definition set_last_update (now : Z) (p : awdl_peer) : awdl_peer :=
  mk_peer (peer_addr p) now (election p) (sequence p) (sync_offset p) (peer_name p)
    (country_code p) (infra_addr p) (version p) (devclass p) (supports_v2 p) (sent_mif p)
    (is_valid p).

Definition set_is_valid (v : Z) (p : awdl_peer) : awdl_peer :=
  mk_peer (peer_addr p) (last_update p) (election p) (sequence p) (sync_offset p) (peer_name p)
    (country_code p) (infra_addr p) (version p) (devclass p) (supports_v2 p) (sent_mif p) v.

(** The table and the heap of its peers. *)
Record awdl_peers := mk_peers {
  p_map : hashmap_map;
  p_heap : gmap Z awdl_peer }.

Record awdl_peer_state := mk_peer_state {
  ps_peers : awdl_peers;
  ps_timeout : Z;
  ps_clean_interval : Z }.

Definition PEERS_DEFAULT_TIMEOUT : Z := 2000000.
Definition PEERS_DEFAULT_CLEAN_INTERVAL : Z := 1000000.

(** [malloc]: the address it returns (0 when it fails) and what the memory
    holds before it is written. *)
Class MallocEnv := {
  malloc_addr : gmap Z awdl_peer → Z;
  malloc_junk : gmap Z awdl_peer → awdl_peer }.

(** [free(p)]: undefined unless [p] is null or live. *)
Definition heap_free (h : gmap Z awdl_peer) (p : Z) : option (gmap Z awdl_peer) :=
  if p =? NULL then Some h else _ ← h !! p; Some (delete p h).

(** ** Operations *)

Definition awdl_peers_init `{CallocEnv} : option awdl_peers :=
  m ← hashmap_new 6; Some (mk_peers m ∅).

Definition awdl_peer_state_init `{CallocEnv} : option awdl_peer_state :=
  ps ← awdl_peers_init;
  Some (mk_peer_state ps PEERS_DEFAULT_TIMEOUT PEERS_DEFAULT_CLEAN_INTERVAL).

Definition awdl_peers_length (ps : awdl_peers) : Z := hashmap_length (Some (p_map ps)).

Definition awdl_peer_is_valid (p : awdl_peer) : bool :=
  negb (sent_mif p =? 0) && negb (devclass p =? 0) && negb (version p =? 0).

(** The characters of ["NA"] and the terminating zero. *)
Definition country_NA : list Z := [78; 65; 0].

(** The writes of [awdl_peer_new] into memory that holds [junk]. *)
Definition peer_new (junk : awdl_peer) (addr : ether_addr) : option awdl_peer :=
  sequence ← awdl_chanseq_init_static (sequence junk) CHAN_NULL;
  name ← store (peer_name junk) 0 [0];
  country ← store (country_code junk) 0 country_NA;
  Some (mk_peer addr 0 (awdl_election_state_init (election junk) addr) sequence 0 name country
          (infra_addr junk) 0 0 0 0 0).

(** The new peer's address and the heap that holds it; a null pointer is
    written through. *)
Definition awdl_peer_new `{MallocEnv} (h : gmap Z awdl_peer) (addr : ether_addr) :
    option (Z * gmap Z awdl_peer) :=
  let p := malloc_addr h in
  if p =? NULL then None else
  peer ← peer_new (malloc_junk h) addr;
  Some (p, <[p := peer]> h).

Section ops.
Context {E : Type}.
(** A callback and its argument; [None] is a null pointer. *)
Variable cb : option (E → awdl_peer → E).

Definition call_cb (e : E) (p : awdl_peer) : E :=
  match cb with Some f => f e p | None => e end.

(** The code after the label [out]. *)
Definition peer_add_out (ps : awdl_peers) (e : E) (p : Z) (result : Z) :
    outcome (awdl_peers * E * Z) :=
  peer ← of_option (p_heap ps !! p);
  if (is_valid peer =? 0) && awdl_peer_is_valid peer then
    let peer := set_is_valid 1 peer in
    Done (mk_peers (p_map ps) (<[p := peer]> (p_heap ps)), call_cb e peer, result)
  else Done (ps, e, result).

Definition awdl_peer_add `{CallocEnv} `{MallocEnv}
    (ps : awdl_peers) (e : E) (addr : ether_addr) (now : Z) : outcome (awdl_peers * E * Z) :=
  g ← of_option (hashmap_get (p_map ps) addr false);
  let '(m, status, p) := g in
  a ← of_option (if status =? MAP_MISSING then awdl_peer_new (p_heap ps) addr
                 else Some (p, p_heap ps));
  let '(p, h) := a in
  peer ← of_option (h !! p);
  let peer := set_last_update now peer in
  let h := <[p := peer]> h in
  if status =? MAP_OK then peer_add_out (mk_peers m h) e p PEERS_UPDATE else
  r ← hashmap_put PUT_FUEL m (peer_addr peer) p;
  let '(m, status) := r in
  if negb (status =? MAP_OK) then
    h ← of_option (heap_free h p);
    Done (mk_peers m h, e, PEERS_INTERNAL)
  else peer_add_out (mk_peers m h) e p PEERS_OK.

Definition awdl_peer_remove (ps : awdl_peers) (e : E) (addr : ether_addr) :
    option (awdl_peers * E * Z) :=
  g ← hashmap_get (p_map ps) addr true;
  let '(m, status, p) := g in
  if status =? MAP_MISSING then Some (mk_peers m (p_heap ps), e, PEERS_MISSING) else
  peer ← p_heap ps !! p;
  let e := if negb (is_valid peer =? 0) then call_cb e peer else e in
  h ← heap_free (p_heap ps) p;
  Some (mk_peers m h, e, PEERS_OK).

(** One iteration of the loop of [awdl_peers_remove]. *)
Definition peers_remove_body (before : Z) (s : gmap Z awdl_peer * E) (p : Z) :
    option ((gmap Z awdl_peer * E) * bool) :=
  let '(h, e) := s in
  peer ← h !! p;
  if last_update peer <? before then
    let e := if negb (is_valid peer =? 0) then call_cb e peer else e in
    h ← heap_free h p;
    Some ((h, e), true)
  else Some ((h, e), false).

Definition awdl_peers_remove (ps : awdl_peers) (e : E) (before : Z) :
    outcome (awdl_peers * E) :=
  r ← while_next (it_fuel (p_map ps)) (λ s el, peers_remove_body before s (e_data el))
        (p_heap ps, e) (p_map ps) hashmap_it_new;
  let '((h, e), m) := r in
  Done (mk_peers m h, e).
End ops.

(** The status and what is stored through [peer]. *)
Definition awdl_peer_get (ps : awdl_peers) (addr : ether_addr) : option (Z * Z) :=
  g ← hashmap_get (p_map ps) addr false;
  let '(_, status, p) := g in
  if status =? MAP_MISSING then Some (PEERS_MISSING, p) else Some (PEERS_OK, p).

(** The heap [awdl_peers_free] leaves; the table is freed with it. *)
Definition awdl_peers_free (ps : awdl_peers) : outcome (gmap Z awdl_peer) :=
  r ← while_next (it_fuel (p_map ps))
        (λ h el, h ← heap_free h (e_data el); Some (h, true))
        (p_heap ps) (p_map ps) hashmap_it_new;
  Done r.1.

(** *** Iterators: the index of the underlying iterator. *)

Definition awdl_peers_it_new : Z := hashmap_it_new.

(** The new index, the status and the pointer stored through [peer]. *)
Definition awdl_peers_it_next (ps : awdl_peers) (it : Z) : option (Z * Z * option Z) :=
  r ← hashmap_it_next (p_map ps) it;
  Some (r.1, match r.2 with Some _ => PEERS_OK | None => PEERS_MISSING end, e_data <$> r.2).

Definition awdl_peers_it_remove (ps : awdl_peers) (it : Z) : option (awdl_peers * Z) :=
  r ← hashmap_it_remove (p_map ps) it;
  Some (mk_peers r.1 (p_heap ps), if r.2 =? MAP_OK then PEERS_OK else PEERS_MISSING).

(** The loop [while (awdl_peers_it_next(it, &peer) == PEERS_OK)] of a client
    that neither adds nor removes peers. *)
Fixpoint peers_loop {St} (fuel : nat) (ps : awdl_peers) (body : St → Z → option St) (s : St) (it : Z) :
    outcome St :=
  match fuel with
  | O => OutOfFuel
  | S fuel =>
      r ← of_option (awdl_peers_it_next ps it);
      let '(it, status, peer) := r in
      if negb (status =? PEERS_OK) then Done s else
      p ← of_option peer;
      s ← of_option (body s p);
      peers_loop fuel ps body s it
  end.

Definition peers_while_next {St} (ps : awdl_peers) (body : St → Z → option St) (s : St) : outcome St :=
  peers_loop (it_fuel (p_map ps)) ps body s awdl_peers_it_new.

(** ** The abstract view *)

Record peers_rep (ps : awdl_peers) (P : gmap mkey awdl_peer) : Prop := {
  rep_table : hm_inv (p_map ps);
  rep_peers : P = omap (λ p, p_heap ps !! p) (to_map (p_map ps));
  rep_live : ∀ k p, to_map (p_map ps) !! k = Some p → p ≠ NULL ∧ is_Some (p_heap ps !! p);
  rep_inj : ∀ k k' p, to_map (p_map ps) !! k = Some p → to_map (p_map ps) !! k' = Some p →
    k = k' }.

Definition no_leak (ps : awdl_peers) : Prop :=
  ∀ p, is_Some (p_heap ps !! p) → ∃ k, to_map (p_map ps) !! k = Some p.

(** An address for which the table has no place and gets no memory to grow.
    The heap is as before: what was allocated for the new peer is free again
    and the other peers are untouched.  If the table has its old size,
    nothing has changed; if it had been doubled before it was refused a
    larger one, some peers are no longer in it. *)
Definition cannot_grow `{CallocEnv} (addr : mkey) (ps ps' : awdl_peers) : Prop :=
  hashmap_hash (p_map ps) addr = Some MAP_FULL ∧ calloc_ok (2 * m_table_size (p_map ps')) = false ∧
  p_heap ps' = p_heap ps ∧ (m_table_size (p_map ps') = m_table_size (p_map ps) → ps' = ps).

(** What the types and [awdl_peer_new] guarantee of a peer stored under [k]. *)
Record peer_ok (k : mkey) (p : awdl_peer) : Prop := {
  pok_addr : peer_addr p = k;
  pok_len : addr_ok k;
  pok_election : election_ok (election p);
  pok_self : self_addr (election p) = k;
  pok_sequence : length (sequence p) = AWDL_CHANSEQ_LENGTH;
  pok_name : Z.of_nat (length (peer_name p)) = HOST_NAME_LENGTH_MAX + 1;
  pok_country : length (country_code p) = 3%nat }.

Definition peers_ok (P : gmap mkey awdl_peer) : Prop := map_Forall peer_ok P.

(** Documented behaviour of [malloc], memory not being exhausted: a non-null
    address no live object has, and memory of the size of the object. *)
Class MallocOk `{MallocEnv} : Prop := {
  malloc_fresh h : malloc_addr h ≠ NULL ∧ h !! malloc_addr h = None;
  malloc_shape h :
    length (sequence (malloc_junk h)) = AWDL_CHANSEQ_LENGTH ∧
    Z.of_nat (length (peer_name (malloc_junk h))) = HOST_NAME_LENGTH_MAX + 1 ∧
    length (country_code (malloc_junk h)) = 3%nat }.

(** A peer as [awdl_peer_new] makes it, with the time stamp [now]. *)
Record fresh_peer (addr : ether_addr) (now : Z) (p : awdl_peer) : Prop := {
  fresh_update : last_update p = now;
  fresh_election : election p = mk_election addr addr addr 0 AWDL_ELECTION_METRIC_INIT
    AWDL_ELECTION_METRIC_INIT AWDL_ELECTION_COUNTER_INIT AWDL_ELECTION_COUNTER_INIT;
  fresh_sequence : sequence p = replicate AWDL_CHANSEQ_LENGTH CHAN_NULL;
  fresh_offset : sync_offset p = 0;
  fresh_name : head (peer_name p) = Some 0;
  fresh_country : country_code p = country_NA;
  fresh_flags : version p = 0 ∧ devclass p = 0 ∧ supports_v2 p = 0 ∧ sent_mif p = 0 ∧ is_valid p = 0 }.

(** The view of a peer that turns valid. *)
Definition validate (p : awdl_peer) : awdl_peer :=
  if (is_valid p =? 0) && awdl_peer_is_valid p then set_is_valid 1 p else p.

(** ** Lemmas *)

Lemma validate_valid p : is_valid p ≠ 0 → is_valid (validate p) ≠ 0.
Proof. intros Hv. unfold validate. destruct (_ && _); [done|exact Hv]. Qed.

Lemma to_map_entries m k p : hm_inv m → to_map m !! k = Some p ↔ (k, p) ∈ entries m.
Proof. intros I. unfold to_map. by rewrite elem_of_list_to_map by apply I. Qed.

Lemma heap_free_live h p :
  p ≠ NULL → is_Some (h !! p) → heap_free h p = Some (delete p h).
Proof.
  intros Hp [peer Hh]. unfold heap_free. if_false. by rewrite Hh.
Qed.

Section rep_lemmas.
Context (ps : awdl_peers) (P : gmap mkey awdl_peer) (R : peers_rep ps P).

(** What the view says of the table and the heap. *)
Lemma rep_Some k peer :
  P !! k = Some peer →
  ∃ p, to_map (p_map ps) !! k = Some p ∧ p_heap ps !! p = Some peer ∧ p ≠ NULL.
Proof.
  rewrite (rep_peers _ _ R), lookup_omap. intros (p & Hp & Hh)%bind_Some.
  exists p. split_and!; [done..|]. by apply (rep_live _ _ R k).
Qed.

Lemma rep_None k : P !! k = None → to_map (p_map ps) !! k = None.
Proof.
  rewrite (rep_peers _ _ R), lookup_omap. intros Hn.
  destruct (to_map (p_map ps) !! k) as [p|] eqn:Hp; [|done].
  destruct (rep_live _ _ R k p Hp) as [_ [x Hx]]. simpl in Hn. by rewrite Hx in Hn.
Qed.

Lemma rep_lookup k p peer :
  to_map (p_map ps) !! k = Some p → p_heap ps !! p = Some peer → P !! k = Some peer.
Proof. intros Hk Hp. by rewrite (rep_peers _ _ R), lookup_omap, Hk. Qed.

(** Writing to a peer through its pointer is updating the view. *)
Lemma rep_write k p peer :
  to_map (p_map ps) !! k = Some p →
  peers_rep (mk_peers (p_map ps) (<[p := peer]> (p_heap ps))) (<[k := peer]> P) ∧
  (no_leak ps → no_leak (mk_peers (p_map ps) (<[p := peer]> (p_heap ps)))).
Proof.
  intros Hk. split.
  - constructor; simpl; try apply R.
    + apply map_eq. intros k'. rewrite lookup_omap.
      destruct (decide (k' = k)) as [->|Hne].
      * by rewrite lookup_insert_eq, Hk; simpl; rewrite lookup_insert_eq.
      * rewrite lookup_insert_ne, (rep_peers _ _ R), lookup_omap by done.
        destruct (to_map (p_map ps) !! k') as [p'|] eqn:Hk'; simpl; [|done].
        rewrite lookup_insert_ne; [done|]. intros ->. by apply Hne, (rep_inj _ _ R k' k p').
    + intros k' p' Hk'. destruct (rep_live _ _ R k' p' Hk') as [? ?]. split; [done|].
      apply lookup_insert_is_Some'. by right.
  - intros Hl p' Hp'. simpl in *. apply lookup_insert_is_Some' in Hp' as [<-|Hp']; [eauto|].
    by apply Hl.
Qed.

(** A table and a heap without a key and its peer. *)
Lemma rep_delete m k p :
  hm_inv m → to_map m = delete k (to_map (p_map ps)) → to_map (p_map ps) !! k = Some p →
  peers_rep (mk_peers m (delete p (p_heap ps))) (delete k P) ∧
  (no_leak ps → no_leak (mk_peers m (delete p (p_heap ps)))).
Proof.
  intros I Hm Hk.
  assert (∀ k' p', to_map m !! k' = Some p' →
    k' ≠ k ∧ p' ≠ p ∧ to_map (p_map ps) !! k' = Some p') as Ho.
  { intros k' p'. rewrite Hm. intros [? Hk']%lookup_delete_Some. split_and!; [done| |done].
    intros ->. naive_solver eauto using rep_inj. }
  split.
  - constructor; simpl; [done|..].
    + apply map_eq. intros k'. rewrite lookup_omap.
      destruct (to_map m !! k') as [p'|] eqn:Hk'; simpl.
      * destruct (Ho _ _ Hk') as (? & ? & Hk2). rewrite !lookup_delete_ne by done.
        by rewrite (rep_peers _ _ R), lookup_omap, Hk2.
      * rewrite Hm in Hk'. apply lookup_delete_None in Hk' as [<-|Hk']; [apply lookup_delete_eq|].
        apply lookup_delete_None. right. by rewrite (rep_peers _ _ R), lookup_omap, Hk'.
    + intros k' p' (? & ? & Hk2)%Ho. rewrite lookup_delete_ne by done. by apply (rep_live _ _ R k').
    + intros k1 k2 p' (? & ? & H1)%Ho (? & ? & H2)%Ho. by apply (rep_inj _ _ R k1 k2 p').
  - intros Hl p' Hp'. simpl in *. apply lookup_delete_is_Some in Hp' as [? Hp'].
    destruct (Hl p' Hp') as [k' Hk']. exists k'. rewrite Hm.
    apply lookup_delete_Some. split; [|done]. intros ->. congruence.
Qed.

(** A table and a heap with a new key and peer. *)
Lemma rep_insert m k p peer :
  hm_inv m → to_map m = <[k := p]> (to_map (p_map ps)) →
  P !! k = None → p ≠ NULL → p_heap ps !! p = None →
  peers_rep (mk_peers m (<[p := peer]> (p_heap ps))) (<[k := peer]> P) ∧
  (no_leak ps → no_leak (mk_peers m (<[p := peer]> (p_heap ps)))).
Proof.
  intros I Hm Hk Hp Hh. apply rep_None in Hk.
  assert (∀ k' p', to_map (p_map ps) !! k' = Some p' → k' ≠ k ∧ p' ≠ p) as Ho.
  { intros k' p' Hk'. destruct (rep_live _ _ R _ _ Hk') as [_ [x ?]]. split; congruence. }
  split.
  - constructor; simpl; [done|..].
    + rewrite Hm, omap_insert. rewrite lookup_insert_eq. simpl. f_equal.
      apply map_eq. intros k'. rewrite (rep_peers _ _ R), !lookup_omap.
      destruct (to_map (p_map ps) !! k') as [p'|] eqn:Hk'; simpl; [|done].
      destruct (Ho _ _ Hk'). by rewrite lookup_insert_ne.
    + intros k' p'. rewrite Hm. intros [[<- <-]|[Hne Hk']]%lookup_insert_Some.
      * rewrite lookup_insert_eq. eauto.
      * destruct (Ho _ _ Hk'). rewrite lookup_insert_ne by done. by apply (rep_live _ _ R k').
    + intros k1 k2 p'. rewrite Hm.
      intros [[<- <-]|[? H1]]%lookup_insert_Some [[<- ?]|[? H2]]%lookup_insert_Some; try done.
      * by destruct (Ho _ _ H2).
      * subst p'. by destruct (Ho _ _ H1).
      * by apply (rep_inj _ _ R k1 k2 p').
  - intros Hl p' Hp'. simpl in *. apply lookup_insert_is_Some' in Hp' as [<-|Hp'].
    + exists k. rewrite Hm. apply lookup_insert_eq.
    + destruct (Hl p' Hp') as [k' Hk']. exists k'. rewrite Hm.
      destruct (Ho _ _ Hk'). by rewrite lookup_insert_ne.
Qed.
End rep_lemmas.

(** ** The operations on the view *)

Lemma peer_new_ok `{MallocOk} h addr :
  addr_ok addr →
  ∃ peer, peer_new (malloc_junk h) addr = Some peer ∧ peer_ok addr peer ∧
    fresh_peer addr 0 peer ∧ awdl_peer_is_valid peer = false.
Proof.
  intros Ha. destruct (malloc_shape h) as (Hs & Hn & Hc).
  unfold HOST_NAME_LENGTH_MAX in Hn. unfold peer_new, country_NA.
  rewrite chanseq_init_static_eq by done. simpl.
  rewrite !store_Some by (simpl; lia). simpl.
  eexists; split; [reflexivity|]. split_and!; [| |done].
  - constructor; simpl; try done.
    + rewrite length_drop. unfold HOST_NAME_LENGTH_MAX. lia.
    + rewrite length_drop. lia.
  - constructor; simpl; try done. by rewrite drop_ge by lia.
Qed.

Lemma validate_ok k p : peer_ok k p → peer_ok k (validate p).
Proof. intros []. unfold validate. split_ifs; [|done]. by constructor. Qed.

Lemma set_last_update_ok k p now : peer_ok k p → peer_ok k (set_last_update now p).
Proof. intros []. by constructor. Qed.
#[export] Hint Resolve validate_ok set_last_update_ok : owl.

Section op_specs.
Context {E : Type} (cb : option (E → awdl_peer → E)).

(** The callback runs when the peer turns valid. *)
Definition notify (e : E) (p : awdl_peer) : E :=
  if (is_valid p =? 0) && awdl_peer_is_valid p then call_cb cb e (set_is_valid 1 p) else e.

Lemma peer_add_out_spec m h e p peer result :
  h !! p = Some peer →
  peer_add_out cb (mk_peers m h) e p result =
    Done (mk_peers m (<[p := validate peer]> h), notify e peer, result).
Proof.
  intros Hp. unfold peer_add_out, validate, notify. simpl. rewrite Hp. simpl.
  split_ifs; [done|]. by rewrite insert_id.
Qed.

Lemma peer_add_known `{CallocEnv} `{MallocEnv} ps P e addr now peer :
  peers_rep ps P → P !! addr = Some peer →
  let peer' := set_last_update now peer in
  ∃ ps', awdl_peer_add cb ps e addr now = Done (ps', notify e peer', PEERS_UPDATE) ∧
    peers_rep ps' (<[addr := validate peer']> P) ∧ (no_leak ps → no_leak ps').
Proof.
  intros R HP. destruct (rep_Some _ _ R _ _ HP) as (p & Hk & Hp & Hnn).
  pose proof (hashmap_get_spec (p_map ps) addr false (rep_table _ _ R)) as Hg.
  rewrite Hk in Hg. destruct Hg as (m' & Hg & _ & _).
  assert (m' = p_map ps) as ->.
  { revert Hg. unfold hashmap_get. destruct (get_probe _ _ _ _) as [[c|]|]; simpl; try done.
    destruct (m_data (p_map ps) !! Z.to_nat c); simpl; [|done]. by intros [= <- _]. }
  unfold awdl_peer_add. rewrite Hg. simpl. rewrite Hp. simpl.
  rewrite (peer_add_out_spec _ _ _ _ (set_last_update now peer)) by apply lookup_insert_eq.
  rewrite insert_insert_eq. eexists; split; [done|]. by apply rep_write.
Qed.

Lemma peer_add_new `{CallocBounded} `{MallocOk} ps P e addr now :
  peers_rep ps P → P !! addr = None → addr_ok addr →
  ∃ ps' result, awdl_peer_add cb ps e addr now = Done (ps', e, result) ∧
    ((result = PEERS_OK ∧ (no_leak ps → no_leak ps') ∧
      ∃ peer, peer_ok addr peer ∧ fresh_peer addr now peer ∧
        peers_rep ps' (<[addr := peer]> P)) ∨
     (result = PEERS_INTERNAL ∧ cannot_grow addr ps ps' ∧ ∃ P', P' ⊆ P ∧ peers_rep ps' P')).
Proof.
  intros R HP Ha. pose proof (rep_None _ _ R _ HP) as Hk.
  pose proof (hashmap_get_spec (p_map ps) addr false (rep_table _ _ R)) as Hg. rewrite Hk in Hg.
  destruct (malloc_fresh (p_heap ps)) as [Hnn Hfr].
  destruct (peer_new_ok (p_heap ps) addr Ha) as (peer & Hnew & Hok & Hv & Hval).
  pose proof (hashmap_put_fuel (p_map ps) addr (malloc_addr (p_heap ps)) (rep_table _ _ R) Hk)
    as Hput.
  unfold awdl_peer_add, awdl_peer_new. revert Hput. generalize (hashmap_put PUT_FUEL).
  intros put (m' & st & Hput & I' & _ & Hres). rewrite Hg. simpl. if_false.
  rewrite Hnew. simpl. rewrite lookup_insert_eq. simpl.
  rewrite insert_insert_eq, (pok_addr _ _ Hok).
  rewrite Hput. destruct Hres as [[-> Hm']|(-> & Hfull & Hno & Hm' & Hsame)]; simpl.
  - rewrite (peer_add_out_spec _ _ _ _ (set_last_update now peer)) by apply lookup_insert_eq.
    rewrite insert_insert_eq. unfold notify, validate.
    change (awdl_peer_is_valid (set_last_update now peer)) with (awdl_peer_is_valid peer).
    rewrite Hval, andb_false_r. eexists _, _; split; [done|]. left.
    destruct (rep_insert _ _ R m' addr (malloc_addr (p_heap ps)) (set_last_update now peer)) as [? ?];
      [done..|]. split_and!; [done..|]. eexists; split_and!; [| |done]; [auto with owl|].
    by destruct Hv.
  - rewrite heap_free_live by (rewrite ?lookup_insert_eq; eauto). simpl.
    rewrite delete_insert_id by done. eexists _, _; split; [done|]. right. split; [done|].
    split. { split_and!; [done..|]. cbn [p_map]. intros Hs. rewrite (Hsame Hs). by destruct ps. }
    exists (omap (λ p, p_heap ps !! p) (to_map m')). split.
    + rewrite (rep_peers _ _ R). by apply map_omap_mono.
    + constructor; simpl; [done|done|..].
      * intros k p Hkp. eapply R, lookup_weaken; eassumption.
      * intros k k' p H3 H4. eapply (rep_inj _ _ R); eapply lookup_weaken; eassumption.
Qed.

Lemma peer_remove_spec ps P e addr :
  peers_rep ps P →
  match P !! addr with
  | None => awdl_peer_remove cb ps e addr = Some (ps, e, PEERS_MISSING)
  | Some peer =>
      ∃ ps', awdl_peer_remove cb ps e addr =
          Some (ps', if negb (is_valid peer =? 0) then call_cb cb e peer else e, PEERS_OK) ∧
        peers_rep ps' (delete addr P) ∧ (no_leak ps → no_leak ps')
  end.
Proof.
  intros R. pose proof (hashmap_get_spec (p_map ps) addr true (rep_table _ _ R)) as Hg.
  unfold awdl_peer_remove. destruct (P !! addr) as [peer|] eqn:HP.
  - destruct (rep_Some _ _ R _ _ HP) as (p & Hk & Hp & Hnn). rewrite Hk in Hg.
    destruct Hg as (m' & -> & I' & Hm'). simpl. rewrite Hp. simpl.
    rewrite heap_free_live by eauto. simpl. eexists; split; [done|]. by apply rep_delete.
  - rewrite (rep_None _ _ R _ HP) in Hg. rewrite Hg. simpl. by destruct ps.
Qed.

(** Whether the peer at [p] is to be removed. *)
Definition stale (before : Z) (h : gmap Z awdl_peer) (p : Z) : bool :=
  match h !! p with Some peer => last_update peer <? before | None => false end.

Definition stale_valid (before : Z) (h : gmap Z awdl_peer) (kp : mkey * Z) : option awdl_peer :=
  peer ← h !! kp.2;
  if (last_update peer <? before) && negb (is_valid peer =? 0) then Some peer else None.

Lemma stale_delete before h p q : q ≠ p → stale before (delete p h) q = stale before h q.
Proof. intros. unfold stale. by rewrite lookup_delete_ne. Qed.

Lemma stale_lookup before h p peer :
  h !! p = Some peer → stale before h p = (last_update peer <? before).
Proof. unfold stale. by intros ->. Qed.

(** The loop of [awdl_peers_remove] on the entries of the table. *)
Lemma peers_remove_fold before l : ∀ h e,
  NoDup l.*2 → (∀ kp, kp ∈ l → kp.2 ≠ NULL ∧ is_Some (h !! kp.2)) →
  ∃ h', fold_entries (peers_remove_body cb before) l (h, e) =
      Some ((h', fold_left (call_cb cb) (omap (stale_valid before h) l) e),
            filter (λ kp, stale before h kp.2 = false) l) ∧
    ∀ p, h' !! p = if stale before h p && bool_decide (p ∈ l.*2) then None else h !! p.
Proof.
  induction l as [|[k p] l IH]; intros h e Hnd Hl; csimpl.
  { exists h. split; [done|]. intros p. by rewrite andb_false_r. }
  rewrite fmap_cons in Hnd. apply NoDup_cons in Hnd as [Hp Hnd].
  destruct (Hl (k, p)) as [Hnn [peer Hpeer]]; [left|]. simpl in Hnn, Hpeer.
  assert (∀ kq : mkey * Z, kq ∈ l → kq.2 ≠ p) as Hne.
  { intros kq Hq <-. apply Hp, list_elem_of_fmap. by exists kq. }
  pose proof (stale_lookup before h p peer Hpeer) as Hs.
  assert (∀ q, q ≠ p → bool_decide (q ∈ p :: l.*2) = bool_decide (q ∈ l.*2)) as Hbd.
  { intros. apply bool_decide_ext. rewrite elem_of_cons. tauto. }
  rewrite Hpeer. unfold stale_valid at 1. csimpl. rewrite Hpeer. csimpl.
  destruct (last_update peer <? before) eqn:Ho; csimpl.
  - rewrite heap_free_live by eauto. rewrite filter_cons_False by (simpl; congruence). csimpl.
    destruct (IH (delete p h) (if negb (is_valid peer =? 0) then call_cb cb e peer else e) Hnd)
      as (h' & -> & Hh').
    { intros kq Hq. rewrite lookup_delete_ne by (apply not_eq_sym; auto). apply Hl. by right. }
    exists h'. csimpl. split.
    + rewrite (omap_ext_in _ (stale_valid before h)).
      2: { intros kq Hq. unfold stale_valid.
           by rewrite lookup_delete_ne by (apply not_eq_sym; auto). }
      rewrite (filter_ext_in _ (λ kq, stale before h kq.2 = false))
        by (intros kq Hq; by rewrite stale_delete by auto).
      by destruct (negb (is_valid peer =? 0)).
    + intros q. rewrite Hh'. destruct (decide (q = p)) as [->|Hq].
      * rewrite lookup_delete_eq, Hs. rewrite (bool_decide_eq_true_2 (p ∈ p :: _)) by left.
        by split_ifs.
      * by rewrite stale_delete, lookup_delete_ne, Hbd by congruence.
  - rewrite filter_cons_True by done. destruct (IH h e Hnd) as (h' & -> & Hh').
    { intros kq Hq. apply Hl. by right. }
    exists h'. csimpl. split; [done|].
    intros q. rewrite Hh'. destruct (decide (q = p)) as [->|Hq]; [by rewrite Hs|by rewrite Hbd].
Qed.
End op_specs.

(** The values of a map, one by one, in any order. *)
Lemma omap_values (f : Z → option awdl_peer) (M : gmap mkey Z) :
  omap (λ kp : mkey * Z, f kp.2) (map_to_list M) ≡ₚ (map_to_list (omap f M)).*2.
Proof.
  induction M as [|k p M Hk IH] using map_ind; [done|].
  rewrite omap_insert, map_to_list_insert by done. csimpl.
  assert (omap f M !! k = None) as Hk' by (by rewrite lookup_omap, Hk).
  destruct (f p) as [peer|].
  - rewrite map_to_list_insert by done. csimpl. by rewrite IH.
  - by rewrite delete_id.
Qed.

Section bulk_specs.
Context {E : Type} (cb : option (E → awdl_peer → E)).
Context (ps : awdl_peers) (P : gmap mkey awdl_peer) (R : peers_rep ps P).

Lemma entries_values_nodup : NoDup (entries (p_map ps)).*2.
Proof.
  assert (∀ l : list (mkey * Z), NoDup l.*1 →
    (∀ k k' p, (k, p) ∈ l → (k', p) ∈ l → k = k') → NoDup l.*2) as Hgen.
  { induction l as [|[k p] l IH]; intros Hk Hi; csimpl in *; [constructor|].
    apply NoDup_cons in Hk as [Hk Hnd]. apply NoDup_cons. split.
    - intros ([k' p'] & Heq & Hin)%list_elem_of_fmap. simpl in Heq. subst p'.
      assert (k = k') as <- by (apply (Hi k k' p); [left|by right]).
      apply Hk, list_elem_of_fmap. by exists (k, p).
    - apply IH; [done|]. intros k1 k2 q H1 H2. apply (Hi k1 k2 q); by right. }
  apply Hgen; [apply R|]. intros k k' p.
  rewrite <- !to_map_entries by apply R. apply R.
Qed.

Lemma entries_live kp :
  kp ∈ entries (p_map ps) → kp.2 ≠ NULL ∧ is_Some (p_heap ps !! kp.2).
Proof. destruct kp as [k p]. rewrite <- to_map_entries by apply R. apply R. Qed.

(** The peers the callback sees. *)
Lemma stale_perm before :
  omap (stale_valid before (p_heap ps)) (entries (p_map ps)) ≡ₚ
    (map_to_list (filter (λ kp, last_update kp.2 < before ∧ is_valid kp.2 ≠ 0) P)).*2.
Proof.
  assert (entries (p_map ps) ≡ₚ map_to_list (to_map (p_map ps))) as ->
    by (symmetry; apply map_to_list_to_map, R).
  unfold stale_valid. rewrite (omap_values (λ p, peer ← p_heap ps !! p;
    if (last_update peer <? before) && negb (is_valid peer =? 0) then Some peer else None)).
  assert (∀ A B : gmap mkey awdl_peer, A = B → (map_to_list A).*2 ≡ₚ (map_to_list B).*2)
    as Heq by (by intros A B ->).
  apply Heq, map_eq. intros k. apply option_eq. intros peer.
  rewrite map_lookup_filter_Some, lookup_omap, bind_Some, (rep_peers _ _ R), lookup_omap, bind_Some.
  simpl. split.
  - intros (p & Hk & (peer' & Hp & Hc)%bind_Some). case_match eqn:Hb; [|done].
    injection Hc as ->. split; [by exists p|lia].
  - intros ((p & Hk & Hp) & Hc). exists p. split; [done|]. rewrite Hp. simpl. by if_true.
Qed.

Lemma peers_remove_spec e before :
  ∃ ps' l, awdl_peers_remove cb ps e before = Done (ps', fold_left (call_cb cb) l e) ∧
    peers_rep ps' (filter (λ kp, before <= last_update kp.2) P) ∧
    (no_leak ps → no_leak ps') ∧
    l ≡ₚ (map_to_list (filter (λ kp, last_update kp.2 < before ∧ is_valid kp.2 ≠ 0) P)).*2.
Proof.
  destruct (peers_remove_fold cb before (entries (p_map ps)) (p_heap ps) e
    entries_values_nodup entries_live) as (h' & Hf & Hh').
  pose proof (while_next_entries (peers_remove_body cb before) (p_heap ps, e) (p_map ps)
    (rep_table _ _ R)) as Hw.
  rewrite Hf in Hw. destruct Hw as (m' & Hw & I' & Hm' & _).
  unfold awdl_peers_remove. rewrite Hw. simpl. eexists _, _; split; [done|].
  assert (∀ k p, to_map m' !! k = Some p ↔
    to_map (p_map ps) !! k = Some p ∧ stale before (p_heap ps) p = false) as Hto.
  { intros k p. rewrite !to_map_entries by (done || apply R).
    rewrite Hm', list_elem_of_filter. simpl. tauto. }
  assert (∀ p, stale before (p_heap ps) p = false → h' !! p = p_heap ps !! p) as Hkeep
    by (intros p Hp; by rewrite Hh', Hp).
  split_and!.
  - constructor; simpl; [done|..].
    + apply map_eq. intros k. apply option_eq. intros peer.
      rewrite map_lookup_filter_Some, lookup_omap, bind_Some, (rep_peers _ _ R), lookup_omap, bind_Some.
      simpl. split.
      * intros ((p & Hk & Hp) & Hle). exists p.
        assert (stale before (p_heap ps) p = false) by (rewrite (stale_lookup _ _ _ peer) by done; lia).
        rewrite Hto, Hkeep by done. done.
      * intros (p & [Hk Hs]%Hto & Hp). rewrite Hkeep in Hp by done.
        rewrite (stale_lookup _ _ _ peer) in Hs by done. split; [by exists p|lia].
    + intros k p [Hk Hs]%Hto. rewrite Hkeep by done. by apply (rep_live _ _ R k).
    + intros k k' p [H1 _]%Hto [H2 _]%Hto. by apply (rep_inj _ _ R k k' p).
  - intros Hl p [peer Hp]. simpl in *. rewrite Hh' in Hp.
    destruct (stale before (p_heap ps) p) eqn:Hs; simpl in Hp.
    + case_bool_decide as Hin; [done|]. destruct (Hl p) as [k Hk]; [by eexists|].
      destruct Hin. apply list_elem_of_fmap. exists (k, p). split; [done|].
      by apply to_map_entries; [apply R|].
    + destruct (Hl p) as [k Hk]; [by eexists|]. exists k. by apply Hto.
  - apply stale_perm.
Qed.

Lemma peers_free_spec : no_leak ps → awdl_peers_free ps = Done ∅.
Proof.
  intros Hl. set (f := λ h p, h ← heap_free h p; Some (h, true)).
  assert (∀ l h, NoDup l.*2 → (∀ kp, kp ∈ l → kp.2 ≠ NULL ∧ is_Some (h !! kp.2)) →
    ∃ h', fold_entries f l h = Some (h', []) ∧ ∀ p, is_Some (h' !! p) → is_Some (h !! p) ∧ p ∉ l.*2)
    as Hgen.
  { induction l as [|[k p] l IH]; intros h Hnd Hh; csimpl.
    { exists h. split; [done|]. intros p Hp. split; [done|]. apply not_elem_of_nil. }
    rewrite fmap_cons in Hnd. apply NoDup_cons in Hnd as [Hp Hnd].
    destruct (Hh (k, p)) as [Hnn Hlive]; [left|]. subst f. simpl in *.
    rewrite heap_free_live by done. simpl. destruct (IH (delete p h) Hnd) as (h' & -> & Hh').
    { intros kq Hq. rewrite lookup_delete_ne; [apply Hh; by right|].
      intros ->. apply Hp, list_elem_of_fmap. by exists kq. }
    exists h'. split; [done|]. intros q [[? ?]%lookup_delete_is_Some ?]%Hh'.
    split; [done|]. rewrite not_elem_of_cons. done. }
  destruct (Hgen _ _ entries_values_nodup entries_live) as (h' & Hf & Hh').
  pose proof (while_next_entries f (p_heap ps) (p_map ps) (rep_table _ _ R)) as Hw.
  rewrite Hf in Hw. destruct Hw as (m' & Hw & _).
  unfold awdl_peers_free. subst f. rewrite Hw. simpl. f_equal.
  apply map_empty. intros p. destruct (h' !! p) eqn:Hp; [|done].
  destruct (Hh' p) as [Hs Hn]; [by eexists|]. destruct (Hl p Hs) as [k Hk].
  destruct Hn. apply list_elem_of_fmap. exists (k, p). split; [done|].
  by apply to_map_entries; [apply R|].
Qed.

Lemma peer_get_spec addr :
  awdl_peer_get ps addr =
    Some (match to_map (p_map ps) !! addr with
          | Some p => (PEERS_OK, p)
          | None => (PEERS_MISSING, NULL)
          end).
Proof.
  pose proof (hashmap_get_spec (p_map ps) addr false (rep_table _ _ R)) as Hg.
  unfold awdl_peer_get. destruct (to_map (p_map ps) !! addr) as [p|].
  - destruct Hg as (m' & -> & _). done.
  - rewrite Hg. done.
Qed.
End bulk_specs.

(** The loop of an iterating client: the pointers in table order. *)
Fixpoint fold_ptrs {S} (body : S → Z → option S) (l : list Z) (s : S) : option S :=
  match l with
  | [] => Some s
  | p :: l => s ← body s p; fold_ptrs body l s
  end.

Lemma peers_loop_spec {St} ps (body : St → Z → option St) fuel : ∀ s it,
  peers_loop fuel ps body s it =
    (r ← while_next fuel (λ s el, s ← body s (e_data el); Some (s, false)) s (p_map ps) it;
     Done r.1).
Proof.
  induction fuel as [|fuel IH]; intros s it; [done|].
  rewrite while_next_step. cbn [peers_loop]. unfold awdl_peers_it_next.
  destruct (hashmap_it_next (p_map ps) it) as [[i' [e|]]|]; simpl; [|done..].
  destruct (body s (e_data e)); simpl; [|done]. apply IH.
Qed.

Lemma peers_while_next_spec {St} ps (body : St → Z → option St) s :
  hm_inv (p_map ps) →
  peers_while_next ps body s = of_option (fold_ptrs body (entries (p_map ps)).*2 s).
Proof.
  intros I. set (f := λ s p, s ← body s p; Some (s, false)).
  assert (∀ l s, fold_entries f l s = s' ← fold_ptrs body l.*2 s; Some (s', l)) as Hgen.
  { induction l as [|[k p] l IH]; intros s0; csimpl; [done|]. subst f. simpl.
    destruct (body s0 p); simpl; [|done]. rewrite IH. by destruct (fold_ptrs body l.*2 _). }
  pose proof (while_next_entries f s (p_map ps) I) as Hw. rewrite Hgen in Hw.
  unfold peers_while_next. rewrite peers_loop_spec. subst f.
  unfold awdl_peers_it_new. destruct (fold_ptrs body (entries (p_map ps)).*2 s); simpl in *.
  - destruct Hw as (m' & -> & _). done.
  - by rewrite Hw.
Qed.

(** ** A concrete environment *)

Definition sample_malloc : MallocEnv := {|
  malloc_addr := λ h, fresh (dom h ∪ {[NULL]} : gset Z);
  malloc_junk := λ _, mk_peer [] 0 (mk_election [] [] [] 0 0 0 0 0) (replicate 16 CHAN_NULL) 0
    (replicate 65 0) (replicate 3 0) [] 0 0 0 0 0 |}.

Lemma sample_malloc_ok : @MallocOk sample_malloc.
Proof.
  constructor; intros h; [|done]. simpl.
  pose proof (is_fresh (dom h ∪ {[NULL]} : gset Z)) as Hf.
  apply not_elem_of_union in Hf as [Hd Hn]. split.
  - by rewrite elem_of_singleton in Hn.
  - by apply not_elem_of_dom.
Qed.

Definition empty_peers : awdl_peers := mk_peers empty_map ∅.

Lemma empty_peers_rep : peers_rep empty_peers ∅ ∧ no_leak empty_peers.
Proof.
  destruct empty_map_inv as [I Hm]. split.
  - constructor; simpl; rewrite ?Hm; try done.
  - intros p [x Hx]. done.
Qed.

Lemma sample_addr_ok : addr_ok sample_key.
Proof. split; [done|]. unfold sample_key. repeat constructor; int_lia. Qed.

(** A table whose only entry is [p]. *)
Definition one_peer (k : mkey) (p : awdl_peer) : awdl_peers :=
  mk_peers (put_or_same empty_map k 4096) {[ 4096 := p ]}.

Lemma one_peer_rep k p :
  to_map (put_or_same empty_map k 4096) = {[ k := 4096 ]} → peers_rep (one_peer k p) {[ k := p ]}.
Proof.
  unfold one_peer. generalize (put_empty_inv k). generalize (put_or_same empty_map k 4096). intros m I Hm.
  constructor; simpl; rewrite ?Hm; [done|..].
  - by rewrite omap_singleton, lookup_singleton_eq.
  - intros k' q [<- <-]%lookup_singleton_Some. rewrite lookup_singleton_eq. split; [done|eauto].
  - intros k1 k2 q [<- <-]%lookup_singleton_Some [<- _]%lookup_singleton_Some. done.
Qed.

(** A table with one valid peer, last heard of at time 5. *)
Definition sample_peer : awdl_peer :=
  mk_peer sample_key 5 (awdl_election_state_init (mk_election [] [] [] 0 0 0 0 0) sample_key)
    (replicate 16 CHAN_NULL) 0 (replicate 65 0) (replicate 3 0) [] 0x34 1 0 1 1.

Definition sample_peers : awdl_peers := mk_peers sample_map {[ 4096 := sample_peer ]}.

Lemma sample_map_to_map : to_map sample_map = {[ sample_key := 4096 ]}.
Proof. vm_compute. reflexivity. Qed.

Lemma sample_peers_rep :
  peers_rep sample_peers {[ sample_key := sample_peer ]} ∧ no_leak sample_peers.
Proof.
  assert (to_map sample_map = {[ sample_key := 4096 ]}) as Hm by apply sample_map_to_map.
  unfold sample_peers. generalize (proj1 sample_map_inv). revert Hm.
  generalize sample_map. intros m Hm I. split.
  - constructor; simpl; rewrite ?Hm; [done|..].
    + by rewrite omap_singleton, lookup_singleton_eq.
    + intros k p [<- <-]%lookup_singleton_Some. rewrite lookup_singleton_eq. split; [done|eauto].
    + intros k k' p [<- <-]%lookup_singleton_Some [<- _]%lookup_singleton_Some. done.
  - intros p [x Hx]. simpl in *. apply lookup_singleton_Some in Hx as [<- _]. rewrite Hm. exists sample_key.
    apply lookup_singleton_eq.
Qed.

Lemma sample_peers_ok : peers_ok {[ sample_key := sample_peer ]}.
Proof.
  intros k p [<- <-]%lookup_singleton_Some. pose proof sample_addr_ok.
  constructor; [done|done| |done..]. by apply (election_init_ok (mk_election [] [] [] 0 0 0 0 0)).
Qed.

(** ** Properties *)

(** C21: [awdl_peer_add] on any well-formed table: a known peer gets the new
    time stamp and the status [PEERS_UPDATE], turns valid exactly when it has
    sent a master indication with version and device class, and the callback
    runs at that moment and no other; an unknown address is added as a fresh,
    invalid peer.  Every other peer is untouched, no pointer dangles, nothing
    leaks.  Only if the table has no place for an unknown address and the
    allocator refuses it a larger array, the status is [PEERS_INTERNAL]: the
    new peer is freed again, the other peers and, if the table has its old
    size, the table are as they were, the callback is not called and the
    table is well formed; but if it had been doubled before, peers that were
    not moved yet are no longer in it. *)
Theorem peer_add_refines `{CallocBounded} `{MallocOk} {E} (cb : option (E → awdl_peer → E))
    ps P e addr now :
  peers_rep ps P → peers_ok P → addr_ok addr →
  ∃ ps' e' r P', awdl_peer_add cb ps e addr now = Done (ps', e', r) ∧
    peers_rep ps' P' ∧ peers_ok P' ∧
    (r ≠ PEERS_INTERNAL ∨ m_table_size (p_map ps') = m_table_size (p_map ps) → no_leak ps → no_leak ps') ∧
    match P !! addr with
    | Some peer =>
        r = PEERS_UPDATE ∧ P' = <[addr := validate (set_last_update now peer)]> P ∧
        e' = notify cb e (set_last_update now peer)
    | None =>
        e' = e ∧
        ((r = PEERS_OK ∧ ∃ peer, fresh_peer addr now peer ∧ P' = <[addr := peer]> P) ∨
         (r = PEERS_INTERNAL ∧ cannot_grow addr ps ps' ∧ P' ⊆ P))
    end.
Proof.
  intros R Hok Ha. destruct (P !! addr) as [peer|] eqn:HP.
  - destruct (peer_add_known cb ps P e addr now peer R HP) as (ps' & Hadd & R' & Hl).
    eexists _, _, _, _; split; [exact Hadd|]. split_and!; try done.
    apply map_Forall_insert_2; [|done]. apply Hok in HP. auto with owl.
  - destruct (peer_add_new cb ps P e addr now R HP Ha)
      as (ps' & r & Hadd & [(-> & Hl & peer & Hp & Hv & R')|(-> & Hgrow & P' & Hsub & R')]).
    + eexists _, _, _, _; split; [exact Hadd|]. split_and!; [exact R'|by apply map_Forall_insert_2|done|done|].
      left. eauto.
    + eexists _, _, _, _; split; [exact Hadd|]. split_and!; [exact R'| | |done|by right].
      * intros k p Hk. eapply Hok, lookup_weaken; eassumption.
      * destruct Hgrow as (_ & _ & _ & Hs). intros [?|Heq]; [done|]. by rewrite (Hs Heq).
Qed.

Lemma peer_add_refines_witness :
  ∃ ps' P' peer, @awdl_peer_add nat (Some (λ n _, S n)) small_calloc sample_malloc
      sample_peers 0%nat [2; 2; 2; 2; 2; 2] 77 = Done (ps', 0%nat, PEERS_OK) ∧
    peers_rep ps' P' ∧ P' = <[[2; 2; 2; 2; 2; 2] := peer]> {[ sample_key := sample_peer ]} ∧
    fresh_peer [2; 2; 2; 2; 2; 2] 77 peer.
Proof.
  pose proof small_calloc_bounded as Hc. pose proof sample_malloc_ok as Hm.
  destruct (@peer_add_refines small_calloc Hc sample_malloc Hm nat (Some (λ n _, S n))
    sample_peers {[ sample_key := sample_peer ]} 0%nat [2; 2; 2; 2; 2; 2] 77
    (proj1 sample_peers_rep) sample_peers_ok) as (ps' & e' & r & P' & Hadd & R & _ & _ & Hn).
  { split; [done|]. repeat constructor; int_lia. }
  rewrite lookup_singleton_ne in Hn by done. destruct Hn as [-> [(-> & peer & Hp & ->)|(_ & (Hf & _) & _)]].
  - eexists ps', _, peer. split_and!; [exact Hadd|exact R|reflexivity|exact Hp].
  - exfalso. vm_compute in Hf. discriminate Hf.
Defined.

(** [awdl_peer_remove] removes exactly the peer with that address and
    frees it, calling the callback when the peer was valid; for an address
    not in the table it returns [PEERS_MISSING] and changes nothing. *)
Theorem peer_remove_refines {E} (cb : option (E → awdl_peer → E)) ps P e addr :
  peers_rep ps P →
  match P !! addr with
  | None => awdl_peer_remove cb ps e addr = Some (ps, e, PEERS_MISSING)
  | Some peer =>
      ∃ ps', awdl_peer_remove cb ps e addr =
          Some (ps', if negb (is_valid peer =? 0) then call_cb cb e peer else e, PEERS_OK) ∧
        peers_rep ps' (delete addr P) ∧ (no_leak ps → no_leak ps')
  end.
Proof. apply peer_remove_spec. Qed.

(** C23: [awdl_peers_remove] terminates on every well-formed table and
    removes exactly the peers last heard of before the given time, iterating
    while it removes; each removed peer is freed once, the callback runs once
    for each valid one and for no other, and [awdl_peers_free] on the result
    leaves no peer allocated. *)
Theorem peers_remove_refines {E} (cb : option (E → awdl_peer → E)) ps P e before :
  peers_rep ps P → no_leak ps →
  ∃ ps' l, awdl_peers_remove cb ps e before = Done (ps', fold_left (call_cb cb) l e) ∧
    peers_rep ps' (filter (λ kp, before <= last_update kp.2) P) ∧
    l ≡ₚ (map_to_list (filter (λ kp, last_update kp.2 < before ∧ is_valid kp.2 ≠ 0) P)).*2 ∧
    no_leak ps' ∧ awdl_peers_free ps' = Done ∅.
Proof.
  intros R Hl. destruct (peers_remove_spec cb ps P R e before) as (ps' & l & Hr & R' & Hl' & Hp).
  exists ps', l. split_and!; auto. eapply peers_free_spec; eauto.
Qed.

Lemma peers_remove_refines_witness :
  ∃ ps' l, awdl_peers_remove (Some (λ n _, S n)) sample_peers 0%nat 6 =
      Done (ps', fold_left (call_cb (Some (λ n _, S n))) l 0%nat) ∧
    awdl_peers_free ps' = Done ∅ ∧ l ≡ₚ [sample_peer].
Proof.
  destruct (peers_remove_refines (Some (λ n _, S n)) sample_peers _ 0%nat 6
    (proj1 sample_peers_rep) (proj2 sample_peers_rep)) as (ps' & l & Hr & _ & Hp & _ & Hf).
  exists ps', l. split_and!; [exact Hr|exact Hf|]. rewrite Hp.
  vm_compute. reflexivity.
Defined.
