(* ===== verification/Memory.v ===== *)
(** * Memory: allocation and release (src/hashmap.c, src/circular_buffer.c, src/peers.c)

    The containers again, with the blocks they allocate: a table is a
    structure and an array, an iterator and the packet queue are blocks of
    their own.  [hashmap_put_m] and the others are the functions of HashMap
    with their calls of [malloc], [calloc] and [free] on the set of live
    blocks; freeing a block that is not live is undefined. *)

From Stdlib Require Import ZArith Lia ZifyBool.
From stdpp Require Import base tactics numbers list gmap.
From S2P Require Import Prelude CircularBuffer HashMap Peers.

Local Open Scope Z_scope.

(** ** Blocks *)

(** The addresses of the live blocks. *)
Abbreviation mem := (gset Z).

(** The address a successful allocation returns, and whether [malloc] fails;
    [calloc] fails as [calloc_ok] says. *)
Class BlockEnv := { block_at : mem → Z; malloc_fails : mem → bool }.

Class BlockOk `{BlockEnv} : Prop := {
  block_nonnull h : block_at h ≠ NULL;
  block_fresh h : block_at h ∉ h }.

Definition malloc_block `{BlockEnv} (h : mem) : mem * Z :=
  if malloc_fails h then (h, NULL) else ({[block_at h]} ∪ h, block_at h).

Definition calloc_block `{CallocEnv} `{BlockEnv} (n : Z) (h : mem) : mem * Z :=
  if calloc_ok n then ({[block_at h]} ∪ h, block_at h) else (h, NULL).

Definition free_block (h : mem) (p : Z) : option mem :=
  if p =? NULL then Some h else if bool_decide (p ∈ h) then Some (h ∖ {[p]}) else None.

(** ** Tables *)

(** The structure, its member [data], and what they hold. *)
Record table := mk_table { t_self : Z; t_data : Z; t_map : hashmap_map }.

Definition hashmap_free (h : mem) (self data : Z) : option mem :=
  h ← free_block h data; free_block h self.

Definition hashmap_new_m `{CallocEnv} `{BlockEnv} (key_size : Z) (h : mem) : option (mem * option table) :=
  let '(h, m) := malloc_block h in
  if m =? NULL then Some (h, None) else
  let '(h, d) := calloc_block INITIAL_SIZE h in
  if d =? NULL then h ← hashmap_free h m d; Some (h, None) else
  Some (h, Some (mk_table m d (mk_map INITIAL_SIZE 0 key_size (replicate (Z.to_nat INITIAL_SIZE) blank)
                                 (replicate siphash24_KEYBYTES 0)))).

Section rehash.
Variable put : mem → table → mkey → any_t → outcome (mem * table * Z).

Fixpoint rehash_loop_m (curr : list hashmap_element) (h : mem) (t : table) : outcome (mem * table * Z) :=
  match curr with
  | [] => Done (h, t, MAP_OK)
  | e :: curr =>
      if e_in_use e =? 0 then rehash_loop_m curr h t else
      k ← of_option (e_key e);
      r ← put h t k (e_data e);
      if negb (r.2 =? MAP_OK) then Done r else rehash_loop_m curr r.1.1 r.1.2
  end.

(** The old array is freed at the end, not on the early return. *)
Definition hashmap_rehash_m `{CallocEnv} `{BlockEnv} (h : mem) (t : table) : outcome (mem * table * Z) :=
  let m := t_map t in
  n ← of_option (int_mul 2 (m_table_size m));
  let '(h, temp) := calloc_block n h in
  if temp =? NULL then Done (h, t, MAP_OMEM) else
  r ← rehash_loop_m (m_data m) h
        (mk_table (t_self t) temp (mk_map n 0 (m_key_size m) (replicate (Z.to_nat n) blank) (m_seed m)));
  if negb (r.2 =? MAP_OK) then Done r else
  h ← of_option (free_block r.1.1 (t_data t));
  Done (h, r.1.2, MAP_OK).
End rehash.

Fixpoint hashmap_put_m `{CallocEnv} `{BlockEnv} (fuel : nat) (h : mem) (t : table) (key : mkey) (value : any_t) :
    outcome (mem * table * Z) :=
  match fuel with
  | O => OutOfFuel
  | S fuel =>
      index ← of_option (hashmap_hash (t_map t) key);
      if index =? MAP_FULL then
        r ← hashmap_rehash_m (hashmap_put_m fuel) h t;
        if r.2 =? MAP_OMEM then Done (r.1, MAP_OMEM)
        else hashmap_put_m fuel r.1.1 r.1.2 key value
      else
        m ← of_option (set_slot (t_map t) index key value);
        Done (h, mk_table (t_self t) (t_data t) m, MAP_OK)
  end.

(** Iterators; a null pointer from [malloc] is written through. *)
Definition hashmap_it_new_m `{BlockEnv} (h : mem) : option (mem * Z) :=
  let '(h, it) := malloc_block h in if it =? NULL then None else Some (h, it).

Definition hashmap_it_free (h : mem) (it : Z) : option mem := free_block h it.

Definition awdl_peers_it_free (h : mem) (it : Z) : option mem := hashmap_it_free h it.

(** [awdl_peers_free] with the blocks of the iterator and of the table; the
    peers have their own heap. *)
Definition awdl_peers_free_m `{BlockEnv} (h : mem) (t : table) (peers : gmap Z awdl_peer) :
    outcome (mem * gmap Z awdl_peer) :=
  i ← of_option (hashmap_it_new_m h);
  peers ← awdl_peers_free (mk_peers (t_map t) peers);
  h ← of_option (hashmap_it_free i.1 i.2);
  h ← of_option (hashmap_free h (t_self t) (t_data t));
  Done (h, peers).

(** ** The packet queue *)

(** The asserts, and the array that is not checked; [block] is what it
    holds. *)
Definition circular_buf_init_m `{BlockEnv} {V} (size : Z) (block : list V) (h : mem) :
    option (mem * Z * Z * circular_buf V) :=
  if size =? 0 then None else
  let '(h, cbuf) := malloc_block h in
  if cbuf =? NULL then None else
  let '(h, buffer) := malloc_block h in
  c ← circular_buf_init size block;
  Some (h, cbuf, buffer, c).

Definition circular_buf_free (h : mem) (cbuf buffer : Z) : option mem :=
  if cbuf =? NULL then None else if buffer =? NULL then None else
  h ← free_block h buffer; free_block h cbuf.

(** ** Ownership *)

(** The live blocks are those of the table and [F]. *)
Record owns (h : mem) (t : table) (F : mem) : Prop := {
  own_blocks : h = {[t_self t]} ∪ ({[t_data t]} ∪ F);
  own_self : t_self t ≠ NULL ∧ t_self t ∉ F;
  own_data : t_data t ≠ NULL ∧ t_data t ∉ F;
  own_apart : t_self t ≠ t_data t }.

Lemma free_block_live p F : p ≠ NULL → p ∉ F → free_block ({[p]} ∪ F) p = Some F.
Proof. intros Hn Hp. unfold free_block. if_false. rewrite bool_decide_true by set_solver. f_equal. set_solver. Qed.

Lemma hashmap_free_owned h t F : owns h t F → hashmap_free h (t_self t) (t_data t) = Some F.
Proof.
  intros [-> [Hs Hs'] [Hd Hd'] Hne]. unfold hashmap_free.
  replace ({[t_self t]} ∪ ({[t_data t]} ∪ F)) with ({[t_data t]} ∪ ({[t_self t]} ∪ F)) by set_solver.
  rewrite free_block_live by set_solver. cbn [mbind option_bind]. by apply free_block_live.
Qed.

Section owned.
Context `{CallocEnv} `{BlockOk}.

(** On failure nothing stays allocated. *)
Lemma hashmap_new_m_spec key_size h :
  ∃ h' t, hashmap_new_m key_size h = Some (h', t) ∧
    match t with
    | Some t => owns h' t h ∧ hashmap_new key_size = Some (t_map t)
    | None => h' = h ∧ (malloc_fails h = true ∨ hashmap_new key_size = None)
    end.
Proof.
  unfold hashmap_new_m, malloc_block, calloc_block, hashmap_new.
  destruct (malloc_fails h); [exists h, None; split; [done|auto]|].
  pose proof (block_nonnull h) as Hn. pose proof (block_fresh h) as Hf. set (m := block_at h) in *.
  pose proof (block_nonnull ({[m]} ∪ h)) as Hn'. pose proof (block_fresh ({[m]} ∪ h)) as Hf'. set (d := block_at _) in *.
  if_false. destruct (calloc_ok INITIAL_SIZE).
  - if_false. eexists _, _. split; [reflexivity|]. split; [|done]. constructor; cbn [t_self t_data]; set_solver.
  - if_true. exists h, None. unfold hashmap_free, free_block at 2. if_true. cbn [mbind option_bind].
    rewrite free_block_live by done. auto.
Qed.

(** What [put] gives where the function of HashMap gives [(m, st)]. *)
Definition stays_owned (h : mem) (t : table) (F : mem) (m : hashmap_map) (st : Z) (r : outcome (mem * table * Z)) : Prop :=
  ∃ h' t' L, r = Done (h', t', st) ∧ t_map t' = m ∧ owns h' t' (L ∪ F) ∧ L ## F ∧
    (st = MAP_OK ∧ L = ∅ ∨ st = MAP_OMEM).

Section rehash.
Variable put : hashmap_map → mkey → any_t → outcome (hashmap_map * Z).
Variable put_m : mem → table → mkey → any_t → outcome (mem * table * Z).
Hypothesis put_sim : ∀ h t F key value m st,
  owns h t F → put (t_map t) key value = Done (m, st) → stays_owned h t F m st (put_m h t key value).

Lemma rehash_loop_m_spec curr : ∀ h t F m st,
  owns h t F → rehash_loop put curr (t_map t) = Done (m, st) → stays_owned h t F m st (rehash_loop_m put_m curr h t).
Proof.
  induction curr as [|e curr IH]; intros h t F m st Ho; cbn [rehash_loop rehash_loop_m].
  - intros [= <- <-]. exists h, t, ∅. rewrite union_empty_l_L. split_and!; auto; set_solver.
  - destruct (e_in_use e =? 0); [by apply IH|].
    destruct (e_key e) as [k|]; cbn [of_option mbind outcome_bind]; [|done].
    destruct (put (t_map t) k (e_data e)) as [[m1 st1]| |] eqn:Hput; cbn [mbind outcome_bind fst snd]; [|done..].
    destruct (put_sim h t F k (e_data e) m1 st1 Ho Hput) as (h1 & t1 & L & -> & <- & Ho1 & Hd & [[-> ->]| ->]);
      cbn [mbind outcome_bind fst snd].
    + change (negb (MAP_OK =? MAP_OK)) with false. cbv iota. rewrite union_empty_l_L in Ho1. by apply IH.
    + change (negb (MAP_OMEM =? MAP_OK)) with true. cbv iota. intros [= <- <-].
      exists h1, t1, L. split_and!; auto.
Qed.

(** The old array is left behind when an element cannot be moved. *)
Lemma hashmap_rehash_m_spec h t F m st :
  owns h t F → rehash_with put (t_map t) = Done (m, st) → stays_owned h t F m st (hashmap_rehash_m put_m h t).
Proof.
  intros Ho. unfold rehash_with, hashmap_rehash_m. destruct (int_mul 2 _) as [n|]; cbn [of_option mbind outcome_bind]; [|done].
  unfold calloc_block. destruct (calloc_ok n) eqn:Hc; cbn [negb]; cycle 1.
  { intros [= <- <-]. if_true. exists h, t, ∅. rewrite union_empty_l_L. split_and!; auto; set_solver. }
  pose proof (block_nonnull h) as Hn. pose proof (block_fresh h) as Hf. set (temp := block_at h) in *.
  if_false. destruct Ho as [-> [Hs Hs'] [Hd Hd'] Hne]. set (t1 := mk_table (t_self t) temp _). intros Hloop.
  destruct (rehash_loop_m_spec (m_data (t_map t)) ({[temp]} ∪ ({[t_self t]} ∪ ({[t_data t]} ∪ F))) t1 ({[t_data t]} ∪ F) m st)
    as (h2 & t2 & L & -> & Hm & Ho2 & HL & Hst); [constructor; cbn [t1 t_self t_data]; set_solver|exact Hloop|].
  cbn [mbind outcome_bind fst snd]. destruct Hst as [[-> ->]| ->].
  - change (negb (MAP_OK =? MAP_OK)) with false. cbv iota. rewrite union_empty_l_L in Ho2.
    destruct Ho2 as [-> [Hs2 Hs2'] [Hd2 Hd2'] Hne2].
    replace ({[t_self t2]} ∪ ({[t_data t2]} ∪ ({[t_data t]} ∪ F))) with ({[t_data t]} ∪ ({[t_self t2]} ∪ ({[t_data t2]} ∪ F))) by set_solver.
    rewrite free_block_live by set_solver. cbn [of_option mbind outcome_bind].
    exists ({[t_self t2]} ∪ ({[t_data t2]} ∪ F)), t2, ∅. rewrite union_empty_l_L. split_and!; auto; [|set_solver].
    constructor; set_solver.
  - change (negb (MAP_OMEM =? MAP_OK)) with true. cbv iota. exists h2, t2, (L ∪ {[t_data t]}).
    rewrite <- union_assoc_L. split_and!; auto. set_solver.
Qed.
End rehash.

(** [hashmap_put_m] does what [hashmap_put] does, and the table owns its
    blocks afterwards; some others are lost when memory runs out. *)
Lemma hashmap_put_m_spec fuel : ∀ h t F key value m st,
  owns h t F → hashmap_put fuel (t_map t) key value = Done (m, st) → stays_owned h t F m st (hashmap_put_m fuel h t key value).
Proof.
  induction fuel as [|fuel IH]; intros h t F key value m st Ho; cbn [hashmap_put hashmap_put_m]; [done|].
  destruct (hashmap_hash (t_map t) key) as [index|]; cbn [of_option mbind outcome_bind]; [|done].
  destruct (index =? MAP_FULL).
  - destruct (rehash_with _ _) as [[m1 st1]| |] eqn:Hr; cbn [mbind outcome_bind fst snd]; [|done..].
    destruct (hashmap_rehash_m_spec _ _ IH h t F m1 st1 Ho Hr) as (h1 & t1 & L & -> & <- & Ho1 & HL & [[-> ->]| ->]);
      cbn [mbind outcome_bind fst snd].
    + change (MAP_OK =? MAP_OMEM) with false. cbv iota. rewrite union_empty_l_L in Ho1. by apply IH.
    + change (MAP_OMEM =? MAP_OMEM) with true. cbv iota. intros [= <- <-]. exists h1, t1, L. split_and!; auto.
  - destruct (set_slot _ _ _ _) as [m1|]; cbn [of_option mbind outcome_bind]; [|done]. intros [= <- <-].
    exists h, (mk_table (t_self t) (t_data t) m1), ∅. rewrite union_empty_l_L. split_and!; auto; [|set_solver].
    destruct Ho. by constructor.
Qed.
End owned.

(** ** The life of a table *)

(** What clients do with a table: look a key up and add it if it is missing
    (as [awdl_peer_add]), remove one (as [awdl_peer_remove]), and iterate
    and remove (as [awdl_peers_remove]). *)
Inductive request := Insert (key : mkey) (value : any_t) | Remove (key : mkey) | Sweep (stale : any_t → bool).

Section life.
Context `{CallocBounded} `{BlockOk}.

(** The status is that of the call that changes the table. *)
Definition run_request (h : mem) (t : table) (r : request) : outcome (mem * table * Z) :=
  match r with
  | Insert key value =>
      g ← of_option (hashmap_get (t_map t) key false);
      let '(m, st, _) := g in
      if st =? MAP_OK then Done (h, t, MAP_OK)
      else hashmap_put_m PUT_FUEL h (mk_table (t_self t) (t_data t) m) key value
  | Remove key =>
      g ← of_option (hashmap_get (t_map t) key true);
      let '(m, st, _) := g in
      Done (h, mk_table (t_self t) (t_data t) m, st)
  | Sweep stale =>
      i ← of_option (hashmap_it_new_m h);
      r ← while_next (it_fuel (t_map t)) (λ s e, Some (s, stale (e_data e))) tt (t_map t) hashmap_it_new;
      h ← of_option (hashmap_it_free i.1 i.2);
      Done (h, mk_table (t_self t) (t_data t) r.2, MAP_OK)
  end.

(** Whether a request ran out of memory. *)
Fixpoint run_requests (h : mem) (t : table) (rs : list request) : outcome (mem * table * bool) :=
  match rs with
  | [] => Done (h, t, false)
  | r :: rs =>
      x ← run_request h t r;
      y ← run_requests x.1.1 x.1.2 rs;
      Done (y.1, (x.2 =? MAP_OMEM) || y.2)
  end.

Lemma iterator_balanced h :
  malloc_fails h = false → ∃ h' it, hashmap_it_new_m h = Some (h', it) ∧ hashmap_it_free h' it = Some h.
Proof.
  intros Hm. unfold hashmap_it_new_m, malloc_block. rewrite Hm. pose proof (block_nonnull h). if_false.
  eexists _, _. split; [done|]. apply free_block_live; [done|apply block_fresh].
Qed.

Lemma owns_map h t m F : owns h t F → owns h (mk_table (t_self t) (t_data t) m) F.
Proof. intros []. by constructor. Qed.

(** A request that needs an iterator when there is no memory for one. *)
Definition no_iterator (h : mem) (r : request) : Prop :=
  match r with Sweep _ => malloc_fails h = true | _ => False end.

Lemma run_request_owned h t F r :
  owns h t F → hm_inv (t_map t) →
  (run_request h t r = Undef ∧ no_iterator h r) ∨
  ∃ h' t' st L, run_request h t r = Done (h', t', st) ∧ owns h' t' (L ∪ F) ∧ L ## F ∧ hm_inv (t_map t') ∧
    (st ≠ MAP_OMEM → L = ∅).
Proof.
  intros Ho Hi. destruct r as [key value|key|stale]; cbn [run_request].
  - pose proof (hashmap_get_spec (t_map t) key false Hi) as Hg. destruct (to_map (t_map t) !! key) as [v|] eqn:Hk.
    + destruct Hg as (m & -> & _). right. exists h, t, MAP_OK, ∅. rewrite union_empty_l_L. split_and!; auto; set_solver.
    + rewrite Hg. cbn [of_option mbind outcome_bind]. change (MAP_MISSING =? MAP_OK) with false. cbv iota.
      destruct (hashmap_put_fuel (t_map t) key value Hi Hk) as (m' & st & Hput & Hpost).
      destruct (hashmap_put_m_spec PUT_FUEL h _ F key value m' st (owns_map _ _ (t_map t) _ Ho) Hput)
        as (h' & t' & L & -> & <- & Ho' & HL & Hst).
      right. exists h', t', st, L. split_and!; auto; [apply Hpost|]. by destruct Hst as [[_ ->]| ->].
  - pose proof (hashmap_get_spec (t_map t) key true Hi) as Hg. destruct (to_map (t_map t) !! key) as [v|].
    + destruct Hg as (m & -> & Hm & _). right. eexists _, _, _, ∅. rewrite union_empty_l_L. split; [reflexivity|].
      split_and!; auto; [by apply owns_map|set_solver].
    + rewrite Hg. right. eexists _, _, _, ∅. rewrite union_empty_l_L. split; [reflexivity|].
      split_and!; auto; [by apply owns_map|set_solver].
  - destruct (malloc_fails h) eqn:Em.
    { left. split; [|exact Em]. unfold hashmap_it_new_m, malloc_block. by rewrite Em. }
    right. destruct (iterator_balanced h Em) as (h1 & it & -> & Hfree). cbn [of_option mbind outcome_bind fst snd].
    pose proof (while_next_entries (λ s v, Some (s, stale v)) tt (t_map t) Hi) as Hw.
    assert (is_Some (fold_entries (λ s v, Some (s, stale v)) (entries (t_map t)) tt)) as [[s l] Hf].
    { clear Hw. generalize tt. induction (entries (t_map t)) as [|kv l IH]; intros s; cbn [fold_entries]; [by eexists|].
      cbn [mbind option_bind fst snd]. destruct (IH s) as [x ->]. by eexists. }
    rewrite Hf in Hw. destruct Hw as (m' & -> & Hm' & _). cbn [mbind outcome_bind]. rewrite Hfree.
    eexists _, _, _, ∅. rewrite union_empty_l_L. split; [reflexivity|]. split_and!; auto; [by apply owns_map|set_solver].
Qed.

(** The requests [rs] get to one that needs an iterator when there is none. *)
Definition gets_no_iterator (h : mem) (t : table) (rs : list request) : Prop :=
  ∃ pre r post h' t' short, rs = pre ++ r :: post ∧ run_requests h t pre = Done (h', t', short) ∧ no_iterator h' r.

Lemma run_requests_owned rs : ∀ h t F,
  owns h t F → hm_inv (t_map t) →
  (run_requests h t rs = Undef ∧ gets_no_iterator h t rs) ∨
  ∃ h' t' short L, run_requests h t rs = Done (h', t', short) ∧ owns h' t' (L ∪ F) ∧ L ## F ∧ (short = false → L = ∅).
Proof.
  induction rs as [|r rs IH]; intros h t F Ho Hi; cbn [run_requests].
  - right. exists h, t, false, ∅. rewrite union_empty_l_L. split_and!; auto; set_solver.
  - destruct (run_request_owned h t F r Ho Hi) as [[Hu Hno]|(h1 & t1 & st & L1 & E1 & Ho1 & HL1 & Hi1 & Hst)].
    { rewrite Hu. left. split; [done|]. by exists [], r, rs, h, t, false. }
    rewrite E1. cbn [mbind outcome_bind fst snd].
    destruct (IH h1 t1 (L1 ∪ F) Ho1 Hi1) as [[-> (pre & r' & post & h' & t' & short & -> & Hrun & Hno)]
      |(h2 & t2 & short & L2 & -> & Ho2 & HL2 & Hsh)]; cbn [mbind outcome_bind fst snd].
    + left. split; [done|]. exists (r :: pre), r', post, h', t', ((st =? MAP_OMEM) || short).
      split; [done|]. split; [|done]. cbn [run_requests]. rewrite E1. cbn [mbind outcome_bind fst snd]. by rewrite Hrun.
    + right. exists h2, t2, ((st =? MAP_OMEM) || short), (L2 ∪ L1). rewrite <- union_assoc_L. split_and!; auto; [set_solver|].
      intros [Hno Hs]%orb_false_iff. rewrite Hst, (Hsh Hs) by lia. set_solver.
Qed.
End life.

(** The peer table is released with its peers and the iterator that visits
    them. *)
Lemma peers_memory_balanced `{BlockOk} h t F peers P :
  malloc_fails h = false → owns h t F → peers_rep (mk_peers (t_map t) peers) P → no_leak (mk_peers (t_map t) peers) →
  awdl_peers_free_m h t peers = Done (F, ∅).
Proof.
  intros Hm Ho R Hl. unfold awdl_peers_free_m. destruct (iterator_balanced h Hm) as (h1 & it & -> & Hf).
  cbn [of_option mbind outcome_bind fst snd]. rewrite (peers_free_spec _ _ R Hl). cbn [mbind outcome_bind].
  rewrite Hf. cbn [of_option mbind outcome_bind]. by rewrite (hashmap_free_owned _ _ _ Ho).
Qed.

(** The queue is released with its array; but a failed allocation of the
    array is noticed only then. *)
Lemma queue_memory_balanced `{BlockOk} {V} size (block : list V) h :
  0 < size < 2 ^ 64 → Z.of_nat (length block) = size → malloc_fails h = false →
  ∃ h' cbuf buffer c, circular_buf_init_m size block h = Some (h', cbuf, buffer, c) ∧
    circular_buf_free h' cbuf buffer = if malloc_fails ({[block_at h]} ∪ h) then None else Some h.
Proof.
  intros Hs Hb Hm. destruct (rep_init size block Hs Hb) as (c & Hc & _).
  pose proof (block_nonnull h) as Hn. pose proof (block_fresh h) as Hf.
  unfold circular_buf_init_m. if_false. unfold malloc_block at 1. rewrite Hm. if_false. unfold malloc_block.
  set (h1 := {[block_at h]} ∪ h). pose proof (block_nonnull h1) as Hn'. pose proof (block_fresh h1) as Hf'.
  destruct (malloc_fails h1); rewrite Hc; (eexists _, _, _, c; split; [reflexivity|]); unfold circular_buf_free; if_false.
  - by if_true.
  - if_false. rewrite free_block_live by done. cbn [mbind option_bind]. by apply free_block_live.
Qed.

(** C13: a table gives back its memory, whatever the allocators refuse (and
    they do refuse arrays of 2^30 slots or more). A table that cannot be
    created leaves nothing behind, and that happens only if one of its two
    blocks is refused. From then on, whatever is inserted, removed and iterated
    over, no block is freed twice or after its end, and [hashmap_free] leaves
    exactly the blocks that were live before, unless an insertion ran out of
    memory; then at least those. The one exception is an iteration for which
    [malloc] gives no iterator: the code writes through the null pointer, which
    is undefined. *)
Theorem table_memory_balanced `{CallocBounded} `{BlockOk} key_size h rs :
  ∃ h1 t, hashmap_new_m key_size h = Some (h1, t) ∧
    match t with
    | None => h1 = h ∧ (malloc_fails h = true ∨ calloc_ok INITIAL_SIZE = false)
    | Some t =>
        (run_requests h1 t rs = Undef ∧ gets_no_iterator h1 t rs) ∨
        ∃ h2 t2 short h3, run_requests h1 t rs = Done (h2, t2, short) ∧
          hashmap_free h2 (t_self t2) (t_data t2) = Some h3 ∧ h ⊆ h3 ∧ (short = false → h3 = h)
    end.
Proof.
  destruct (hashmap_new_m_spec key_size h) as (h1 & t & Hn & Ht). exists h1, t. split; [done|].
  destruct t as [t|].
  2: { destruct Ht as [-> Hno]. split; [done|]. unfold hashmap_new in Hno. destruct (calloc_ok _), Hno; auto; discriminate. }
  destruct Ht as [Ho Hnew].
  assert (hm_inv (t_map t)) as Hi.
  { unfold hashmap_new in Hnew. destruct (calloc_ok INITIAL_SIZE); [|done]. injection Hnew as <-.
    apply empty_inv. unfold INITIAL_SIZE, MAX_TABLE. lia. }
  destruct (run_requests_owned rs h1 t h Ho Hi) as [?|(h2 & t2 & short & L & Hr & Ho2 & HL & Hs)]; [by left|right].
  exists h2, t2, short, (L ∪ h). split_and!; [done|by apply hashmap_free_owned|set_solver|].
  intros E. rewrite (Hs E). set_solver.
Qed.

(** The next free address; [malloc] works. *)
Definition sample_blocks : BlockEnv := {| block_at := λ h, fresh (h ∪ {[NULL]}); malloc_fails := λ _, false |}.

Lemma sample_blocks_ok : @BlockOk sample_blocks.
Proof.
  split; intros h; simpl; pose proof (is_fresh (h ∪ {[NULL]})) as Hf; apply not_elem_of_union in Hf as [Hh Hn]; [|done].
  by rewrite elem_of_singleton in Hn.
Qed.

Lemma sample_requests :
  match @hashmap_new_m small_calloc sample_blocks 6 {[ 77 ]} with
  | Some (h, Some t) =>
      match @run_requests small_calloc sample_blocks h t [Insert sample_key 4096; Sweep (λ _, true); Remove sample_key] with
      | Done (_, short) => short = false
      | _ => False
      end
  | _ => False
  end.
Proof. vm_compute. reflexivity. Qed.

Lemma table_memory_balanced_witness :
  ∃ h1 t h2 t2 h3, @hashmap_new_m small_calloc sample_blocks 6 {[ 77 ]} = Some (h1, Some t) ∧
    @run_requests small_calloc sample_blocks h1 t [Insert sample_key 4096; Sweep (λ _, true); Remove sample_key] = Done (h2, t2, false) ∧
    hashmap_free h2 (t_self t2) (t_data t2) = Some h3 ∧ h3 = {[ 77 ]}.
Proof.
  destruct (@table_memory_balanced small_calloc small_calloc_bounded sample_blocks sample_blocks_ok 6 {[ 77 ]}
    [Insert sample_key 4096; Sweep (λ _, true); Remove sample_key]) as (h1 & t & Hn & Ht).
  pose proof sample_requests as Hsample. rewrite Hn in Hsample. destruct t as [t|]; [|destruct Hsample].
  destruct Ht as [[Hu _]|(h2 & t2 & short & h3 & Hr & Hf & _ & Hs)]; [rewrite Hu in Hsample; destruct Hsample|]. rewrite Hr in Hsample. exists h1, t, h2, t2, h3.
  split; [exact Hn|]. split; [rewrite <- Hsample; exact Hr|]. split; [exact Hf|]. exact (Hs Hsample).
Defined.
