(* ===== verification/ElectionRun.v ===== *)
(** * ElectionRun: the election over the peer table (src/election.c,
    [awdl_election_run])

    The loop walks over the peer table with an iterator and keeps a pointer
    to the best candidate, initially the node's own state.  The theorems say
    that it returns and that its result does not depend on the order of the
    table: it is the greatest of the node and the admissible peers in the
    order of Election. *)

From Stdlib Require Import ZArith Lia ZifyBool.
From stdpp Require Import base tactics numbers list gmap.
From S2P Require Import Prelude SipHash HashMap Channel Election Peers.

Local Open Scope Z_scope.

(** ** The operation *)

(** What [master_state] points to: [None] is the node's own state. *)
Definition master_state_of (state : awdl_election_state) (h : gmap Z awdl_peer)
    (master : option Z) : option awdl_election_state :=
  match master with
  | None => Some state
  | Some p => peer ← h !! p; Some (election peer)
  end.

(** One iteration: the pointer to the candidate after considering [p]. *)
Definition election_body (state : awdl_election_state) (h : gmap Z awdl_peer)
    (master : option Z) (p : Z) : option (option Z) :=
  peer ← h !! p;
  let peer_state := election peer in
  if is_valid peer =? 0 then Some master
  else if negb (peer_eligible (self_addr state) peer_state) then Some master
  else
    master_state ← master_state_of state h master;
    if peer_preferred peer_state master_state then Some (Some p) else Some master.

Definition awdl_election_run (state : awdl_election_state) (ps : awdl_peers) :
    outcome awdl_election_state :=
  let state := awdl_election_reset_self state in
  master ← peers_while_next ps (election_body state (p_heap ps)) None;
  match master with
  | None => Done state
  | Some _ =>
      master_state ← of_option (master_state_of state (p_heap ps) master);
      Done (adopt_master state master_state)
  end.

(** ** The specification *)

(** The states of the peers the election considers. *)
Definition valid_states (P : gmap mkey awdl_peer) : list awdl_election_state :=
  omap (λ kp : mkey * awdl_peer, if is_valid kp.2 =? 0 then None else Some (election kp.2))
    (map_to_list P).

(** [s'] is the outcome of an election of [s] among [P]: the greatest
    candidate is adopted, or the node is its own master. *)
Definition elected (s : awdl_election_state) (P : gmap mkey awdl_peer)
    (s' : awdl_election_state) : Prop :=
  let self := awdl_election_reset_self s in
  let cands := eligible (self_addr s) (valid_states P) in
  (s' = self ∧ ∀ c, c ∈ cands → 0 <= rank self c) ∨
  (∃ best, best ∈ cands ∧ s' = adopt_master self best ∧ 0 < rank best self ∧
     ∀ c, c ∈ cands → 0 <= rank best c).

(** ** Lemmas *)

(** The state of the peer at [p], if it is valid. *)
Definition valid_state_at (h : gmap Z awdl_peer) (p : Z) : option awdl_election_state :=
  peer ← h !! p; if is_valid peer =? 0 then None else Some (election peer).

Section fold.
Context (state : awdl_election_state) (h : gmap Z awdl_peer).

(** One iteration is one step of [elect]. *)
Lemma election_body_step master ms p peer :
  h !! p = Some peer → master_state_of state h master = Some ms →
  ∃ master', election_body state h master p = Some master' ∧
    ((master' = master ∧ ∀ l, elect (self_addr state) (option_list (valid_state_at h p) ++ l) ms =
        elect (self_addr state) l ms) ∨
     (master' = Some p ∧ 0 < rank (election peer) ms ∧
      ∀ l, elect (self_addr state) (option_list (valid_state_at h p) ++ l) ms =
        elect (self_addr state) l (election peer))).
Proof.
  intros Hp Hm. unfold election_body, valid_state_at. rewrite Hp. simpl.
  destruct (is_valid peer =? 0); simpl; [eauto|].
  destruct (peer_eligible (self_addr state) (election peer)); simpl; [|eauto].
  rewrite Hm. simpl. destruct (peer_preferred (election peer) ms) eqn:Hpref; [|eauto].
  rewrite preferred_rank in Hpref. eexists; split; [done|]. right. split_and!; [done|lia|done].
Qed.

Lemma election_fold l : ∀ master ms,
  (∀ p, p ∈ l → ∃ peer, h !! p = Some peer ∧ addr_ok (self_addr (election peer))) →
  addr_ok (self_addr ms) → master_state_of state h master = Some ms →
  ∃ master', fold_ptrs (election_body state h) l master = Some master' ∧
    let best := elect (self_addr state) (omap (valid_state_at h) l) ms in
    master_state_of state h master' = Some best ∧ addr_ok (self_addr best) ∧
    ((master' = master ∧ best = ms) ∨ (master' ≠ None ∧ 0 < rank best ms)).
Proof.
  induction l as [|p l IH]; intros master ms Hl Ha Hm.
  { exists master. simpl. split_and!; auto. }
  destruct (Hl p) as (peer & Hp & Hpa); [left|].
  assert (∀ q, q ∈ l → ∃ peer, h !! q = Some peer ∧ addr_ok (self_addr (election peer))) as Hl'
    by (intros; apply Hl; by right).
  destruct (election_body_step master ms p peer Hp Hm) as (m1 & Hb & Hc).
  assert (omap (valid_state_at h) (p :: l) =
    option_list (valid_state_at h p) ++ omap (valid_state_at h) l) as ->
    by (csimpl; by destruct (valid_state_at h p)).
  cbn [fold_ptrs]. rewrite Hb. cbn [mbind option_bind].
  destruct Hc as [[-> Hel]|(-> & Hr & Hel)].
  - destruct (IH master ms Hl' Ha Hm) as (m' & Hf & Hs & Hba & Hd).
    exists m'. rewrite Hel. auto.
  - assert (master_state_of state h (Some p) = Some (election peer)) as Hm1
      by (simpl; by rewrite Hp).
    destruct (IH (Some p) _ Hl' Hpa Hm1) as (m' & Hf & Hs & Hba & Hd).
    exists m'. rewrite Hel. split_and!; [done..|]. right.
    destruct Hd as [[-> ->]|[Hn Hr']]; [done|]. split; [done|].
    eapply (rank_strict_l _ (election peer)); auto. lia.
Qed.
End fold.

(** The states in table order are those of the view in some order. *)
Lemma valid_states_perm ps P :
  peers_rep ps P →
  omap (valid_state_at (p_heap ps)) (entries (p_map ps)).*2 ≡ₚ valid_states P.
Proof.
  intros R. unfold valid_states.
  assert (entries (p_map ps) ≡ₚ map_to_list (to_map (p_map ps))) as ->
    by (symmetry; apply map_to_list_to_map, R).
  assert (∀ L : list (mkey * awdl_peer),
    omap (λ kp : mkey * awdl_peer, if is_valid kp.2 =? 0 then None else Some (election kp.2)) L =
    omap (λ peer, if is_valid peer =? 0 then None else Some (election peer)) L.*2) as ->
    by (induction L as [|x L IH]; csimpl; [done|]; by rewrite IH).
  rewrite (rep_peers _ _ R), <- omap_values.
  generalize (map_to_list (to_map (p_map ps))). intros L.
  induction L as [|[k p] L IH]; csimpl; [done|].
  unfold valid_state_at at 1. destruct (p_heap ps !! p) as [peer|]; csimpl; [|done].
  destruct (is_valid peer =? 0); [done|]. by rewrite IH.
Qed.

(** What the table guarantees the election. *)
Lemma valid_states_ok P : peers_ok P → Forall election_ok (valid_states P).
Proof.
  intros Hok. apply Forall_forall. intros c Hc. unfold valid_states in Hc.
  apply list_elem_of_omap in Hc as ([k peer] & Hin%elem_of_map_to_list & Hc). simpl in Hc.
  apply Hok in Hin as []. case_match; naive_solver.
Qed.

(** Peers are told apart by their addresses. *)
Lemma valid_states_inj P c c' :
  peers_ok P → c ∈ valid_states P → c' ∈ valid_states P → self_addr c = self_addr c' → c = c'.
Proof.
  intros Hok Hc Hc' Heq. unfold valid_states in *.
  apply list_elem_of_omap in Hc as ([k p] & Hin%elem_of_map_to_list & Hc).
  apply list_elem_of_omap in Hc' as ([k' p'] & Hin'%elem_of_map_to_list & Hc'). simpl in *.
  pose proof (pok_self _ _ (Hok _ _ Hin)). pose proof (pok_self _ _ (Hok _ _ Hin')).
  destruct (is_valid p =? 0), (is_valid p' =? 0); try done.
  injection Hc as <-. injection Hc' as <-. congruence.
Qed.

Lemma eligible_elem self l c : c ∈ eligible self l → c ∈ l ∧ peer_eligible self c = true.
Proof. unfold eligible. rewrite list_elem_of_filter. tauto. Qed.

Lemma eligible_perm self l l' c : l ≡ₚ l' → c ∈ eligible self l ↔ c ∈ eligible self l'.
Proof. unfold eligible. intros Hp. rewrite !list_elem_of_filter. by rewrite Hp. Qed.

Lemma run_elected s ps P :
  peers_rep ps P → peers_ok P → election_ok s →
  ∃ s', awdl_election_run s ps = Done s' ∧ elected s P s'.
Proof.
  intros R Hok Hs. set (self := awdl_election_reset_self s).
  destruct (election_fold self (p_heap ps) (entries (p_map ps)).*2 None self)
    as (m' & Hf & Hm & _ & Hd); [|apply Hs|done|].
  { intros p ([k q] & -> & Hin)%list_elem_of_fmap. simpl.
    destruct (entries_live ps P R _ Hin) as [_ [peer Hp]]. exists peer. split; [done|].
    apply to_map_entries in Hin; [|apply R].
    apply (pok_election k), Hok, (rep_lookup ps P R k q); done. }
  pose proof (valid_states_perm ps P R) as Hperm.
  destruct (elect_best (self_addr s) (omap (valid_state_at (p_heap ps)) (entries (p_map ps)).*2) self)
    as [Hin Hmax].
  { constructor; [apply Hs|]. rewrite Hperm.
    eapply Forall_impl; [by apply valid_states_ok|]. by intros c []. }
  unfold awdl_election_run. rewrite peers_while_next_spec by apply R. fold self.
  rewrite Hf. simpl. change (self_addr self) with (self_addr s) in *.
  set (best := elect _ _ _) in *.
  destruct Hd as [[-> Hb]|[Hn Hr]].
  - eexists; split; [done|]. left. split; [done|]. intros c Hc.
    fold self. rewrite <- Hb. apply Hmax. right. by apply (eligible_perm _ _ _ _ Hperm).
  - destruct m' as [p|]; [|done]. rewrite Hm. simpl. eexists; split; [done|]. right.
    exists best. split_and!; [|done|done|].
    + destruct Hin as [Hin|Hin]; [rewrite Hin, rank_refl in Hr; lia|].
      by apply (eligible_perm _ _ _ _ Hperm).
    + intros c Hc. apply Hmax. right. by apply (eligible_perm _ _ _ _ Hperm).
Qed.

Lemma elected_unique s P s1 s2 :
  peers_ok P → election_ok s → elected s P s1 → elected s P s2 → s1 = s2.
Proof.
  intros Hok Hs [[-> H1]|(a & Ha & -> & Ha0 & H1)] [[-> H2]|(b & Hb & -> & Hb0 & H2)].
  - done.
  - specialize (H1 b Hb). rewrite rank_opp in H1. lia.
  - specialize (H2 a Ha). rewrite rank_opp in H2. lia.
  - f_equal. specialize (H1 b Hb). specialize (H2 a Ha). rewrite rank_opp in H2.
    apply eligible_elem in Ha as [Ha _]. apply eligible_elem in Hb as [Hb _].
    pose proof (proj1 (Forall_forall _ _) (valid_states_ok P Hok)) as Hall.
    apply (valid_states_inj P); [done..|]. apply rank_total_eq; [by apply Hall..|lia].
Qed.

(** ** Properties *)

Lemma elected_ok s P s' : elected s P s' → peers_ok P → election_ok s → election_ok s'.
Proof.
  intros [[-> _]|(best & [Hin _]%eligible_elem & -> & _)] Hok Hs; [auto with owl|].
  apply adopt_master_ok; [auto with owl|].
  by apply (proj1 (Forall_forall _ _) (valid_states_ok P Hok)).
Qed.

Lemma elected_height s P s' : elected s P s' → height s' <= AWDL_ELECTION_TREE_MAX_HEIGHT.
Proof.
  intros [[-> _]|(best & [_ Hel]%eligible_elem & -> & _)]; simpl; unfold AWDL_ELECTION_TREE_MAX_HEIGHT in *; [lia|].
  unfold peer_eligible, AWDL_ELECTION_TREE_MAX_HEIGHT in Hel. lia.
Qed.

(** C14: [awdl_election_run] returns on every well-formed peer table, without
    an undefined access, and the node ends up with the greatest of itself and
    the valid peers that pass the tree and cycle guards, ordered by counter,
    metric, smaller height and larger address, whatever the order in which
    the table yields them; it follows a peer only if that peer is strictly
    greater, and its height never exceeds the limit of the tree. *)
Theorem election_run_elects_greatest s ps P :
  peers_rep ps P → peers_ok P → election_ok s →
  ∃ s', awdl_election_run s ps = Done s' ∧ elected s P s' ∧ election_ok s' ∧
        height s' <= AWDL_ELECTION_TREE_MAX_HEIGHT ∧
        ∀ s'', elected s P s'' → s'' = s'.
Proof.
  intros R Hok Hs. destruct (run_elected s ps P R Hok Hs) as (s' & Hr & He).
  exists s'. split_and!; [done|done|..].
  - by apply (elected_ok s P).
  - by apply (elected_height s P).
  - intros s'' He'. by apply (elected_unique s P).
Qed.

(** The outcome only depends on the node's own address, metric and
    counter and on the peers: running the election again changes nothing. *)
Theorem election_run_idempotent s ps P :
  peers_rep ps P → peers_ok P → election_ok s →
  ∃ s', awdl_election_run s ps = Done s' ∧ awdl_election_run s' ps = Done s'.
Proof.
  intros R Hok Hs. destruct (run_elected s ps P R Hok Hs) as (s' & Hr & He).
  exists s'. split; [done|]. rewrite <- Hr. unfold awdl_election_run.
  assert (awdl_election_reset_self s' = awdl_election_reset_self s) as ->; [|done].
  by destruct He as [[-> _]|(best & _ & -> & _)].
Qed.

Definition sample_self : ether_addr := [0; 1; 2; 3; 4; 5].
Definition self_state : awdl_election_state :=
  awdl_election_state_init (mk_election [] [] [] 0 0 0 0 0) sample_self.

Lemma self_state_ok : election_ok self_state.
Proof. apply election_init_ok. split; [done|]. repeat constructor; int_lia. Qed.

Lemma election_run_elects_greatest_witness :
  ∃ s', awdl_election_run self_state sample_peers = Done s' ∧ election_ok s'.
Proof.
  destruct (election_run_elects_greatest self_state sample_peers _ (proj1 sample_peers_rep)
    sample_peers_ok self_state_ok) as (s' & Hr & _ & Hok & _).
  exists s'. split; [exact Hr|exact Hok].
Defined.

(** The peer under [addr] has the greatest counter and metric of all valid
    peers, and greater ones than the node itself. *)
Definition outranks_all (s : awdl_election_state) (P : gmap mkey awdl_peer) (addr : mkey) (p : awdl_peer) : Prop :=
  awdl_election_compare_master (election p) (awdl_election_reset_self s) > 0 ∧
  ∀ k q, P !! k = Some q → k ≠ addr → is_valid q ≠ 0 → awdl_election_compare_master (election p) (election q) > 0.

Lemma compare_master_rank a b : awdl_election_compare_master a b > 0 → 0 < rank a b.
Proof. unfold awdl_election_compare_master, compare, rank, c_bool. split_ifs; lia. Qed.

Lemma valid_states_elem P c : c ∈ valid_states P ↔ ∃ k q, P !! k = Some q ∧ is_valid q ≠ 0 ∧ c = election q.
Proof.
  unfold valid_states. rewrite list_elem_of_omap. split.
  - intros ([k q] & Hin%elem_of_map_to_list & Hc). simpl in Hc. destruct (is_valid q =? 0) eqn:E; [done|].
    injection Hc as <-. exists k, q. split_and!; [done|lia|done].
  - intros (k & q & Hq & Hv & ->). exists (k, q). split; [by apply elem_of_map_to_list|]. simpl. by if_false.
Qed.

(** C33: the limit on the height of the tree is computed on 32 bits.  In any
    table, a valid peer that advertises the height [2^32 - 1] passes the
    guard, so that, if it does not follow the node and has the greatest
    counter and metric, the node adopts it as its master, and then has
    height 0, the height of a root, while it follows another node. *)
Theorem election_height_wraps s ps P addr p :
  peers_rep ps P → peers_ok P → election_ok s →
  P !! addr = Some p → is_valid p ≠ 0 → height (election p) = 2 ^ 32 - 1 →
  sync_addr (election p) ≠ self_addr s → outranks_all s P addr p →
  ∃ s', awdl_election_run s ps = Done s' ∧ height s' = 0 ∧ sync_addr s' = self_addr (election p) ∧
    master_addr s' = master_addr (election p).
Proof.
  intros R Hok Hs Hp Hv Hh Hsync [Hself Hall].
  destruct (run_elected s ps P R Hok Hs) as (s' & Hr & He). exists s'. split; [done|].
  pose proof (Hok _ _ Hp) as Hpok.
  assert (elected s P (adopt_master (awdl_election_reset_self s) (election p))) as He'.
  { right. exists (election p). split_and!; [|done|by apply compare_master_rank|].
    - unfold eligible. apply list_elem_of_filter. split; [|apply valid_states_elem; eauto].
      unfold peer_eligible, awdl_election_is_sync_master, compare_ether_addr. rewrite Hh.
      change (u32 (2 ^ 32 - 1 + 1) >? AWDL_ELECTION_TREE_MAX_HEIGHT) with false. cbn [negb andb].
      apply Is_true_true. destruct (memcmp _ _ =? 0) eqn:E; [|done]. exfalso. apply Hsync.
      apply memcmp_eq; [|lia]. pose proof (ok_sync _ (pok_election _ _ Hpok)) as [-> _].
      pose proof (ok_self _ Hs) as [-> _]. done.
    - intros c [Hc _]%eligible_elem. apply valid_states_elem in Hc as (k & q & Hq & Hqv & ->).
      destruct (decide (k = addr)) as [->|Hne]; [rewrite Hp in Hq; injection Hq as <-; rewrite rank_refl; lia|].
      pose proof (compare_master_rank _ _ (Hall k q Hq Hne Hqv)). lia. }
  rewrite (elected_unique s P s' _ Hok Hs He He'). unfold adopt_master. cbn. by rewrite Hh.
Qed.

(** A valid peer that advertises the height [2^32 - 1]. *)
Definition deep_peer : awdl_peer :=
  mk_peer sample_key 5 (mk_election sample_key sample_key sample_key (2 ^ 32 - 1) 500 60 500 0)
    (replicate 16 CHAN_NULL) 0 (replicate 65 0) (replicate 3 0) [] 0x34 1 0 1 1.
Definition deep_peers : awdl_peers := mk_peers sample_map {[ 4096 := deep_peer ]}.

Lemma deep_peers_rep : peers_rep deep_peers {[ sample_key := deep_peer ]}.
Proof.
  assert (to_map sample_map = {[ sample_key := 4096 ]}) as Hm by apply sample_map_to_map.
  unfold deep_peers. generalize (proj1 sample_map_inv). revert Hm. generalize sample_map. intros m Hm I.
  constructor; simpl; rewrite ?Hm; [done|..].
  - by rewrite omap_singleton, lookup_singleton_eq.
  - intros k p [<- <-]%lookup_singleton_Some. rewrite lookup_singleton_eq. split; [done|eauto].
  - intros k k' p [<- <-]%lookup_singleton_Some [<- _]%lookup_singleton_Some. done.
Qed.

Lemma deep_peers_ok : peers_ok {[ sample_key := deep_peer ]}.
Proof.
  intros k p [<- <-]%lookup_singleton_Some. pose proof sample_addr_ok as Ha.
  constructor; [done|done| |done..]. constructor; simpl; first [exact Ha | int_lia].
Qed.

Lemma election_height_wraps_witness :
  ∃ s', awdl_election_run self_state deep_peers = Done s' ∧ height s' = 0 ∧ sync_addr s' = sample_key ∧
    sample_key ≠ self_addr self_state.
Proof.
  destruct (election_height_wraps self_state deep_peers {[ sample_key := deep_peer ]} sample_key deep_peer
    deep_peers_rep deep_peers_ok self_state_ok (lookup_singleton_eq _ _)) as (s' & Hr & Hh & Hs & _).
  - discriminate.
  - reflexivity.
  - discriminate.
  - split; [reflexivity|]. intros k q [<- _]%lookup_singleton_Some Hne. by destruct Hne.
  - exists s'. split; [exact Hr|]. split; [exact Hh|]. split; [exact Hs|discriminate].
Defined.
