(* ===== verification/ElectionNet.v ===== *)
(** * ElectionNet: many nodes (src/election.c)

    The election seen from outside: a node whose peer table holds certain
    states of others chooses the best eligible one of them or itself.  The
    leader is the node that is greatest when everybody is on their own: by
    counter, then metric, then address. *)

From Stdlib Require Import ZArith Lia ZifyBool.
From stdpp Require Import base tactics numbers list gmap relations.
From S2P Require Import Prelude HashMap Channel Election Peers ElectionRun.

Local Open Scope Z_scope.

(** ** Nodes *)

(** The election state of every node, by address. *)
Abbreviation nodes := (gmap mkey awdl_election_state).

Definition nodes_ok (N : nodes) : Prop := ∀ a s, N !! a = Some s → self_addr s = a ∧ election_ok s.

(** The peers node [a] knows when it has heard every other node: the valid
    ones are the others, with the states they announced. *)
Record hears (N : nodes) (a : mkey) (P : gmap mkey awdl_peer) : Prop := {
  hears_ok : peers_ok P;
  hears_all b s : b ≠ a → N !! b = Some s → ∃ p, P !! b = Some p ∧ is_valid p ≠ 0 ∧ election p = s;
  hears_only b p : P !! b = Some p → is_valid p ≠ 0 → b ≠ a ∧ N !! b = Some (election p) }.

(** Node [a] runs the election on its table. *)
Definition runs_election (N : nodes) (a : mkey) (s s' : awdl_election_state) : Prop :=
  ∃ ps P, peers_rep ps P ∧ hears N a P ∧ awdl_election_run s ps = Done s'.

(** The node that is greatest when everybody is on their own. *)
Definition leader (N : nodes) (b : mkey) : Prop := ∃ sb, N !! b = Some sb ∧
  ∀ a s, N !! a = Some s → a ≠ b → 0 < rank (awdl_election_reset_self sb) (awdl_election_reset_self s).

(** The node at [a] follows [b]. *)
Definition follows (b a : mkey) (s : awdl_election_state) : Prop :=
  master_addr s = b ∧ sync_addr s = b ∧ height s = (if decide (a = b) then 0 else 1).

(** ** One election *)

Lemma heard_candidates N a P c :
  hears N a P → c ∈ valid_states P ↔ ∃ b, b ≠ a ∧ N !! b = Some c.
Proof.
  intros [_ Hall Honly]. unfold valid_states. rewrite list_elem_of_omap. split.
  - intros ([b p] & Hin%elem_of_map_to_list & Hc). simpl in Hc. destruct (is_valid p =? 0) eqn:E; [done|].
    injection Hc as <-. exists b. apply Honly; [done|lia].
  - intros (b & Hb & Hc). destruct (Hall b c Hb Hc) as (p & Hp & Hv & <-). exists (b, p).
    split; [by apply elem_of_map_to_list|]. simpl. by if_false.
Qed.

(** The choice in terms of the other nodes. *)
Definition outcome_of (N : nodes) (a : mkey) (s s' : awdl_election_state) : Prop :=
  let self := awdl_election_reset_self s in
  (s' = self ∧ ∀ b c, b ≠ a → N !! b = Some c → peer_eligible a c = true → 0 <= rank self c) ∨
  (∃ b c, b ≠ a ∧ N !! b = Some c ∧ peer_eligible a c = true ∧ s' = adopt_master self c ∧ 0 < rank c self ∧
     ∀ b' c', b' ≠ a → N !! b' = Some c' → peer_eligible a c' = true → 0 <= rank c c').

Lemma runs_election_outcome N a s s' :
  self_addr s = a → election_ok s → runs_election N a s s' → outcome_of N a s s'.
Proof.
  intros Hself Hs (ps & P & R & Hh & Hrun).
  destruct (run_elected s ps P R (hears_ok _ _ _ Hh) Hs) as (s1 & Hrun1 & He). rewrite Hrun in Hrun1.
  injection Hrun1 as <-. unfold elected in He. rewrite Hself in He.
  assert (∀ c, c ∈ eligible a (valid_states P) ↔ ∃ b, b ≠ a ∧ N !! b = Some c ∧ peer_eligible a c = true) as Hc.
  { intros c. unfold eligible. rewrite list_elem_of_filter, (heard_candidates N a P c Hh).
    split; [intros (? & b & ? & ?); by exists b|intros (b & ? & ? & ?); split; [done|by exists b]]. }
  destruct He as [[-> Hmax]|(c & Hin & -> & Hr & Hmax)].
  - left. split; [done|]. intros b c Hb Hbc Hel. apply Hmax, Hc. eauto.
  - right. apply Hc in Hin as (b & Hb & Hbc & Hel). exists b, c. split_and!; [done..|].
    intros b' c' Hb' Hbc' Hel'. apply Hmax, Hc. eauto.
Qed.

(** ** Claims that exceed the leader's *)

(** The claim of [s] exceeds the counter and metric of [sb] itself. *)
Definition exceeds (sb s : awdl_election_state) : Prop :=
  self_counter sb < master_counter s ∨ (self_counter sb = master_counter s ∧ self_metric sb < master_metric s).

Lemma eligible_height a c : election_ok c → height c < 2 ^ 32 - 1 → peer_eligible a c = true →
  u32 (height c + 1) = height c + 1 ∧ 0 <= height c < AWDL_ELECTION_TREE_MAX_HEIGHT.
Proof.
  intros [_ _ _ Hh _ _ _ _] Hl He. unfold peer_eligible, AWDL_ELECTION_TREE_MAX_HEIGHT in *.
  assert (u32 (height c + 1) = height c + 1) as Hu by (unfold u32; apply Z.mod_small; unfold is_u32 in Hh; lia).
  rewrite Hu in *. unfold is_u32 in Hh. lia.
Qed.

Lemma rank_reset_exceeds sb s :
  0 < rank (awdl_election_reset_self sb) (awdl_election_reset_self s) → exceeds sb (awdl_election_reset_self s) → False.
Proof. unfold rank, exceeds. simpl. destruct (_ =? _) eqn:E1, (self_metric sb =? self_metric s) eqn:E2; simpl; lia. Qed.

(** ** The leader exists *)

Lemma leader_step N a s : nodes_ok (<[a := s]> N) → N !! a = None → (∃ b, leader N b) → ∃ b, leader (<[a := s]> N) b.
Proof.
  intros HN Ha (b & sb & Hb & Hmax). assert (a ≠ b) as Hab by (intros ->; by rewrite Ha in Hb).
  assert (∀ x t, <[a := s]> N !! x = Some t → addr_ok (self_addr (awdl_election_reset_self t)) ∧ self_addr t = x) as Hok.
  { intros x t Hx. destruct (HN x t Hx) as [Hsx [_ _ Hself _ _ _ _ _]]. done. }
  assert (<[a := s]> N !! b = Some sb) as Hb' by by rewrite lookup_insert_ne.
  assert (<[a := s]> N !! a = Some s) as Ha' by by rewrite lookup_insert_eq.
  destruct (Z.lt_trichotomy (rank (awdl_election_reset_self sb) (awdl_election_reset_self s)) 0) as [Hlt|[Heq|Hgt]].
  - exists a, s. split; [done|]. intros x t Hx Hne. rewrite lookup_insert_ne in Hx by done.
    assert (<[a := s]> N !! x = Some t) as Hx' by by rewrite lookup_insert_ne.
    destruct (decide (x = b)) as [->|Hxb].
    { rewrite Hb in Hx. injection Hx as <-. rewrite rank_opp. lia. }
    apply (rank_strict_l _ (awdl_election_reset_self sb)); [by apply (Hok a)|by apply (Hok b)|by apply (Hok x)| |].
    + rewrite rank_opp. lia.
    + specialize (Hmax x t Hx Hxb). lia.
  - apply rank_total_eq in Heq; [|by apply (Hok b)|by apply (Hok a)]. simpl in Heq.
    destruct (Hok b sb Hb') as [_ Hsb], (Hok a s Ha') as [_ Hsa]. congruence.
  - exists b, sb. split; [done|]. intros x t Hx Hne. destruct (decide (x = a)) as [->|Hxa].
    { rewrite Ha' in Hx. injection Hx as <-. lia. }
    rewrite lookup_insert_ne in Hx by done. by apply (Hmax x).
Qed.

Lemma leader_exists N : nodes_ok N → N ≠ ∅ → ∃ b, leader N b.
Proof.
  induction N as [|a s N Ha IH] using map_ind; intros HN Hne; [done|].
  destruct (decide (N = ∅)) as [->|HN0].
  - exists a, s. rewrite lookup_insert_eq. split; [done|]. intros x t Hx Hxa.
    by rewrite lookup_insert_ne, lookup_empty in Hx.
  - apply leader_step; [done..|]. apply IH; [|done]. intros x t Hx. apply HN.
    rewrite lookup_insert_ne; [done|]. intros ->. by rewrite Ha in Hx.
Qed.

(** ** Two nodes *)

(** A valid peer with the given state. *)
Definition peer_with (k : mkey) (s : awdl_election_state) : awdl_peer :=
  mk_peer k 5 s (replicate 16 CHAN_NULL) 0 (replicate 65 0) (replicate 3 0) [] 0x34 1 0 1 1.

Definition two_nodes (sa sb : awdl_election_state) : nodes := <[sample_self := sa]> {[ sample_key := sb ]}.

Lemma two_nodes_lookup sa sb x t : two_nodes sa sb !! x = Some t →
  (x = sample_self ∧ t = sa) ∨ (x = sample_key ∧ t = sb).
Proof. unfold two_nodes. intros [[<- <-]|[_ [<- <-]%lookup_singleton_Some]]%lookup_insert_Some; [by left|by right]. Qed.

(** A node whose table holds one other one. *)
Lemma one_peer_hears (a b : mkey) (s so : awdl_election_state) (W : nodes) :
  a ≠ b → election_ok s → self_addr so = b → election_ok so → W !! b = Some so →
  (∀ x t, x ≠ a → W !! x = Some t → x = b) →
  to_map (put_or_same empty_map b 4096) = {[ b := 4096 ]} → ∃ s', runs_election W a s s'.
Proof.
  intros Hne Hs Hself Hso Hb Hdom Hm.
  assert (addr_ok b) as Hab by (rewrite <- Hself; apply Hso).
  assert (peers_ok {[ b := peer_with b so ]}) as Hok.
  { intros k p [<- <-]%lookup_singleton_Some. constructor; done. }
  pose proof (one_peer_rep b (peer_with b so) Hm) as R.
  destruct (run_elected s (one_peer b (peer_with b so)) _ R Hok Hs) as (s' & Hrun & _).
  exists s', (one_peer b (peer_with b so)), {[ b := peer_with b so ]}.
  split; [done|]. split; [|done]. constructor; [done|..].
  - intros x t Hx Ht. pose proof (Hdom x t Hx Ht) as ->. rewrite Hb in Ht. injection Ht as <-.
    exists (peer_with b so). by rewrite lookup_singleton_eq.
  - intros x p [<- <-]%lookup_singleton_Some _. done.
Qed.

(** Two nodes that still announce a master that is gone. *)
Definition gone : ether_addr := [9; 9; 9; 9; 9; 9].
Definition orphan (self sync : ether_addr) (h : Z) : awdl_election_state :=
  mk_election gone sync self h 500 60 500 0.
