(* ===== verification/ElectionAsync.v ===== *)
(** * ElectionAsync: agreement without rounds (src/election.c)

    Nodes announce their election states, hear announcements of each other
    and run the election, each in its own time and in any order; an
    announcement may be heard late, more than once or not at all.  The only
    demand is progress: an epoch is a stretch of an execution in which, first,
    every node has run the election, then every node has announced its state,
    then every node has heard every other one.  What a node may claim is
    followed through the three places a claim can be: the node itself, the
    air, and the views of the others. *)

From Stdlib Require Import ZArith Lia ZifyBool.
From stdpp Require Import base tactics numbers list gmap.
From S2P Require Import Prelude HashMap Channel Election Peers ElectionRun ElectionNet.

Local Open Scope Z_scope.

(** ** Executions *)

(** The states of the nodes, the last announcement of each, and what each has
    heard of the others. *)
Record anet := mk_anet { an_nodes : nodes; an_air : nodes; an_views : gmap mkey nodes }.

Definition view_at (w : anet) (a : mkey) : nodes := default ∅ (an_views w !! a).

Inductive label := Announces (b : mkey) | Hears (a b : mkey) | Elects (a : mkey).

Inductive astep : label → anet → anet → Prop :=
  | step_announce w b s :
      an_nodes w !! b = Some s →
      astep (Announces b) w (mk_anet (an_nodes w) (<[b := s]> (an_air w)) (an_views w))
  | step_hear w a b s :
      a ≠ b → an_air w !! b = Some s →
      astep (Hears a b) w (mk_anet (an_nodes w) (an_air w) (<[a := <[b := s]> (view_at w a)]> (an_views w)))
  | step_elect w a s s' :
      an_nodes w !! a = Some s → runs_election (view_at w a) a s s' →
      astep (Elects a) w (mk_anet (<[a := s']> (an_nodes w)) (an_air w) (an_views w)).

Inductive exec : list label → anet → anet → Prop :=
  | exec_nil w : exec [] w w
  | exec_cons e l w w1 w2 : astep e w w1 → exec l w1 w2 → exec (e :: l) w w2.

Lemma exec_app l1 l2 w w2 : exec (l1 ++ l2) w w2 ↔ ∃ w1, exec l1 w w1 ∧ exec l2 w1 w2.
Proof.
  revert w. induction l1 as [|e l1 IH]; intros w; simpl.
  - split; [intros Hx; exists w; by split; [constructor|]|]. intros (w1 & H1 & H2). by inversion H1; subst.
  - split.
    + inversion 1 as [|? ? ? w1 ? Hs Hx]; subst. apply IH in Hx as (w3 & H1 & H2). exists w3. split; [by econstructor|done].
    + intros (w1 & H1 & H2). inversion H1 as [|? ? ? w3 ? Hs Hx]; subst. econstructor; [done|]. apply IH. eauto.
Qed.

(** A property that steps keep holds at the end. *)
Lemma exec_keeps (I : anet → Prop) l w w' :
  (∀ e w1 w2, I w1 → astep e w1 w2 → I w2) → exec l w w' → I w → I w'.
Proof. intros Hk. induction 1; eauto. Qed.

(** And so does one that a certain step brings about and all keep. *)
Lemma exec_reaches (I J : anet → Prop) e0 l w w' :
  (∀ e w1 w2, I w1 → astep e w1 w2 → I w2) →
  (∀ w1 w2, I w1 → astep e0 w1 w2 → J w2) →
  (∀ e w1 w2, I w1 → J w1 → astep e w1 w2 → J w2) →
  exec l w w' → e0 ∈ l → I w → J w'.
Proof.
  intros HI Hj HJ Hx Hin Hw. apply list_elem_of_split in Hin as (l1 & l2 & ->).
  apply exec_app in Hx as (w1 & H1 & H2). inversion H2 as [|? ? ? w2 ? Hs H3]; subst.
  pose proof (exec_keeps I _ _ _ HI H1 Hw) as Hw1.
  assert (I w2 ∧ J w2) as Hw2 by eauto.
  eapply (exec_keeps (λ w, I w ∧ J w)) in H3; [apply H3| |done]. intros e x y [] ?. eauto.
Qed.

(** ** Claims in the network *)

Section network.
(** What each node is on its own; this never changes. *)
Variable own : nodes.

Definition alive (x : mkey) : Prop := is_Some (own !! x).

Definition epoch (l : list label) : Prop := ∃ l1 l2 l3, l = l1 ++ l2 ++ l3 ∧
  (∀ a, alive a → Elects a ∈ l1) ∧ (∀ b, alive b → Announces b ∈ l2) ∧
  (∀ a b, alive a → alive b → a ≠ b → Hears a b ∈ l3).

(** A state of node [x] itself. *)
Definition mine (x : mkey) (s : awdl_election_state) : Prop :=
  self_addr s = x ∧ election_ok s ∧ own !! x = Some (awdl_election_reset_self s).

Definition owned (w : anet) : Prop :=
  (∀ x s, an_nodes w !! x = Some s → mine x s) ∧ (∀ x, alive x → is_Some (an_nodes w !! x)).

(** [P] of every state, in the three places. *)
Definition in_nodes (P : mkey → awdl_election_state → Prop) (w : anet) : Prop :=
  ∀ x s, an_nodes w !! x = Some s → P x s.
Definition in_air (P : mkey → awdl_election_state → Prop) (w : anet) : Prop :=
  ∀ x s, an_air w !! x = Some s → P x s.
Definition in_views (P : mkey → awdl_election_state → Prop) (w : anet) : Prop :=
  ∀ a x s, alive a → a ≠ x → view_at w a !! x = Some s → P x s.
Definition everywhere (P : mkey → awdl_election_state → Prop) (w : anet) : Prop :=
  in_nodes P w ∧ in_air P w ∧ in_views P w.

(** Everybody has heard everybody. *)
Definition complete (w : anet) : Prop := ∀ a x, alive a → alive x → a ≠ x → is_Some (view_at w a !! x).

Lemma view_insert w N A a v x : view_at (mk_anet N A (<[a := v]> (an_views w))) x = if decide (a = x) then v else view_at w x.
Proof.
  unfold view_at. simpl. destruct (decide (a = x)) as [->|Hne]; [by rewrite lookup_insert_eq|by rewrite lookup_insert_ne].
Qed.

Lemma complete_kept e w w' : complete w → astep e w w' → complete w'.
Proof.
  intros Hc Hs a x Ha Hx Hne. specialize (Hc a x Ha Hx Hne). inversion Hs as [|? a' b s _ _|]; subst; try done.
  rewrite view_insert. destruct (decide (a' = a)) as [->|]; [|done]. apply lookup_insert_is_Some'. by right.
Qed.
(** *** One epoch

    If an election on views with [P] makes a state with [Q], an epoch turns
    [P] everywhere into [Q] everywhere. *)
Section lift.
Variables P Q : mkey → awdl_election_state → Prop.
Variable full : Prop.
Hypothesis Q_P : ∀ x s, Q x s → P x s.
Hypothesis P_alive : ∀ x s, P x s → alive x.
Hypothesis elects : ∀ a W s s', (∀ x c, a ≠ x → W !! x = Some c → P x c) →
  (full → ∀ x, alive x → a ≠ x → is_Some (W !! x)) → mine a s → runs_election W a s s' → mine a s' ∧ Q a s'.

Definition inv (w : anet) : Prop := owned w ∧ everywhere P w ∧ (full → complete w).

Lemma inv_elects w a s s' :
  inv w → an_nodes w !! a = Some s → runs_election (view_at w a) a s s' → mine a s' ∧ Q a s'.
Proof.
  intros ((Ho & _) & (_ & _ & Hv) & Hc) Ha Hr.
  assert (alive a) as Hal by (destruct (Ho a s Ha) as (_ & _ & Ho'); by eexists).
  apply (elects a (view_at w a) s s'); auto; [intros x c; by apply Hv|]. intros Hf x Hx Hne. by apply Hc.
Qed.

Lemma inv_kept e w w' : inv w → astep e w w' → inv w'.
Proof.
  intros Hi Hs. pose proof Hi as ((Ho & Hd) & (Hn & Ha & Hv) & Hc).
  split; [|split; [|intros Hf; by eapply complete_kept; eauto]].
  - inversion Hs as [| |? a s s' Ea Er]; subst; [done..|]. destruct (inv_elects w a s s' Hi Ea Er) as [Hm _].
    split; [intros x t; simpl; intros [[<- <-]|[_ Hx]]%lookup_insert_Some; auto|].
    intros x Hx. apply lookup_insert_is_Some'. right. by apply Hd.
  - inversion Hs as [? b s Eb|? a b s _ Eb|? a s s' Ea Er]; subst; split_and!; try done.
    + intros x t; simpl; intros [[<- <-]|[_ Hx]]%lookup_insert_Some; eauto.
    + intros a' x t Hal Hne. rewrite view_insert. destruct (decide (a = a')) as [->|]; [|by apply Hv].
      intros [[<- <-]|[_ Hx]]%lookup_insert_Some; eauto.
    + intros x t; simpl; intros [[<- <-]|[_ Hx]]%lookup_insert_Some; [|eauto]. apply Q_P. by apply (inv_elects w a s s').
Qed.

(** The three parts of an epoch. *)
Lemma nodes_reached l w w' : exec l w w' → (∀ a, alive a → Elects a ∈ l) → inv w → in_nodes Q w'.
Proof.
  intros Hx Hl Hi x s Hxs.
  assert (inv w') as Hi' by (eapply exec_keeps; eauto using inv_kept).
  assert (alive x) as Hal by (destruct Hi' as (_ & (Hn & _) & _); eauto).
  revert s Hxs. apply (exec_reaches inv (λ w, ∀ s, an_nodes w !! x = Some s → Q x s) (Elects x) l w w'); [| | |done|by apply Hl|done].
  - eauto using inv_kept.
  - intros w1 w2 H1 Hs. inversion Hs as [| |? a s s' Ea Er]; subst. simpl. rewrite lookup_insert_eq. intros t [= <-].
    by apply (inv_elects w1 x s s').
  - intros e w1 w2 H1 Hj Hs. inversion Hs as [| |? a s s' Ea Er]; subst; [done..|].
    simpl; intros t [[<- <-]|[_ Ht]]%lookup_insert_Some; [by apply (inv_elects w1 a s s')|auto].
Qed.

Lemma nodes_kept e w w' : inv w → in_nodes Q w → astep e w w' → in_nodes Q w'.
Proof.
  intros Hi Hn Hs. inversion Hs as [| |? a s s' Ea Er]; subst; [done..|].
  intros x t; simpl; intros [[<- <-]|[_ Hx]]%lookup_insert_Some; [by apply (inv_elects w a s s')|auto].
Qed.

Lemma air_reached l w w' : exec l w w' → (∀ b, alive b → Announces b ∈ l) → inv w → in_nodes Q w → in_air Q w'.
Proof.
  intros Hx Hl Hi Hn x s Hxs.
  assert (inv w') as Hi' by (eapply exec_keeps; eauto using inv_kept).
  assert (alive x) as Hal by (destruct Hi' as (_ & (_ & Ha & _) & _); eauto).
  revert s Hxs. apply (exec_reaches (λ w, inv w ∧ in_nodes Q w) (λ w, ∀ s, an_air w !! x = Some s → Q x s) (Announces x) l w w'); [| | |done|by apply Hl|done].
  - intros e w1 w2 [] ?. split; [eauto using inv_kept|eauto using nodes_kept].
  - intros w1 w2 [_ H1] Hs. inversion Hs as [? b s Eb| |]; subst. simpl. rewrite lookup_insert_eq. intros t [= <-]. auto.
  - intros e w1 w2 [_ H1] Hj Hs. inversion Hs as [? b s Eb| |]; subst; try done.
    simpl; intros t [[<- <-]|[_ Ht]]%lookup_insert_Some; auto.
Qed.

Lemma air_kept e w w' : in_nodes Q w → in_air Q w → astep e w w' → in_air Q w'.
Proof.
  intros Hn Ha Hs. inversion Hs as [? b s Eb| |]; subst; try done.
  intros x t; simpl; intros [[<- <-]|[_ Hx]]%lookup_insert_Some; auto.
Qed.

Lemma all_kept e w w' : inv w ∧ in_nodes Q w ∧ in_air Q w → astep e w w' → inv w' ∧ in_nodes Q w' ∧ in_air Q w'.
Proof. intros (Hi & Hn & Ha) Hs. split_and!; [by eapply inv_kept|by eapply nodes_kept|by eapply air_kept]. Qed.

(** What [a] has heard of [x]. *)
Lemma view_reached l w w' a x :
  exec l w w' → Hears a x ∈ l → inv w → in_nodes Q w → in_air Q w →
  is_Some (view_at w' a !! x) ∧ ∀ s, view_at w' a !! x = Some s → Q x s.
Proof.
  intros Hx Hl Hi Hn Ha.
  apply (exec_reaches (λ w, inv w ∧ in_nodes Q w ∧ in_air Q w)
    (λ w, is_Some (view_at w a !! x) ∧ ∀ s, view_at w a !! x = Some s → Q x s) (Hears a x) l w w'); [| | |done..].
  - intros e w1 w2 ? ?. by eapply all_kept.
  - intros w1 w2 (_ & _ & H1) Hs. inversion Hs as [|? ? b s _ Eb|]; subst. rewrite view_insert, decide_True by done.
    rewrite lookup_insert_eq. split; [by eexists|]. intros t [= <-]. auto.
  - intros e w1 w2 (_ & _ & H1) [Hj1 Hj2] Hs. inversion Hs as [|? a' b s _ Eb|]; subst; try done. rewrite view_insert.
    destruct (decide (a' = a)) as [->|]; [|done]. split; [apply lookup_insert_is_Some'; by right|].
    simpl; intros t [[<- <-]|[_ Ht]]%lookup_insert_Some; auto.
Qed.

Lemma epoch_lift l w w' : epoch l → exec l w w' → inv w → owned w' ∧ everywhere Q w' ∧ complete w'.
Proof.
  intros (l1 & l2 & l3 & -> & Hl1 & Hl2 & Hl3) Hx Hi.
  apply exec_app in Hx as (w1 & H1 & Hx). apply exec_app in Hx as (w2 & H2 & H3).
  assert (inv w1 ∧ inv w2 ∧ inv w') as (Hi1 & Hi2 & Hi3).
  { assert (inv w1) by (eapply exec_keeps; eauto using inv_kept).
    assert (inv w2) by (eapply exec_keeps; eauto using inv_kept).
    split_and!; [done..|]. eapply exec_keeps; eauto using inv_kept. }
  pose proof (nodes_reached l1 w w1 H1 Hl1 Hi) as Hn1.
  assert (in_nodes Q w2 ∧ in_nodes Q w') as [Hn2 Hn3].
  { assert (∀ l a b, exec l a b → inv a → in_nodes Q a → in_nodes Q b) as Hk; [|eauto].
    intros l a b Hab Ha Hna. eapply (exec_keeps (λ w, inv w ∧ in_nodes Q w)) in Hab; [apply Hab| |done].
    intros e x y [] ?. eauto using inv_kept, nodes_kept. }
  pose proof (air_reached l2 w1 w2 H2 Hl2 Hi1 Hn1) as Ha2.
  split; [apply Hi3|]. split; [split; [done|split]|].
  - eapply (exec_keeps (λ w, inv w ∧ in_nodes Q w ∧ in_air Q w)) in H3; [apply H3| |done].
    intros e x y ? ?. by eapply all_kept.
  - intros a x s Ha Hne Hs. assert (alive x) as Hal.
    { destruct Hi3 as (_ & (_ & _ & Hv) & _). eauto. }
    by apply (view_reached l3 w2 w' a x); auto.
  - intros a x Ha Hxx Hne. by apply (view_reached l3 w2 w' a x); auto.
Qed.
End lift.
(** ** Fading claims *)

Variables (b : mkey) (ob : awdl_election_state).
Hypothesis own_ok : ∀ x o, own !! x = Some o → self_addr o = x ∧ election_ok o ∧ o = awdl_election_reset_self o.
Hypothesis own_b : own !! b = Some ob.
Hypothesis own_max : ∀ x o, own !! x = Some o → x ≠ b → 0 < rank ob o.

(** After an election: the height is within the limit, only a node that is
    its own master has height 0, and what it says of itself is true. *)
Definition honest (x : mkey) (c : awdl_election_state) : Prop :=
  0 <= height c <= AWDL_ELECTION_TREE_MAX_HEIGHT ∧ (height c = 0 → c = awdl_election_reset_self c) ∧
  own !! x = Some (awdl_election_reset_self c).

(** A claim beyond the leader's has at least height [k]. *)
Record fading (k : Z) (x : mkey) (c : awdl_election_state) : Prop := {
  fad_alive : alive x;
  fad_self : self_addr c = x;
  fad_ok : election_ok c;
  fad_low : height c < 2 ^ 32 - 1;
  fad_height : exceeds ob c → k <= height c;
  fad_honest : 0 < k → honest x c }.

Lemma own_not_exceeds x o : own !! x = Some o → ¬ exceeds ob o.
Proof.
  intros Ho Hx. destruct (own_ok x o Ho) as (_ & _ & Hr). destruct (own_ok b ob own_b) as (_ & _ & Hrb).
  destruct (decide (x = b)) as [->|Hne].
  - rewrite own_b in Ho. injection Ho as <-. rewrite Hrb in Hx. unfold exceeds in Hx. simpl in Hx. lia.
  - apply (rank_reset_exceeds ob o); [rewrite <- Hr, <- Hrb; by apply (own_max x)|by rewrite <- Hr].
Qed.

Lemma mine_reset x s : mine x s → mine x (awdl_election_reset_self s).
Proof. intros (Hs & Ho & He). split; [done|]. split; [by apply reset_self_ok|done]. Qed.

Lemma elects_fading k a W s s' :
  0 <= k → (∀ x c, a ≠ x → W !! x = Some c → fading k x c) → mine a s → runs_election W a s s' →
  mine a s' ∧ fading (k + 1) a s'.
Proof.
  intros Hk HW Hm Hr. pose proof Hm as (Hself & Hok & Hown).
  apply runs_election_outcome in Hr as [[-> _]|(x & c & Hx & Hc & Hel & -> & _)]; try done.
  - split; [by apply mine_reset|]. constructor; simpl; try done; [by eexists|by apply reset_self_ok|].
    intros Hx. by apply own_not_exceeds in Hown.
  - destruct (HW x c (not_eq_sym Hx) Hc) as [_ _ Hco Hl Hf _]. destruct (eligible_height a c Hco Hl Hel) as [Hu Hh].
    assert (election_ok (adopt_master (awdl_election_reset_self s) c)) as Hao.
    { apply adopt_master_ok; [by apply reset_self_ok|done]. }
    split; [done|]. constructor; try done; [by eexists|..]; cbn [height adopt_master]; rewrite ?Hu;
      unfold AWDL_ELECTION_TREE_MAX_HEIGHT in Hh.
    + lia.
    + intros Hx'. specialize (Hf Hx'). lia.
    + intros _. split; [cbn [height adopt_master]; rewrite Hu; unfold AWDL_ELECTION_TREE_MAX_HEIGHT; lia|].
      split; [cbn [height adopt_master]; rewrite Hu; lia|done].
Qed.

Lemma fading_weaken k k' x c : k' <= k → fading k x c → fading k' x c.
Proof. intros Hk []. constructor; auto; [intros Hx; specialize (fad_height0 Hx); lia|intros; apply fad_honest0; lia]. Qed.

(** [n] epochs raise the heights of false claims by [n]. *)
Lemma epochs_fade ls : ∀ k w w', Forall epoch ls → exec (concat ls) w w' → 0 <= k →
  owned w → everywhere (fading k) w → owned w' ∧ everywhere (fading (k + Z.of_nat (length ls))) w'.
Proof.
  induction ls as [|l ls IH]; intros k w w' He Hx Hk Ho Hw.
  - inversion Hx; subst. rewrite Z.add_0_r. done.
  - apply Forall_cons in He as [Hl He]. cbn [concat] in Hx. apply exec_app in Hx as (w1 & H1 & H2).
    destruct (epoch_lift (fading k) (fading (k + 1)) False) with l w w1 as (Ho1 & Hw1 & _); try done.
    + intros x c. apply fading_weaken. lia.
    + by intros x c [].
    + intros. by apply (elects_fading k a W s).
    + destruct (IH (k + 1) w1 w') as [Ho' Hw']; try done; [lia|]. split; [done|].
      replace (k + Z.of_nat (length (l :: ls))) with (k + 1 + Z.of_nat (length ls)) by (simpl; lia). done.
Qed.
(** ** Agreement *)

(** No claim is beyond the leader's any more. *)
Abbreviation truthful_state := (fading (AWDL_ELECTION_TREE_MAX_HEIGHT + 1)).

(** A candidate at least as good as the leader on its own is the leader. *)
Lemma best_is_own x c : truthful_state x c → 0 <= rank c ob → x = b ∧ c = ob.
Proof.
  intros [_ Hself _ _ Hf Hh] Hr. destruct (Hh ltac:(done)) as (Hlim & H0 & Hown).
  assert (¬ exceeds ob c) as Hx by (intros Hx; specialize (Hf Hx); lia).
  destruct (own_ok b ob own_b) as (Hsb & _ & Hrb). unfold exceeds in Hx.
  assert (height c = 0) as Hz.
  { revert Hr. rewrite Hrb. unfold rank. cbn [master_counter master_metric height awdl_election_reset_self].
    destruct (_ =? _) eqn:E1; [|cbn [negb]; lia]. destruct (master_metric c =? self_metric ob) eqn:E2; [|cbn [negb]; lia].
    destruct (height c =? 0) eqn:E3; cbn [negb]; lia. }
  specialize (H0 Hz). rewrite <- H0 in Hown. destruct (decide (x = b)) as [->|Hne]; [split; [done|congruence]|].
  specialize (own_max x c Hown Hne). rewrite rank_opp in own_max. lia.
Qed.

(** The leader knows itself, everybody else knows that. *)
Definition led (x : mkey) (c : awdl_election_state) : Prop := truthful_state x c ∧ (x = b → c = ob).
Definition following (x : mkey) (c : awdl_election_state) : Prop := led x c ∧ follows b x c.

Lemma elects_led a W s s' :
  (∀ x c, a ≠ x → W !! x = Some c → truthful_state x c) → mine a s → runs_election W a s s' → mine a s' ∧ led a s'.
Proof.
  intros HW Hm Hr. destruct (elects_fading (AWDL_ELECTION_TREE_MAX_HEIGHT + 1) a W s s' ltac:(done) HW Hm Hr) as [Hm' Hf].
  split; [done|]. split; [eapply fading_weaken; [|exact Hf]; lia|]. intros ->. destruct Hm as (Hself & Hok & Hown).
  rewrite own_b in Hown. injection Hown as Hown.
  apply runs_election_outcome in Hr as [[-> _]|(x & c & Hx & Hc & _ & _ & Hrk & _)]; [done| |done..].
  rewrite <- Hown in Hrk. destruct (best_is_own x c) as [-> _]; [by apply HW|lia|done].
Qed.

Lemma leader_eligible a s : mine a s → a ≠ b → peer_eligible a ob = true.
Proof.
  intros (Hsa & [_ _ Hoa _ _ _ _ _] & _) Hne. destruct (own_ok b ob own_b) as (Hsb & [_ _ Hob _ _ _ _ _] & ->).
  unfold peer_eligible, awdl_election_is_sync_master, compare_ether_addr.
  cbn [sync_addr height awdl_election_reset_self]. change (u32 (0 + 1) >? AWDL_ELECTION_TREE_MAX_HEIGHT) with false.
  cbn [negb andb]. destruct (memcmp (self_addr ob) a =? 0) eqn:E; [|done]. exfalso. apply Hne.
  rewrite <- Hsb. symmetry. apply memcmp_eq; [|lia]. rewrite Hsa in Hoa. by rewrite (proj1 Hoa), (proj1 Hob).
Qed.

Lemma elects_following a W s s' :
  (∀ x c, a ≠ x → W !! x = Some c → led x c) → (∀ x, alive x → a ≠ x → is_Some (W !! x)) →
  mine a s → runs_election W a s s' → mine a s' ∧ following a s'.
Proof.
  intros HW Hfull Hm Hr. destruct (elects_led a W s s') as [Hm' Hl]; [intros x c Hx Hc; by apply HW|done..|].
  split; [done|]. split; [done|]. destruct (own_ok b ob own_b) as (Hsb & _ & Hrb).
  unfold follows. destruct (decide (a = b)) as [->|Hne].
  { destruct Hl as [_ Hl]. rewrite (Hl eq_refl), Hrb. cbn [master_addr sync_addr height awdl_election_reset_self]. done. }
  pose proof (leader_eligible a s Hm Hne) as Hel. destruct Hm as (Hself & Hok & Hown).
  assert (W !! b = Some ob) as HWb.
  { destruct (Hfull b) as [c Hc]; [by eexists|done|]. destruct (HW b c Hne Hc) as [_ <-]; done. }
  pose proof (own_max a _ Hown Hne) as Hlt.
  apply runs_election_outcome in Hr as [[-> Hall]|(x & c & Hx & Hc & _ & -> & _ & Hall)]; [| |done..].
  - specialize (Hall b ob ltac:(congruence) HWb Hel). rewrite rank_opp in Hlt. lia.
  - specialize (Hall b ob ltac:(congruence) HWb Hel).
    destruct (best_is_own x c) as [-> ->]; [by apply HW|done|].
    rewrite Hrb. cbn [master_addr sync_addr height adopt_master awdl_election_reset_self]. done.
Qed.

(** Thirteen epochs from any states, then any steps. *)
Lemma epochs_follow ls rest w w' :
  Forall epoch ls → length ls = 13%nat → exec (concat ls ++ rest) w w' → owned w → everywhere (fading 0) w →
  ∀ a s, an_nodes w' !! a = Some s → follows b a s.
Proof.
  intros He Hlen Hx Ho Hw. apply exec_app in Hx as (w3 & Hx & Hrest).
  rewrite <- (take_drop 11 ls), concat_app in Hx. apply exec_app in Hx as (w1 & H1 & H2).
  destruct (epochs_fade (take 11 ls) 0 w w1) as [Ho1 Hw1]; try done; [by apply Forall_take|].
  rewrite length_take, Hlen in Hw1. change (0 + Z.of_nat (11 `min` 13)) with 11 in Hw1.
  assert (Forall epoch (drop 11 ls)) as He2 by by apply Forall_drop.
  assert (length (drop 11 ls) = 2%nat) as Hl2 by (rewrite length_drop; lia).
  destruct (drop 11 ls) as [|l12 [|l13 [|]]]; try done.
  apply Forall_cons in He2 as [He12 He13]. apply Forall_cons in He13 as [He13 _].
  cbn [concat] in H2. rewrite app_nil_r in H2. apply exec_app in H2 as (w2 & H2 & H3).
  destruct (epoch_lift truthful_state led False) with l12 w1 w2 as (Ho2 & Hw2 & Hc2); try done.
  { by intros x c []. } { by intros x c []. } { intros a W s s' HW _. by apply elects_led. }
  destruct (epoch_lift led following True) with l13 w2 w3 as (Ho3 & Hw3 & Hc3); try done.
  { by intros x c []. } { by intros x c [[] _]. } { intros a W s s' HW Hfull. apply elects_following; auto. }
  assert (inv following True w') as Hend.
  { eapply exec_keeps; [|exact Hrest|done]. intros e x y. apply (inv_kept following following); try done.
    intros a0 W s0 s1 HW Hfull. apply elects_following; [intros x0 c0 ? ?; by apply HW|auto]. }
  intros a s Ha. destruct Hend as (_ & (Hn & _) & _). by apply (Hn a s).
Qed.
End network.

(** ** Properties *)

(** A state node [x] may have or may be heard to have. *)
Definition plausible (N : nodes) (x : mkey) (c : awdl_election_state) : Prop :=
  is_Some (N !! x) ∧ self_addr c = x ∧ election_ok c ∧ height c < 2 ^ 32 - 1.

(** No step makes implausible states. *)
Lemma plausible_kept N e w w' :
  everywhere N (plausible N) w → astep e w w' → everywhere N (plausible N) w'.
Proof.
  intros (Hn & Ha & Hv) Hs. inversion Hs as [? b s Eb|? a b s _ Eb|? a s s' Ea Er]; subst; split_and!; try done.
  - intros x t; simpl; intros [[<- <-]|[_ Hx]]%lookup_insert_Some; eauto.
  - intros a' x t Hal Hne. rewrite view_insert. destruct (decide (a = a')) as [->|]; [|by apply Hv].
    intros [[<- <-]|[_ Hx]]%lookup_insert_Some; eauto.
  - intros x t; simpl; intros [[<- <-]|[_ Hx]]%lookup_insert_Some; [|eauto].
    destruct (Hn a s Ea) as (Hal & Hself & Hok & _).
    apply runs_election_outcome in Er as [[-> _]|(x & c & Hx & Hc & Hel & -> & _)]; try done.
    + split; [done|]. split; [done|]. split; [by apply reset_self_ok|done].
    + destruct (Hv a x c Hal (not_eq_sym Hx) Hc) as (_ & _ & Hco & Hl). destruct (eligible_height a c Hco Hl Hel) as [Hu Hh].
      split; [done|]. split; [done|]. split; [apply adopt_master_ok; [by apply reset_self_ok|done]|].
      cbn [height adopt_master]. rewrite Hu. unfold AWDL_ELECTION_TREE_MAX_HEIGHT in Hh. lia.
Qed.

Lemma epoch_alive N own l : (∀ x, alive own x → alive N x) → epoch N l → epoch own l.
Proof. intros Ha (l1 & l2 & l3 & -> & H1 & H2 & H3). exists l1, l2, l3. split_and!; auto. Qed.

(** Thirteen epochs from any plausible states. *)
Lemma epochs_agree w ls rest w' :
  let N := an_nodes w in
  everywhere N (plausible N) w → N ≠ ∅ →
  Forall (epoch N) ls → length ls = 13%nat → exec (concat ls ++ rest) w w' →
  ∃ b, leader N b ∧ ∀ a s, an_nodes w' !! a = Some s → follows b a s.
Proof.
  intros N (Hn & Ha & Hv) Hne He Hlen Hx.
  assert (nodes_ok N) as HN by (intros x s Hs; destruct (Hn x s Hs) as (_ & ? & ? & _); done).
  destruct (leader_exists N HN Hne) as [b Hb]. exists b. split; [done|]. destruct Hb as (sb & Hsb & Hmax).
  set (own := awdl_election_reset_self <$> N).
  assert (∀ x, alive own x ↔ alive N x) as Hal by (intros x; unfold alive, own; rewrite lookup_fmap; apply fmap_is_Some).
  assert (∀ x c, plausible N x c → fading own (awdl_election_reset_self sb) 0 x c) as Hfad.
  { intros x c (Hx0 & Hself & Hok & Hlow). constructor; [by apply Hal|done..| |lia].
    intros _. destruct Hok as [_ _ _ [Hh _] _ _ _ _]. exact Hh. }
  apply (epochs_follow own b (awdl_election_reset_self sb)) with ls rest w; try done.
  - intros x o. unfold own. rewrite lookup_fmap. intros (s & Hs & ->)%fmap_Some. destruct (HN x s Hs) as [Hself Hok].
    split; [done|]. split; [by apply reset_self_ok|done].
  - unfold own. by rewrite lookup_fmap, Hsb.
  - intros x o. unfold own. rewrite lookup_fmap. intros (s & Hs & ->)%fmap_Some. by apply Hmax.
  - eapply Forall_impl; [exact He|]. intros l. apply epoch_alive. intros x. apply Hal.
  - split.
    + intros x s Hs. destruct (HN x s Hs) as [Hself Hok]. split; [done|]. split; [done|].
      unfold own. rewrite lookup_fmap. unfold N. by rewrite Hs.
    + intros x. apply Hal.
  - split; [|split].
    + intros x s Hs. by apply Hfad, Hn.
    + intros x s Hs. by apply Hfad, Ha.
    + intros a x s Hax Hne' Hs. by apply Hfad, (Hv a); [apply Hal|..].
Qed.

(** C5: the election stabilises without any agreement on time.  Start the
    nodes with any counters, metrics, masters and heights (but the largest),
    let them have heard anything of each other, and let them announce, hear
    and elect in any order.  Once thirteen epochs have passed, all nodes have
    the same master, the one with the greatest own counter, metric and
    address, and synchronise directly with it, and no further step of any
    kind changes that. *)
Theorem election_stabilises_async w ls rest w' :
  let N := an_nodes w in
  everywhere N (plausible N) w → N ≠ ∅ →
  Forall (epoch N) ls → length ls = 13%nat → exec (concat ls ++ rest) w w' →
  ∃ b, leader N b ∧ ∀ a s, an_nodes w' !! a = Some s → follows b a s.
Proof. apply epochs_agree. Qed.

(** ** Two nodes *)

(** One epoch of two nodes. *)
Definition turn : list label :=
  [Elects sample_self; Elects sample_key; Announces sample_self; Announces sample_key;
   Hears sample_self sample_key; Hears sample_key sample_self].

(** Two nodes that have heard of each other. *)
Definition state_of (x : mkey) (s : awdl_election_state) : Prop := self_addr s = x ∧ election_ok s.
Definition acquainted (w : anet) : Prop := ∃ sa sb ca cb, an_nodes w = two_nodes sa sb ∧
  view_at w sample_self = {[ sample_key := cb ]} ∧ view_at w sample_key = {[ sample_self := ca ]} ∧
  state_of sample_self sa ∧ state_of sample_key sb ∧ state_of sample_self ca ∧ state_of sample_key cb.

Lemma turn_is_epoch sa sb : epoch (two_nodes sa sb) turn.
Proof.
  exists [Elects sample_self; Elects sample_key], [Announces sample_self; Announces sample_key],
    [Hears sample_self sample_key; Hears sample_key sample_self]. split; [done|].
  assert (∀ x, alive (two_nodes sa sb) x → x = sample_self ∨ x = sample_key) as Hx.
  { intros x [t [[-> _]|[-> _]]%two_nodes_lookup]; auto. }
  split_and!.
  - intros a [-> | ->]%Hx; [by left|by right; left].
  - intros a [-> | ->]%Hx; [by left|by right; left].
  - intros a x [-> | ->]%Hx [-> | ->]%Hx Hne; try done; [by left|by right; left].
Qed.

(** An election of a node that has heard of one other. *)
Lemma lone_elects a b s c :
  a ≠ b → state_of a s → state_of b c → to_map (put_or_same empty_map b 4096) = {[ b := 4096 ]} →
  ∃ s', runs_election {[ b := c ]} a s s' ∧ state_of a s'.
Proof.
  intros Hne [Hs Hso] [Hc Hco] Hm.
  destruct (one_peer_hears a b s c {[ b := c ]}) as [s' Hr]; try done; [by rewrite lookup_singleton_eq| |].
  { intros x t _ [<- _]%lookup_singleton_Some. done. }
  exists s'. split; [done|]. apply runs_election_outcome in Hr as [[-> _]|(x & d & _ & [<- <-]%lookup_singleton_Some & _ & -> & _)]; try done.
  - split; [done|by apply reset_self_ok].
  - split; [done|]. apply adopt_master_ok; [by apply reset_self_ok|done].
Qed.

Lemma turn_runs w : acquainted w → ∃ w', exec turn w w' ∧ acquainted w'.
Proof.
  intros (sa & sb & ca & cb & HN & Hva & Hvb & Ha & Hb & Hca & Hcb).
  destruct (lone_elects sample_self sample_key sa cb) as (sa' & Ra & Ha'); [done..|vm_compute; reflexivity|].
  destruct (lone_elects sample_key sample_self sb ca) as (sb' & Rb & Hb'); [done..|vm_compute; reflexivity|].
  eexists. split.
  - eapply exec_cons; [apply (step_elect w sample_self sa sa'); [by rewrite HN; apply lookup_insert_eq|by rewrite Hva]|].
    eapply exec_cons; [apply (step_elect _ sample_key sb sb'); [by rewrite HN|by unfold view_at in *; cbn [an_views]; rewrite Hvb]|].
    eapply exec_cons; [apply (step_announce _ sample_self sa'); cbn [an_nodes]; by rewrite lookup_insert_ne, lookup_insert_eq|].
    eapply exec_cons; [apply (step_announce _ sample_key sb'); cbn [an_nodes]; by rewrite lookup_insert_eq|].
    eapply exec_cons; [apply (step_hear _ sample_self sample_key sb'); [done|cbn [an_air]; by rewrite lookup_insert_eq]|].
    eapply exec_cons; [apply (step_hear _ sample_key sample_self sa'); [done|cbn [an_air]; by rewrite lookup_insert_ne, lookup_insert_eq]|].
    constructor.
  - exists sa', sb', sa', sb'. cbn [an_nodes an_air an_views]. rewrite HN. split.
    { unfold two_nodes. rewrite insert_insert_eq, insert_insert_ne by done. by rewrite insert_singleton_eq. }
    unfold view_at in *. cbn [an_views]. split_and!; try done.
    + rewrite lookup_insert_ne, lookup_insert_eq by done. simpl. rewrite Hva. by rewrite insert_singleton_eq.
    + rewrite lookup_insert_eq. simpl. rewrite lookup_insert_ne by done. rewrite Hvb. by rewrite insert_singleton_eq.
Qed.

Lemma turns_run n : ∀ w, acquainted w → ∃ w', exec (concat (replicate n turn)) w w' ∧ acquainted w'.
Proof.
  induction n as [|n IH]; intros w Hw; cbn [replicate concat]; [exists w; split; [constructor|done]|].
  destruct (turn_runs w Hw) as (w1 & H1 & Hw1). destruct (IH w1 Hw1) as (w2 & H2 & Hw2).
  exists w2. split; [|done]. apply exec_app. eauto.
Qed.

(** Both still announce a master that is gone, and have heard the other one
    doing so. *)
Definition orphans : anet :=
  let sa := orphan sample_self gone 1 in
  let sb := orphan sample_key sample_self 2 in
  mk_anet (two_nodes sa sb) ∅ (<[sample_self := {[ sample_key := sb ]}]> {[ sample_key := {[ sample_self := sa ]} ]}).

Lemma orphan_of (self sync : ether_addr) h :
  addr_ok self → addr_ok sync → 0 <= h < 100 → state_of self (orphan self sync h).
Proof.
  intros Hs Hy Hh. assert (addr_ok gone) as Hg by (split; [done|solve_list]).
  split; [done|]. constructor; simpl; try done; int_lia.
Qed.

Lemma election_stabilises_async_witness :
  ∃ w' b, exec (concat (replicate 13 turn)) orphans w' ∧ leader (an_nodes orphans) b ∧
    ∀ a s, an_nodes w' !! a = Some s → follows b a s.
Proof.
  assert (addr_ok gone) as Hg by (split; [done|solve_list]).
  assert (addr_ok sample_self) as Hself by apply self_state_ok.
  pose proof (orphan_of sample_self gone 1 Hself Hg ltac:(lia)) as Ha.
  pose proof (orphan_of sample_key sample_self 2 sample_addr_ok Hself ltac:(lia)) as Hb.
  set (sa := orphan sample_self gone 1) in *. set (sb := orphan sample_key sample_self 2) in *.
  assert (∀ x s, two_nodes sa sb !! x = Some s → plausible (two_nodes sa sb) x s) as Hp.
  { intros x s Hx. split; [by exists s|]. destruct (two_nodes_lookup sa sb x s Hx) as [[-> ->]|[-> ->]];
      [destruct Ha|destruct Hb]; (split; [done|]); (split; [done|]); simpl; lia. }
  assert (acquainted orphans) as Hac.
  { exists sa, sb, sa, sb. split; [reflexivity|]. split; [reflexivity|]. by split; [reflexivity|]. }
  destruct (turns_run 13 orphans Hac) as (w' & Hx & _).
  destruct (election_stabilises_async orphans (replicate 13 turn) [] w') as (b & Hl & Hf).
  - split; [exact Hp|]. split; [intros x s Hx'; cbn in Hx'; by apply lookup_empty_Some in Hx'|].
    intros a x s _ _ Hs. apply Hp. unfold view_at, orphans in Hs. cbn [an_views] in Hs.
    destruct (decide (a = sample_self)) as [->|Hna].
    + rewrite lookup_insert_eq in Hs. cbv [default id] in Hs. apply lookup_singleton_Some in Hs as [<- <-]. reflexivity.
    + rewrite lookup_insert_ne in Hs by done. destruct (decide (a = sample_key)) as [->|Hnk].
      * rewrite lookup_singleton_eq in Hs. cbv [default id] in Hs. apply lookup_singleton_Some in Hs as [<- <-]. apply lookup_insert_eq.
      * rewrite lookup_singleton_ne in Hs by done. simpl in Hs. by apply lookup_empty_Some in Hs.
  - apply insert_non_empty.
  - apply Forall_replicate, turn_is_epoch.
  - reflexivity.
  - rewrite app_nil_r. exact Hx.
  - exists w', b. split; [exact Hx|]. split; [exact Hl|exact Hf].
Defined.
