(* ===== verification/State.v ===== *)
(** * State: the complete state of a node (src/state.c, src/state.h)

    The hooks ([tlv_cb], [peer_cb], [peer_remove_cb] with their data) are
    functions on the state [E] of whoever installed them; they observe, the
    ones the program installs do not write to the node's state. *)

From Stdlib Require Import ZArith Lia ZifyBool.
From stdpp Require Import base tactics numbers list gmap.
From S2P Require Import Prelude Wire HashMap Sync Channel Election Peers.

Local Open Scope Z_scope.

(** ** Data *)

Definition RSSI_THRESHOLD_DEFAULT : Z := -65.
Definition RSSI_GRACE_DEFAULT : Z := -5.
Definition ETHER_BROADCAST : ether_addr := [0xff; 0xff; 0xff; 0xff; 0xff; 0xff].
Definition PSF_INTERVAL_MASTER_TU : Z := 110.

Record awdl_stats := mk_stats {
  tx_action : Z;
  tx_data : Z;
  tx_data_unicast : Z;
  tx_data_multicast : Z;
  rx_action : Z;
  rx_data : Z;
  rx_unknown : Z }.

Record awdl_state := mk_state {
  self_address : ether_addr;
  st_name : list Z;
  st_version : Z;
  dev_class : Z;
  sequence_number : Z;
  psf_interval : Z;
  dst : ether_addr;
  filter_rssi : Z;
  rssi_threshold : Z;
  rssi_grace : Z;
  st_election : awdl_election_state;
  st_sync : awdl_sync_state;
  st_channel : awdl_channel_state;
  st_peers : awdl_peer_state;
  st_stats : awdl_stats }.

Record awdl_hooks (E : Type) := mk_hooks {
  tlv_cb : option (E → Z → Z → buf → awdl_state → E);
  peer_cb : option (E → awdl_peer → E);
  peer_remove_cb : option (E → awdl_peer → E) }.
Arguments mk_hooks {E}.
Arguments tlv_cb {E}.
Arguments peer_cb {E}.
Arguments peer_remove_cb {E}.

Record ieee80211_state := mk_ieee80211 {
  ieee_sequence_number : Z;
  ieee_fcs : bool }.

(** Assignments to one member. *)
Definition with_sequence_number (v : Z) (s : awdl_state) : awdl_state :=
  mk_state (self_address s) (st_name s) (st_version s) (dev_class s) v (psf_interval s) (dst s)
    (filter_rssi s) (rssi_threshold s) (rssi_grace s) (st_election s) (st_sync s) (st_channel s)
    (st_peers s) (st_stats s).
Definition with_filter_rssi (v : Z) (s : awdl_state) : awdl_state :=
  mk_state (self_address s) (st_name s) (st_version s) (dev_class s) (sequence_number s)
    (psf_interval s) (dst s) v (rssi_threshold s) (rssi_grace s) (st_election s) (st_sync s)
    (st_channel s) (st_peers s) (st_stats s).
Definition with_election (v : awdl_election_state) (s : awdl_state) : awdl_state :=
  mk_state (self_address s) (st_name s) (st_version s) (dev_class s) (sequence_number s)
    (psf_interval s) (dst s) (filter_rssi s) (rssi_threshold s) (rssi_grace s) v (st_sync s)
    (st_channel s) (st_peers s) (st_stats s).
Definition with_sync (v : awdl_sync_state) (s : awdl_state) : awdl_state :=
  mk_state (self_address s) (st_name s) (st_version s) (dev_class s) (sequence_number s)
    (psf_interval s) (dst s) (filter_rssi s) (rssi_threshold s) (rssi_grace s) (st_election s) v
    (st_channel s) (st_peers s) (st_stats s).
Definition with_channel (v : awdl_channel_state) (s : awdl_state) : awdl_state :=
  mk_state (self_address s) (st_name s) (st_version s) (dev_class s) (sequence_number s)
    (psf_interval s) (dst s) (filter_rssi s) (rssi_threshold s) (rssi_grace s) (st_election s)
    (st_sync s) v (st_peers s) (st_stats s).
Definition with_peers (v : awdl_peers) (s : awdl_state) : awdl_state :=
  mk_state (self_address s) (st_name s) (st_version s) (dev_class s) (sequence_number s)
    (psf_interval s) (dst s) (filter_rssi s) (rssi_threshold s) (rssi_grace s) (st_election s)
    (st_sync s) (st_channel s)
    (mk_peer_state v (ps_timeout (st_peers s)) (ps_clean_interval (st_peers s))) (st_stats s).
Definition with_stats (v : awdl_stats) (s : awdl_state) : awdl_state :=
  mk_state (self_address s) (st_name s) (st_version s) (dev_class s) (sequence_number s)
    (psf_interval s) (dst s) (filter_rssi s) (rssi_threshold s) (rssi_grace s) (st_election s)
    (st_sync s) (st_channel s) (st_peers s) v.

(** The peer table of the node. *)
Abbreviation the_peers s := (ps_peers (st_peers s)).

(** ** Operations *)

Definition awdl_stats_init : awdl_stats := mk_stats 0 0 0 0 0 0 0.

(** [strncpy(dst, src, n)] of a string whose characters are [src]. *)
Definition strncpy (dst : list Z) (src : list Z) (n : Z) : option (list Z) :=
  store dst 0 (take (Z.to_nat n) src ++ replicate (Z.to_nat n - length src) 0).

(** [mem] is what the memory of [*state] holds before the call; the hooks
    are all null after it. *)
Definition awdl_init_state `{CallocEnv} {E} (mem : awdl_state) (hostname : list Z)
    (self : ether_addr) (chan : awdl_chan) (now : Z) : option (awdl_state * awdl_hooks E) :=
  name ← strncpy (st_name mem) hostname HOST_NAME_LENGTH_MAX;
  version ← awdl_version 3 4;
  sequence ← awdl_chanseq_init_static (ch_sequence (st_channel mem)) chan;
  peers ← awdl_peer_state_init;
  Some (mk_state self name version AWDL_DEVCLASS_MACOS 0 PSF_INTERVAL_MASTER_TU ETHER_BROADCAST
          1 RSSI_THRESHOLD_DEFAULT RSSI_GRACE_DEFAULT
          (awdl_election_state_init (st_election mem) self)
          (awdl_sync_state_init now)
          (mk_channel AWDL_CHAN_ENC_OPCLASS sequence chan CHAN_NULL)
          peers awdl_stats_init,
        mk_hooks None None None).

(** The value returned and the state with the incremented counter. *)
Definition awdl_state_next_sequence_number (s : awdl_state) : Z * awdl_state :=
  (sequence_number s, with_sequence_number (u16 (sequence_number s + 1)) s).

Definition ieee80211_init_state : ieee80211_state := mk_ieee80211 0 false.

Definition ieee80211_state_next_sequence_number (s : ieee80211_state) : Z * ieee80211_state :=
  let seq := ieee_sequence_number s in
  (seq, mk_ieee80211 (Z.land (u16 (ieee_sequence_number s + 1)) 0x0fff) (ieee_fcs s)).

(** What [clock_gettime] delivers: [None] is an error, otherwise seconds and
    nanoseconds. *)
Definition clock_time_us (now : option (Z * Z)) : Z :=
  match now with
  | None => 0
  | Some (tv_sec, tv_nsec) => u64 (u64 (tv_sec * 1000000) + Z.quot tv_nsec 1000)
  end.

(** ** Well-formedness *)

Record state_ok (s : awdl_state) (P : gmap mkey awdl_peer) : Prop := {
  sok_self : addr_ok (self_address s);
  sok_name : Z.of_nat (length (st_name s)) = HOST_NAME_LENGTH_MAX + 1;
  sok_name_bytes : bytes_ok (st_name s);
  sok_name_end : 0 ∈ st_name s;
  sok_version : is_u8 (st_version s);
  sok_class : is_u8 (dev_class s);
  sok_dst : addr_ok (dst s);
  sok_seq : is_u16 (sequence_number s);
  sok_psf : is_u16 (psf_interval s);
  sok_election : election_ok (st_election s);
  sok_sync : sync_ok (st_sync s);
  sok_sequence : length (ch_sequence (st_channel s)) = AWDL_CHANSEQ_LENGTH;
  sok_channels : Forall chan_ok
    (ch_current (st_channel s) :: ch_master (st_channel s) :: ch_sequence (st_channel s));
  sok_peers : peers_rep (the_peers s) P;
  sok_peers_ok : peers_ok P }.

(** What sending, receiving and channel switching leave alone. *)
Record same_node (s s' : awdl_state) : Prop := {
  sn_addr : self_address s' = self_address s;
  sn_election : st_election s' = st_election s;
  sn_version : st_version s' = st_version s;
  sn_class : dev_class s' = dev_class s;
  sn_channel : ch_enc (st_channel s') = ch_enc (st_channel s) ∧
    ch_sequence (st_channel s') = ch_sequence (st_channel s);
  sn_filter : filter_rssi s' = filter_rssi s;
  sn_limits : rssi_threshold s' = rssi_threshold s ∧ rssi_grace s' = rssi_grace s;
  sn_timeout : ps_timeout (st_peers s') = ps_timeout (st_peers s) }.

#[global] Instance same_node_preorder : PreOrder same_node.
Proof.
  split; [intros s; by constructor|]. intros s1 s2 s3 [???? [] ? []] [???? [] ? []].
  constructor; (split; congruence) || congruence.
Qed.
#[export] Hint Extern 0 (same_node ?s ?s) => reflexivity : owl.

(** The sequence of a counter: its value after [n] uses. *)
Fixpoint ieee_after (n : nat) (s : ieee80211_state) : ieee80211_state :=
  match n with
  | O => s
  | S n => ieee_after n (ieee80211_state_next_sequence_number s).2
  end.

Lemma strncpy_length d src n d' :
  strncpy d src n = Some d' → length d' = length d.
Proof. apply store_length. Qed.

Lemma land_0fff z : 0 <= z → Z.land z 0x0fff = z mod 4096.
Proof. intros. change 0x0fff with (Z.ones 12). by rewrite Z.land_ones by lia. Qed.

(** ** A concrete node *)

(** A node with one peer. *)
Definition sample_state : awdl_state :=
  mk_state sample_key (replicate 65 0) 0x34 1 0 110 ETHER_BROADCAST 1 (-65) (-5)
    (awdl_election_state_init (mk_election [] [] [] 0 0 0 0 0) sample_key)
    (awdl_sync_state_init 0) (mk_channel 3 (replicate 16 CHAN_OPCLASS_6) CHAN_OPCLASS_6 CHAN_NULL)
    (mk_peer_state sample_peers 2000000 1000000) awdl_stats_init.

Lemma sample_sync_ok : sync_ok (st_sync sample_state).
Proof. apply sync_init_ok. int_lia. Qed.

Lemma sample_state_ok : state_ok sample_state {[ sample_key := sample_peer ]}.
Proof.
  pose proof sample_addr_ok as Ha.
  split; [exact Ha|reflexivity|repeat constructor; int_lia|left|cbn; int_lia|cbn; int_lia| | | | | | | | | ].
  - split; [reflexivity|]. repeat constructor; int_lia.
  - simpl. int_lia.
  - simpl. int_lia.
  - exact (election_init_ok (mk_election [] [] [] 0 0 0 0 0) _ Ha).
  - exact sample_sync_ok.
  - reflexivity.
  - repeat constructor; simpl; int_lia.
  - exact (proj1 sample_peers_rep).
  - exact sample_peers_ok.
Qed.

(** ** Properties *)

(** The array of the name: the first 64 characters, padded with zeros, and the
    last byte as it was. *)
Lemma name_written name hostname :
  Z.of_nat (length name) = HOST_NAME_LENGTH_MAX + 1 → bytes_ok name → bytes_ok hostname →
  ∃ name', strncpy name hostname HOST_NAME_LENGTH_MAX = Some name' ∧
    Z.of_nat (length name') = HOST_NAME_LENGTH_MAX + 1 ∧ bytes_ok name' ∧
    name' = take 64 hostname ++ replicate (64 - length hostname) 0 ++ drop 64 name.
Proof.
  intros Hn Hb Hh. unfold strncpy, HOST_NAME_LENGTH_MAX in *. change (Z.to_nat 64) with 64%nat.
  rewrite store_Some by (rewrite ?length_app, ?length_take, ?length_replicate; lia).
  eexists; split; [done|]. change (Z.to_nat 0) with 0%nat. cbn [take app].
  rewrite !length_app, !length_take, !length_replicate, length_drop, <- app_assoc.
  replace (0 + (64 `min` length hostname + (64 - length hostname)))%nat with 64%nat by lia.
  rewrite take_0. cbn [app]. split; [lia|]. split; [|done]. rewrite !Forall_app. split_and!; [by apply Forall_take| |by apply Forall_drop].
  apply Forall_replicate. int_lia.
Qed.

Lemma name_terminated name hostname :
  Z.of_nat (length name) = HOST_NAME_LENGTH_MAX + 1 →
  (length hostname < 64)%nat ∨ last name = Some 0 →
  0 ∈ take 64 hostname ++ replicate (64 - length hostname) 0 ++ drop 64 name.
Proof.
  intros Hn Hend. rewrite !elem_of_app. destruct Hend as [Hl|Hl].
  - right. left. apply elem_of_replicate. split; [done|lia].
  - right. right. apply last_Some in Hl as [l ->]. unfold HOST_NAME_LENGTH_MAX in Hn. rewrite length_app in Hn. simpl in Hn.
    rewrite drop_app_le by lia. apply elem_of_app. right. left.
Qed.

Lemma name_not_terminated name hostname :
  Z.of_nat (length name) = HOST_NAME_LENGTH_MAX + 1 → 0 ∉ hostname →
  0 ∈ take 64 hostname ++ replicate (64 - length hostname) 0 ++ drop 64 name →
  (length hostname < 64)%nat ∨ last name = Some 0.
Proof.
  intros Hn Hz. unfold HOST_NAME_LENGTH_MAX in Hn. rewrite !elem_of_app. intros [Hin|[Hin|Hin]].
  - exfalso. apply Hz. apply elem_of_take in Hin as (i & Hi & _). by eapply list_elem_of_lookup_2.
  - left. apply elem_of_replicate in Hin. lia.
  - right. destruct (drop 64 name) as [|x [|y l]] eqn:E.
    + by apply not_elem_of_nil in Hin.
    + apply list_elem_of_singleton in Hin as <-. rewrite <- (take_drop 64 name), E. by rewrite last_snoc.
    + pose proof (length_drop name 64) as Hl. rewrite E in Hl. simpl in Hl. lia.
Qed.

(** The node [awdl_init_state] makes, up to the end of its name. *)
Record initial_node (s : awdl_state) (self : ether_addr) (chan : awdl_chan) (now : Z) : Prop := {
  in_self : self_address s = self;
  in_master : master_addr (st_election s) = self ∧ sync_addr (st_election s) = self ∧ self_addr (st_election s) = self;
  in_height : height (st_election s) = 0;
  in_clock : sync_last_update (st_sync s) = now ∧ elapsed now (st_sync s) = 0 ∧ aw_counter (st_sync s) = 0;
  in_sequence : ch_sequence (st_channel s) = replicate AWDL_CHANSEQ_LENGTH chan;
  in_channel : ch_master (st_channel s) = chan ∧ ch_current (st_channel s) = CHAN_NULL;
  in_enc : ch_enc (st_channel s) = AWDL_CHAN_ENC_OPCLASS;
  in_stats : st_stats s = awdl_stats_init }.

Lemma init_state_total `{CallocEnv} {E} mem hostname self chan now :
  Z.of_nat (length (st_name mem)) = HOST_NAME_LENGTH_MAX + 1 →
  length (ch_sequence (st_channel mem)) = AWDL_CHANSEQ_LENGTH →
  bytes_ok (st_name mem) → bytes_ok hostname → chan_ok chan →
  addr_ok self → is_u64 now → calloc_ok INITIAL_SIZE = true →
  ∃ s, awdl_init_state (E := E) mem hostname self chan now = Some (s, mk_hooks None None None) ∧
    st_name s = take 64 hostname ++ replicate (64 - length hostname) 0 ++ drop 64 (st_name mem) ∧
    (0 ∈ st_name s → state_ok s ∅) ∧ p_heap (the_peers s) = ∅ ∧ initial_node s self chan now.
Proof.
  intros Hn Hc Hmb Hhb Hch Ha Ht Halloc.
  destruct (name_written (st_name mem) hostname Hn Hmb Hhb) as (name & Hname & Hlen & Hok & Heq).
  unfold awdl_init_state. rewrite Hname.
  change (awdl_version 3 4) with (Some 0x34).
  rewrite chanseq_init_static_eq by done. unfold awdl_peer_state_init, awdl_peers_init, hashmap_new.
  rewrite Halloc. cbn [mbind option_bind]. eexists; split; [done|]. cbn [st_name]. split; [done|].
  destruct (empty_inv INITIAL_SIZE 6 (replicate siphash24_KEYBYTES 0)) as [I Hm];
    [unfold INITIAL_SIZE, MAX_TABLE; lia|].
  split; [|split; [done|]].
  - intros Hz. constructor; simpl; try done; try (by auto with owl).
    + split; [done|]. repeat constructor; int_lia.
    + constructor; [split; simpl; int_lia|]. constructor; [done|]. by repeat (constructor; [done|]).
  - constructor; simpl; try done. split; [done|]. unfold elapsed, awdl_sync_state_init. cbn. by rewrite Z.sub_diag.
Qed.

(** C32: [awdl_init_state], whenever the first table can be allocated and
    whatever the memory held before, returns a node with no peers allocated,
    that is its own master and sync master at height 0, whose clock starts at
    the given time, that has the given channel in every slot and as its
    master's, is tuned to none and has counted nothing.  Its name is
    terminated exactly if the name given has less than 64 characters or the
    last byte of the memory happened to be zero, and then the node satisfies
    the invariant. *)
Theorem init_state_ok `{CallocEnv} {E} mem hostname self chan now :
  Z.of_nat (length (st_name mem)) = HOST_NAME_LENGTH_MAX + 1 →
  length (ch_sequence (st_channel mem)) = AWDL_CHANSEQ_LENGTH →
  bytes_ok (st_name mem) → bytes_ok hostname → 0 ∉ hostname → chan_ok chan →
  addr_ok self → is_u64 now → calloc_ok INITIAL_SIZE = true →
  ∃ s, awdl_init_state (E := E) mem hostname self chan now = Some (s, mk_hooks None None None) ∧
    p_heap (the_peers s) = ∅ ∧ initial_node s self chan now ∧
    (0 ∈ st_name s ↔ (length hostname < 64)%nat ∨ last (st_name mem) = Some 0) ∧
    (0 ∈ st_name s → state_ok s ∅).
Proof.
  intros Hn Hc Hmb Hhb Hz Hch Ha Ht Halloc.
  destruct (init_state_total (E := E) mem hostname self chan now Hn Hc Hmb Hhb Hch Ha Ht Halloc)
    as (s & Hs & Hname & Hok & Hheap & Hnode).
  exists s. split_and!; try done. rewrite Hname. split; [by apply name_not_terminated|by apply name_terminated].
Qed.

Definition blank_memory : awdl_state :=
  mk_state [] (replicate 65 0) 0 0 0 0 [] 0 0 0 (mk_election [] [] [] 0 0 0 0 0)
    (awdl_sync_state_init 0) (mk_channel 0 (replicate 16 CHAN_NULL) CHAN_NULL CHAN_NULL)
    (mk_peer_state empty_peers 0 0) awdl_stats_init.

Lemma init_state_ok_witness :
  ∃ s, @awdl_init_state small_calloc unit blank_memory [97; 98] sample_key CHAN_OPCLASS_6 1000 =
         Some (s, mk_hooks None None None) ∧ state_ok s ∅ ∧ master_addr (st_election s) = sample_key.
Proof.
  destruct (@init_state_ok small_calloc unit blank_memory [97; 98] sample_key CHAN_OPCLASS_6 1000)
    as (s & Hs & _ & Hnode & Hz & Hok);
    [done|done|repeat constructor; int_lia|repeat constructor; int_lia|set_solver
    |split; simpl; int_lia|exact sample_addr_ok|int_lia|done|].
  exists s. split; [exact Hs|]. split; [apply Hok, Hz; left; simpl; lia|apply (in_master _ _ _ _ Hnode)].
Defined.

(** IEEE 802.11 sequence numbers count modulo [2^12]: the [n]-th frame
    after a frame numbered [k] is numbered [k + n] modulo 4096, and the
    number always fits the twelve bits of the header field it is shifted
    into. *)
Theorem ieee80211_sequence_numbers n s :
  0 <= ieee_sequence_number s < 4096 →
  (ieee80211_state_next_sequence_number (ieee_after n s)).1 =
    (ieee_sequence_number s + Z.of_nat n) mod 4096 ∧
  Z.shiftl (ieee80211_state_next_sequence_number (ieee_after n s)).1 4 < 2 ^ 16.
Proof.
  intros Hs. assert (ieee_sequence_number (ieee_after n s) =
    (ieee_sequence_number s + Z.of_nat n) mod 4096) as Heq.
  { revert s Hs. induction n as [|n IH]; intros s Hs; cbn [ieee_after].
    - rewrite Z.mod_small; lia.
    - rewrite IH; simpl; rewrite land_0fff, u16_id by (try apply u16_range; int_lia).
      + rewrite Z.add_mod_idemp_l by lia. f_equal. lia.
      + apply Z.mod_pos_bound. lia. }
  simpl. rewrite Heq. split; [done|].
  pose proof (Z.mod_pos_bound (ieee_sequence_number s + Z.of_nat n) 4096 ltac:(lia)).
  rewrite Z.shiftl_mul_pow2 by lia. lia.
Qed.

Lemma ieee80211_sequence_numbers_witness :
  (ieee80211_state_next_sequence_number (ieee_after 6 (mk_ieee80211 4090 false))).1 = 0.
Proof. apply (ieee80211_sequence_numbers 6 (mk_ieee80211 4090 false)). simpl. lia. Defined.
