(* ===== verification/Schedule.v ===== *)
(** * Schedule: when a node may send (src/schedule.c, src/schedule.h)

    Times are [uint64_t] microseconds, results are seconds as [double]; the
    model returns the exact rational, rounding is not modelled (it preserves
    the sign, which is what the callers test). *)

From Stdlib Require Import ZArith QArith Lia ZifyBool.
From stdpp Require Import base tactics numbers list gmap.
From S2P Require Import Prelude HashMap Sync Channel Election Peers State.

Local Open Scope Z_scope.

Local Ltac Zify.zify_post_hook ::= Z.div_mod_to_equations.

Definition AWDL_UNICAST_GUARD_TU : Z := 3.
Definition AWDL_MULTICAST_GUARD_TU : Z := 16.

(** ** Operations *)

Definition usec_to_sec (usec : Z) : Q := Qmake usec 1000000.

Definition sec_to_usec (sec : Q) : Z :=
  u64 (Z.quot (Qnum sec * 1000000) (Zpos (Qden sec))).

(** Reading outside a channel sequence is undefined. *)
Definition awdl_same_channel_as_peer (state : awdl_state) (now : Z) (peer : awdl_peer) :
    option bool :=
  let own_slot := awdl_sync_current_eaw now (st_sync state) mod Z.of_nat AWDL_CHANSEQ_LENGTH in
  let peer_slot := awdl_sync_current_eaw (u64 (now + sync_offset peer)) (st_sync state)
                     mod Z.of_nat AWDL_CHANSEQ_LENGTH in
  own ← ch_sequence (st_channel state) !! Z.to_nat own_slot;
  other ← sequence peer !! Z.to_nat peer_slot;
  let own_chan := awdl_chan_num own (ch_enc (st_channel state)) in
  let peer_chan := awdl_chan_num other (ch_enc (st_channel state)) in
  Some (negb (own_chan =? 0) && (own_chan =? peer_chan)).

Definition awdl_is_multicast_eaw (state : awdl_state) (now : Z) : bool :=
  let slot := awdl_sync_current_eaw now (st_sync state) mod Z.of_nat AWDL_CHANSEQ_LENGTH in
  (slot =? 0) || (slot =? 10).

Definition awdl_can_send_in (state : awdl_state) (now guard : Z) : Q :=
  let next_aw := awdl_sync_next_aw_us now (st_sync state) in
  let guard := ieee80211_tu_to_usec guard in
  let eaw := ieee80211_tu_to_usec 64 in
  if next_aw <? guard then Qopp (usec_to_sec (u64 (guard - next_aw)))
  else if u64 (eaw - next_aw) <? guard then usec_to_sec (u64 (guard - u64 (eaw - next_aw)))
  else 0%Q.

Definition awdl_can_send_unicast_in (state : awdl_state) (peer : awdl_peer) (now guard : Z) :
    option Q :=
  let next_aw := awdl_sync_next_aw_us now (st_sync state) in
  let guard := ieee80211_tu_to_usec guard in
  let eaw := ieee80211_tu_to_usec 64 in
  same ← awdl_same_channel_as_peer state now peer;
  if negb same then Some (usec_to_sec next_aw)
  else if next_aw <? guard then
    next ← awdl_same_channel_as_peer state (u64 (now + eaw)) peer;
    if next : bool then Some 0%Q else Some (Qopp (usec_to_sec (u64 (guard - next_aw))))
  else if u64 (eaw - next_aw) <? guard then
    prev ← awdl_same_channel_as_peer state (u64 (now - eaw)) peer;
    if prev : bool then Some 0%Q else Some (usec_to_sec (u64 (guard - u64 (eaw - next_aw))))
  else Some 0%Q.

(** ** Lemmas *)

(** The position in the current extended window, in microseconds. *)
Definition in_eaw (now : Z) (s : awdl_state) : Z := elapsed now (st_sync s) mod 65536.

Lemma in_eaw_range now s : 0 <= in_eaw now s < 65536.
Proof. apply Z.mod_pos_bound. lia. Qed.

Lemma next_aw_in_eaw now s : sync_ok (st_sync s) →
  awdl_sync_next_aw_us now (st_sync s) = 65536 - in_eaw now s.
Proof. apply next_aw_us_eq. Qed.

Lemma can_send_in_eq s now guard :
  sync_ok (st_sync s) → 0 <= guard <= 64 →
  awdl_can_send_in s now guard =
    if 65536 - in_eaw now s <? 1024 * guard
    then Qopp (usec_to_sec (1024 * guard - (65536 - in_eaw now s)))
    else if in_eaw now s <? 1024 * guard then usec_to_sec (1024 * guard - in_eaw now s)
    else 0%Q.
Proof.
  intros Hs Hg. unfold awdl_can_send_in. rewrite next_aw_in_eaw by done.
  pose proof (in_eaw_range now s). unfold ieee80211_tu_to_usec.
  rewrite (u64_id guard), (u64_id (1024 * guard)) by int_lia.
  change (u64 (1024 * u64 64)) with 65536.
  replace (65536 - (65536 - in_eaw now s)) with (in_eaw now s) by lia.
  rewrite (u64_id (in_eaw now s)) by int_lia.
  split_ifs; rewrite ?u64_id by int_lia; done.
Qed.

Lemma same_channel_total s now peer P k :
  state_ok s P → peer_ok k peer → ∃ b, awdl_same_channel_as_peer s now peer = Some b.
Proof.
  intros Hs Hp. unfold awdl_same_channel_as_peer, AWDL_CHANSEQ_LENGTH.
  assert (∀ z (l : list awdl_chan), length l = 16%nat → is_Some (l !! Z.to_nat (z mod Z.of_nat 16)))
    as Hl.
  { intros z l Hlen. apply lookup_lt_is_Some. rewrite Hlen.
    pose proof (Z.mod_pos_bound z (Z.of_nat 16) ltac:(lia)). lia. }
  destruct (Hl (awdl_sync_current_eaw now (st_sync s)) _ (sok_sequence _ _ Hs)) as [c ->].
  destruct (Hl (awdl_sync_current_eaw (u64 (now + sync_offset peer)) (st_sync s)) _
    (pok_sequence _ _ Hp)) as [c' ->]. simpl. eauto.
Qed.

Lemma can_send_unicast_total s P k peer now :
  state_ok s P → peer_ok k peer →
  ∃ delay, awdl_can_send_unicast_in s peer now AWDL_UNICAST_GUARD_TU = Some delay.
Proof.
  intros Hs Hp. unfold awdl_can_send_unicast_in.
  destruct (same_channel_total s now peer P k Hs Hp) as [[] ->]; simpl; [|eauto]. split_ifs; [..|eauto].
  - destruct (same_channel_total s (u64 (now + ieee80211_tu_to_usec 64)) peer P k Hs Hp) as [[] ->]; simpl; eauto.
  - destruct (same_channel_total s (u64 (now - ieee80211_tu_to_usec 64)) peer P k Hs Hp) as [[] ->]; simpl; eauto.
Qed.

Lemma usec_to_sec_zero z : (usec_to_sec z == 0)%Q ↔ z = 0.
Proof. unfold usec_to_sec, Qeq. simpl. lia. Qed.

Lemma sec_usec z : is_u64 z → sec_to_usec (usec_to_sec z) = z.
Proof.
  intros Hz. unfold sec_to_usec, usec_to_sec. cbn [Qnum Qden].
  rewrite Z.quot_mul by lia. by apply u64_id.
Qed.

(** ** Properties *)

(** [awdl_can_send_in] tells the position in the extended window: its
    result is negative exactly in the guard interval at the end, positive
    exactly in the one at the beginning and zero in between; a positive
    result is the exact time to wait, after which sending is allowed. *)
Theorem can_send_in_spec s now guard :
  sync_ok (st_sync s) → 0 <= guard <= 32 →
  let r := awdl_can_send_in s now guard in
  ((r < 0)%Q ↔ 65536 - in_eaw now s < 1024 * guard) ∧
  ((0 < r)%Q ↔ in_eaw now s < 1024 * guard) ∧
  ((0 < r)%Q → elapsed now (st_sync s) + 1024 * guard < 2 ^ 64 →
     (awdl_can_send_in s (u64 (now + sec_to_usec r)) guard == 0)%Q).
Proof.
  intros Hs Hg r. subst r. pose proof (in_eaw_range now s).
  rewrite (can_send_in_eq s now) by (done || lia).
  assert (∀ z, (usec_to_sec z < 0)%Q ↔ z < 0) as Hneg by (unfold usec_to_sec, Qlt; simpl; lia).
  assert (∀ z, (0 < usec_to_sec z)%Q ↔ 0 < z) as Hpos by (unfold usec_to_sec, Qlt; simpl; lia).
  assert (∀ z, Qopp (usec_to_sec z) = usec_to_sec (- z)) as Hopp by done.
  split_ifs; rewrite ?Hopp, ?Hneg, ?Hpos.
  { split_and!; [lia..|]. intros. lia. }
  2: { pose proof (Qlt_irrefl 0). split_and!; [split; [done|lia]..|done]. }
  split_and!; [lia..|]. intros _ Hlt. rewrite sec_usec by int_lia.
  set (w := 1024 * guard - in_eaw now s).
  assert (in_eaw (u64 (now + w)) s = 1024 * guard) as Hin.
  { unfold in_eaw. rewrite elapsed_add by (unfold w; lia). unfold w, in_eaw in *.
    set (x := elapsed now (st_sync s)) in *. clearbody x. lia. }
  rewrite can_send_in_eq by (done || lia). rewrite Hin. if_false. if_false. reflexivity.
Qed.

(** A unicast frame may be sent now only in a window in which node and
    peer are on the same, non-zero channel; within that window it may be sent
    exactly when the moment is outside the guard intervals or the window
    beyond the nearer end also has the common channel.  The computation never
    reads outside a channel sequence. *)
Theorem can_send_unicast_spec s P k peer now :
  state_ok s P → peer_ok k peer →
  ∃ r same next prev,
    awdl_can_send_unicast_in s peer now AWDL_UNICAST_GUARD_TU = Some r ∧
    awdl_same_channel_as_peer s now peer = Some same ∧
    awdl_same_channel_as_peer s (u64 (now + 65536)) peer = Some next ∧
    awdl_same_channel_as_peer s (u64 (now - 65536)) peer = Some prev ∧
    ((r == 0)%Q ↔ same = true ∧
       (65536 - in_eaw now s < 3072 → next = true) ∧
       (in_eaw now s < 3072 → prev = true)) ∧
    (same = false → r = usec_to_sec (65536 - in_eaw now s)).
Proof.
  intros Hs Hp. destruct (same_channel_total s now peer P k Hs Hp) as [same Hsame].
  destruct (same_channel_total s (u64 (now + 65536)) peer P k Hs Hp) as [next Hnext].
  destruct (same_channel_total s (u64 (now - 65536)) peer P k Hs Hp) as [prev Hprev].
  unfold awdl_can_send_unicast_in. rewrite Hsame. simpl.
  change (ieee80211_tu_to_usec 64) with 65536. change (ieee80211_tu_to_usec AWDL_UNICAST_GUARD_TU) with 3072.
  rewrite Hnext, Hprev, next_aw_in_eaw by apply Hs. pose proof (in_eaw_range now s).
  replace (65536 - (65536 - in_eaw now s)) with (in_eaw now s) by lia.
  rewrite (u64_id (in_eaw now s)) by int_lia. simpl.
  assert (∀ z, is_u64 z → (usec_to_sec (u64 z) == 0)%Q ↔ z = 0) as Hz
    by (intros z Hz; rewrite u64_id by done; apply usec_to_sec_zero).
  assert (∀ q, (- q == 0)%Q ↔ (q == 0)%Q) as Hopp by (intros q; unfold Qeq, Qopp; simpl; lia).
  destruct same; simpl.
  2: { do 4 eexists. do 4 (split; [reflexivity|]). rewrite usec_to_sec_zero. split; [|done].
       split; [lia|by intros []]. }
  split_ifs; simpl; do 4 eexists; do 4 (split; [reflexivity|]); (split; [|done]);
    rewrite ?Hopp, ?Hz by int_lia; try (unfold Qeq; simpl); clear Hz Hopp; lia.
Qed.
