(* ===== verification/Frame.v ===== *)
(** * Frame: frame formats (src/frame.h, src/frame.c, src/ieee80211.h)

    The packed structures that are cast onto frame buffers, as records with
    their layout: the bytes of a record are those of its members in order,
    without padding.  Multi-byte members hold values in host order; the
    layout writes the conversion ([htole16] and the like) out. *)

From Stdlib Require Import ZArith Lia ZifyBool.
From stdpp Require Import base tactics numbers list strings.
From S2P Require Import Prelude Wire Channel Election.

Local Open Scope Z_scope.

(** ** Constants *)

Definition AWDL_LLC_PROTOCOL_ID : Z := 0x0800.
Definition AWDL_OUI : list Z := [0x00; 0x17; 0xf2].
Definition AWDL_BSSID : ether_addr := [0x00; 0x25; 0x00; 0xff; 0x94; 0x73].
Definition IEEE80211_VENDOR_SPECIFIC : Z := 127.
Definition AWDL_VERSION_COMPAT : option Z := awdl_version 1 0.
Definition AWDL_TYPE : Z := 8.

(** [enum awdl_action_type] *)
Definition AWDL_ACTION_PSF : Z := 0.
Definition AWDL_ACTION_MIF : Z := 3.

(** [enum awdl_tlvs] *)
Definition AWDL_SSTH_REQUEST_TLV : Z := 0.
Definition AWDL_SERVICE_REQUEST_TLV : Z := 1.
Definition AWDL_SERVICE_RESPONSE_TLV : Z := 2.
Definition AWDL_SYNCHRONIZATON_PARAMETERS_TLV : Z := 4.
Definition AWDL_ELECTION_PARAMETERS_TLV : Z := 5.
Definition AWDL_SERVICE_PARAMETERS_TLV : Z := 6.
Definition AWDL_ENHANCED_DATA_RATE_CAPABILITIES_TLV : Z := 7.
Definition AWDL_ENHANCED_DATA_RATE_OPERATION_TLV : Z := 8.
Definition AWDL_INFRA_TLV : Z := 9.
Definition AWDL_INVITE_TLV : Z := 10.
Definition AWDL_DBG_STRING_TLV : Z := 11.
Definition AWDL_DATA_PATH_STATE_TLV : Z := 12.
Definition AWDL_ENCAPSULATED_IP_TLV : Z := 13.
Definition AWDL_DATAPATH_DEBUG_PACKET_LIVE_TLV : Z := 14.
Definition AWDL_DATAPATH_DEBUG_AF_LIVE_TLV : Z := 15.
Definition AWDL_ARPA_TLV : Z := 16.
Definition AWDL_IEEE80211_CNTNR_TLV : Z := 17.
Definition AWDL_CHAN_SEQ_TLV : Z := 18.
Definition AWDL_SYNCTREE_TLV : Z := 20.
Definition AWDL_VERSION_TLV : Z := 21.
Definition AWDL_BLOOM_FILTER_TLV : Z := 22.
Definition AWDL_NAN_SYNC_TLV : Z := 23.
Definition AWDL_ELECTION_PARAMETERS_V2_TLV : Z := 24.

(** [enum awdl_data_path_state_flags] *)
Definition AWDL_DATA_PATH_FLAG_COUNTRY_CODE : Z := 0x0100.
Definition AWDL_DATA_PATH_FLAG_SOCIAL_CHANNEL_MAP : Z := 0x0200.
Definition AWDL_DATA_PATH_FLAG_INFRA_INFO : Z := 0x0001.
Definition AWDL_DATA_PATH_FLAG_INFRA_ADDRESS : Z := 0x0002.
Definition AWDL_DATA_PATH_FLAG_AWDL_ADDRESS : Z := 0x0004.

(** The IEEE 802.11 constants the code uses. *)
Definition FCS_LEN : Z := 4.
Definition IEEE80211_FCTL_FTYPE : Z := 0x000c.
Definition IEEE80211_FCTL_STYPE : Z := 0x00f0.
Definition IEEE80211_FTYPE_MGMT : Z := 0x0000.
Definition IEEE80211_FTYPE_DATA : Z := 0x0008.
Definition IEEE80211_STYPE_ACTION : Z := 0x00D0.
Definition IEEE80211_STYPE_DATA : Z := 0x0000.
Definition IEEE80211_STYPE_QOS_DATA : Z := 0x0080.
Definition IEEE80211_QOS_CTL_LEN : Z := 2.
Definition IEEE80211_QOS_CTL_A_MSDU_PRESENT : Z := 0x0080.

(** ** Names *)

Definition awdl_frame_as_str (type : Z) : string :=
  if type =? AWDL_ACTION_PSF then "PSF"
  else if type =? AWDL_ACTION_MIF then "MIF"
  else "Unknown".

Definition awdl_tlv_as_str (type : Z) : string :=
  if type =? AWDL_SSTH_REQUEST_TLV then "SSTH Request"
  else if type =? AWDL_SERVICE_REQUEST_TLV then "Service Request"
  else if type =? AWDL_SERVICE_RESPONSE_TLV then "Service Response"
  else if type =? AWDL_SYNCHRONIZATON_PARAMETERS_TLV then "Synchronization Parameters"
  else if type =? AWDL_ELECTION_PARAMETERS_TLV then "Election Parameters"
  else if type =? AWDL_SERVICE_PARAMETERS_TLV then "Service Parameters"
  else if type =? AWDL_ENHANCED_DATA_RATE_CAPABILITIES_TLV then "HT Capabilities"
  else if type =? AWDL_ENHANCED_DATA_RATE_OPERATION_TLV then "HT Operation"
  else if type =? AWDL_INFRA_TLV then "Infra"
  else if type =? AWDL_INVITE_TLV then "Invite"
  else if type =? AWDL_DBG_STRING_TLV then "Debug String"
  else if type =? AWDL_DATA_PATH_STATE_TLV then "Data Path State"
  else if type =? AWDL_ENCAPSULATED_IP_TLV then "Encapsulated IP"
  else if type =? AWDL_DATAPATH_DEBUG_PACKET_LIVE_TLV then "Datapath Debug Packet Live"
  else if type =? AWDL_DATAPATH_DEBUG_AF_LIVE_TLV then "Datapath Debug AF Live"
  else if type =? AWDL_ARPA_TLV then "Arpa"
  else if type =? AWDL_IEEE80211_CNTNR_TLV then "VHT Capabilities"
  else if type =? AWDL_CHAN_SEQ_TLV then "Channel Sequence"
  else if type =? AWDL_SYNCTREE_TLV then "Synchronization Tree"
  else if type =? AWDL_VERSION_TLV then "Version"
  else if type =? AWDL_BLOOM_FILTER_TLV then "Bloom Filter"
  else if type =? AWDL_NAN_SYNC_TLV then "NAN Sync"
  else if type =? AWDL_ELECTION_PARAMETERS_V2_TLV then "Election Parameters v2"
  else "Unknown".

(** ** Structures *)

Definition byte (v : Z) : list Z := [u8 v].
Definition htole16 (v : Z) : list Z := le_bytes 2 v.
Definition htole32 (v : Z) : list Z := le_bytes 4 v.
Definition htobe16 (v : Z) : list Z := be_bytes 2 v.

Record awdl_data := mk_awdl_data {
  d_head : Z; d_seq : Z; d_pad : Z; d_ethertype : Z }.
Definition awdl_data_bytes (d : awdl_data) : list Z :=
  htole16 (d_head d) ++ htole16 (d_seq d) ++ htole16 (d_pad d) ++ htobe16 (d_ethertype d).

Record awdl_action := mk_awdl_action {
  af_category : Z; af_oui : list Z; af_type : Z; af_version : Z; af_subtype : Z;
  af_reserved : Z; af_phy_tx : Z; af_target_tx : Z }.
Definition awdl_action_bytes (af : awdl_action) : list Z :=
  byte (af_category af) ++ af_oui af ++ byte (af_type af) ++ byte (af_version af) ++
  byte (af_subtype af) ++ byte (af_reserved af) ++ htole32 (af_phy_tx af) ++
  htole32 (af_target_tx af).

Record tl := mk_tl { tl_type : Z; tl_length : Z }.
Definition tl_bytes (t : tl) : list Z := byte (tl_type t) ++ htole16 (tl_length t).

Record awdl_chanseq := mk_chanseq {
  cs_count : Z; cs_encoding : Z; cs_duplicate_count : Z; cs_step_count : Z;
  cs_fill_channel : Z }.
Definition awdl_chanseq_bytes (c : awdl_chanseq) : list Z :=
  byte (cs_count c) ++ byte (cs_encoding c) ++ byte (cs_duplicate_count c) ++
  byte (cs_step_count c) ++ htole16 (cs_fill_channel c).

Record awdl_sync_params_tlv := mk_sync_params {
  sp_tl : tl;
  sp_next_aw_channel : Z; sp_tx_down_counter : Z; sp_master_channel : Z; sp_guard_time : Z;
  sp_aw_period : Z; sp_af_period : Z; sp_flags : Z; sp_aw_ext_length : Z; sp_aw_com_length : Z;
  sp_remaining_aw_length : Z; sp_min_ext : Z; sp_max_ext_multicast : Z; sp_max_ext_unicast : Z;
  sp_max_ext_af : Z; sp_master_addr : ether_addr; sp_presence_mode : Z; sp_reserved : Z;
  sp_next_aw_seq : Z; sp_ap_alignment : Z }.
(** The members after type and length. *)
Definition sync_params_body (t : awdl_sync_params_tlv) : list Z :=
  byte (sp_next_aw_channel t) ++ htole16 (sp_tx_down_counter t) ++ byte (sp_master_channel t) ++
  byte (sp_guard_time t) ++ htole16 (sp_aw_period t) ++ htole16 (sp_af_period t) ++
  htole16 (sp_flags t) ++ htole16 (sp_aw_ext_length t) ++ htole16 (sp_aw_com_length t) ++
  htole16 (sp_remaining_aw_length t) ++ byte (sp_min_ext t) ++ byte (sp_max_ext_multicast t) ++
  byte (sp_max_ext_unicast t) ++ byte (sp_max_ext_af t) ++ sp_master_addr t ++
  byte (sp_presence_mode t) ++ byte (sp_reserved t) ++ htole16 (sp_next_aw_seq t) ++
  htole16 (sp_ap_alignment t).
Definition awdl_sync_params_tlv_bytes (t : awdl_sync_params_tlv) : list Z :=
  tl_bytes (sp_tl t) ++ sync_params_body t.

Record awdl_chanseq_tlv := mk_chanseq_tlv { ct_tl : tl }.
Definition awdl_chanseq_tlv_bytes (t : awdl_chanseq_tlv) : list Z := tl_bytes (ct_tl t).

Record awdl_election_params_tlv := mk_election_params {
  ep_tl : tl; ep_flags : Z; ep_id : Z; ep_distancetop : Z; ep_unknown : Z;
  ep_top_master_addr : ether_addr; ep_top_master_metric : Z; ep_self_metric : Z;
  ep_pad : list Z }.
Definition election_params_body (t : awdl_election_params_tlv) : list Z :=
  byte (ep_flags t) ++ htole16 (ep_id t) ++ byte (ep_distancetop t) ++ byte (ep_unknown t) ++
  ep_top_master_addr t ++ htole32 (ep_top_master_metric t) ++ htole32 (ep_self_metric t) ++
  ep_pad t.
Definition awdl_election_params_tlv_bytes (t : awdl_election_params_tlv) : list Z :=
  tl_bytes (ep_tl t) ++ election_params_body t.

Record awdl_election_params_v2_tlv := mk_election_v2 {
  e2_tl : tl; e2_master_addr : ether_addr; e2_sync_addr : ether_addr; e2_master_counter : Z;
  e2_distance_to_master : Z; e2_master_metric : Z; e2_self_metric : Z; e2_unknown : Z;
  e2_reserved : Z; e2_self_counter : Z }.
Definition election_v2_body (t : awdl_election_params_v2_tlv) : list Z :=
  e2_master_addr t ++ e2_sync_addr t ++ htole32 (e2_master_counter t) ++
  htole32 (e2_distance_to_master t) ++ htole32 (e2_master_metric t) ++
  htole32 (e2_self_metric t) ++ htole32 (e2_unknown t) ++ htole32 (e2_reserved t) ++
  htole32 (e2_self_counter t).
Definition awdl_election_params_v2_tlv_bytes (t : awdl_election_params_v2_tlv) : list Z :=
  tl_bytes (e2_tl t) ++ election_v2_body t.

Record awdl_service_params_tlv := mk_service_params {
  sv_tl : tl; sv_unknown : list Z; sv_sui : Z; sv_bitmask : Z }.
Definition service_params_body (t : awdl_service_params_tlv) : list Z :=
  sv_unknown t ++ htole16 (sv_sui t) ++ htole32 (sv_bitmask t).
Definition awdl_service_params_tlv_bytes (t : awdl_service_params_tlv) : list Z :=
  tl_bytes (sv_tl t) ++ service_params_body t.

Record awdl_ht_capabilities_tlv := mk_ht_capabilities {
  ht_tl : tl; ht_unknown : Z; ht_ht_capabilities : Z; ht_ampdu_params : Z; ht_rx_mcs : Z;
  ht_unknown2 : Z }.
Definition ht_capabilities_body (t : awdl_ht_capabilities_tlv) : list Z :=
  htole16 (ht_unknown t) ++ htole16 (ht_ht_capabilities t) ++ byte (ht_ampdu_params t) ++
  byte (ht_rx_mcs t) ++ htole16 (ht_unknown2 t).
Definition awdl_ht_capabilities_tlv_bytes (t : awdl_ht_capabilities_tlv) : list Z :=
  tl_bytes (ht_tl t) ++ ht_capabilities_body t.

Record awdl_data_path_state_tlv := mk_data_path {
  dp_tl : tl; dp_flags : Z; dp_country_code : list Z; dp_social_channels : Z;
  dp_awdl_addr : ether_addr; dp_ext_flags : Z }.
Definition data_path_body (t : awdl_data_path_state_tlv) : list Z :=
  htole16 (dp_flags t) ++ dp_country_code t ++ htole16 (dp_social_channels t) ++
  dp_awdl_addr t ++ htole16 (dp_ext_flags t).
Definition awdl_data_path_state_tlv_bytes (t : awdl_data_path_state_tlv) : list Z :=
  tl_bytes (dp_tl t) ++ data_path_body t.

(** The members before [name]; [sizeof] also counts [name[1]]. *)
Record awdl_arpa_tlv := mk_arpa { ar_tl : tl; ar_flags : Z; ar_name_length : Z }.
Definition sizeof_awdl_arpa_tlv : Z := 6.
Definition awdl_arpa_tlv_bytes (t : awdl_arpa_tlv) : list Z :=
  tl_bytes (ar_tl t) ++ byte (ar_flags t) ++ byte (ar_name_length t).

Record awdl_version_tlv := mk_version_tlv { vt_tl : tl; vt_version : Z; vt_devclass : Z }.
Definition version_tlv_body (t : awdl_version_tlv) : list Z :=
  byte (vt_version t) ++ byte (vt_devclass t).
Definition awdl_version_tlv_bytes (t : awdl_version_tlv) : list Z :=
  tl_bytes (vt_tl t) ++ version_tlv_body t.

Record ieee80211_hdr := mk_ieee80211_hdr {
  h_frame_control : Z; h_duration_id : Z; h_addr1 : ether_addr; h_addr2 : ether_addr;
  h_addr3 : ether_addr; h_seq_ctrl : Z }.
Definition ieee80211_hdr_bytes (h : ieee80211_hdr) : list Z :=
  htole16 (h_frame_control h) ++ htole16 (h_duration_id h) ++ h_addr1 h ++ h_addr2 h ++
  h_addr3 h ++ htole16 (h_seq_ctrl h).

Record llc_hdr := mk_llc_hdr {
  l_dsap : Z; l_ssap : Z; l_control : Z; l_oui : list Z; l_pid : Z }.
Definition llc_hdr_bytes (h : llc_hdr) : list Z :=
  byte (l_dsap h) ++ byte (l_ssap h) ++ byte (l_control h) ++ l_oui h ++ htobe16 (l_pid h).

(** The sizes of the structures. *)
Definition sizeof_tl : Z := 3.
Definition sizeof_awdl_data : Z := 8.
Definition sizeof_awdl_action : Z := 16.
Definition sizeof_awdl_chanseq : Z := 6.
Definition sizeof_awdl_sync_params_tlv : Z := 36.
Definition sizeof_awdl_chanseq_tlv : Z := 3.
Definition sizeof_awdl_election_params_tlv : Z := 24.
Definition sizeof_awdl_election_params_v2_tlv : Z := 43.
Definition sizeof_awdl_service_params_tlv : Z := 12.
Definition sizeof_awdl_ht_capabilities_tlv : Z := 11.
Definition sizeof_awdl_data_path_state_tlv : Z := 18.
Definition sizeof_awdl_version_tlv : Z := 5.
Definition sizeof_ieee80211_hdr : Z := 24.
Definition sizeof_llc_hdr : Z := 8.

(** [ieee80211_radiotap_type_to_mask] and [ieee80211_radiotap_rate_to_val] *)
Definition ieee80211_radiotap_type_to_mask (type : Z) : option Z := int_shl 1 type.
Definition ieee80211_radiotap_rate_to_val (rate : Z) : option Z := int_mul 2 rate.

(** ** Lemmas *)

Create Rewrite HintDb lens.
#[export] Hint Rewrite @length_app length_le_bytes length_be_bytes : lens.

Ltac solve_sizeof :=
  intros;
  unfold awdl_data_bytes, awdl_action_bytes, tl_bytes, awdl_chanseq_bytes,
    awdl_sync_params_tlv_bytes, sync_params_body, awdl_chanseq_tlv_bytes,
    awdl_election_params_tlv_bytes, election_params_body, awdl_election_params_v2_tlv_bytes,
    election_v2_body, awdl_service_params_tlv_bytes, service_params_body,
    awdl_ht_capabilities_tlv_bytes, ht_capabilities_body, awdl_data_path_state_tlv_bytes,
    data_path_body, awdl_version_tlv_bytes, version_tlv_body, ieee80211_hdr_bytes, llc_hdr_bytes,
    byte, htole16, htole32, htobe16 in *;
  autorewrite with lens; simpl in *; lia.

Lemma byte_ok v : bytes_ok (byte v).
Proof. repeat constructor; auto with owl; apply u8_range. Qed.
Lemma htole16_ok v : bytes_ok (htole16 v).
Proof. apply le_bytes_ok. Qed.
Lemma htole32_ok v : bytes_ok (htole32 v).
Proof. apply le_bytes_ok. Qed.
Lemma htobe16_ok v : bytes_ok (htobe16 v).
Proof. apply be_bytes_ok. Qed.
#[export] Hint Resolve byte_ok htole16_ok htole32_ok htobe16_ok : owl.

(** A [tl] header followed by a value of the announced length is a
    type-length-value element. *)
Lemma tl_tlv_bytes t v :
  is_u8 t → tl_bytes (mk_tl t (Z.of_nat (length v))) ++ v = tlv_bytes t v.
Proof. intros Ht. unfold tl_bytes, tlv_bytes, byte, htole16. simpl. by rewrite u8_id. Qed.
