(* ===== verification/Radiotap.v ===== *)
(** * Radiotap: the interface of the radiotap library

    The library is a separate project (the submodule [radiotap/]); what the
    program uses of it is a class: the bytes of a header, the numbers of the
    fields and flags, and what the iterator delivers for a frame.  The laws
    are the documented behaviour the receiver relies on.  [rt_standard] is an
    instance after the published format, for concrete inputs. *)

From Stdlib Require Import ZArith Lia ZifyBool.
From stdpp Require Import base tactics numbers list.
From S2P Require Import Prelude.

Local Open Scope Z_scope.

(** A field the iterator stops at: whether it is in the radiotap name space,
    its number, and the bytes [this_arg] points to. *)
Record rt_field := mk_rt_field { rf_is_radiotap_ns : bool; rf_index : Z; rf_arg : list Z }.

Class Radiotap := {
  (* members of the header: version, pad, length, presence mask *)
  rt_header_bytes : Z → Z → Z → Z → list Z;
  sizeof_rt_header : Z;
  (* [le16toh(hdr->it_len)] of the header a frame starts with *)
  rt_it_len : list Z → Z;
  IEEE80211_RADIOTAP_TSFT : Z;
  IEEE80211_RADIOTAP_FLAGS : Z;
  IEEE80211_RADIOTAP_RATE : Z;
  IEEE80211_RADIOTAP_DBM_ANTSIGNAL : Z;
  IEEE80211_RADIOTAP_F_FCS : Z;
  IEEE80211_RADIOTAP_F_BADFCS : Z;
  (* [iterator_init]: a negative error, or the fields [iterator_next] yields
     and the error it ends with *)
  rt_iterator : list Z → Z + (list rt_field * Z) }.

(** [-ENOENT], the regular end of the iteration. *)
Definition MINUS_ENOENT : Z := -2.

Class RadiotapOk `{Radiotap} : Prop := {
  rt_header_length v p l m : Z.of_nat (length (rt_header_bytes v p l m)) = sizeof_rt_header;
  rt_header_ok v p l m : bytes_ok (rt_header_bytes v p l m);
  rt_header_size : 0 <= sizeof_rt_header <= 64;
  rt_rate_bit : 0 <= IEEE80211_RADIOTAP_RATE <= 30;
  rt_init_error frame e : rt_iterator frame = inl e → e < 0;
  rt_init_length frame fs e :
    rt_iterator frame = inr (fs, e) → 0 <= rt_it_len frame <= Z.of_nat (length frame);
  rt_field_arg frame fs e f :
    rt_iterator frame = inr (fs, e) → f ∈ fs → rf_is_radiotap_ns f = true →
    (rf_index f = IEEE80211_RADIOTAP_FLAGS ∨ rf_index f = IEEE80211_RADIOTAP_DBM_ANTSIGNAL) →
    ∃ b bs, rf_arg f = b :: bs ∧ is_u8 b }.

(** The published format, without alignment, for the presence masks of the
    examples: rate (bit 2), flags (bit 1) and antenna signal (bit 5). *)
Definition rt_standard_fields (mask : Z) (args : list Z) : list rt_field :=
  let take_bit := λ (i : Z) (st : list rt_field * list Z),
    if Z.testbit mask i then
      match st.2 with
      | b :: bs => (st.1 ++ [mk_rt_field true i [b]], bs)
      | [] => st
      end
    else st in
  (take_bit 5 (take_bit 2 (take_bit 1 ([], args)))).1.

Definition rt_standard : Radiotap := {|
  rt_header_bytes v p l m := [u8 v] ++ [u8 p] ++ le_bytes 2 l ++ le_bytes 4 m;
  sizeof_rt_header := 8;
  rt_it_len f := le_val (take 2 (drop 2 f));
  IEEE80211_RADIOTAP_TSFT := 0;
  IEEE80211_RADIOTAP_FLAGS := 1;
  IEEE80211_RADIOTAP_RATE := 2;
  IEEE80211_RADIOTAP_DBM_ANTSIGNAL := 5;
  IEEE80211_RADIOTAP_F_FCS := 16;
  IEEE80211_RADIOTAP_F_BADFCS := 64;
  rt_iterator f :=
    if (length f <? 8)%nat then inl (-22)
    else
      let n := le_val (take 2 (drop 2 f)) in
      if negb ((8 <=? n) && (n <=? Z.of_nat (length f)) && forallb (λ b, (0 <=? b) && (b <? 256)) f)
      then inl (-22)
      else inr (rt_standard_fields (le_val (take 4 (drop 4 f)))
                  (take (Z.to_nat n - 8) (drop 8 f)), MINUS_ENOENT) |}.

Lemma rt_standard_fields_arg mask args f :
  bytes_ok args → f ∈ rt_standard_fields mask args → ∃ b bs, rf_arg f = b :: bs ∧ is_u8 b.
Proof.
  intros Ha. set (good := λ st : list rt_field * list Z,
    Forall (λ f, ∃ b bs, rf_arg f = b :: bs ∧ is_u8 b) st.1 ∧ bytes_ok st.2).
  assert (∀ i st, good st → good (if Z.testbit mask i then
      match st.2 with b :: bs => (st.1 ++ [mk_rt_field true i [b]], bs) | [] => st end else st))
    as Hstep.
  { intros i [l a] [Hl Ha']. destruct (Z.testbit mask i); [|done].
    destruct a as [|b bs]; [done|]. simpl in *. apply Forall_cons in Ha' as [Hb Hbs].
    split; simpl; [|done]. apply Forall_app. split; [done|]. repeat constructor. eauto. }
  intros Hf. unfold rt_standard_fields in Hf.
  apply (proj1 (Forall_forall _ _) (proj1 (Hstep 5 _ (Hstep 2 _ (Hstep 1 ([], args) (conj (Forall_nil_2 _) Ha))))) f Hf).
Qed.

Lemma rt_standard_ok : @RadiotapOk rt_standard.
Proof.
  split.
  - reflexivity.
  - intros v p l m. cbn [rt_header_bytes rt_standard]. rewrite !Forall_app.
    split_and!; auto using le_bytes_ok; constructor; auto with owl.
  - simpl. lia.
  - simpl. lia.
  - intros frame e. simpl. split_ifs; [by intros [= <-]|by intros [= <-]|done].
  - intros frame fs e. simpl. split_ifs; try done. intros _. lia.
  - intros frame fs e f. simpl. split_ifs; try done. intros [= <- <-] Hf _ _.
    eapply rt_standard_fields_arg; [|exact Hf]. apply Forall_take, Forall_drop, Forall_forall.
    intros b Hb. apply negb_false_iff in E0. apply andb_true_iff in E0 as [_ E0].
    rewrite forallb_forall in E0. specialize (E0 b ltac:(by apply list_elem_of_In)). int_lia.
Qed.
