(* ===== verification/Tx.v ===== *)
(** * Tx: building frames (src/tx.c, src/tx.h)

    The functions write through a pointer into a block of bytes and return
    the number of bytes they wrote; a write outside the block is undefined.
    A [writer] takes the block and the offset of the pointer.  The members of
    a structure are assigned through a cast pointer, the model stores the
    bytes of the whole structure.  The clock is read inside some functions;
    its readings are arguments. *)

From Stdlib Require Import ZArith Lia ZifyBool.
From stdpp Require Import base tactics numbers list gmap.
From S2P Require Import Prelude Wire Crc32 HashMap Sync Channel Election Peers State Frame Radiotap.

Local Open Scope Z_scope.

Definition AWDL_DNS_SHORT_LOCAL : Z := 0xc00c.
Definition AWDL_DATA_HEAD : Z := 0x0403.
Definition AWDL_DATA_PAD : Z := 0x0000.
Definition AWDL_SOCIAL_CHANNEL_6_BIT : Z := 0x0001.
Definition AWDL_SOCIAL_CHANNEL_44_BIT : Z := 0x0002.
Definition AWDL_SOCIAL_CHANNEL_149_BIT : Z := 0x0004.
Definition ETH_P_IPV6 : Z := 0x86dd.

Definition TX_OK : Z := 0.
Definition TX_FAIL : Z := -1.

(** The block and the number of bytes written. *)
Abbreviation writer := (list Z → Z → option (list Z * Z)).

(** Storing the bytes of a structure at the pointer. *)
Definition put_bytes (bs : list Z) : writer := λ blk off,
  blk ← store blk off bs; Some (blk, Z.of_nat (length bs)).

(** [ptr += f(ptr)] followed by [ptr += g(ptr)]. *)
Definition then_write (f g : writer) : writer := λ blk off,
  r ← f blk off;
  q ← g r.1 (off + r.2);
  Some (q.1, r.2 + q.2).

Infix ";;+" := then_write (at level 60, right associativity) : owl_scope.
Local Open Scope owl_scope.

(** ** Elements *)

(** [steady_time] is [(uint32_t) clock_time_us()]. *)
Definition awdl_init_action (type now : Z) : writer := λ blk off,
  version ← AWDL_VERSION_COMPAT;
  let steady_time := u32 now in
  put_bytes (awdl_action_bytes
    (mk_awdl_action IEEE80211_VENDOR_SPECIFIC AWDL_OUI AWDL_TYPE version type 0
       steady_time steady_time)) blk off.

Definition awdl_chan_encoding_length (enc : Z) : Z :=
  if enc =? AWDL_CHAN_ENC_SIMPLE then 1
  else if (enc =? AWDL_CHAN_ENC_LEGACY) || (enc =? AWDL_CHAN_ENC_OPCLASS) then 2
  else 0.

(** The bytes of a channel in memory. *)
Definition chan_bytes (c : awdl_chan) : list Z := [chan_val0 c; chan_val1 c].

(** The loop that copies [n] entries of the sequence, from index [i] on. *)
Fixpoint write_sequence (seq : list awdl_chan) (enc_len : Z) (n i : nat) : writer :=
  match n with
  | O => λ blk _, Some (blk, 0)
  | S n => λ blk off,
      c ← seq !! i;
      (put_bytes (take (Z.to_nat enc_len) (chan_bytes c)) ;;+
       write_sequence seq enc_len n (S i)) blk off
  end.

Definition awdl_init_chanseq (state : awdl_state) : writer :=
  let enc_len := awdl_chan_encoding_length (ch_enc (st_channel state)) in
  put_bytes (awdl_chanseq_bytes
    (mk_chanseq (Z.of_nat AWDL_CHANSEQ_LENGTH - 1) (ch_enc (st_channel state)) 0 3 0xffff)) ;;+
  write_sequence (ch_sequence (st_channel state)) enc_len AWDL_CHANSEQ_LENGTH 0.

(** The members of the structure, with [length] the value assigned last. *)
Definition sync_params (state : awdl_state) (now length : Z) : awdl_sync_params_tlv :=
  let s := st_sync state in
  let enc := ch_enc (st_channel state) in
  let tx_down_counter := awdl_sync_next_aw_tu now s in
  let next_aw_seq := awdl_sync_current_aw now s in
  let rest := u16 (aw_period s) * u8 (presence_mode s) - u16 tx_down_counter in
  mk_sync_params (mk_tl AWDL_SYNCHRONIZATON_PARAMETERS_TLV length)
    (awdl_chan_num (ch_current (st_channel state)) enc)
    tx_down_counter
    (awdl_chan_num (ch_master (st_channel state)) enc)
    0
    (aw_period s) (psf_interval state) 0x1800 (aw_period s) (aw_period s)
    (if u16 (aw_period s) <? rest then 0 else u16 (aw_period s) - rest)
    (presence_mode s - 1) (presence_mode s - 1) (presence_mode s - 1) (presence_mode s - 1)
    (master_addr (st_election state)) (presence_mode s) 0
    next_aw_seq next_aw_seq.

(** The structure is written before and after the channel sequence, the
    length last. *)
Definition awdl_init_sync_params_tlv (state : awdl_state) (now : Z) : writer := λ blk off,
  let len := sizeof_awdl_sync_params_tlv in
  r ← awdl_init_chanseq state blk (off + sizeof_awdl_sync_params_tlv);
  let len := len + r.2 in
  blk ← store r.1 (off + len) [0];
  blk ← store blk (off + (len + 1)) [0];
  let len := len + 2 in
  blk ← store blk off (awdl_sync_params_tlv_bytes (sync_params state now (len - sizeof_tl)));
  Some (blk, len).

Definition awdl_init_chanseq_tlv (state : awdl_state) : writer := λ blk off,
  let len := sizeof_awdl_chanseq_tlv in
  r ← awdl_init_chanseq state blk (off + sizeof_awdl_chanseq_tlv);
  let len := len + r.2 in
  blk ← store r.1 (off + len) [0];
  blk ← store blk (off + (len + 1)) [0];
  blk ← store blk (off + (len + 2)) [0];
  let len := len + 3 in
  blk ← store blk off (awdl_chanseq_tlv_bytes
    (mk_chanseq_tlv (mk_tl AWDL_CHAN_SEQ_TLV (len - sizeof_tl))));
  Some (blk, len).

Definition election_params (state : awdl_state) : awdl_election_params_tlv :=
  let e := st_election state in
  mk_election_params
    (mk_tl AWDL_ELECTION_PARAMETERS_TLV (sizeof_awdl_election_params_tlv - sizeof_tl))
    0 0 (height e) 0 (master_addr e) (master_metric e) (self_metric e) [0; 0].

Definition awdl_init_election_params_tlv (state : awdl_state) : writer :=
  put_bytes (awdl_election_params_tlv_bytes (election_params state)).

Definition election_v2 (state : awdl_state) : awdl_election_params_v2_tlv :=
  let e := st_election state in
  mk_election_v2
    (mk_tl AWDL_ELECTION_PARAMETERS_V2_TLV (sizeof_awdl_election_params_v2_tlv - sizeof_tl))
    (master_addr e) (sync_addr e) (master_counter e) (height e) (master_metric e) (self_metric e)
    0 0 (self_counter e).

Definition awdl_init_election_params_v2_tlv (state : awdl_state) : writer :=
  put_bytes (awdl_election_params_v2_tlv_bytes (election_v2 state)).

Definition service_params : awdl_service_params_tlv :=
  mk_service_params
    (mk_tl AWDL_SERVICE_PARAMETERS_TLV (sizeof_awdl_service_params_tlv - sizeof_tl))
    [0; 0; 0] 0 0.

Definition awdl_init_service_params_tlv : writer :=
  put_bytes (awdl_service_params_tlv_bytes service_params).

Definition ht_capabilities : awdl_ht_capabilities_tlv :=
  mk_ht_capabilities
    (mk_tl AWDL_ENHANCED_DATA_RATE_CAPABILITIES_TLV (sizeof_awdl_ht_capabilities_tlv - sizeof_tl))
    0 0x11ce 0x1b 0xff 0.

Definition awdl_init_ht_capabilities_tlv : writer :=
  put_bytes (awdl_ht_capabilities_tlv_bytes ht_capabilities).

(** The characters ['X'], ['0'] and a zero. *)
Definition country_X0 : list Z := [88; 48; 0].

Definition data_path (state : awdl_state) : awdl_data_path_state_tlv :=
  let master := awdl_chan_num (ch_master (st_channel state)) AWDL_CHAN_ENC_OPCLASS in
  mk_data_path
    (mk_tl AWDL_DATA_PATH_STATE_TLV (sizeof_awdl_data_path_state_tlv - sizeof_tl))
    0x8f24 country_X0
    (if master =? 6 then AWDL_SOCIAL_CHANNEL_6_BIT
     else if master =? 44 then AWDL_SOCIAL_CHANNEL_44_BIT
     else AWDL_SOCIAL_CHANNEL_149_BIT)
    (self_address state) 0.

Definition awdl_init_data_path_state_tlv (state : awdl_state) : writer :=
  put_bytes (awdl_data_path_state_tlv_bytes (data_path state)).

(** [strlen]: undefined when no zero is found in the block. *)
Fixpoint strlen (s : list Z) : option Z :=
  match s with
  | [] => None
  | c :: s => if c =? 0 then Some 0 else n ← strlen s; Some (n + 1)
  end.

Definition awdl_init_arpa_tlv (state : awdl_state) : writer := λ blk off,
  len ← strlen (st_name state);
  let length := u16 (sizeof_awdl_arpa_tlv - sizeof_tl + len + 1) in
  let hdr := awdl_arpa_tlv_bytes (mk_arpa (mk_tl AWDL_ARPA_TLV length) 3 len) in
  blk ← store blk off hdr;
  name ← load (st_name state) 0 len;
  blk ← store blk (off + 5) name;
  blk ← store blk (off + 5 + len) (htobe16 AWDL_DNS_SHORT_LOCAL);
  Some (blk, sizeof_tl + length).

Definition version_params (state : awdl_state) : awdl_version_tlv :=
  mk_version_tlv (mk_tl AWDL_VERSION_TLV (sizeof_awdl_version_tlv - sizeof_tl))
    (st_version state) (dev_class state).

Definition awdl_init_version_tlv (state : awdl_state) : writer :=
  put_bytes (awdl_version_tlv_bytes (version_params state)).

(** ** Headers *)

(** The rate is written at the pointer behind the header. *)
Definition ieee80211_init_radiotap_header `{Radiotap} : writer := λ blk off,
  mask ← ieee80211_radiotap_type_to_mask IEEE80211_RADIOTAP_RATE;
  rate ← ieee80211_radiotap_rate_to_val 12;
  let present := Z.lor 0 mask in
  (put_bytes (rt_header_bytes 0 0 (u16 (sizeof_rt_header + 1)) present) ;;+
   put_bytes (byte rate)) blk off.

Definition ieee80211_init_awdl_hdr (src dst : ether_addr) (seq type : Z) : writer :=
  put_bytes (ieee80211_hdr_bytes
    (mk_ieee80211_hdr type 0 dst src AWDL_BSSID (u32 (Z.shiftl seq 4)))).

Definition ieee80211_init_awdl_action_hdr (src dst : ether_addr) (seq : Z) : writer :=
  ieee80211_init_awdl_hdr src dst seq (Z.lor IEEE80211_FTYPE_MGMT IEEE80211_STYPE_ACTION).

Definition ieee80211_init_awdl_data_hdr (src dst : ether_addr) (seq : Z) : writer :=
  ieee80211_init_awdl_hdr src dst seq (Z.lor IEEE80211_FTYPE_DATA IEEE80211_STYPE_DATA).

Definition llc_init_awdl_hdr : writer :=
  put_bytes (llc_hdr_bytes (mk_llc_hdr 0xaa 0xaa 0x03 AWDL_OUI AWDL_LLC_PROTOCOL_ID)).

Definition awdl_init_data (seq : Z) : writer :=
  put_bytes (awdl_data_bytes (mk_awdl_data AWDL_DATA_HEAD seq AWDL_DATA_PAD ETH_P_IPV6)).

(** The checksum of the bytes from [start] to the pointer. *)
Definition ieee80211_add_fcs (start : Z) : writer := λ blk off,
  body ← load blk start (off - start);
  put_bytes (htole32 (crc32 body)) blk off.

Definition opt_write (b : bool) (f : writer) : writer :=
  if b then f else λ blk _, Some (blk, 0).

(** ** Full frames *)

(** The sequence number is taken from the state; [now1] and [now2] are the
    clock readings of [awdl_init_action] and [awdl_init_sync_params_tlv]. *)
Definition awdl_init_full_action_frame `{Radiotap} (blk : list Z) (state : awdl_state)
    (ieee : ieee80211_state) (type now1 now2 : Z) :
    option (list Z * Z * ieee80211_state) :=
  let '(seq, ieee) := ieee80211_state_next_sequence_number ieee in
  r ← (ieee80211_init_radiotap_header ;;+
       ieee80211_init_awdl_action_hdr (self_address state) (dst state) seq ;;+
       awdl_init_action type now1 ;;+
       awdl_init_sync_params_tlv state now2 ;;+
       awdl_init_election_params_tlv state ;;+
       awdl_init_chanseq_tlv state ;;+
       awdl_init_election_params_v2_tlv state ;;+
       awdl_init_service_params_tlv ;;+
       opt_write (type =? AWDL_ACTION_MIF) awdl_init_ht_capabilities_tlv ;;+
       opt_write (type =? AWDL_ACTION_MIF) (awdl_init_arpa_tlv state) ;;+
       awdl_init_data_path_state_tlv state ;;+
       awdl_init_version_tlv state ;;+
       opt_write (ieee_fcs ieee) (ieee80211_add_fcs 0)) blk 0;
  Some (r.1, r.2, ieee).

(** The payload is what [payload] and [plen] designate. *)
Definition awdl_init_full_data_frame `{Radiotap} (blk : list Z) (src dst : ether_addr)
    (payload : list Z) (state : awdl_state) (ieee : ieee80211_state) :
    option (list Z * Z * awdl_state * ieee80211_state) :=
  let '(seq, ieee) := ieee80211_state_next_sequence_number ieee in
  let '(dseq, state) := awdl_state_next_sequence_number state in
  r ← (ieee80211_init_radiotap_header ;;+
       ieee80211_init_awdl_data_hdr src dst seq ;;+
       llc_init_awdl_hdr ;;+
       awdl_init_data dseq ;;+
       put_bytes payload ;;+
       opt_write (ieee_fcs ieee) (ieee80211_add_fcs 0)) blk 0;
  Some (r.1, r.2, state, ieee).

(** ** What the writers emit *)

(** After [pre], the writer replaces the next bytes by [F pre]. *)
Definition emits (f : writer) (F : list Z → list Z) : Prop :=
  ∀ pre rest, (length (F pre) <= length rest)%nat →
    f (pre ++ rest) (Z.of_nat (length pre)) =
      Some (pre ++ F pre ++ drop (length (F pre)) rest, Z.of_nat (length (F pre))).

Lemma store_at pre old post new :
  length old = length new →
  store (pre ++ old ++ post) (Z.of_nat (length pre)) new = Some (pre ++ new ++ post).
Proof.
  intros Hl. rewrite store_Some by (rewrite ?length_app; lia).
  rewrite Nat2Z.id, take_app_length, drop_app_add. f_equal. f_equal. f_equal.
  by rewrite drop_app_length' by done.
Qed.

Lemma store_front pre rest new :
  (length new <= length rest)%nat →
  store (pre ++ rest) (Z.of_nat (length pre)) new = Some (pre ++ new ++ drop (length new) rest).
Proof.
  intros Hl. rewrite <- (take_drop (length new) rest) at 1.
  rewrite (store_at pre) by (rewrite length_take; lia). done.
Qed.

Lemma emits_put bs : emits (put_bytes bs) (λ _, bs).
Proof. intros pre rest Hl. unfold put_bytes. by rewrite store_front. Qed.

Lemma emits_nil : emits (λ blk _, Some (blk, 0)) (λ _, []).
Proof. intros pre rest _. simpl. done. Qed.

Lemma emits_then f g F G :
  emits f F → emits g G → emits (f ;;+ g) (λ pre, F pre ++ G (pre ++ F pre)).
Proof.
  intros Hf Hg pre rest Hl. rewrite length_app in Hl. unfold then_write.
  rewrite Hf by lia. simpl.
  replace (Z.of_nat (length pre) + Z.of_nat (length (F pre)))
    with (Z.of_nat (length (pre ++ F pre))) by (rewrite length_app; lia).
  rewrite app_assoc, Hg by (rewrite length_drop; lia). simpl.
  rewrite <- !app_assoc, drop_drop, !length_app. f_equal. f_equal. lia.
Qed.

Lemma emits_opt b f F : emits f F → emits (opt_write b f) (λ pre, if b then F pre else []).
Proof. destruct b; [done|]. intros _. apply emits_nil. Qed.

Lemma emits_eq f g F :
  (∀ blk off, f blk off = g blk off) → emits g F → emits f F.
Proof. intros He Hg pre rest Hl. rewrite He. by apply Hg. Qed.

Lemma emits_fcs : emits (ieee80211_add_fcs 0) (λ pre, htole32 (crc32 pre)).
Proof.
  intros pre rest Hl. unfold ieee80211_add_fcs.
  rewrite load_Some by (rewrite ?length_app; lia). simpl.
  replace (Z.to_nat _) with (length pre) by lia.
  rewrite drop_0, take_app_length. by apply emits_put.
Qed.

(** *** Channel sequences *)

(** The entries as they appear on the wire. *)
Definition sequence_bytes (enc : Z) (seq : list awdl_chan) : list Z :=
  concat (map (λ c, take (Z.to_nat (awdl_chan_encoding_length enc)) (chan_bytes c)) seq).

Definition chanseq_bytes (state : awdl_state) : list Z :=
  awdl_chanseq_bytes
    (mk_chanseq (Z.of_nat AWDL_CHANSEQ_LENGTH - 1) (ch_enc (st_channel state)) 0 3 0xffff) ++
  sequence_bytes (ch_enc (st_channel state)) (ch_sequence (st_channel state)).

Lemma emits_write_sequence enc n : ∀ (l1 l2 : list awdl_chan),
  length l2 = n →
  emits (write_sequence (l1 ++ l2) (awdl_chan_encoding_length enc) n (length l1))
    (λ _, sequence_bytes enc l2).
Proof.
  induction n as [|n IH]; intros l1 l2 Hl.
  { apply nil_length_inv in Hl as ->. exact emits_nil. }
  destruct l2 as [|c l2]; [done|]. injection Hl as Hl. cbn [write_sequence].
  eapply (emits_eq _ (put_bytes (take (Z.to_nat (awdl_chan_encoding_length enc)) (chan_bytes c)) ;;+
    write_sequence (l1 ++ c :: l2) (awdl_chan_encoding_length enc) n (S (length l1)))).
  - intros blk off. rewrite lookup_app_r, Nat.sub_diag by done. done.
  - replace (l1 ++ c :: l2) with ((l1 ++ [c]) ++ l2) by (by rewrite <- app_assoc).
    replace (S (length l1)) with (length (l1 ++ [c])) by (rewrite length_app; simpl; lia).
    exact (emits_then _ _ _ _ (emits_put _) (IH (l1 ++ [c]) l2 Hl)).
Qed.

Lemma emits_chanseq state :
  length (ch_sequence (st_channel state)) = AWDL_CHANSEQ_LENGTH →
  emits (awdl_init_chanseq state) (λ _, chanseq_bytes state).
Proof.
  intros Hl. exact (emits_then _ _ _ _ (emits_put _)
    (emits_write_sequence _ _ [] (ch_sequence (st_channel state)) Hl)).
Qed.

(** *** Elements *)

Lemma split_at_nat {A} (l : list A) n : (n <= length l)%nat →
  ∃ a b, l = a ++ b ∧ length a = n ∧ length b = (length l - n)%nat.
Proof.
  intros. exists (take n l), (drop n l). rewrite take_drop, length_take, length_drop.
  split_and!; [done|lia|lia].
Qed.

(** The value of the synchronisation parameters element. *)
Definition sync_params_value (state : awdl_state) (now : Z) : list Z :=
  sync_params_body (sync_params state now 0) ++ chanseq_bytes state ++ [0; 0].

Definition chanseq_value (state : awdl_state) : list Z := chanseq_bytes state ++ [0; 0; 0].

(** Room for a header of [H] bytes, [cs] and [n] single bytes. *)
Lemma split_room (rest : list Z) H n m :
  (H + n + m <= length rest)%nat →
  ∃ h c p post, rest = h ++ c ++ p ++ post ∧ length h = H ∧ length c = n ∧ length p = m.
Proof.
  intros Hl. destruct (split_at_nat rest H) as (h & r1 & -> & Hh & Hr1); [lia|].
  destruct (split_at_nat r1 n) as (c & r2 & -> & Hc & Hr2); [lia|].
  destruct (split_at_nat r2 m) as (p & post & -> & Hp & _); [lia|].
  exists h, c, p, post. done.
Qed.

(** The stores of a channel sequence behind room for a header, then of the
    header itself. *)
Lemma emits_chanseq_behind state pre h c post :
  length (ch_sequence (st_channel state)) = AWDL_CHANSEQ_LENGTH →
  length c = length (chanseq_bytes state) →
  awdl_init_chanseq state (pre ++ h ++ c ++ post) (Z.of_nat (length pre) + Z.of_nat (length h)) =
    Some (pre ++ h ++ chanseq_bytes state ++ post, Z.of_nat (length (chanseq_bytes state))).
Proof.
  intros Hl Hc. rewrite (app_assoc pre h).
  replace (Z.of_nat (length pre) + Z.of_nat (length h)) with (Z.of_nat (length (pre ++ h)))
    by (rewrite length_app; lia).
  rewrite (emits_chanseq state Hl (pre ++ h)) by (rewrite length_app; lia).
  by rewrite drop_app_length', <- app_assoc by done.
Qed.

(** A store behind three parts. *)
Lemma store_behind a b c x post off :
  off = Z.of_nat (length a) + Z.of_nat (length b) + Z.of_nat (length c) →
  store (a ++ b ++ c ++ x :: post) off [0] = Some (a ++ b ++ c ++ 0 :: post).
Proof.
  intros ->. pose proof (store_at (a ++ b ++ c) [x] post [0] eq_refl) as Hs.
  rewrite <- !app_assoc in Hs. cbn [app] in Hs. rewrite <- Hs.
  f_equal. rewrite !length_app. lia.
Qed.

Lemma drop_parts {A} (a b c d : list A) n :
  n = (length a + length b + length c)%nat → drop n (a ++ b ++ c ++ d) = d.
Proof.
  intros ->. rewrite !app_assoc. apply drop_app_length'. rewrite !length_app. lia.
Qed.

Lemma emits_sync_params state now :
  length (ch_sequence (st_channel state)) = AWDL_CHANSEQ_LENGTH →
  addr_ok (master_addr (st_election state)) →
  emits (awdl_init_sync_params_tlv state now)
    (λ _, tlv_bytes AWDL_SYNCHRONIZATON_PARAMETERS_TLV (sync_params_value state now)).
Proof.
  intros Hl [Ha _] pre rest Hr.
  assert (∀ n, length (awdl_sync_params_tlv_bytes (sync_params state now n)) = 36%nat) as Hh
    by solve_sizeof.
  assert (length (sync_params_body (sync_params state now 0)) = 33%nat) as Hb by solve_sizeof.
  assert (length (sync_params_value state now) = 33 + length (chanseq_bytes state) + 2)%nat as Hv.
  { unfold sync_params_value. rewrite !length_app, Hb. simpl. lia. }
  unfold tlv_bytes in *. cbn [length] in *. rewrite length_app, length_le_bytes, Hv in *.
  destruct (split_room rest 36 (length (chanseq_bytes state)) 2)
    as (h & c & p & post & -> & Hh' & Hc & Hp); [lia|].
  rewrite drop_parts by lia. destruct p as [|x [|y [|]]]; try done.
  unfold awdl_init_sync_params_tlv, sizeof_awdl_sync_params_tlv.
  replace 36 with (Z.of_nat (length h)) at 1 by lia.
  rewrite emits_chanseq_behind by done. cbn [mbind option_bind fst snd app].
  rewrite store_behind by lia. cbn [mbind option_bind].
  rewrite (cons_middle 0), (app_assoc (chanseq_bytes state)).
  rewrite store_behind by (rewrite ?length_app; simpl; lia). cbn [mbind option_bind].
  rewrite (store_at pre h) by (rewrite Hh; lia). cbn [mbind option_bind].
  f_equal. f_equal; [|lia]. f_equal. unfold awdl_sync_params_tlv_bytes, tl_bytes, byte, htole16.
  cbn [sp_tl sync_params tl_type tl_length app]. rewrite <- !app_assoc. f_equal.
  unfold sync_params_value. rewrite <- !app_assoc. f_equal. f_equal. unfold sizeof_tl. lia.
Qed.

Lemma emits_chanseq_tlv state :
  length (ch_sequence (st_channel state)) = AWDL_CHANSEQ_LENGTH →
  emits (awdl_init_chanseq_tlv state) (λ _, tlv_bytes AWDL_CHAN_SEQ_TLV (chanseq_value state)).
Proof.
  intros Hl pre rest Hr.
  assert (length (chanseq_value state) = length (chanseq_bytes state) + 3)%nat as Hv.
  { unfold chanseq_value. rewrite length_app. simpl. lia. }
  unfold tlv_bytes in *. cbn [length] in *. rewrite length_app, length_le_bytes, Hv in *.
  destruct (split_room rest 3 (length (chanseq_bytes state)) 3)
    as (h & c & p & post & -> & Hh' & Hc & Hp); [lia|].
  rewrite drop_parts by lia. destruct p as [|x [|y [|z [|]]]]; try done.
  unfold awdl_init_chanseq_tlv, sizeof_awdl_chanseq_tlv.
  replace 3 with (Z.of_nat (length h)) at 1 by lia.
  rewrite emits_chanseq_behind by done. cbn [mbind option_bind fst snd app].
  rewrite store_behind by lia. cbn [mbind option_bind].
  rewrite (cons_middle 0), (app_assoc (chanseq_bytes state)).
  rewrite store_behind by (rewrite ?length_app; simpl; lia). cbn [mbind option_bind].
  rewrite (cons_middle 0), (app_assoc (chanseq_bytes state ++ [0])).
  rewrite store_behind by (rewrite ?length_app; simpl; lia). cbn [mbind option_bind].
  rewrite (store_at pre h) by (rewrite Hh'; done). cbn [mbind option_bind].
  f_equal. f_equal; [|lia]. f_equal. unfold awdl_chanseq_tlv_bytes, tl_bytes, byte, htole16.
  cbn [ct_tl tl_type tl_length app]. unfold chanseq_value. rewrite <- !app_assoc. cbn [app].
  f_equal. f_equal. f_equal. unfold sizeof_tl. lia.
Qed.

(** A structure that is a whole element. *)
Lemma emits_tlv_struct t n v :
  is_u8 t → n = Z.of_nat (length v) →
  emits (put_bytes (tl_bytes (mk_tl t n) ++ v)) (λ _, tlv_bytes t v).
Proof. intros Ht ->. rewrite tl_tlv_bytes by done. apply emits_put. Qed.

(** The name of the node and the rest of its buffer. *)
Definition name_is (state : awdl_state) (name : list Z) : Prop :=
  Forall (λ c, c ≠ 0) name ∧ ∃ junk, st_name state = name ++ 0 :: junk.

(** Every well-formed node has a name. *)
Lemma name_exists state P : state_ok state P → ∃ name, name_is state name ∧ (length name <= 64)%nat.
Proof.
  intros Hs. pose proof (sok_name _ _ Hs) as Hl. unfold name_is, HOST_NAME_LENGTH_MAX in *.
  assert (∃ name junk, Forall (λ c, c ≠ 0) name ∧ st_name state = name ++ 0 :: junk)
    as (name & junk & Hn & Hj).
  { pose proof (sok_name_end _ _ Hs) as H0. revert H0. clear. induction (st_name state) as [|c l IH].
    - intros H0. by apply not_elem_of_nil in H0.
    - intros H0. destruct (decide (c = 0)) as [->|Hc]; [by exists [], l|].
      apply elem_of_cons in H0 as [?|H0]; [congruence|]. destruct (IH H0) as (name & junk & ? & ->).
      exists (c :: name), junk. split; [by constructor|done]. }
  exists name. split; [eauto|]. rewrite Hj, length_app in Hl. simpl in Hl. lia.
Qed.

Lemma strlen_app name junk :
  Forall (λ c, c ≠ 0) name → strlen (name ++ 0 :: junk) = Some (Z.of_nat (length name)).
Proof.
  induction 1 as [|c name Hc _ IH]; simpl; [done|]. if_false. rewrite IH. simpl. f_equal. lia.
Qed.

Definition arpa_value (name : list Z) : list Z :=
  [3; Z.of_nat (length name)] ++ name ++ htobe16 AWDL_DNS_SHORT_LOCAL.

Lemma emits_arpa state name :
  name_is state name → (length name <= 64)%nat →
  emits (awdl_init_arpa_tlv state) (λ _, tlv_bytes AWDL_ARPA_TLV (arpa_value name)).
Proof.
  intros [Hnz [junk Hn]] Hlen pre rest Hr.
  assert (length (arpa_value name) = length name + 4)%nat as Hv.
  { unfold arpa_value, htobe16. rewrite !length_app, length_be_bytes. simpl. lia. }
  unfold tlv_bytes in *. cbn [length] in *. rewrite length_app, length_le_bytes, Hv in *.
  destruct (split_room rest 5 (length name) 2)
    as (h & c & p & post & -> & Hh & Hc & Hp); [lia|]. rewrite drop_parts by lia.
  unfold awdl_init_arpa_tlv. rewrite Hn, strlen_app by done. cbn [mbind option_bind].
  unfold sizeof_awdl_arpa_tlv, sizeof_tl.
  rewrite u16_id by int_lia. rewrite (store_at pre h) by (by rewrite Hh). cbn [mbind option_bind].
  rewrite load_Some by (rewrite ?length_app; simpl; lia).
  rewrite Nat2Z.id, drop_0, take_app_length. cbn [mbind option_bind].
  set (hdr := awdl_arpa_tlv_bytes _). assert (length hdr = 5%nat) as Hhdr by done.
  replace (Z.of_nat (length pre) + 5) with (Z.of_nat (length (pre ++ hdr)))
    by (rewrite length_app; lia).
  rewrite (app_assoc pre hdr), (store_at (pre ++ hdr) c) by done. cbn [mbind option_bind].
  replace (Z.of_nat (length (pre ++ hdr)) + Z.of_nat (length name))
    with (Z.of_nat (length ((pre ++ hdr) ++ name))) by (rewrite (length_app (pre ++ hdr)); lia).
  rewrite (app_assoc (pre ++ hdr) name), (store_at _ p) by done. cbn [mbind option_bind].
  f_equal. f_equal; [|lia]. rewrite <- !app_assoc. f_equal. subst hdr.
  unfold awdl_arpa_tlv_bytes, tl_bytes, byte, htole16, arpa_value.
  cbn [ar_tl tl_type tl_length ar_flags ar_name_length app].
  rewrite (u8_id (Z.of_nat (length name))) by int_lia. rewrite <- !app_assoc.
  change (u8 AWDL_ARPA_TLV) with AWDL_ARPA_TLV. change (u8 3) with 3.
  f_equal. f_equal; [f_equal; lia|]. simpl. by rewrite <- app_assoc.
Qed.

(** ** Full frames *)

Definition radiotap_bytes `{Radiotap} : list Z :=
  rt_header_bytes 0 0 (u16 (sizeof_rt_header + 1)) (Z.shiftl 1 IEEE80211_RADIOTAP_RATE) ++ [24].

Lemma emits_radiotap `{RadiotapOk} : emits ieee80211_init_radiotap_header (λ _, radiotap_bytes).
Proof.
  unfold ieee80211_init_radiotap_header, ieee80211_radiotap_type_to_mask, int_shl.
  pose proof rt_rate_bit as Hb.
  assert (Z.shiftl 1 IEEE80211_RADIOTAP_RATE <= INT_MAX) as Hm.
  { rewrite Z.shiftl_mul_pow2, Z.mul_1_l by lia.
    assert (2 ^ IEEE80211_RADIOTAP_RATE <= 2 ^ 30) by (apply Z.pow_le_mono_r; lia).
    unfold INT_MAX. lia. }
  if_true. simpl. rewrite Z.lor_0_l. exact (emits_then _ _ _ _ (emits_put _) (emits_put _)).
Qed.

Definition action_header (type now : Z) : list Z :=
  awdl_action_bytes (mk_awdl_action IEEE80211_VENDOR_SPECIFIC AWDL_OUI AWDL_TYPE 0x10 type 0
    (u32 now) (u32 now)).

(** The elements of an action frame, in order. *)
Definition action_tlvs (state : awdl_state) (name : list Z) (type now : Z) : list (Z * list Z) :=
  [(AWDL_SYNCHRONIZATON_PARAMETERS_TLV, sync_params_value state now);
   (AWDL_ELECTION_PARAMETERS_TLV, election_params_body (election_params state));
   (AWDL_CHAN_SEQ_TLV, chanseq_value state);
   (AWDL_ELECTION_PARAMETERS_V2_TLV, election_v2_body (election_v2 state));
   (AWDL_SERVICE_PARAMETERS_TLV, service_params_body service_params)] ++
  (if type =? AWDL_ACTION_MIF
   then [(AWDL_ENHANCED_DATA_RATE_CAPABILITIES_TLV, ht_capabilities_body ht_capabilities);
         (AWDL_ARPA_TLV, arpa_value name)]
   else []) ++
  [(AWDL_DATA_PATH_STATE_TLV, data_path_body (data_path state));
   (AWDL_VERSION_TLV, version_tlv_body (version_params state))].

Definition tlvs_bytes (l : list (Z * list Z)) : list Z :=
  concat (map (λ tv, tlv_bytes tv.1 tv.2) l).

Definition hdr_bytes (src dst : ether_addr) (seq type : Z) : list Z :=
  ieee80211_hdr_bytes (mk_ieee80211_hdr type 0 dst src AWDL_BSSID (u32 (Z.shiftl seq 4))).

(** The frame without checksum. *)
Definition action_frame `{Radiotap} (state : awdl_state) (name : list Z) (seq type now1 now2 : Z) :
    list Z :=
  radiotap_bytes ++ hdr_bytes (self_address state) (dst state) seq 0xd0 ++
  action_header type now1 ++ tlvs_bytes (action_tlvs state name type now2).

(** A checksum, if the state asks for one. *)
Definition with_fcs (fcs : bool) (frame : list Z) : list Z :=
  frame ++ if fcs then htole32 (crc32 frame) else [].

Lemma emits_ext f F G : (∀ pre, F pre = G pre) → emits f F → emits f G.
Proof. intros He Hf pre rest Hl. rewrite <- He in *. by apply Hf. Qed.

Lemma emits_action_header type now : emits (awdl_init_action type now) (λ _, action_header type now).
Proof. exact (emits_put (action_header type now)). Qed.

(** Discharges [emits] for a chain of writers from what each one emits. *)
Create HintDb emits.
#[export] Hint Resolve emits_put emits_fcs emits_action_header emits_radiotap : emits.

(** A constant is a byte. *)
Local Ltac const_u8 := split; vm_compute; congruence.

Section full_frames.
Context `{RadiotapOk} (state : awdl_state) (P : gmap mkey awdl_peer) (name : list Z).
Hypothesis Hok : state_ok state P.
Hypothesis Hname : name_is state name.
Hypothesis Hlen : (length name <= 64)%nat.

(** The elements of an action frame, and what follows them. *)
Lemma emits_elements type now tail T :
  emits tail T →
  emits (awdl_init_sync_params_tlv state now ;;+
         awdl_init_election_params_tlv state ;;+
         awdl_init_chanseq_tlv state ;;+
         awdl_init_election_params_v2_tlv state ;;+
         awdl_init_service_params_tlv ;;+
         opt_write (type =? AWDL_ACTION_MIF) awdl_init_ht_capabilities_tlv ;;+
         opt_write (type =? AWDL_ACTION_MIF) (awdl_init_arpa_tlv state) ;;+
         awdl_init_data_path_state_tlv state ;;+
         awdl_init_version_tlv state ;;+ tail)
    (λ pre, let l := tlvs_bytes (action_tlvs state name type now) in l ++ T (pre ++ l)).
Proof.
  intros Htail. destruct (sok_election _ _ Hok) as [[Hm _] [Hs _] _ _ _ _ _ _].
  destruct (sok_self _ _ Hok) as [Hself _]. pose proof (sok_sequence _ _ Hok) as Hseq.
  eapply emits_ext; cycle 1.
  - repeat apply emits_then; try apply emits_opt.
    + apply emits_sync_params; [done|]. by apply Hok.
    + apply (emits_tlv_struct _ _ (election_params_body (election_params state))); [const_u8|].
      vm_compute (sizeof_awdl_election_params_tlv - sizeof_tl). solve_sizeof.
    + by apply emits_chanseq_tlv.
    + apply (emits_tlv_struct _ _ (election_v2_body (election_v2 state))); [const_u8|].
      vm_compute (sizeof_awdl_election_params_v2_tlv - sizeof_tl). solve_sizeof.
    + apply (emits_tlv_struct _ _ (service_params_body service_params)); [const_u8|done].
    + apply (emits_tlv_struct _ _ (ht_capabilities_body ht_capabilities)); [const_u8|done].
    + by apply emits_arpa.
    + apply (emits_tlv_struct _ _ (data_path_body (data_path state))); [const_u8|].
      vm_compute (sizeof_awdl_data_path_state_tlv - sizeof_tl). solve_sizeof.
    + apply (emits_tlv_struct _ _ (version_tlv_body (version_params state))); [const_u8|done].
    + exact Htail.
  - intros pre. unfold tlvs_bytes, action_tlvs. cbv beta. destruct (type =? AWDL_ACTION_MIF);
      cbn [map concat app fst snd]; by rewrite ?app_nil_r, <- ?app_assoc, ?app_nil_l.
Qed.

Lemma emits_action_frame type now1 now2 seq fcs :
  emits (ieee80211_init_radiotap_header ;;+
         ieee80211_init_awdl_action_hdr (self_address state) (dst state) seq ;;+
         awdl_init_action type now1 ;;+
         awdl_init_sync_params_tlv state now2 ;;+
         awdl_init_election_params_tlv state ;;+
         awdl_init_chanseq_tlv state ;;+
         awdl_init_election_params_v2_tlv state ;;+
         awdl_init_service_params_tlv ;;+
         opt_write (type =? AWDL_ACTION_MIF) awdl_init_ht_capabilities_tlv ;;+
         opt_write (type =? AWDL_ACTION_MIF) (awdl_init_arpa_tlv state) ;;+
         awdl_init_data_path_state_tlv state ;;+
         awdl_init_version_tlv state ;;+
         opt_write fcs (ieee80211_add_fcs 0))
    (λ pre, let l := action_frame state name seq type now1 now2 in
       l ++ if fcs then htole32 (crc32 (pre ++ l)) else []).
Proof.
  eapply emits_ext; cycle 1.
  - apply emits_then; [apply emits_radiotap|]. apply emits_then; [apply emits_put|].
    apply emits_then; [apply emits_action_header|]. apply emits_elements.
    apply emits_opt, emits_fcs.
  - intros pre. unfold action_frame, hdr_bytes. cbv zeta beta. by rewrite <- !app_assoc.
Qed.
End full_frames.

(** ** Sizes and bytes *)

Lemma chan_encoding_length_range enc : 0 <= awdl_chan_encoding_length enc <= 2.
Proof. unfold awdl_chan_encoding_length. split_ifs; lia. Qed.

Lemma sequence_bytes_length enc l :
  Z.of_nat (length (sequence_bytes enc l)) = awdl_chan_encoding_length enc * Z.of_nat (length l).
Proof.
  pose proof (chan_encoding_length_range enc). unfold sequence_bytes.
  induction l as [|c l IH]; cbn [map concat length]; [lia|].
  rewrite length_app, length_take. unfold chan_bytes in *. cbn [length] in *. lia.
Qed.

Lemma sequence_bytes_ok enc l : Forall chan_ok l → bytes_ok (sequence_bytes enc l).
Proof.
  unfold sequence_bytes. induction 1 as [|c l [? ?] _ IH]; cbn [map concat]; [constructor|].
  apply Forall_app. split; [|done]. apply Forall_take. unfold chan_bytes. solve_list.
Qed.

Lemma tlv_bytes_ok t v : is_u8 t → bytes_ok v → bytes_ok (tlv_bytes t v).
Proof.
  intros. unfold tlv_bytes. constructor; [done|]. apply Forall_app. auto using le_bytes_ok.
Qed.

Lemma tlv_bytes_length t v : length (tlv_bytes t v) = (3 + length v)%nat.
Proof. unfold tlv_bytes. cbn [length]. rewrite length_app, length_le_bytes. lia. Qed.

Lemma tlvs_bytes_ok l :
  Forall (λ tv, is_u8 tv.1 ∧ bytes_ok tv.2) l → bytes_ok (tlvs_bytes l).
Proof.
  unfold tlvs_bytes. induction 1 as [|[t v] l [? ?] _ IH]; cbn [map concat]; [constructor|].
  apply Forall_app. split; [by apply tlv_bytes_ok|done].
Qed.

Lemma tlvs_bytes_length l n :
  Forall (λ tv : Z * list Z, (length tv.2 <= n)%nat) l →
  (length (tlvs_bytes l) <= length l * (n + 3))%nat.
Proof.
  unfold tlvs_bytes. induction 1 as [|[t v] l ? _ IH]; cbn [map concat length]; [lia|].
  rewrite length_app, tlv_bytes_length. simpl in *. lia.
Qed.

Lemma hdr_bytes_facts src d seq type :
  addr_ok src → addr_ok d →
  bytes_ok (hdr_bytes src d seq type) ∧ length (hdr_bytes src d seq type) = 24%nat.
Proof.
  intros [Hs ?] [Hd ?]. assert (bytes_ok AWDL_BSSID) by solve_list. unfold hdr_bytes. split.
  - unfold ieee80211_hdr_bytes. rewrite !Forall_app. split_and!; first [assumption | auto with owl].
  - solve_sizeof.
Qed.

Lemma radiotap_bytes_facts `{RadiotapOk} :
  bytes_ok radiotap_bytes ∧ (length radiotap_bytes <= 65)%nat ∧
  Z.of_nat (length radiotap_bytes) = sizeof_rt_header + 1.
Proof.
  unfold radiotap_bytes. pose proof rt_header_size. rewrite length_app, Forall_app.
  pose proof (rt_header_length 0 0 (u16 (sizeof_rt_header + 1)) (Z.shiftl 1 IEEE80211_RADIOTAP_RATE)).
  cbn [length]. split_and!; [apply rt_header_ok|solve_list|lia|lia].
Qed.

Lemma action_header_facts type now :
  bytes_ok (action_header type now) ∧ length (action_header type now) = 16%nat.
Proof.
  assert (bytes_ok AWDL_OUI) by solve_list. split; [|done].
  unfold action_header, awdl_action_bytes. rewrite !Forall_app.
  split_and!; first [assumption | auto with owl].
Qed.

Section frame_facts.
Context `{RadiotapOk} (state : awdl_state) (P : gmap mkey awdl_peer) (name : list Z).
Hypothesis Hok : state_ok state P.
Hypothesis Hname : name_is state name.
Hypothesis Hlen : (length name <= 64)%nat.

Lemma name_bytes_ok : bytes_ok name.
Proof.
  destruct Hname as [_ [junk Hn]]. pose proof (sok_name_bytes _ _ Hok) as Hb.
  rewrite Hn in Hb. by apply Forall_app in Hb as [? _].
Qed.

Lemma chanseq_bytes_ok : bytes_ok (chanseq_bytes state).
Proof.
  pose proof (sok_channels _ _ Hok) as Hc. apply Forall_cons in Hc as [_ [_ Hc]%Forall_cons].
  unfold chanseq_bytes, awdl_chanseq_bytes. rewrite !Forall_app.
  split_and!; auto using sequence_bytes_ok with owl.
Qed.

(** The values of the elements are bytes and short. *)
Lemma action_tlvs_ok type now :
  Forall (λ tv, is_u8 tv.1 ∧ bytes_ok tv.2 ∧ (length tv.2 <= 73)%nat)
    (action_tlvs state name type now).
Proof.
  destruct (sok_election _ _ Hok) as [[Hm ?] [Hs ?] _ _ _ _ _ _].
  destruct (sok_self _ _ Hok) as [Hself ?]. pose proof (sok_sequence _ _ Hok) as Hseq.
  pose proof chanseq_bytes_ok as Hcso. pose proof name_bytes_ok.
  pose proof (sequence_bytes_length (ch_enc (st_channel state)) (ch_sequence (st_channel state))) as Hsl.
  pose proof (chan_encoding_length_range (ch_enc (st_channel state))).
  assert (length (chanseq_bytes state) <= 38)%nat as Hcs.
  { unfold chanseq_bytes. rewrite length_app. cbn [length awdl_chanseq_bytes byte htole16 app le_bytes].
    rewrite Hseq in Hsl. unfold AWDL_CHANSEQ_LENGTH in Hsl. lia. }
  assert (bytes_ok [0; 0; 0] ∧ bytes_ok [0; 0]) as [? ?] by (split; solve_list).
  assert (bytes_ok country_X0) by solve_list.
  assert (bytes_ok [3; Z.of_nat (length name)]) by solve_list.
  unfold action_tlvs, sync_params_value, chanseq_value. revert Hcs Hcso.
  generalize (chanseq_bytes state). intros cs Hcs Hcso.
  rewrite !Forall_app. split_and!; [|destruct (type =? AWDL_ACTION_MIF)|];
    repeat apply Forall_cons_2; try apply Forall_nil_2; cbn [fst snd];
    (split_and!; [const_u8|..]);
    unfold arpa_value, sync_params_body, election_params_body, election_v2_body,
      service_params_body, ht_capabilities_body, data_path_body, version_tlv_body;
    lazymatch goal with
    | |- Forall _ _ => rewrite !Forall_app; split_and!; first [assumption | auto with owl]
    | _ => unfold byte, htole16, htole32, htobe16; autorewrite with lens; simpl; lia
    end.
Qed.

Lemma action_frame_facts seq type now1 now2 :
  bytes_ok (action_frame state name seq type now1 now2) ∧
  (length (action_frame state name seq type now1 now2) <= 1000)%nat.
Proof.
  pose proof (action_tlvs_ok type now2) as Ht.
  destruct (hdr_bytes_facts (self_address state) (dst state) seq 0xd0 (sok_self _ _ Hok)
    (sok_dst _ _ Hok)) as [Hb Hl].
  destruct radiotap_bytes_facts as (Hrb & Hrl & _).
  destruct (action_header_facts type now1) as [Hab Hal]. unfold action_frame. split.
  - rewrite !Forall_app. split_and!; [done..|]. apply tlvs_bytes_ok.
    eapply Forall_impl; [exact Ht|]. intros tv (? & ? & ?); auto.
  - rewrite !length_app, Hl, Hal.
    assert (length (tlvs_bytes (action_tlvs state name type now2)) <= 9 * 76)%nat; [|lia].
    etrans; [apply (tlvs_bytes_length _ 73)|].
    + eapply Forall_impl; [exact Ht|]. intros tv (? & ? & ?); auto.
    + unfold action_tlvs. destruct (type =? AWDL_ACTION_MIF); simpl; lia.
Qed.
End frame_facts.

(** ** Properties *)

Lemma init_full_action_frame_spec `{RadiotapOk} state P name blk ieee type now1 now2 :
  state_ok state P → name_is state name → (length name <= 64)%nat → 1024 <= Z.of_nat (length blk) →
  let seq := ieee_sequence_number ieee in
  let frame := with_fcs (ieee_fcs ieee) (action_frame state name seq type now1 now2) in
  awdl_init_full_action_frame blk state ieee type now1 now2 =
    Some (frame ++ drop (length frame) blk, Z.of_nat (length frame),
          (ieee80211_state_next_sequence_number ieee).2) ∧
  Z.of_nat (length frame) <= 1024.
Proof.
  intros Hok Hn Hl Hblk seq frame.
  destruct (action_frame_facts state P name Hok Hn Hl seq type now1 now2) as [_ Hlen].
  assert (length frame <= 1004)%nat as Hf.
  { unfold frame, with_fcs. rewrite length_app. destruct (ieee_fcs ieee); simpl; lia. }
  split; [|lia]. unfold awdl_init_full_action_frame, ieee80211_state_next_sequence_number.
  pose proof (emits_action_frame state P name Hok Hn Hl type now1 now2 seq (ieee_fcs ieee) [] blk) as He.
  cbn [app length] in He. cbv zeta in He. fold (with_fcs (ieee_fcs ieee)
    (action_frame state name seq type now1 now2)) in He. fold frame in He.
  change (Z.of_nat 0) with 0 in He. unfold seq in He. cbn [ieee_fcs]. rewrite He by lia. done.
Qed.

(** C24: an action frame, for any state of the node, any type and any clock:
    [awdl_init_full_action_frame] stays inside any buffer of 1024 bytes (the
    callers have 65535), writes the headers and the elements in the order of
    the format, each element with the length of its value, leaves the rest of
    the buffer alone and returns the number of bytes written; the checksum,
    if the state asks for one, covers all of these bytes, the radiotap header
    included. *)
Theorem tx_action_frame `{RadiotapOk} state P name blk ieee type now1 now2 :
  state_ok state P → name_is state name → (length name <= 64)%nat → 1024 <= Z.of_nat (length blk) →
  let seq := ieee_sequence_number ieee in
  let frame := with_fcs (ieee_fcs ieee) (action_frame state name seq type now1 now2) in
  awdl_init_full_action_frame blk state ieee type now1 now2 =
    Some (frame ++ drop (length frame) blk, Z.of_nat (length frame),
          (ieee80211_state_next_sequence_number ieee).2) ∧
  Z.of_nat (length frame) <= 1024.
Proof. apply init_full_action_frame_spec. Qed.

(** The frame a data frame consists of. *)
Definition data_frame `{Radiotap} (src d : ether_addr) (seq dseq : Z) (payload : list Z) : list Z :=
  radiotap_bytes ++ hdr_bytes src d seq 0x08 ++
  llc_hdr_bytes (mk_llc_hdr 0xaa 0xaa 0x03 AWDL_OUI AWDL_LLC_PROTOCOL_ID) ++
  awdl_data_bytes (mk_awdl_data AWDL_DATA_HEAD dseq AWDL_DATA_PAD ETH_P_IPV6) ++ payload.

Lemma init_full_data_frame_spec `{RadiotapOk} state P blk src d payload ieee :
  state_ok state P → addr_ok src → addr_ok d →
  Z.of_nat (length payload) + 109 <= Z.of_nat (length blk) →
  let frame := with_fcs (ieee_fcs ieee)
    (data_frame src d (ieee_sequence_number ieee) (sequence_number state) payload) in
  awdl_init_full_data_frame blk src d payload state ieee =
    Some (frame ++ drop (length frame) blk, Z.of_nat (length frame),
          with_sequence_number (u16 (sequence_number state + 1)) state,
          (ieee80211_state_next_sequence_number ieee).2) ∧
  Z.of_nat (length frame) <= Z.of_nat (length payload) + 109.
Proof.
  intros Hok Hs Hd Hblk frame.
  destruct (hdr_bytes_facts src d (ieee_sequence_number ieee) 0x08 Hs Hd) as [_ Hhl].
  destruct radiotap_bytes_facts as (_ & Hrl & _).
  assert (length frame <= length payload + 109)%nat as Hf.
  { unfold frame, with_fcs, data_frame. rewrite !length_app, Hhl. destruct (ieee_fcs ieee); simpl; lia. }
  split; [|lia].
  unfold awdl_init_full_data_frame, ieee80211_state_next_sequence_number, awdl_state_next_sequence_number.
  set (seq := ieee_sequence_number ieee) in *. set (dseq := sequence_number state) in *.
  assert (emits (ieee80211_init_radiotap_header ;;+ ieee80211_init_awdl_data_hdr src d seq ;;+
       llc_init_awdl_hdr ;;+ awdl_init_data dseq ;;+ put_bytes payload ;;+
       opt_write (ieee_fcs ieee) (ieee80211_add_fcs 0))
    (λ pre, data_frame src d seq dseq payload ++
       if ieee_fcs ieee then htole32 (crc32 (pre ++ data_frame src d seq dseq payload)) else [])) as He.
  { eapply emits_ext; cycle 1.
    - repeat (apply emits_then; [apply emits_radiotap || apply emits_put|]).
      apply emits_opt, emits_fcs.
    - intros pre. unfold data_frame, hdr_bytes. cbv beta. by rewrite <- !app_assoc. }
  specialize (He [] blk). cbn [app length] in He.
  fold (with_fcs (ieee_fcs ieee) (data_frame src d seq dseq payload)) in He. fold frame in He.
  change (Z.of_nat 0) with 0 in He. cbn [ieee_fcs]. rewrite He by lia. done.
Qed.

(** A data frame: [awdl_init_full_data_frame] writes radiotap, IEEE
    802.11, LLC and AWDL headers and then exactly the payload, stays inside
    every buffer with 109 bytes more than the payload (the daemon's has 65535
    for payloads of at most 1504), and advances both sequence numbers. *)
Theorem tx_data_frame `{RadiotapOk} state P blk src d payload ieee :
  state_ok state P → addr_ok src → addr_ok d →
  Z.of_nat (length payload) + 109 <= Z.of_nat (length blk) →
  let frame := with_fcs (ieee_fcs ieee)
    (data_frame src d (ieee_sequence_number ieee) (sequence_number state) payload) in
  awdl_init_full_data_frame blk src d payload state ieee =
    Some (frame ++ drop (length frame) blk, Z.of_nat (length frame),
          with_sequence_number (u16 (sequence_number state + 1)) state,
          (ieee80211_state_next_sequence_number ieee).2) ∧
  Z.of_nat (length frame) <= Z.of_nat (length payload) + 109.
Proof. apply init_full_data_frame_spec. Qed.

Lemma sample_name_is : name_is sample_state [].
Proof. split; [apply Forall_nil_2|]. by exists (replicate 64 0). Qed.

Lemma tx_action_frame_witness :
  ∃ frame, @awdl_init_full_action_frame rt_standard (replicate 1024 0) sample_state
      (mk_ieee80211 7 true) AWDL_ACTION_MIF 5000 5001 =
    Some (frame ++ drop (length frame) (replicate 1024 0), Z.of_nat (length frame),
          mk_ieee80211 8 true).
Proof.
  eexists. apply (@tx_action_frame rt_standard rt_standard_ok sample_state _ []
    (replicate 1024 0) (mk_ieee80211 7 true) AWDL_ACTION_MIF 5000 5001 sample_state_ok sample_name_is).
  - simpl. lia.
  - rewrite length_replicate. lia.
Defined.
