(* ===== verification/Rx.v ===== *)
(** * Rx: receiving frames (src/rx.c, src/rx.h)

    Handlers run in the handler monad: the state is the peer the frame came
    from and the node; a read beyond the element leaves by [wire_error] with
    what was already written kept.  Whole-frame functions thread the frame
    buffer, the node, the state of the hooks and the produced frames. *)

From Stdlib Require Import ZArith Lia ZifyBool.
From stdpp Require Import base tactics numbers list gmap.
From S2P Require Import Prelude Wire HashMap Sync Channel Election Peers State Frame Radiotap.

Local Open Scope Z_scope.

(** ** Data *)

(** [enum RX_RESULT] *)
Definition RX_IGNORE_PEER : Z := 6.
Definition RX_IGNORE_RSSI : Z := 5.
Definition RX_IGNORE_FAILED_CRC : Z := 4.
Definition RX_IGNORE_NOPROMISC : Z := 3.
Definition RX_IGNORE_FROM_SELF : Z := 2.
Definition RX_IGNORE : Z := 1.
Definition RX_OK : Z := 0.
Definition RX_UNEXPECTED_FORMAT : Z := -1.
Definition RX_UNEXPECTED_TYPE : Z := -2.
Definition RX_UNEXPECTED_VALUE : Z := -3.
Definition RX_TOO_SHORT : Z := -3.

Definition AWDL_SYNC_THRESHOLD : Z := 3.
Definition ETHER_MAX_LEN : Z := 1518.

(** Memory that is read before it is written: the local channel list of a
    handler, the block [malloc] returns, the local [rssi] and [flags]. *)
Class RxEnv := {
  junk_chans : awdl_peer → buf → list awdl_chan;
  junk_block : Z → list Z;
  junk_rssi : Z;
  junk_flags : Z }.

(** Assignments to members of a peer. *)
Definition set_election (v : awdl_election_state) (p : awdl_peer) : awdl_peer :=
  mk_peer (peer_addr p) (last_update p) v (sequence p) (sync_offset p) (peer_name p)
    (country_code p) (infra_addr p) (version p) (devclass p) (supports_v2 p) (sent_mif p) (is_valid p).
Definition set_sequence (v : list awdl_chan) (p : awdl_peer) : awdl_peer :=
  mk_peer (peer_addr p) (last_update p) (election p) v (sync_offset p) (peer_name p)
    (country_code p) (infra_addr p) (version p) (devclass p) (supports_v2 p) (sent_mif p) (is_valid p).
Definition set_name (v : list Z) (p : awdl_peer) : awdl_peer :=
  mk_peer (peer_addr p) (last_update p) (election p) (sequence p) (sync_offset p) v
    (country_code p) (infra_addr p) (version p) (devclass p) (supports_v2 p) (sent_mif p) (is_valid p).
Definition set_country_code (v : list Z) (p : awdl_peer) : awdl_peer :=
  mk_peer (peer_addr p) (last_update p) (election p) (sequence p) (sync_offset p) (peer_name p)
    v (infra_addr p) (version p) (devclass p) (supports_v2 p) (sent_mif p) (is_valid p).
Definition set_infra_addr (v : ether_addr) (p : awdl_peer) : awdl_peer :=
  mk_peer (peer_addr p) (last_update p) (election p) (sequence p) (sync_offset p) (peer_name p)
    (country_code p) v (version p) (devclass p) (supports_v2 p) (sent_mif p) (is_valid p).
Definition set_version (v c : Z) (p : awdl_peer) : awdl_peer :=
  mk_peer (peer_addr p) (last_update p) (election p) (sequence p) (sync_offset p) (peer_name p)
    (country_code p) (infra_addr p) v c (supports_v2 p) (sent_mif p) (is_valid p).
Definition set_supports_v2 (v : Z) (p : awdl_peer) : awdl_peer :=
  mk_peer (peer_addr p) (last_update p) (election p) (sequence p) (sync_offset p) (peer_name p)
    (country_code p) (infra_addr p) (version p) (devclass p) v (sent_mif p) (is_valid p).
Definition set_sent_mif (v : Z) (p : awdl_peer) : awdl_peer :=
  mk_peer (peer_addr p) (last_update p) (election p) (sequence p) (sync_offset p) (peer_name p)
    (country_code p) (infra_addr p) (version p) (devclass p) (supports_v2 p) v (is_valid p).

(** Assignments to members of the election state of a peer. *)
Definition set_height (v : Z) (e : awdl_election_state) : awdl_election_state :=
  mk_election (master_addr e) (sync_addr e) (self_addr e) v (master_metric e) (self_metric e)
    (master_counter e) (self_counter e).
Definition set_master_addr (v : ether_addr) (e : awdl_election_state) : awdl_election_state :=
  mk_election v (sync_addr e) (self_addr e) (height e) (master_metric e) (self_metric e)
    (master_counter e) (self_counter e).
Definition set_sync_addr (v : ether_addr) (e : awdl_election_state) : awdl_election_state :=
  mk_election (master_addr e) v (self_addr e) (height e) (master_metric e) (self_metric e)
    (master_counter e) (self_counter e).
Definition set_master_metric (v : Z) (e : awdl_election_state) : awdl_election_state :=
  mk_election (master_addr e) (sync_addr e) (self_addr e) (height e) v (self_metric e)
    (master_counter e) (self_counter e).
Definition set_self_metric (v : Z) (e : awdl_election_state) : awdl_election_state :=
  mk_election (master_addr e) (sync_addr e) (self_addr e) (height e) (master_metric e) v
    (master_counter e) (self_counter e).
Definition set_master_counter (v : Z) (e : awdl_election_state) : awdl_election_state :=
  mk_election (master_addr e) (sync_addr e) (self_addr e) (height e) (master_metric e)
    (self_metric e) v (self_counter e).
Definition set_self_counter (v : Z) (e : awdl_election_state) : awdl_election_state :=
  mk_election (master_addr e) (sync_addr e) (self_addr e) (height e) (master_metric e)
    (self_metric e) (master_counter e) v.

(** ** Element handlers *)

(** The state of a handler: [*src] and [*state]. *)
Abbreviation handler A := (M (awdl_peer * awdl_state) A).

Definition mod_peer (f : awdl_peer → awdl_peer) : handler unit := modify (λ ps, (f ps.1, ps.2)).
Definition mod_peer_election (f : awdl_election_state → awdl_election_state) : handler unit :=
  mod_peer (λ p, set_election (f (election p)) p).

(** [CHECKED_READ] in a handler: [wire_error] returns [RX_TOO_SHORT]. *)
Definition rd_val {A} (r : rd A) : handler A := checked RX_TOO_SHORT r.
Definition rd_null {A} (r : rd A) : handler unit := checked_null RX_TOO_SHORT r.

Definition awdl_handle_sync_params_tlv (val : buf) (now : Z) : handler Z :=
  ps ← get_st;
  guard_ret (negb (awdl_election_is_sync_master (st_election ps.2) (peer_addr ps.1))) RX_IGNORE;;
  time_to_next_aw_master ← rd_val (read_le16 val 1);
  aw_counter_master ← rd_val (read_le16 val 29);
  let s := st_sync ps.2 in
  let s := mk_sync (aw_counter s) (sync_last_update s) (aw_period s) (presence_mode s)
             (meas_err s) (u64 (meas_total s + 1)) in
  let sync_err_tu := awdl_sync_error_tu now time_to_next_aw_master aw_counter_master s in
  let s := if (sync_err_tu >? AWDL_SYNC_THRESHOLD) || (sync_err_tu <? - AWDL_SYNC_THRESHOLD)
           then mk_sync (aw_counter s) (sync_last_update s) (aw_period s) (presence_mode s)
                  (u64 (meas_err s + 1)) (meas_total s)
           else s in
  modify (λ ps, (ps.1, with_sync
    (awdl_sync_update_last now time_to_next_aw_master aw_counter_master s) ps.2));;
  mret RX_OK.

(** The bytes copied over a channel of the local list. *)
Definition chan_overwrite (c : awdl_chan) (bs : list Z) : awdl_chan :=
  match bs with
  | [] => c
  | [b0] => mk_chan b0 (chan_val1 c)
  | b0 :: b1 :: _ => mk_chan b0 b1
  end.

(** The loop over the entries, [n] of them left. *)
Fixpoint read_chans (val : buf) (size : Z) (n i : nat) (offset : Z) (l : list awdl_chan) :
    handler (list awdl_chan) :=
  match n with
  | O => mret l
  | S n =>
      bs ← rd_val (read_bytes_copy val offset size);
      c ← lift (l !! i);
      read_chans val size n (S i) (offset + size) (<[i := chan_overwrite c bs]> l)
  end.

Definition awdl_handle_chanseq_tlv `{RxEnv} (val : buf) : handler Z :=
  ps ← get_st;
  count ← rd_val (read_u8 val 0);
  guard_ret (negb (count + 1 =? Z.of_nat AWDL_CHANSEQ_LENGTH)) RX_UNEXPECTED_VALUE;;
  duplicate_count ← rd_val (read_u8 val 2);
  guard_ret (duplicate_count >? 0) RX_UNEXPECTED_VALUE;;
  step_count ← rd_val (read_u8 val 3);
  guard_ret (negb (step_count + 1 =? presence_mode (st_sync ps.2))) RX_UNEXPECTED_VALUE;;
  fill_channel ← rd_val (read_le16 val 4);
  guard_ret (negb (fill_channel =? 0xffff)) RX_UNEXPECTED_VALUE;;
  encoding ← rd_val (read_u8 val 1);
  let size := awdl_chan_encoding_size encoding in
  guard_ret (size <? 1) RX_UNEXPECTED_VALUE;;
  list ← read_chans val size AWDL_CHANSEQ_LENGTH 0 6 (junk_chans ps.1 val);
  (if decide (sequence ps.1 = list) then mret tt else mod_peer (set_sequence list));;
  mret RX_OK.

Definition awdl_handle_election_params_tlv (val : buf) : handler Z :=
  ps ← get_st;
  guard_ret (negb (supports_v2 ps.1 =? 0)) 0;;
  distance_to_master ← rd_val (read_u8 val 3);
  mod_peer_election (set_height distance_to_master);;
  a ← rd_val (read_ether_addr val 5);
  mod_peer_election (set_master_addr a);;
  m ← rd_val (read_le32 val 11);
  mod_peer_election (set_master_metric m);;
  m ← rd_val (read_le32 val 15);
  mod_peer_election (set_self_metric m);;
  mret RX_OK.

Definition awdl_handle_election_params_v2_tlv (val : buf) : handler Z :=
  v ← rd_val (read_le32 val 16);
  mod_peer_election (set_height v);;
  a ← rd_val (read_ether_addr val 0);
  mod_peer_election (set_master_addr a);;
  a ← rd_val (read_ether_addr val 6);
  mod_peer_election (set_sync_addr a);;
  v ← rd_val (read_le32 val 12);
  mod_peer_election (set_master_counter v);;
  v ← rd_val (read_le32 val 20);
  mod_peer_election (set_master_metric v);;
  v ← rd_val (read_le32 val 24);
  mod_peer_election (set_self_metric v);;
  v ← rd_val (read_le32 val 36);
  mod_peer_election (set_self_counter v);;
  mod_peer (set_supports_v2 1);;
  mret RX_OK.

(** What is stored from [src->name] on must fit the array. *)
Definition awdl_handle_arpa_tlv (val : buf) : handler Z :=
  str ← rd_val (read_int_string val 1 HOST_NAME_LENGTH_MAX);
  ps ← get_st;
  name ← lift (store (peer_name ps.1) 0 str);
  mod_peer (set_name name);;
  mret RX_OK.

Definition awdl_handle_data_path_state_tlv (val : buf) : handler Z :=
  let offset := 0 in
  flags ← rd_val (read_le16 val offset);
  let offset := offset + 2 in
  offset ← (if has_flag flags AWDL_DATA_PATH_FLAG_COUNTRY_CODE then
              bs ← rd_val (read_bytes_copy val offset 3);
              ps ← get_st;
              c ← lift (store (country_code ps.1) 0 bs);
              mod_peer (set_country_code c);;
              mret (offset + 3)
            else mret offset);
  offset ← (if has_flag flags AWDL_DATA_PATH_FLAG_SOCIAL_CHANNEL_MAP then
              rd_null (read_le16 val offset);;
              mret (offset + 2)
            else mret offset);
  offset ← (if has_flag flags AWDL_DATA_PATH_FLAG_INFRA_INFO then
              rd_null (read_ether_addr val offset);;
              rd_null (read_le16 val (offset + 6));;
              mret (offset + 8)
            else mret offset);
  offset ← (if has_flag flags AWDL_DATA_PATH_FLAG_INFRA_ADDRESS then
              a ← rd_val (read_ether_addr val offset);
              mod_peer (set_infra_addr a);;
              mret (offset + 6)
            else mret offset);
  offset ← (if has_flag flags AWDL_DATA_PATH_FLAG_AWDL_ADDRESS then
              rd_null (read_ether_addr val offset);;
              mret (offset + 6)
            else mret offset);
  mret RX_OK.

Definition awdl_handle_version_tlv (val : buf) : handler Z :=
  version ← rd_val (read_u8 val 0);
  devclass ← rd_val (read_u8 val 1);
  mod_peer (set_version version devclass);;
  mret RX_OK.

Definition awdl_handle_tlv `{RxEnv} (type : Z) (val : buf) (tsft : Z) : handler Z :=
  if type =? AWDL_SYNCHRONIZATON_PARAMETERS_TLV then awdl_handle_sync_params_tlv val tsft
  else if type =? AWDL_CHAN_SEQ_TLV then awdl_handle_chanseq_tlv val
  else if type =? AWDL_ELECTION_PARAMETERS_TLV then awdl_handle_election_params_tlv val
  else if type =? AWDL_ELECTION_PARAMETERS_V2_TLV then awdl_handle_election_params_v2_tlv val
  else if type =? AWDL_ARPA_TLV then awdl_handle_arpa_tlv val
  else if type =? AWDL_DATA_PATH_STATE_TLV then awdl_handle_data_path_state_tlv val
  else if type =? AWDL_VERSION_TLV then awdl_handle_version_tlv val
  else mret RX_IGNORE.

(** ** Action frames *)

(** The subtype, or -1; the header is read through a cast pointer. *)
Definition awdl_parse_action_hdr (frame : buf) : option Z :=
  r ← read_bytes frame 0 sizeof_awdl_action;
  if r.1 <? 0 then Some (-1) else
  af ← load (b_mem frame) (b_data frame) sizeof_awdl_action;
  compat ← AWDL_VERSION_COMPAT;
  category ← af !! 0%nat;
  type ← af !! 4%nat;
  version ← af !! 5%nat;
  subtype ← af !! 6%nat;
  let valid := (category =? IEEE80211_VENDOR_SPECIFIC) &&
               (memcmp (take 3 (drop 1 af)) AWDL_OUI =? 0) &&
               (type =? AWDL_TYPE) && (version =? compat) in
  Some (if valid && ((subtype =? AWDL_ACTION_PSF) || (subtype =? AWDL_ACTION_MIF))
        then subtype else -1).

Definition incr_rx_action (s : awdl_stats) : awdl_stats :=
  mk_stats (tx_action s) (tx_data s) (tx_data_unicast s) (tx_data_multicast s)
    (u64 (rx_action s + 1)) (rx_data s) (rx_unknown s).
Definition incr_rx_data (s : awdl_stats) : awdl_stats :=
  mk_stats (tx_action s) (tx_data s) (tx_data_unicast s) (tx_data_multicast s)
    (rx_action s) (u64 (rx_data s + 1)) (rx_unknown s).

(** Writing the peer at [p]. *)
Definition write_peer (p : Z) (peer : awdl_peer) (s : awdl_state) : awdl_state :=
  with_peers (mk_peers (p_map (the_peers s)) (<[p := peer]> (p_heap (the_peers s)))) s.

Section rx.
Context `{CallocEnv} `{MallocEnv} `{RxEnv} {E : Type}.
Variable hooks : awdl_hooks E.

Definition call_tlv_cb (e : E) (p type : Z) (val : buf) (s : awdl_state) : E :=
  match tlv_cb hooks with Some f => f e p type val s | None => e end.

(** The loop over the elements; [Some r] is an early return of [r]. *)
Fixpoint rx_tlvs (fuel : nat) (frame : buf) (p tsft : Z) (s : awdl_state) (e : E) :
    outcome (buf * awdl_state * E * option Z) :=
  match fuel with
  | O => OutOfFuel
  | S fuel =>
      r ← of_option (read_tlv frame 0);
      let '(len, out) := r in
      if negb (len >? 0) then Done (frame, s, e, None) else
      t ← of_option out;
      let '(tlv_type, tlv_len, tlv_value) := t in
      tlv_buf ← of_option (buf_new_const tlv_value tlv_len);
      peer ← of_option (p_heap (the_peers s) !! p);
      h ← of_option (run (awdl_handle_tlv tlv_type tlv_buf tsft) (peer, s));
      let '((peer, s), result) := h in
      let s := write_peer p peer s in
      let e := call_tlv_cb e p tlv_type tlv_buf s in
      if result <? 0 then Done (frame, s, e, Some RX_UNEXPECTED_FORMAT) else
      rx_tlvs fuel (buf_strip frame len).1 p tsft s e
  end.

(** Every element has at least three bytes. *)
Definition tlv_fuel (frame : buf) : nat := S (Z.to_nat (b_len frame)).

(** The code after the loop. *)
Definition rx_action_finish (subtype : Z) (frame : buf) (p tsft : Z) (src : ether_addr)
    (s : awdl_state) (e : E) : outcome (awdl_state * E * Z) :=
  if buf_len frame >? 0 then Done (s, e, RX_UNEXPECTED_FORMAT) else
  peer ← of_option (p_heap (the_peers s) !! p);
  let s := if subtype =? AWDL_ACTION_MIF then write_peer p (set_sent_mif 1 peer) s else s in
  a ← awdl_peer_add (peer_cb hooks) (the_peers s) e src tsft;
  let '(ps, e, _) := a in
  Done (with_peers ps s, e, RX_OK).

(** The code after the signal filter: the peer table and the elements. *)
Definition rx_action_update (subtype : Z) (frame : buf) (tsft : Z) (src : ether_addr)
    (s : awdl_state) (e : E) : outcome (awdl_state * E * Z) :=
  a ← awdl_peer_add (peer_cb hooks) (the_peers s) e src tsft;
  let '(ps, e, status) := a in
  let s := with_peers ps s in
  if status <? 0 then Done (s, e, RX_IGNORE) else
  g ← of_option (awdl_peer_get (the_peers s) src);
  let '(status, p) := g in
  if status <? 0 then Done (s, e, RX_IGNORE) else
  l ← rx_tlvs (tlv_fuel frame) frame p tsft s e;
  let '(frame, s, e, early) := l in
  match early with
  | Some r => Done (s, e, r)
  | None => rx_action_finish subtype frame p tsft src s e
  end.

(** Whether the signal filter rejects a frame from [src]. *)
Definition rssi_rejects (s : awdl_state) (src : ether_addr) (rssi : Z) : option bool :=
  if negb (filter_rssi s =? 0) then
    g ← awdl_peer_get (the_peers s) src;
    Some (((g.1 =? PEERS_OK) && (rssi <? rssi_threshold s + rssi_grace s)) ||
          ((g.1 =? PEERS_MISSING) && (rssi <? rssi_threshold s)))
  else Some false.

Definition awdl_rx_action (frame : buf) (rssi tsft : Z) (src : ether_addr) (s : awdl_state) (e : E) :
    outcome (awdl_state * E * Z) :=
  subtype ← of_option (awdl_parse_action_hdr frame);
  if subtype <? 0 then Done (s, e, RX_IGNORE) else
  let frame := (buf_strip frame sizeof_awdl_action).1 in
  rejected ← of_option (rssi_rejects s src rssi);
  if rejected : bool then Done (s, e, RX_IGNORE_RSSI) else
  rx_action_update subtype frame tsft src (with_stats (incr_rx_action (st_stats s)) s) e.
End rx.

(** ** Data frames *)

Definition mod_llc (f : llc_hdr → llc_hdr) : M llc_hdr unit := modify f.

Definition llc_parse (frame : buf) : M llc_hdr Z :=
  v ← checked RX_TOO_SHORT (read_u8 frame 0);
  mod_llc (λ h, mk_llc_hdr v (l_ssap h) (l_control h) (l_oui h) (l_pid h));;
  v ← checked RX_TOO_SHORT (read_u8 frame 1);
  mod_llc (λ h, mk_llc_hdr (l_dsap h) v (l_control h) (l_oui h) (l_pid h));;
  v ← checked RX_TOO_SHORT (read_u8 frame 2);
  mod_llc (λ h, mk_llc_hdr (l_dsap h) (l_ssap h) v (l_oui h) (l_pid h));;
  v ← checked RX_TOO_SHORT (read_bytes_copy frame 3 3);
  mod_llc (λ h, mk_llc_hdr (l_dsap h) (l_ssap h) (l_control h) v (l_pid h));;
  pid ← checked RX_TOO_SHORT (read_be16 frame 6);
  mod_llc (λ h, mk_llc_hdr (l_dsap h) (l_ssap h) (l_control h) (l_oui h) pid);;
  mret RX_OK.

(** The local structure is not initialised, any value will do. *)
Definition llc_junk : llc_hdr := mk_llc_hdr 0 0 0 [0; 0; 0] 0.

Definition awdl_valid_llc_header (frame : buf) : option bool :=
  r ← run (llc_parse frame) llc_junk;
  let '(llc, rc) := r in
  Some (if rc <? 0 then false else
        negb (negb (l_dsap llc =? 0xaa) || negb (l_ssap llc =? 0xaa) ||
              negb (l_control llc =? 0x03) || negb (l_pid llc =? AWDL_LLC_PROTOCOL_ID))).

(** The entries of the array behind [out], which the caller provides. *)
Class OutRoom := out_room : nat.

Section rx_data.
Context `{RxEnv} `{OutRoom}.

(** [out] is what was stored in the array so far; [**out] behind its last
    entry is undefined.  The result codes of the unchecked writes are added
    to the offset. *)
Definition awdl_rx_data (frame : buf) (src dst : ether_addr) (s : awdl_state) (out : list buf) :
    option (list buf * awdl_state * Z) :=
  let s := with_stats (incr_rx_data (st_stats s)) s in
  g ← awdl_peer_get (the_peers s) src;
  if negb (g.1 =? PEERS_OK) then Some (out, s, RX_IGNORE_PEER) else
  v ← awdl_valid_llc_header frame;
  if negb v then Some (out, s, RX_UNEXPECTED_FORMAT) else
  let frame := (buf_strip frame sizeof_llc_hdr).1 in
  if u32 (buf_len frame) <? sizeof_awdl_data then Some (out, s, RX_TOO_SHORT) else
  t ← read_be16 frame 6;
  ether_type ← t.2;
  let frame := (buf_strip frame sizeof_awdl_data).1 in
  if (out_room <=? length out)%nat then None else
  b ← buf_new_owned ETHER_MAX_LEN (junk_block ETHER_MAX_LEN);
  let offset := 0 in
  w ← write_ether_addr b offset dst;
  let '(b, rc) := w in
  let offset := offset + rc in
  w ← write_ether_addr b offset src;
  let '(b, rc) := w in
  let offset := offset + rc in
  w ← write_be16 b offset ether_type;
  let '(b, rc) := w in
  let offset := offset + rc in
  w ← write_bytes b offset (buf_data frame) (buf_len frame);
  let '(b, _) := w in
  Some (out ++ [b], s, RX_OK).

(** The loop over the subframes. *)
Fixpoint awdl_rx_data_amsdu (fuel : nat) (frame : buf) (s : awdl_state) (out : list buf) :
    outcome (list buf * awdl_state * Z) :=
  match fuel with
  | O => OutOfFuel
  | S fuel =>
      if negb (buf_len frame >? 0) then Done (out, s, RX_OK) else
      h ← of_option ((
        dst_a ← checked RX_TOO_SHORT (read_ether_addr frame 0);
        src_a ← checked RX_TOO_SHORT (read_ether_addr frame 6);
        len_a ← checked RX_TOO_SHORT (read_be16 frame 12);
        strip_checked RX_TOO_SHORT 14;;
        mret (dst_a, src_a, len_a)) frame);
      match h with
      | (_, inl r) => Done (out, s, r)
      | (frame, inr (dst_a, src_a, len_a)) =>
          if len_a >? buf_len frame then Done (out, s, RX_TOO_SHORT) else
          subframe ← of_option (buf_new_const (buf_data frame) len_a);
          d ← of_option (awdl_rx_data subframe src_a dst_a s out);
          let '(out, s, err) := d in
          if err <? 0 then Done (out, s, err) else
          t ← of_option ((
            strip_checked RX_TOO_SHORT len_a;;
            b ← get_st;
            if buf_len b >? 0
            then strip_checked RX_TOO_SHORT (Z.rem (4 - Z.rem (14 + len_a) 4) 4)
            else mret tt) frame);
          match t with
          | (_, inl r) => Done (out, s, r)
          | (frame, inr _) => awdl_rx_data_amsdu fuel frame s out
          end
      end
  end.
End rx_data.

(** ** Frames *)

(** A [signed char] from a byte. *)
Definition s8 (b : Z) : Z := if b <? 128 then b else b - 256.

(** The loop over the fields; the third output pointer is null. *)
Fixpoint radiotap_fields `{Radiotap} (fs : list rt_field) (rssi flags : Z) : option (Z * Z) :=
  match fs with
  | [] => Some (rssi, flags)
  | f :: fs =>
      if negb (rf_is_radiotap_ns f) then radiotap_fields fs rssi flags
      else if rf_index f =? IEEE80211_RADIOTAP_TSFT then radiotap_fields fs rssi flags
      else if rf_index f =? IEEE80211_RADIOTAP_FLAGS then
        b ← head (rf_arg f); radiotap_fields fs rssi b
      else if rf_index f =? IEEE80211_RADIOTAP_DBM_ANTSIGNAL then
        b ← head (rf_arg f); radiotap_fields fs (s8 b) flags
      else radiotap_fields fs rssi flags
  end.

(** The result, [rssi] and [flags]. *)
Definition radiotap_parse `{Radiotap} (frame : buf) (rssi flags : Z) : option (Z * Z * Z) :=
  match rt_iterator (contents frame) with
  | inl _ => Some (RX_UNEXPECTED_FORMAT, rssi, flags)
  | inr (fs, err) =>
      r ← radiotap_fields fs rssi flags;
      Some (if negb (err =? MINUS_ENOENT) then RX_UNEXPECTED_FORMAT else RX_OK, r.1, r.2)
  end.

Definition check_fcs `{Radiotap} (radiotap_flags : Z) : M buf Z :=
  if has_flag radiotap_flags IEEE80211_RADIOTAP_F_BADFCS then mret (-1)
  else
    (if has_flag radiotap_flags IEEE80211_RADIOTAP_F_FCS then take_checked (-1) 4 else mret tt);;
    mret 0.

(** The members of the header at the start of a frame. *)
Definition hdr_members (h : list Z) : Z * ether_addr * ether_addr :=
  (le_val (take 2 h), take 6 (drop 4 h), take 6 (drop 10 h)).

Section rx_frame.
Context `{CallocEnv} `{MallocEnv} `{RxEnv} `{OutRoom} `{Radiotap} {E : Type}.
Variable hooks : awdl_hooks E.

(** What the switch does with the frame behind the header. *)
Definition rx_dispatch (fc : Z) (from to : ether_addr) (frame : buf) (rssi tsft : Z)
    (s : awdl_state) (e : E) (out : list buf) : outcome (list buf * awdl_state * E * Z) :=
  let kind := Z.land fc (Z.lor IEEE80211_FCTL_FTYPE IEEE80211_FCTL_STYPE) in
  if kind =? Z.lor IEEE80211_FTYPE_MGMT IEEE80211_STYPE_ACTION then
    a ← awdl_rx_action hooks frame rssi tsft from s e;
    let '(s, e, rc) := a in
    Done (out, s, e, rc)
  else if kind =? Z.lor (Z.lor IEEE80211_FTYPE_DATA IEEE80211_STYPE_DATA) IEEE80211_STYPE_QOS_DATA then
    q ← of_option ((
      qosc ← checked RX_TOO_SHORT (read_le16 frame 0);
      strip_checked RX_TOO_SHORT IEEE80211_QOS_CTL_LEN;;
      mret qosc) frame);
    match q with
    | (_, inl r) => Done (out, s, e, r)
    | (frame, inr qosc) =>
        d ← (if has_flag qosc IEEE80211_QOS_CTL_A_MSDU_PRESENT
             then awdl_rx_data_amsdu (S (Z.to_nat (b_len frame))) frame s out
             else of_option (awdl_rx_data frame from to s out));
        let '(out, s, rc) := d in
        Done (out, s, e, rc)
    end
  else if kind =? Z.lor IEEE80211_FTYPE_DATA IEEE80211_STYPE_DATA then
    d ← of_option (awdl_rx_data frame from to s out);
    let '(out, s, rc) := d in
    Done (out, s, e, rc)
  else Done (out, s, e, RX_UNEXPECTED_TYPE).

(** [tsft] is the clock reading; the result is the frames produced, the node,
    the hooks' state and the code. *)
Definition awdl_rx (frame : buf) (tsft : Z) (s : awdl_state) (e : E) :
    outcome (list buf * awdl_state * E * Z) :=
  r ← of_option (radiotap_parse frame junk_rssi junk_flags);
  let '(rc, rssi, flags) := r in
  if rc <? 0 then Done ([], s, e, RX_UNEXPECTED_FORMAT) else
  let '(frame, rc) := buf_strip frame (rt_it_len (contents frame)) in
  if rc <? 0 then Done ([], s, e, RX_TOO_SHORT) else
  c ← of_option (run (check_fcs flags) frame);
  let '(frame, rc) := c in
  if negb (rc =? 0) then Done ([], s, e, RX_IGNORE_FAILED_CRC) else
  r ← of_option (read_bytes frame 0 sizeof_ieee80211_hdr);
  if r.1 <? 0 then Done ([], s, e, RX_TOO_SHORT) else
  h ← of_option (load (b_mem frame) (b_data frame) sizeof_ieee80211_hdr);
  let '(fc, to, from) := hdr_members h in
  if memcmp from (self_address s) =? 0 then Done ([], s, e, RX_IGNORE_FROM_SELF) else
  let '(frame, rc) := buf_strip frame sizeof_ieee80211_hdr in
  if rc <? 0 then Done ([], s, e, RX_TOO_SHORT) else
  rx_dispatch fc from to frame rssi tsft s e [].
End rx_frame.

(** ** Safety of the handlers *)

(** What the types say of uninitialised memory. *)
Class RxEnvOk `{RxEnv} : Prop := {
  junk_chans_length p b : length (junk_chans p b) = AWDL_CHANSEQ_LENGTH;
  junk_block_ok n : 0 <= n → Z.of_nat (length (junk_block n)) = n ∧ bytes_ok (junk_block n);
  junk_flags_ok : is_u8 junk_flags }.

(** The invariant of a handler for the peer stored under [k]: the node only
    changes its synchronisation state. *)
Definition rx_inv (k : mkey) (s0 : awdl_state) (ps : awdl_peer * awdl_state) : Prop :=
  peer_ok k ps.1 ∧ ∃ sy, sync_ok sy ∧ ps.2 = with_sync sy s0.

Lemma mod_peer_safe k s0 f (Q : unit → Prop) :
  (∀ p, peer_ok k p → peer_ok k (f p)) → Q tt → safe (rx_inv k s0) (mod_peer f) Q.
Proof. intros Hf HQ. apply safe_modify; [|done]. intros [p s] [Hp Hs]. split; [by apply Hf|done]. Qed.

(** Setters of the election state keep a peer well formed when they keep the
    election state so and its own address. *)
Lemma mod_election_safe k s0 f (Q : unit → Prop) :
  (∀ e, election_ok e → election_ok (f e) ∧ self_addr (f e) = self_addr e) → Q tt →
  safe (rx_inv k s0) (mod_peer_election f) Q.
Proof.
  intros Hf HQ. apply mod_peer_safe; [|done]. intros p Hp.
  destruct (Hf _ (pok_election _ _ Hp)) as [He Hs]. destruct Hp. constructor; simpl; congruence.
Qed.

Lemma set_height_ok v : is_u32 v →
  ∀ e, election_ok e → election_ok (set_height v e) ∧ self_addr (set_height v e) = self_addr e.
Proof. intros Hv e []. by split; [constructor|]. Qed.
Lemma set_master_addr_ok v : addr_ok v →
  ∀ e, election_ok e → election_ok (set_master_addr v e) ∧ self_addr (set_master_addr v e) = self_addr e.
Proof. intros Hv e []. by split; [constructor|]. Qed.
Lemma set_sync_addr_ok v : addr_ok v →
  ∀ e, election_ok e → election_ok (set_sync_addr v e) ∧ self_addr (set_sync_addr v e) = self_addr e.
Proof. intros Hv e []. by split; [constructor|]. Qed.
Lemma set_master_metric_ok v : is_u32 v →
  ∀ e, election_ok e → election_ok (set_master_metric v e) ∧ self_addr (set_master_metric v e) = self_addr e.
Proof. intros Hv e []. by split; [constructor|]. Qed.
Lemma set_self_metric_ok v : is_u32 v →
  ∀ e, election_ok e → election_ok (set_self_metric v e) ∧ self_addr (set_self_metric v e) = self_addr e.
Proof. intros Hv e []. by split; [constructor|]. Qed.
Lemma set_master_counter_ok v : is_u32 v →
  ∀ e, election_ok e → election_ok (set_master_counter v e) ∧ self_addr (set_master_counter v e) = self_addr e.
Proof. intros Hv e []. by split; [constructor|]. Qed.
Lemma set_self_counter_ok v : is_u32 v →
  ∀ e, election_ok e → election_ok (set_self_counter v e) ∧ self_addr (set_self_counter v e) = self_addr e.
Proof. intros Hv e []. by split; [constructor|]. Qed.

Create HintDb rx.
#[export] Hint Resolve set_height_ok set_master_addr_ok set_sync_addr_ok set_master_metric_ok
  set_self_metric_ok set_master_counter_ok set_self_counter_ok : rx.

Lemma is_u8_u32 z : is_u8 z → is_u32 z.
Proof. int_lia. Qed.

(** One step of a handler: a read, an assignment or a test. *)
Ltac rx_step :=
  lazymatch goal with
  | |- safe _ (mret _) _ => apply safe_ret; done
  | |- safe _ (rd_val (read_u8 _ _) ≫= _) _ =>
      eapply safe_bind; [apply safe_read_u8; [done|int_lia]|intros ? ?]
  | |- safe _ (rd_val (read_le16 _ _) ≫= _) _ =>
      eapply safe_bind; [apply safe_read_le16; [done|int_lia]|intros ? ?]
  | |- safe _ (rd_val (read_le32 _ _) ≫= _) _ =>
      eapply safe_bind; [apply safe_read_le32; [done|int_lia]|intros ? ?]
  | |- safe _ (rd_val (read_ether_addr _ _) ≫= _) _ =>
      eapply safe_bind; [apply safe_read_ether_addr; [done|int_lia]|intros ? ?]
  | |- safe _ (rd_val (read_bytes_copy _ _ _) ≫= _) _ =>
      eapply safe_bind; [apply safe_read_bytes_copy; [done|int_lia|int_lia]|intros ? [? ?]]
  | |- safe _ (rd_null (read_le16 _ _) ≫= _) _ =>
      eapply safe_bind;
        [eapply safe_null with (R := λ _, True); [apply safe_read_le16; [done|int_lia]|done]|intros [] _]
  | |- safe _ (rd_null (read_ether_addr _ _) ≫= _) _ =>
      eapply safe_bind;
        [eapply safe_null with (R := λ _, True); [apply safe_read_ether_addr; [done|int_lia]|done]
        |intros [] _]
  | |- safe _ (mod_peer_election _ ≫= _) _ =>
      eapply safe_bind;
        [apply (mod_election_safe _ _ _ (λ _, True));
           [eauto using is_u8_u32 with rx|done]|intros [] _]
  | |- safe _ (guard_ret _ _ ≫= _) _ => eapply safe_bind; [apply safe_guard|intros [] ?]
  end.

Section handlers.
Context `{RxEnvOk} (k : mkey) (s0 : awdl_state) (val : buf) (W : buf_wf val).
Hypothesis Hs0 : sync_ok (st_sync s0).

Abbreviation safe_handler m := (safe (rx_inv k s0) m (λ _ : Z, True)).

Lemma election_params_safe : safe_handler (awdl_handle_election_params_tlv val).
Proof.
  unfold awdl_handle_election_params_tlv.
  eapply safe_bind; [apply (safe_get _ (λ _, True)); done|intros ps _].
  repeat rx_step.
Qed.

Lemma election_params_v2_safe : safe_handler (awdl_handle_election_params_v2_tlv val).
Proof.
  unfold awdl_handle_election_params_v2_tlv. repeat rx_step.
  eapply safe_bind; [apply (mod_peer_safe _ _ _ (λ _, True)); [|done]|intros [] _; rx_step].
  intros p []. by constructor.
Qed.

Lemma version_safe : safe_handler (awdl_handle_version_tlv val).
Proof.
  unfold awdl_handle_version_tlv. repeat rx_step.
  eapply safe_bind; [apply (mod_peer_safe _ _ _ (λ _, True)); [|done]|intros [] _; rx_step].
  intros p []. by constructor.
Qed.

Lemma sync_params_safe now : safe_handler (awdl_handle_sync_params_tlv val now).
Proof.
  unfold awdl_handle_sync_params_tlv.
  eapply safe_bind; [apply (safe_get _ (rx_inv k s0)); done|intros ps [_ (sy & Hsy & Hps)]].
  repeat rx_step. eapply safe_bind; [apply (safe_modify _ _ (λ _, True)); [|done]|intros [] _; rx_step].
  intros [p s] [Hp (sy' & _ & ->)]. split; [done|]. simpl.
  eexists. split; [|reflexivity]. apply sync_update_ok; [|done].
  rewrite Hps. destruct Hsy. by case_match; constructor.
Qed.

Lemma arpa_safe : safe_handler (awdl_handle_arpa_tlv val).
Proof.
  unfold awdl_handle_arpa_tlv, HOST_NAME_LENGTH_MAX.
  eapply safe_bind; [apply safe_read_int_string; [done|int_lia..]|intros str Hstr; cbv beta in Hstr].
  eapply safe_bind; [apply (safe_get _ (rx_inv k s0)); done|intros ps [Hp _]].
  pose proof (pok_name _ _ Hp) as Hn. unfold HOST_NAME_LENGTH_MAX in Hn.
  eapply safe_bind; [apply (safe_lift _ _ (λ n, length n = length (peer_name ps.1)))|intros name Hl; cbv beta in Hl].
  { rewrite store_Some by lia. eexists; split; [reflexivity|].
    eapply (store_length _ 0 str). by rewrite store_Some by lia. }
  eapply safe_bind; [apply (mod_peer_safe _ _ _ (λ _, True)); [|done]|intros [] _; rx_step].
  intros p []. constructor; simpl; try done. unfold HOST_NAME_LENGTH_MAX. lia.
Qed.

Lemma data_path_safe : safe_handler (awdl_handle_data_path_state_tlv val).
Proof.
  unfold awdl_handle_data_path_state_tlv. rx_step.
  eapply safe_bind with (Q := λ o, 0 <= o <= 5).
  { split_ifs; [|apply safe_ret; lia]. rx_step.
    eapply safe_bind; [apply (safe_get _ (rx_inv k s0)); done|intros ps [Hp _]].
    pose proof (pok_country _ _ Hp) as Hc.
    eapply safe_bind; [apply (safe_lift _ _ (λ c, length c = 3%nat))|intros c Hl; cbv beta in Hl].
    { rewrite store_Some by lia. eexists; split; [reflexivity|].
      rewrite <- Hc. eapply (store_length _ 0 a0). by rewrite store_Some by lia. }
    eapply safe_bind; [apply (mod_peer_safe _ _ _ (λ _, True)); [|done]|intros [] _; apply safe_ret; lia].
    intros p []. by constructor. }
  intros o1 Ho1. eapply safe_bind with (Q := λ o, 0 <= o <= 7).
  { split_ifs; [|apply safe_ret; lia]. rx_step. apply safe_ret. lia. }
  intros o2 Ho2. eapply safe_bind with (Q := λ o, 0 <= o <= 15).
  { split_ifs; [|apply safe_ret; lia]. repeat rx_step. apply safe_ret. lia. }
  intros o3 Ho3. eapply safe_bind with (Q := λ o, 0 <= o <= 21).
  { split_ifs; [|apply safe_ret; lia]. rx_step.
    eapply safe_bind; [apply (mod_peer_safe _ _ _ (λ _, True)); [|done]|intros [] _; apply safe_ret; lia].
    intros p []. by constructor. }
  intros o4 Ho4. eapply safe_bind with (Q := λ _, True); [|intros; rx_step].
  split_ifs; [|by apply safe_ret]. rx_step. by apply safe_ret.
Qed.

Lemma read_chans_safe size n : ∀ i offset l,
  0 <= size <= 2 → 0 <= offset <= 100 - 2 * Z.of_nat n → (i + n <= length l)%nat →
  safe (rx_inv k s0) (read_chans val size n i offset l) (λ l', length l' = length l).
Proof.
  induction n as [|n IH]; intros i offset l Hsz Ho Hl; cbn [read_chans]; [by apply safe_ret|].
  rx_step. destruct (lookup_lt_is_Some_2 l i) as [c Hc]; [lia|].
  eapply safe_bind; [apply (safe_lift _ _ (λ _, True)); eauto|intros c' _].
  eapply safe_weaken; [apply IH; rewrite ?length_insert; lia|].
  intros l'. by rewrite length_insert.
Qed.

Lemma chanseq_safe : safe_handler (awdl_handle_chanseq_tlv val).
Proof.
  unfold awdl_handle_chanseq_tlv.
  eapply safe_bind; [apply (safe_get _ (rx_inv k s0)); done|intros ps [_ (sy & Hsy & Hps)]].
  repeat rx_step.
  eapply safe_bind; [apply read_chans_safe|intros l Hl; cbv beta in Hl].
  - unfold awdl_chan_encoding_size in *. split_ifs; lia.
  - unfold AWDL_CHANSEQ_LENGTH. lia.
  - rewrite junk_chans_length. lia.
  - rewrite junk_chans_length in Hl.
    eapply safe_bind with (Q := λ _, True); [|intros [] _; rx_step].
    case_decide; [by apply safe_ret|]. apply mod_peer_safe; [|done].
    intros p []. by constructor.
Qed.

Lemma handle_tlv_safe type tsft : safe_handler (awdl_handle_tlv type val tsft).
Proof.
  unfold awdl_handle_tlv. split_ifs;
    auto using election_params_safe, election_params_v2_safe, version_safe, sync_params_safe,
      arpa_safe, data_path_safe, chanseq_safe, safe_ret.
Qed.
End handlers.

(** ** Action frames keep the node well formed *)

Lemma state_ok_sync s P sy : state_ok s P → sync_ok sy → state_ok (with_sync sy s) P.
Proof. intros [] Hsy. by constructor. Qed.
Lemma state_ok_stats s P st : state_ok s P → state_ok (with_stats st s) P.
Proof. intros []. by constructor. Qed.
Lemma state_ok_peers s P ps P' :
  state_ok s P → peers_rep ps P' → peers_ok P' → state_ok (with_peers ps s) P'.
Proof. intros [] R Hp. by constructor. Qed.
#[export] Hint Resolve state_ok_sync state_ok_stats state_ok_peers : owl.

Lemma rx_inv_start k peer s P : state_ok s P → peer_ok k peer → rx_inv k s (peer, s).
Proof.
  intros Hs Hp. split; [done|]. exists (st_sync s). split; [apply Hs|]. by destruct s.
Qed.

(** Writing a peer through the pointer of its table entry. *)
Lemma write_peer_ok s P k p peer :
  state_ok s P → to_map (p_map (the_peers s)) !! k = Some p → peer_ok k peer →
  state_ok (write_peer p peer s) (<[k := peer]> P) ∧
  p_map (the_peers (write_peer p peer s)) = p_map (the_peers s) ∧
  (no_leak (the_peers s) → no_leak (the_peers (write_peer p peer s))).
Proof.
  intros Hs Hk Hp. destruct (rep_write _ _ (sok_peers _ _ Hs) k p peer Hk) as [R Hl].
  split_and!; [|done|done]. apply (state_ok_peers s P); [done|exact R|].
  apply map_Forall_insert_2; [done|apply Hs].
Qed.

(** What processing a frame from [k] may do to the peers. *)
Definition only_peer (k : mkey) (P P' : gmap mkey awdl_peer) : Prop :=
  ∀ k', k' ≠ k → P' !! k' = P !! k'.

Lemma only_peer_insert k P peer : only_peer k P (<[k := peer]> P).
Proof. intros k' Hk. by rewrite lookup_insert_ne. Qed.
Lemma only_peer_refl k P : only_peer k P P.
Proof. by intros k' _. Qed.
Lemma only_peer_trans k P1 P2 P3 : only_peer k P1 P2 → only_peer k P2 P3 → only_peer k P1 P3.
Proof. intros H1 H2 k' Hk. by rewrite H2, H1. Qed.
#[export] Hint Resolve only_peer_insert only_peer_refl only_peer_trans : owl.

Section action.
Context `{CallocBounded} `{MallocOk} `{RxEnvOk} {E : Type} (hooks : awdl_hooks E).

(** The loop over the elements ends, whatever the bytes. *)
Lemma rx_tlvs_total k p tsft fuel : ∀ frame s P e peer,
  buf_wf frame → (Z.to_nat (b_len frame) < fuel)%nat →
  state_ok s P → P !! k = Some peer → to_map (p_map (the_peers s)) !! k = Some p →
  ∃ frame' s' e' early peer', rx_tlvs hooks fuel frame p tsft s e = Done (frame', s', e', early) ∧
    state_ok s' (<[k := peer']> P) ∧ same_node s s' ∧ p_map (the_peers s') = p_map (the_peers s) ∧
    (no_leak (the_peers s) → no_leak (the_peers s')) ∧
    (∀ r, early = Some r → r = RX_UNEXPECTED_FORMAT).
Proof.
  induction fuel as [|fuel IH]; intros frame s P e peer W Hf Hs HP Hk; [lia|].
  cbn [rx_tlvs]. pose proof (read_tlv_step frame W) as Ht.
  destruct (parse_tlv (contents frame)) as [[[t v] rest]|] eqn:Hparse; cycle 1.
  { rewrite Ht. simpl. eexists _, s, e, _, peer. split; [done|].
    rewrite insert_id by done. split_and!; [done..|by intros]. }
  destruct Ht as (Hc & q & vb & b' & -> & Hvb & Wv & Hv & Hstrip & W' & Hrest).
  cbn [of_option mbind outcome_bind]. if_false. cbn [of_option mbind outcome_bind].
  rewrite Hvb. cbn [of_option mbind outcome_bind].
  destruct (rep_Some _ _ (sok_peers _ _ Hs) k peer HP) as (p' & Hk' & Hheap & _).
  assert (p' = p) as -> by congruence. rewrite Hheap. cbn [of_option mbind outcome_bind].
  pose proof (sok_peers_ok _ _ Hs k peer HP) as Hpok.
  destruct (safe_run (rx_inv k s) _ _ (peer, s) (handle_tlv_safe k s vb Wv t tsft)
    (rx_inv_start k peer s P Hs Hpok)) as ([peer1 s1] & rc & -> & Hp1 & sy & Hsy & Hs1).
  cbn [of_option mbind outcome_bind]. simpl in Hs1, Hp1. subst s1.
  destruct (write_peer_ok (with_sync sy s) P k p peer1) as (Hs2 & Hm2 & Hl2); [auto with owl|done|done|].
  set (s2 := write_peer p peer1 (with_sync sy s)) in *.
  destruct (rc <? 0).
  { eexists _, s2, _, _, peer1. split; [done|]. split_and!; [done| |done..|]; [by constructor|]. by intros r [= <-]. }
  rewrite Hstrip. cbn [fst].
  destruct (IH b' s2 (<[k := peer1]> P) (call_tlv_cb hooks e p t vb s2) peer1)
    as (frame' & s' & e' & early & peer' & Hrun & Hs' & Hn' & Hm' & Hl' & He'); [done| |done|..].
  - pose proof (contents_length b' W'). pose proof (contents_length frame W).
    rewrite Hc, length_app, Hrest in *. unfold tlv_bytes in *. cbn [length] in *.
    rewrite length_app, length_le_bytes in *. lia.
  - apply lookup_insert_eq.
  - by rewrite Hm2.
  - rewrite insert_insert_eq in Hs'. exists frame', s', e', early, peer'.
    split_and!; [done|done| |by rewrite Hm', Hm2|auto|done]. transitivity s2; [by constructor|done].
Qed.

Lemma parse_action_hdr_total frame :
  buf_wf frame → ∃ subtype, awdl_parse_action_hdr frame = Some subtype ∧
    (0 <= subtype → 16 <= Z.of_nat (length (contents frame))).
Proof.
  intros W. unfold awdl_parse_action_hdr, sizeof_awdl_action.
  rewrite read_bytes_spec by (done || int_lia). cbn [mbind option_bind].
  destruct ((0 <=? 0) && _) eqn:Eb; cbn [fst]; cycle 1.
  { exists (-1). split; [done|lia]. }
  change (16 <? 0) with false. cbv iota.
  rewrite <- (Z.add_0_r (b_data frame)), load_contents by (done || lia). simpl.
  set (l := take (Z.to_nat 16) (drop (Z.to_nat 0) (contents frame))).
  assert (length l = 16%nat) as Hl by (unfold l; rewrite length_take, length_drop; lia).
  assert (∀ i, (i < 16)%nat → ∃ x, l !! i = Some x) as Hx.
  { intros i Hi. apply lookup_lt_is_Some_2. lia. }
  destruct (Hx 0%nat) as [x0 ->]; [lia|]. destruct (Hx 4%nat) as [x4 ->]; [lia|].
  destruct (Hx 5%nat) as [x5 ->]; [lia|]. destruct (Hx 6%nat) as [x6 ->]; [lia|].
  simpl. eexists; split; [done|]. lia.
Qed.

Lemma rx_action_finish_total subtype frame k p tsft s P e peer :
  state_ok s P → P !! k = Some peer → to_map (p_map (the_peers s)) !! k = Some p →
  ∃ s' e' rc peer', rx_action_finish hooks subtype frame p tsft k s e = Done (s', e', rc) ∧
    state_ok s' (<[k := peer']> P) ∧ same_node s s' ∧ (no_leak (the_peers s) → no_leak (the_peers s')).
Proof.
  intros Hs HP Hk. unfold rx_action_finish.
  destruct (buf_len frame >? 0).
  { eexists s, e, _, peer. split; [done|]. by rewrite insert_id. }
  destruct (rep_Some _ _ (sok_peers _ _ Hs) k peer HP) as (p' & Hk' & Hheap & _).
  assert (p' = p) as -> by congruence. rewrite Hheap. cbn [of_option mbind outcome_bind].
  pose proof (sok_peers_ok _ _ Hs k peer HP) as Hpok.
  assert (∃ peer1 s1, (if subtype =? AWDL_ACTION_MIF then write_peer p (set_sent_mif 1 peer) s else s) = s1
    ∧ state_ok s1 (<[k := peer1]> P) ∧ same_node s s1 ∧ (no_leak (the_peers s) → no_leak (the_peers s1)))
    as (peer1 & s1 & -> & Hs1 & Hn1 & Hl1).
  { case_match; [|exists peer, s; by rewrite insert_id].
    destruct (write_peer_ok s P k p (set_sent_mif 1 peer)) as (? & _ & ?); [done..|destruct Hpok; by constructor|].
    eexists _, _. split; [done|]. split_and!; [done|by constructor|done]. }
  destruct (peer_add_known (peer_cb hooks) (the_peers s1) _ e k tsft peer1 (sok_peers _ _ Hs1)
    (lookup_insert_eq _ _ _)) as (ps' & -> & R' & Hl'). cbn [mbind outcome_bind].
  rewrite insert_insert_eq in R'. eexists _, _, _, _. split; [done|]. split; [|split; [|auto]].
  2: { transitivity s1; [done|by constructor]. }
  apply (state_ok_peers s1 (<[k := peer1]> P)); [done|exact R'|].
  pose proof (sok_peers_ok _ _ Hs1) as Hok1. apply map_Forall_insert_2; [|apply Hs].
  apply validate_ok, set_last_update_ok, Hok1, lookup_insert_eq.
Qed.

(** A peer that was valid stays so. *)
Definition still_valid (P : gmap mkey awdl_peer) (src : mkey) (peer : awdl_peer) : Prop :=
  ∀ old, P !! src = Some old → is_valid old ≠ 0 → is_valid peer ≠ 0.

(** The peer table after [awdl_peer_add]: the sender has an entry, or the
    table could not grow. *)
Lemma peer_add_total s P e src tsft :
  state_ok s P → addr_ok src →
  ∃ ps' e' r P', awdl_peer_add (peer_cb hooks) (the_peers s) e src tsft = Done (ps', e', r) ∧
    state_ok (with_peers ps' s) P' ∧
    ((0 <= r ∧ (∃ peer, P' = <[src := peer]> P ∧ still_valid P src peer) ∧ (no_leak (the_peers s) → no_leak ps')) ∨
     (r = PEERS_INTERNAL ∧ P' ⊆ P ∧ P !! src = None ∧ cannot_grow src (the_peers s) ps')).
Proof.
  intros Hs Ha. destruct (P !! src) as [peer|] eqn:HP.
  - destruct (peer_add_known (peer_cb hooks) (the_peers s) P e src tsft peer (sok_peers _ _ Hs) HP)
      as (ps' & Hadd & R & Hl). eexists _, _, _, _. split; [exact Hadd|]. split.
    + apply (state_ok_peers s P); [done|exact R|]. apply map_Forall_insert_2; [|apply Hs].
      apply validate_ok, set_last_update_ok, Hs, HP.
    + left. unfold PEERS_UPDATE. split_and!; [lia| |done]. eexists. split; [done|]. intros old Hold Hv.
      assert (old = peer) as -> by congruence. by apply validate_valid.
  - destruct (peer_add_new (peer_cb hooks) (the_peers s) P e src tsft (sok_peers _ _ Hs) HP Ha)
      as (ps' & r & Hadd & [(-> & Hl & peer & Hp & _ & R)|(-> & Hgrow & P' & Hsub & R)]);
      eexists _, _, _, _; (split; [exact Hadd|]); split.
    + apply (state_ok_peers s P); [done|exact R|]. apply map_Forall_insert_2; [done|apply Hs].
    + left. unfold PEERS_OK. split_and!; [lia| |done]. eexists. split; [done|]. intros old Hold. congruence.
    + apply (state_ok_peers s P); [done|exact R|]. intros k p Hk. eapply Hs, lookup_weaken; eassumption.
    + by right.
Qed.

Lemma rx_action_update_total subtype frame tsft src s P e :
  buf_wf frame → addr_ok src → state_ok s P →
  ∃ s' e' rc P', rx_action_update hooks subtype frame tsft src s e = Done (s', e', rc) ∧
    state_ok s' P' ∧ same_node s s' ∧
    ((only_peer src P P' ∧ (no_leak (the_peers s) → no_leak (the_peers s'))) ∨
     (rc = RX_IGNORE ∧ cannot_grow src (the_peers s) (the_peers s') ∧ P' ⊆ P)).
Proof.
  intros W Ha Hs. unfold rx_action_update.
  destruct (peer_add_total s P e src tsft Hs Ha)
    as (ps' & e1 & r & P1 & -> & Hs1 & [(Hr & (peer & -> & _) & Hl)|(-> & Hsub & _ & Hgrow)]).
  2: { cbn [mbind outcome_bind]. change (PEERS_INTERNAL <? 0) with true. cbv iota.
       eexists _, _, _, P1. split; [done|]. split; [done|]. split; [by constructor|]. auto. }
  cbn [mbind outcome_bind]. if_false.
  rewrite (peer_get_spec _ _ (sok_peers _ _ Hs1)).
  destruct (rep_Some _ _ (sok_peers _ _ Hs1) src peer (lookup_insert_eq _ _ _)) as (p & Hk & _ & _).
  rewrite Hk. cbn [of_option mbind outcome_bind]. change (PEERS_OK <? 0) with false. cbv iota.
  destruct (rx_tlvs_total src p tsft (tlv_fuel frame) frame (with_peers ps' s) (<[src := peer]> P) e1
    peer W)
    as (frame' & s2 & e2 & early & peer2 & -> & Hs2 & Hn2 & Hm2 & Hl2 & Hearly);
    [unfold tlv_fuel; lia|exact Hs1|apply lookup_insert_eq|exact Hk|].
  cbn [mbind outcome_bind]. rewrite insert_insert_eq in Hs2.
  assert (same_node s s2) as Hn by (transitivity (with_peers ps' s); [by constructor|done]). destruct early as [rc|].
  { eexists _, _, _, _. split; [done|]. split; [exact Hs2|]. split; [done|]. left. auto with owl. }
  destruct (rx_action_finish_total subtype frame' src p tsft s2 _ e2 peer2 Hs2
    (lookup_insert_eq _ _ _))
    as (s3 & e3 & rc & peer3 & -> & Hs3 & Hn3 & Hl3); [by rewrite Hm2|].
  rewrite insert_insert_eq in Hs3. eexists _, _, _, _. split; [done|]. split; [exact Hs3|].
  split; [by transitivity s2|]. left. auto with owl.
Qed.

Lemma rssi_rejects_spec s P src rssi :
  state_ok s P →
  rssi_rejects s src rssi =
    Some (negb (filter_rssi s =? 0) &&
          (rssi <? match P !! src with
                   | Some _ => rssi_threshold s + rssi_grace s
                   | None => rssi_threshold s
                   end)).
Proof.
  intros Hs. unfold rssi_rejects. destruct (filter_rssi s =? 0); [done|]. simpl.
  rewrite (peer_get_spec _ P (sok_peers _ _ Hs)). simpl. f_equal.
  destruct (P !! src) as [peer|] eqn:HP.
  - destruct (rep_Some _ _ (sok_peers _ _ Hs) src peer HP) as (p & -> & _). simpl. lia.
  - rewrite (rep_None _ _ (sok_peers _ _ Hs) src HP). simpl. lia.
Qed.

(** What [awdl_rx_action] leaves behind, whatever the frame: either only the
    sender's entry was touched, or the table could not grow. *)
Lemma rx_action_total frame rssi tsft src s P e :
  buf_wf frame → addr_ok src → state_ok s P →
  ∃ s' e' rc P', awdl_rx_action hooks frame rssi tsft src s e = Done (s', e', rc) ∧
    state_ok s' P' ∧ same_node s s' ∧
    ((only_peer src P P' ∧ (no_leak (the_peers s) → no_leak (the_peers s'))) ∨
     (rc = RX_IGNORE ∧ cannot_grow src (the_peers s) (the_peers s') ∧ P' ⊆ P)).
Proof.
  intros W Ha Hs. unfold awdl_rx_action.
  destruct (parse_action_hdr_total frame W) as (subtype & -> & Hlen).
  cbn [of_option mbind outcome_bind].
  destruct (subtype <? 0) eqn:Esub; [eexists _, _, _, P; do 2 (split; [done|]); split; [by constructor|]; auto 10 with owl|].
  destruct (buf_strip_spec frame sizeof_awdl_action W) as (f1 & -> & W1 & _ & _);
    [unfold sizeof_awdl_action; lia|]. cbn [fst].
  rewrite (rssi_rejects_spec s P) by done. cbn [of_option mbind outcome_bind].
  destruct (negb _ && _);
    [eexists _, _, _, P; split; [done|]; split; [auto with owl|]; split; [by constructor|]; auto 10 with owl|].
  destruct (rx_action_update_total subtype f1 tsft src (with_stats (incr_rx_action (st_stats s)) s) P e)
    as (s' & e' & rc & P' & Hu & Hs' & [] & Hpost); auto with owl.
  eexists _, _, _, _. split; [exact Hu|]. split; [done|]. split; [by constructor|done].
Qed.
End action.

(** ** Data frames *)

(** The header check on the bytes of the frame. *)
Definition llc_ok (l : list Z) : bool :=
  (8 <=? Z.of_nat (length l)) && (le_val (take 1 l) =? 0xaa) && (le_val (take 1 (drop 1 l)) =? 0xaa) &&
  (le_val (take 1 (drop 2 l)) =? 0x03) && (be_val (take 2 (drop 6 l)) =? AWDL_LLC_PROTOCOL_ID).

Lemma valid_llc_spec frame :
  buf_wf frame → awdl_valid_llc_header frame = Some (llc_ok (contents frame)).
Proof.
  intros W. unfold awdl_valid_llc_header, run, llc_parse, mod_llc, modify, mbind, M_bind, mret, M_ret.
  rewrite !read_u8_spec, read_bytes_copy_spec, read_be16_spec by (done || int_lia).
  unfold llc_ok. set (l := contents frame).
  destruct (8 <=? Z.of_nat (length l)) eqn:E8.
  - repeat (rewrite checked_spec by lia; if_true). simpl. f_equal.
    by rewrite !negb_orb, !negb_involutive.
  - do 4 (rewrite checked_spec by lia;
      match goal with |- context [if ?c then _ else _] => destruct c; [cbv beta iota|done] end).
    rewrite checked_spec by lia. if_false. done.
Qed.

(** The Ethernet frame delivered for a payload, in a block of old content
    [junk]: a payload that does not fit is left out. *)
Definition ether_frame (dst src : ether_addr) (type : Z) (payload junk : list Z) : list Z :=
  let hdr := dst ++ src ++ be_bytes 2 type in
  if Z.of_nat (length payload) <=? ETHER_MAX_LEN - 14
  then hdr ++ payload ++ drop (14 + length payload) junk
  else hdr ++ drop 14 junk.

Section data.
Context `{RxEnvOk} `{OutRoom}.

(** The four writes of [awdl_rx_data]. *)
Lemma ether_frame_written b junk src dst type f rest :
  contents b = junk → length junk = 1518%nat → buf_wf b → buf_wf f → addr_ok src → addr_ok dst →
  Z.of_nat (length (contents f)) <= INT_MAX - 14 →
  ∃ b', (w ← write_ether_addr b 0 dst;
         let '(b, rc) := w in
         let offset := 0 + rc in
         w ← write_ether_addr b offset src;
         let '(b, rc) := w in
         let offset := offset + rc in
         w ← write_be16 b offset type;
         let '(b, rc) := w in
         let offset := offset + rc in
         w ← write_bytes b offset (buf_data f) (buf_len f);
         let '(b, _) := w in
         Some (rest b)) = Some (rest b' : list buf * awdl_state * Z) ∧
    contents b' = ether_frame dst src type (contents f) junk ∧ buf_wf b' ∧ b_len b' = b_len b.
Proof.
  intros Hj Hjl W Wf [Hsl Hsb] [Hdl Hdb] Hfl.
  destruct (write_addr_spec b 0 dst W) as (b1 & -> & Hc1 & W1 & _ & Hl1 & _); [int_lia|done|done|].
  rewrite Hj in Hc1 |- *. rewrite (spec_write_app dst [] junk) in * by (simpl; lia).
  cbn [mbind option_bind fst snd app] in *. rewrite Hdl in *.
  destruct (write_addr_spec b1 (0 + Z.of_nat 6) src W1) as (b2 & -> & Hc2 & W2 & _ & Hl2 & _);
    [int_lia|done|done|].
  rewrite Hc1 in Hc2 |- *.
  rewrite (spec_write_app src dst) in * by (rewrite ?length_drop; lia).
  cbn [mbind option_bind fst snd] in *. rewrite drop_drop, Hsl in *.
  destruct (write_be16_spec b2 (0 + Z.of_nat 6 + Z.of_nat 6) type W2)
    as (b3 & -> & Hc3 & W3 & _ & Hl3 & _); [int_lia|].
  rewrite Hc2, (app_assoc dst) in Hc3 |- *.
  rewrite (spec_write_app (be_bytes 2 type) (dst ++ src)) in *
    by (rewrite ?length_app, ?length_drop, ?length_be_bytes; lia).
  cbn [mbind option_bind fst snd] in *. rewrite drop_drop, length_be_bytes in *.
  destruct (write_buf_spec b3 (0 + Z.of_nat 6 + Z.of_nat 6 + Z.of_nat 2) f W3 Wf)
    as (b4 & -> & Hc4 & W4 & _ & Hl4 & _).
  { unfold buf_len. rewrite <- (contents_length f Wf). lia. }
  cbn [mbind option_bind fst snd]. exists b4. split_and!; [done| |done|congruence].
  rewrite Hc4, Hc3, app_assoc. unfold ether_frame, ETHER_MAX_LEN.
  destruct (Z.of_nat (length (contents f)) <=? 1518 - 14) eqn:Efit.
  - rewrite spec_write_app by (rewrite ?length_app, ?length_drop, ?length_be_bytes; lia).
    cbn [fst]. rewrite drop_drop, <- !app_assoc. done.
  - unfold spec_write. rewrite !length_app, length_drop, length_be_bytes. if_false. cbn [fst].
    by rewrite <- !app_assoc.
Qed.

Lemma rx_data_spec frame src dst s P out : (length out < out_room)%nat →
  buf_wf frame → addr_ok src → addr_ok dst → state_ok s P →
  let s' := with_stats (incr_rx_data (st_stats s)) s in
  let l := contents frame in
  match P !! src with
  | None => awdl_rx_data frame src dst s out = Some (out, s', RX_IGNORE_PEER)
  | Some _ =>
      if negb (llc_ok l) then awdl_rx_data frame src dst s out = Some (out, s', RX_UNEXPECTED_FORMAT)
      else if Z.of_nat (length l) <? 16
      then awdl_rx_data frame src dst s out = Some (out, s', RX_TOO_SHORT)
      else ∃ b, awdl_rx_data frame src dst s out = Some (out ++ [b], s', RX_OK) ∧
        contents b = ether_frame dst src (be_val (take 2 (drop 14 l))) (drop 16 l)
                       (junk_block ETHER_MAX_LEN) ∧ buf_wf b ∧ b_len b = ETHER_MAX_LEN
  end.
Proof.
  intros Hroom W Hsrc Hdst Hs s' l. unfold awdl_rx_data. fold s'.
  assert (state_ok s' P) as Hs' by (unfold s'; auto with owl).
  rewrite (peer_get_spec _ P (sok_peers _ _ Hs')). cbn [mbind option_bind].
  destruct (P !! src) as [peer|] eqn:HP.
  2: { by rewrite (rep_None _ _ (sok_peers _ _ Hs') src HP). }
  destruct (rep_Some _ _ (sok_peers _ _ Hs') src peer HP) as (p & -> & _).
  cbn [fst]. change (negb (PEERS_OK =? PEERS_OK)) with false. cbv iota.
  rewrite (valid_llc_spec frame W). cbn [mbind option_bind]. fold l.
  destruct (llc_ok l) eqn:Ellc; cbn [negb]; [|done].
  assert (8 <= Z.of_nat (length l)) as H8 by (unfold llc_ok in Ellc; lia).
  destruct (buf_strip_spec frame sizeof_llc_hdr W) as (f1 & -> & W1 & Hc1 & _);
    [unfold sizeof_llc_hdr; fold l; lia|]. cbn [fst].
  pose proof (contents_length f1 W1) as Hl1. fold l in Hc1.
  unfold buf_len, sizeof_llc_hdr, sizeof_awdl_data in *.
  pose proof (wf_len _ W1) as Hw1. rewrite u32_id by int_lia.
  assert (length (contents f1) = (length l - 8)%nat) as Hlen1
    by (rewrite Hc1, length_drop; done).
  destruct (Z.of_nat (length l) <? 16) eqn:E16; [by if_true|]. if_false.
  rewrite read_be16_spec by (done || int_lia). unfold spec_read. if_true. cbn [mbind option_bind snd].
  destruct (buf_strip_spec f1 8 W1) as (f2 & -> & W2 & Hc2 & _); [lia|]. cbn [fst].
  destruct (junk_block_ok ETHER_MAX_LEN) as [Hjl Hjb]; [unfold ETHER_MAX_LEN; lia|].
  rewrite (proj2 (Nat.leb_gt out_room (length out)) Hroom).
  unfold buf_new_owned. change (ETHER_MAX_LEN <? 0) with false. cbn [mbind option_bind].
  set (b0 := mk_buf (junk_block ETHER_MAX_LEN) 0 0 ETHER_MAX_LEN true).
  assert (buf_wf b0) as W0.
  { constructor; simpl; [lia|unfold ETHER_MAX_LEN; int_lia|lia|done]. }
  destruct (ether_frame_written b0 (junk_block ETHER_MAX_LEN) src dst
    (be_val (take (Z.to_nat 2) (drop (Z.to_nat 6) (contents f1)))) f2 (λ b, (out ++ [b], s', RX_OK)))
    as (b & Heq & Hcb & Wb & Hlb); [|by apply Nat2Z.inj; rewrite Hjl|done..| |].
  - unfold contents, b0. simpl. apply take_ge. lia.
  - rewrite Hc2, length_drop, Hlen1. pose proof (wf_len _ W). pose proof (contents_length frame W).
    unfold l. int_lia.
  - exists b. split; [exact Heq|]. split_and!; [|done|done].
    rewrite Hcb, Hc2, Hc1, !drop_drop. done.
Qed.

(** Where the array is full, a frame that would be stored is undefined. *)
Lemma rx_data_full frame src dst s P out : (out_room <= length out)%nat →
  buf_wf frame → state_ok s P →
  let s' := with_stats (incr_rx_data (st_stats s)) s in
  ((∃ rc, awdl_rx_data frame src dst s out = Some (out, s', rc)) ∧
   (is_Some (P !! src) → llc_ok (contents frame) = true → b_len frame < 16)) ∨
  (awdl_rx_data frame src dst s out = None ∧ is_Some (P !! src) ∧ llc_ok (contents frame) = true ∧ 16 <= b_len frame).
Proof.
  intros Hroom W Hs s'. unfold awdl_rx_data. fold s'.
  assert (state_ok s' P) as Hs' by (unfold s'; auto with owl).
  rewrite (peer_get_spec _ P (sok_peers _ _ Hs')). cbn [mbind option_bind].
  destruct (P !! src) as [peer|] eqn:HP.
  2: { rewrite (rep_None _ _ (sok_peers _ _ Hs') src HP). left. split; [by eexists|]. by intros []. }
  destruct (rep_Some _ _ (sok_peers _ _ Hs') src peer HP) as (p & -> & _).
  cbn [fst]. change (negb (PEERS_OK =? PEERS_OK)) with false. cbv iota.
  rewrite (valid_llc_spec frame W). cbn [mbind option_bind].
  destruct (llc_ok (contents frame)) eqn:Ellc; cbn [negb]; [|left; split; [by eexists|done]].
  assert (8 <= Z.of_nat (length (contents frame))) as H8 by (unfold llc_ok in Ellc; lia).
  destruct (buf_strip_spec frame sizeof_llc_hdr W) as (f1 & -> & W1 & Hc1 & _); [unfold sizeof_llc_hdr; lia|]. cbn [fst].
  pose proof (contents_length f1 W1) as Hl1. pose proof (contents_length frame W) as Hl. pose proof (wf_len _ W1) as Hw1.
  rewrite Hc1, length_drop in Hl1. unfold buf_len, sizeof_llc_hdr, sizeof_awdl_data in *. rewrite u32_id by int_lia.
  destruct (b_len f1 <? 8) eqn:E8; [left; split; [by eexists|lia]|].
  rewrite read_be16_spec by (done || int_lia). unfold spec_read. rewrite Hc1, length_drop. if_true.
  if_true. cbn [mbind option_bind snd]. right. split_and!; [done|by eexists|done|lia].
Qed.

Lemma rx_data_total frame src dst s P out :
  buf_wf frame → addr_ok src → addr_ok dst → state_ok s P →
  (awdl_rx_data frame src dst s out = None ∧ (out_room <= length out)%nat ∧ 16 <= b_len frame) ∨
  ∃ new s' rc, awdl_rx_data frame src dst s out = Some (out ++ new, s', rc) ∧
    state_ok s' P ∧ (the_peers s' = the_peers s ∧ same_node s s') ∧ (length new <= 1)%nat ∧ 16 * Z.of_nat (length new) <= b_len frame ∧
    Forall (λ b, buf_wf b ∧ b_len b = ETHER_MAX_LEN) new ∧ (length out <= out_room → length (out ++ new) <= out_room)%nat.
Proof.
  intros W Hsrc Hdst Hs.
  assert (∀ rc, awdl_rx_data frame src dst s out =
      Some (out, with_stats (incr_rx_data (st_stats s)) s, rc) →
    ∃ new s' rc, awdl_rx_data frame src dst s out = Some (out ++ new, s', rc) ∧
    state_ok s' P ∧ (the_peers s' = the_peers s ∧ same_node s s') ∧ (length new <= 1)%nat ∧ 16 * Z.of_nat (length new) <= b_len frame ∧
    Forall (λ b, buf_wf b ∧ b_len b = ETHER_MAX_LEN) new ∧ (length out <= out_room → length (out ++ new) <= out_room)%nat) as Hnone.
  { intros rc Hrc. eexists [], _, _. rewrite app_nil_r. split; [exact Hrc|].
    pose proof (wf_len _ W). split_and!; [auto with owl|done|by constructor|simpl; lia|simpl; lia|constructor|done]. }
  destruct (decide (out_room <= length out)%nat) as [Hfull|Hroom].
  { destruct (rx_data_full frame src dst s P out Hfull W Hs) as [[[rc Hd] _]|(? & _ & _ & ?)]; [|by left].
    right. by eapply Hnone. }
  right. pose proof (rx_data_spec frame src dst s P out ltac:(lia) W Hsrc Hdst Hs) as Hd.
  destruct (P !! src); [|by eapply Hnone]. simpl in Hd.
  destruct (llc_ok (contents frame)); simpl in Hd; [|by eapply Hnone].
  destruct (Z.of_nat (length (contents frame)) <? 16) eqn:E16; [by eapply Hnone|].
  rewrite (contents_length _ W) in E16.
  destruct Hd as (b & Heq & _ & Wb & Hlb). eexists [b], _, _. split; [exact Heq|].
  split_and!; [auto with owl|done|by constructor|simpl; lia|simpl; lia| |rewrite length_app; simpl; lia].
  apply Forall_cons_2; [done|apply Forall_nil_2].
Qed.

(** The header of a subframe. *)
Lemma amsdu_header_total frame :
  buf_wf frame →
  ∃ f1 r, (dst_a ← checked RX_TOO_SHORT (read_ether_addr frame 0);
           src_a ← checked RX_TOO_SHORT (read_ether_addr frame 6);
           len_a ← checked RX_TOO_SHORT (read_be16 frame 12);
           strip_checked RX_TOO_SHORT 14;;
           mret (dst_a, src_a, len_a)) frame = Some (f1, r) ∧ buf_wf f1 ∧
    match r with
    | inl _ => True
    | inr (dst_a, src_a, len_a) =>
        addr_ok dst_a ∧ addr_ok src_a ∧ is_u16 len_a ∧ b_len f1 = b_len frame - 14
    end.
Proof.
  intros W. unfold mbind, M_bind, mret, M_ret.
  rewrite !read_ether_addr_spec, read_be16_spec by (done || int_lia).
  pose proof (contents_length frame W) as Hl. pose proof (contents_ok frame W) as Hb.
  rewrite checked_spec by lia. destruct ((0 <=? 0) && _) eqn:E1; [|by eexists _, (inl _)].
  rewrite checked_spec by lia. destruct ((0 <=? 6) && _) eqn:E2; [|by eexists _, (inl _)].
  rewrite checked_spec by lia. destruct ((0 <=? 12) && _) eqn:E3; [|by eexists _, (inl _)].
  unfold strip_checked. destruct (buf_strip_spec frame 14 W) as (f1 & Hs & W1 & Hc1 & _); [lia|].
  pose proof (contents_length f1 W1) as Hl1. rewrite Hc1, length_drop in Hl1.
  rewrite Hs. change (14 <? 0) with false. cbv iota.
  eexists f1, (inr (_, _, _)). split; [done|]. split; [done|].
  assert (∀ n o, bytes_ok (take n (drop o (contents frame)))) as Hok
    by (intros; by apply Forall_take, Forall_drop).
  unfold id. split_and!; [split; [|done]..| |lia].
  - rewrite length_take, length_drop. lia.
  - rewrite length_take, length_drop. lia.
  - pose proof (be_val_bound _ (Hok (Z.to_nat 2) (Z.to_nat 12))) as Hbd.
    rewrite length_take, length_drop, Nat.min_l in Hbd by lia. exact Hbd.
Qed.

(** Behind a subframe: its bytes and the padding are stripped. *)
Lemma amsdu_skip_total frame n :
  buf_wf frame → 0 <= n <= b_len frame →
  ∃ f1 r, (strip_checked RX_TOO_SHORT n;;
           b ← get_st;
           if buf_len b >? 0
           then strip_checked RX_TOO_SHORT (Z.rem (4 - Z.rem (14 + n) 4) 4)
           else mret tt) frame = Some (f1, r) ∧ buf_wf f1 ∧ b_len f1 <= b_len frame - n.
Proof.
  intros W Hn. pose proof (contents_length frame W) as Hl.
  destruct (buf_strip_spec frame n W) as (f1 & Hs & W1 & Hc1 & _); [lia|].
  pose proof (contents_length f1 W1) as Hl1. rewrite Hc1, length_drop in Hl1.
  unfold mbind, M_bind, strip_checked at 1, get_st. rewrite Hs. if_false.
  destruct (buf_len f1 >? 0); [|exists f1, (inr tt); split_and!; [done|done|lia]].
  set (pad := Z.rem _ 4). assert (0 <= pad < 4) as Hpad.
  { unfold pad. assert (0 <= Z.rem (14 + n) 4 < 4) by (apply Z.rem_bound_pos; lia).
    apply Z.rem_bound_pos; lia. }
  unfold strip_checked. destruct (decide (pad <= b_len f1)) as [Hle|Hgt].
  - destruct (buf_strip_spec f1 pad W1) as (f2 & -> & W2 & Hc2 & _); [rewrite Hc1, length_drop; lia|].
    pose proof (contents_length f2 W2) as Hl2. rewrite Hc2, Hc1, !length_drop in Hl2.
    if_false. eexists f2, (inr tt). split_and!; [done|done|lia].
  - unfold buf_strip. if_true. eexists f1, (inl _). split_and!; [done|done|lia].
Qed.

(** Either the loop ends, or it writes behind the array. *)
Lemma amsdu_total fuel : ∀ frame s P out,
  buf_wf frame → (Z.to_nat (b_len frame) < fuel)%nat → state_ok s P → (length out <= out_room)%nat →
  (awdl_rx_data_amsdu fuel frame s out = Undef ∧
   30 * (Z.of_nat out_room + 1 - Z.of_nat (length out)) <= b_len frame) ∨
  ∃ new s' rc, awdl_rx_data_amsdu fuel frame s out = Done (out ++ new, s', rc) ∧
    state_ok s' P ∧ (the_peers s' = the_peers s ∧ same_node s s') ∧
    Forall (λ b, buf_wf b ∧ b_len b = ETHER_MAX_LEN) new ∧
    30 * Z.of_nat (length new) <= b_len frame ∧ (length (out ++ new) <= out_room)%nat.
Proof.
  induction fuel as [|fuel IH]; intros frame s P out W Hf Hs Hroom; [lia|].
  assert (∀ rc : Z, ∃ new s' (rc' : Z), Done (out, s, rc) = Done (out ++ new, s', rc') ∧
    state_ok s' P ∧ (the_peers s' = the_peers s ∧ same_node s s') ∧
    Forall (λ b, buf_wf b ∧ b_len b = ETHER_MAX_LEN) new ∧
    30 * Z.of_nat (length new) <= b_len frame ∧ (length (out ++ new) <= out_room)%nat) as Hstop.
  { intros rc. exists [], s, rc. rewrite app_nil_r. pose proof (wf_len _ W).
    split_and!; [done..|constructor|simpl; lia|done]. }
  cbn [awdl_rx_data_amsdu]. change (buf_len frame) with (b_len frame).
  destruct (negb (b_len frame >? 0)) eqn:Epos; [right; apply Hstop|].
  destruct (amsdu_header_total frame W) as (f1 & r & -> & W1 & Hr).
  cbn [of_option mbind outcome_bind]. destruct r as [r|[[dst_a src_a] len_a]]; [right; apply Hstop|].
  destruct Hr as (Hda & Hsa & Hlen & Hb1). change (buf_len f1) with (b_len f1). assert (0 <= len_a) by int_lia.
  destruct (len_a >? b_len f1) eqn:Elen; [right; apply Hstop|]. unfold buf_new_const. if_false.
  cbn [of_option mbind outcome_bind].
  destruct (sub_buf f1 0 len_a (mk_buf (b_mem f1) (b_data f1) (b_data f1) len_a false) W1) as [Ws _];
    [lia|int_lia|rewrite (contents_length f1 W1); lia
    |unfold buf_new_const; if_false; simpl; do 2 f_equal; lia|].
  unfold buf_data. cbn [fst snd].
  destruct (rx_data_total _ src_a dst_a s P out Ws Hsa Hda Hs)
    as [(Hd & Hfull & H16)|(new1 & s1 & rc & Hd & Hs1 & [Hp1 Hsn1] & Hl1 & Hn1 & Hf1 & Hr1)].
  { left. rewrite Hd. split; [done|]. cbn [b_len] in H16. lia. }
  cbn [b_len] in Hn1. specialize (Hr1 Hroom).
  rewrite Hd. cbn [of_option mbind outcome_bind].
  destruct (rc <? 0). { right. exists new1, s1, rc. split_and!; [done..|lia|done]. }
  destruct (amsdu_skip_total f1 len_a W1) as (f2 & r2 & -> & W2 & Hb2); [int_lia|].
  cbn [of_option mbind outcome_bind]. destruct r2 as [r2|].
  { right. exists new1, s1, r2. split_and!; [done..|lia|done]. }
  destruct (IH f2 s1 P (out ++ new1) W2) as [[-> Hover]|(new2 & s2 & rc2 & -> & Hs2 & [Hp2 Hsn2] & Hf2 & Hn2 & Hr2)];
    [lia|done|done| |].
  { left. split; [done|]. rewrite length_app in Hover. lia. }
  right. exists (new1 ++ new2), s2, rc2. rewrite app_assoc, length_app, Forall_app.
  split_and!; [done|done|congruence|by transitivity s1|done|done|lia|rewrite <- app_assoc in *; done].
Qed.
End data.

(** ** Whole frames *)

Lemma radiotap_fields_total `{RadiotapOk} frame fs err rssi flags :
  rt_iterator frame = inr (fs, err) → is_u8 flags →
  ∃ rssi' flags', radiotap_fields fs rssi flags = Some (rssi', flags') ∧ is_u8 flags'.
Proof.
  intros Hrt. assert (∀ f, f ∈ fs → rf_is_radiotap_ns f = true →
    (rf_index f = IEEE80211_RADIOTAP_FLAGS ∨ rf_index f = IEEE80211_RADIOTAP_DBM_ANTSIGNAL) →
    ∃ b bs, rf_arg f = b :: bs ∧ is_u8 b) as Harg by (intros; by eapply rt_field_arg).
  clear Hrt. revert rssi flags.
  induction fs as [|f fs IH]; intros rssi flags Hfl; simpl; [eauto|].
  assert (∀ g, g ∈ fs → g ∈ f :: fs) as Hin by (intros; by right).
  specialize (IH (λ g Hg, Harg g (Hin g Hg))).
  destruct (rf_is_radiotap_ns f) eqn:Ens; simpl; [|auto].
  case_match; [auto|]. case_match eqn:Ef.
  - destruct (Harg f) as (b & bs & -> & Hb); [left|done|left; lia|]. simpl. auto.
  - case_match eqn:Ea; [|auto].
    destruct (Harg f) as (b & bs & -> & Hb); [left|done|right; lia|]. simpl. auto.
Qed.

Lemma check_fcs_total `{Radiotap} flags frame :
  buf_wf frame → ∃ f1 rc, run (check_fcs flags) frame = Some (f1, rc) ∧ buf_wf f1 ∧ b_len f1 <= b_len frame.
Proof.
  intros W. unfold check_fcs, run. destruct (has_flag flags IEEE80211_RADIOTAP_F_BADFCS); [eauto with lia|].
  unfold mbind, M_bind. destruct (has_flag flags IEEE80211_RADIOTAP_F_FCS); [|simpl; eauto with lia].
  unfold take_checked. destruct (decide (4 <= b_len frame)) as [Hle|Hgt].
  - destruct (buf_take_spec frame 4 W) as (f1 & -> & W1 & Hc); [rewrite (contents_length frame W); lia|].
    simpl. exists f1, 0. split_and!; [done..|].
    rewrite <- (contents_length f1 W1), <- (contents_length frame W), Hc, length_take. lia.
  - unfold buf_take. if_true. simpl. eauto with lia.
Qed.

(** The QoS control field. *)
Lemma qos_header_total frame :
  buf_wf frame →
  ∃ f1 r, (qosc ← checked RX_TOO_SHORT (read_le16 frame 0);
           strip_checked RX_TOO_SHORT IEEE80211_QOS_CTL_LEN;;
           mret qosc) frame = Some (f1, r) ∧ buf_wf f1 ∧ b_len f1 <= b_len frame.
Proof.
  intros W. unfold mbind, M_bind, mret, M_ret. rewrite read_le16_spec by (done || int_lia).
  rewrite checked_spec by lia. destruct ((0 <=? 0) && _) eqn:E; [|by eexists _, (inl _); split_and!].
  unfold strip_checked.
  destruct (buf_strip_spec frame IEEE80211_QOS_CTL_LEN W) as (f1 & -> & W1 & Hc & _);
    [unfold IEEE80211_QOS_CTL_LEN; lia|].
  change (IEEE80211_QOS_CTL_LEN <? 0) with false. cbv iota. eexists _, (inr _). split_and!; [done..|].
  rewrite <- (contents_length f1 W1), <- (contents_length frame W), Hc, length_drop. lia.
Qed.

Section rx_total.
Context `{CallocBounded} `{MallocOk} `{RxEnvOk} `{OutRoom} `{RadiotapOk} {E : Type} (hooks : awdl_hooks E).

(** What a frame of [len] bytes may have produced: every frame behind the
    first one took a header, an LLC header and a data header. *)
Definition produced (len : Z) (out : list buf) : Prop :=
  Forall (λ b, buf_wf b ∧ b_len b = ETHER_MAX_LEN) out ∧
  ((length out <= 1)%nat ∨ 30 * Z.of_nat (length out) <= len) ∧ (length out <= out_room)%nat.

(** A frame of [len] bytes that has more subframes than the array entries. *)
Definition too_many (len : Z) : Prop := out_room = 0%nat ∨ 30 * (Z.of_nat out_room + 1) <= len.

Lemma produced_nil len : produced len [].
Proof. split; [constructor|simpl; lia]. Qed.
Lemma produced_weaken len len' out : len <= len' → produced len out → produced len' out.
Proof. intros Hl (Ho & Hn & Hr). split; [done|lia]. Qed.
#[local] Hint Resolve produced_nil : owl.

(** What receiving leaves behind. *)
Definition rx_post (len : Z) (src : ether_addr) (s : awdl_state) (P : gmap mkey awdl_peer)
    (out : list buf) (s' : awdl_state) (rc : Z) : Prop :=
  produced len out ∧
  ∃ P', state_ok s' P' ∧ same_node s s' ∧
    ((only_peer src P P' ∧
      (no_leak (the_peers s) → no_leak (the_peers s'))) ∨
     (rc = RX_IGNORE ∧ cannot_grow src (the_peers s) (the_peers s') ∧ P' ⊆ P)).

Lemma rx_post_same len s P out s' rc src :
  produced len out → state_ok s' P → the_peers s' = the_peers s ∧ same_node s s' →
  rx_post len src s P out s' rc.
Proof.
  intros Ho Hs [Hp Hn]. split; [done|]. exists P. split; [done|]. split; [done|]. left. rewrite Hp. auto with owl.
Qed.

Lemma rx_dispatch_total fc from to frame rssi tsft s P e :
  buf_wf frame → addr_ok from → addr_ok to → state_ok s P →
  (rx_dispatch hooks fc from to frame rssi tsft s e [] = Undef ∧ too_many (b_len frame)) ∨
  ∃ out s' e' rc, rx_dispatch hooks fc from to frame rssi tsft s e [] = Done (out, s', e', rc) ∧
    rx_post (b_len frame) from s P out s' rc.
Proof.
  intros W Hf Ht Hs. unfold rx_dispatch.
  case_match.
  { destruct (rx_action_total hooks frame rssi tsft from s P e W Hf Hs)
      as (s' & e' & rc & P' & -> & Hs' & Hpost).
    right. cbn [mbind outcome_bind]. eexists _, _, _, _. split; [done|]. split; [auto with owl|eauto]. }
  case_match.
  2: { case_match; [|right; eexists _, _, _, _; (split; [done|]); apply rx_post_same; auto with owl].
       destruct (rx_data_total frame from to s P [] W Hf Ht Hs)
         as [(Hd & Hfull & _)|(new & s1 & rc1 & Hd & Hs1 & Hp1 & Hl1 & _ & Hn1 & Hr1)]; rewrite Hd;
         cbn [of_option mbind outcome_bind].
       - left. split; [done|]. left. simpl in Hfull. lia.
       - right. eexists _, _, _, _; (split; [done|]); apply rx_post_same; auto with owl.
         split; [done|]. split; [by left|apply Hr1; simpl; lia]. }
  destruct (qos_header_total frame W) as (f1 & r & -> & W1 & Hl).
  cbn [of_option mbind outcome_bind]. destruct r as [r|qosc].
  { right. eexists _, _, _, _. split; [done|]. apply rx_post_same; auto with owl. }
  case_match.
  - destruct (amsdu_total (S (Z.to_nat (b_len f1))) f1 s P [] W1) as
      [[-> Hover]|(new2 & s2 & rc2 & -> & Hs2 & Hp2 & Hn2 & Hl2 & Hr2)]; [lia|done|simpl; lia| |].
    + left. split; [done|]. right. simpl in Hover. lia.
    + cbn [mbind outcome_bind]. right. eexists _, _, _, _. split; [done|]. apply rx_post_same; [|done..].
      split; [done|simpl in *; lia].
  - destruct (rx_data_total f1 from to s P [] W1 Hf Ht Hs)
      as [(-> & Hfull & _)|(new2 & s2 & rc2 & -> & Hs2 & Hp2 & Hl2 & _ & Hn2 & Hr2)];
      cbn [of_option mbind outcome_bind].
    + left. split; [done|]. left. simpl in Hfull. lia.
    + right. eexists _, _, _, _. split; [done|]. apply rx_post_same; [|done..].
      split; [done|]. split; [by left|apply Hr2; simpl; lia].
Qed.

Lemma rx_total frame tsft s P e :
  buf_wf frame → state_ok s P →
  (awdl_rx hooks frame tsft s e = Undef ∧ too_many (b_len frame)) ∨
  ∃ out s' e' rc, awdl_rx hooks frame tsft s e = Done (out, s', e', rc) ∧
    ∃ from, rx_post (b_len frame) from s P out s' rc.
Proof.
  intros W Hs.
  assert (∀ rc, (Done ([], s, e, rc) = @Undef (list buf * awdl_state * E * Z) ∧ too_many (b_len frame)) ∨
    ∃ out s' e' rc', Done ([], s, e, rc) = Done (out, s', e', rc') ∧
    ∃ from, rx_post (b_len frame) from s P out s' rc') as Hstop.
  { intros rc. right. eexists [], s, e, rc. split; [done|]. exists []. apply rx_post_same; auto with owl. }
  unfold awdl_rx, radiotap_parse.
  destruct (rt_iterator (contents frame)) as [err|[fs err]] eqn:Hrt; [apply Hstop|].
  destruct (radiotap_fields_total _ fs err junk_rssi junk_flags Hrt junk_flags_ok)
    as (rssi & flags & -> & _). cbn [of_option mbind option_bind outcome_bind fst snd].
  destruct (negb (err =? MINUS_ENOENT)); [apply Hstop|].
  change (RX_OK <? 0) with false. cbv iota.
  pose proof (rt_init_length _ _ _ Hrt) as Hlen.
  destruct (buf_strip_spec frame (rt_it_len (contents frame)) W) as (f1 & -> & W1 & Hc1 & _); [done|].
  if_false. destruct (check_fcs_total flags f1 W1) as (f2 & rc & -> & W2 & Hl2).
  cbn [of_option mbind outcome_bind]. destruct (negb (rc =? 0)); [apply Hstop|].
  rewrite read_bytes_spec by (done || (unfold sizeof_ieee80211_hdr; int_lia)).
  cbn [of_option mbind outcome_bind]. unfold sizeof_ieee80211_hdr.
  destruct ((0 <=? 0) && _) eqn:E24; cbn [fst]; [|apply Hstop].
  change (24 <? 0) with false. cbv iota.
  rewrite <- (Z.add_0_r (b_data f2)), load_contents by (done || lia).
  cbn [of_option mbind outcome_bind]. unfold hdr_members.
  set (h := take (Z.to_nat 24) (drop (Z.to_nat 0) (contents f2))).
  assert (length h = 24%nat) as Hh by (unfold h; rewrite length_take, length_drop; lia).
  assert (bytes_ok h) as Hhb by (apply Forall_take, Forall_drop; by apply contents_ok).
  case_match; [apply Hstop|].
  destruct (buf_strip_spec f2 24 W2) as (f3 & -> & W3 & Hc3 & _); [lia|].
  change (24 <? 0) with false. cbv iota.
  destruct (rx_dispatch_total (le_val (take 2 h)) (take 6 (drop 10 h)) (take 6 (drop 4 h)) f3 rssi
    tsft s P e W3) as [[Hd Hmany]|(out & s' & e' & rc' & Hd & Hpost)];
    [split; [rewrite length_take, length_drop; lia|by apply Forall_take, Forall_drop]..|done| |].
  { left. split; [exact Hd|]. destruct Hmany as [?|Hmany]; [by left|right].
    pose proof (contents_length frame W). pose proof (contents_length f1 W1). pose proof (contents_length f2 W2).
    pose proof (contents_length f3 W3). rewrite Hc3, Hc1, length_drop in *. lia. }
  right. eexists _, _, _, _. split; [exact Hd|]. eexists. destruct Hpost as [Hpr Hpost]. split; [|exact Hpost].
  eapply produced_weaken; [|exact Hpr].
  pose proof (contents_length frame W). pose proof (contents_length f1 W1). pose proof (contents_length f2 W2).
  pose proof (contents_length f3 W3). rewrite Hc3, Hc1, length_drop in *. lia.
Qed.
End rx_total.

(** ** A concrete environment *)

Definition sample_rx_env : RxEnv := {|
  junk_chans := λ _ _, replicate 16 CHAN_NULL;
  junk_block := λ n, replicate (Z.to_nat n) 0;
  junk_rssi := 0;
  junk_flags := 0 |}.

Lemma sample_rx_env_ok : @RxEnvOk sample_rx_env.
Proof.
  split.
  - done.
  - intros n Hn. simpl. rewrite length_replicate. split; [lia|]. apply Forall_replicate. int_lia.
  - simpl. int_lia.
Qed.

Definition no_hooks : awdl_hooks unit := mk_hooks None None None.

(** The buffer that holds the given bytes. *)
Definition buf_of (l : list Z) : buf := mk_buf l 0 0 (Z.of_nat (length l)) false.

Lemma buf_of_wf l : bytes_ok l → Z.of_nat (length l) <= INT_MAX → buf_wf (buf_of l) ∧ contents (buf_of l) = l.
Proof.
  intros Hl Hm. split; [constructor; simpl; try done; lia|].
  unfold contents. simpl. by rewrite Nat2Z.id, firstn_all.
Qed.

(** A node that is not [sample_key] and knows that peer. *)
Definition receiver : awdl_state :=
  mk_state [0; 1; 2; 3; 4; 5] (replicate 65 0) 0x34 1 0 110 ETHER_BROADCAST 1 (-65) (-5)
    (awdl_election_state_init (mk_election [] [] [] 0 0 0 0 0) [0; 1; 2; 3; 4; 5])
    (awdl_sync_state_init 0) (mk_channel 3 (replicate 16 CHAN_OPCLASS_6) CHAN_OPCLASS_6 CHAN_NULL)
    (mk_peer_state sample_peers 2000000 1000000) awdl_stats_init.

Lemma receiver_addr_ok : addr_ok [0; 1; 2; 3; 4; 5].
Proof. split; [done|]. solve_list. Qed.

Lemma receiver_ok : state_ok receiver {[ sample_key := sample_peer ]}.
Proof.
  destruct sample_state_ok. pose proof receiver_addr_ok as Ha. by split.
Qed.

(** ** Properties *)

(** C1: [awdl_rx] on arbitrary input: whatever the bytes of the frame,
    malformed or truncated at any point, it returns, reads and writes no
    memory outside its buffers and never follows a dangling pointer, with one
    exception: it does not check the array the caller provides for the frames
    it produces, and a frame with more of them than entries, which takes 30
    bytes for each (or an array without entries), makes it write behind the
    array.  Where it returns, the frames produced fit the array and are
    well-formed Ethernet buffers, and the node is well formed, whose address,
    own election state, version, class, channel encoding, signal filter with
    its limits and timeout no frame changes; only the entry of one sender may
    have changed and no peer leaks, unless the sender is new, the table has
    no place for it and gets no memory to grow, which returns [RX_IGNORE]. *)
Theorem rx_total_on_any_frame `{CallocBounded} `{MallocOk} `{RxEnvOk} `{OutRoom} `{RadiotapOk} {E}
    (hooks : awdl_hooks E) frame tsft s P e :
  buf_wf frame → state_ok s P →
  (awdl_rx hooks frame tsft s e = Undef ∧ (out_room = 0%nat ∨ 30 * (Z.of_nat out_room + 1) <= b_len frame)) ∨
  ∃ out s' e' rc P' from, awdl_rx hooks frame tsft s e = Done (out, s', e', rc) ∧
    state_ok s' P' ∧ same_node s s' ∧
    Forall (λ b, buf_wf b ∧ b_len b = ETHER_MAX_LEN) out ∧ (length out <= out_room)%nat ∧
    ((only_peer from P P' ∧ (no_leak (the_peers s) → no_leak (the_peers s'))) ∨
     (rc = RX_IGNORE ∧ cannot_grow from (the_peers s) (the_peers s') ∧ P' ⊆ P)).
Proof.
  intros W Hs. destruct (rx_total hooks frame tsft s P e W Hs)
    as [Hmany|(out & s' & e' & rc & Hrx & from & (Ho & _ & Hr) & P' & Hs' & Hn & Hp)]; [by left|right].
  exists out, s', e', rc, P', from. done.
Qed.

(** A frame cut off in the IEEE 802.11 header. *)
Definition sample_short : buf := buf_of [0; 0; 9; 0; 4; 0; 0; 0; 24; 208; 0; 1].

Lemma sample_short_wf : buf_wf sample_short.
Proof. apply buf_of_wf; [solve_list|simpl; int_lia]. Qed.

Lemma rx_total_on_any_frame_witness :
  ∃ out s' e' rc, @awdl_rx small_calloc sample_malloc sample_rx_env 16%nat rt_standard unit no_hooks
      sample_short 77 receiver tt = Done (out, s', e', rc) ∧ same_node receiver s'.
Proof.
  destruct (@rx_total_on_any_frame small_calloc small_calloc_bounded sample_malloc sample_malloc_ok
    sample_rx_env sample_rx_env_ok 16%nat rt_standard rt_standard_ok unit no_hooks sample_short 77
    receiver _ tt sample_short_wf receiver_ok) as [[_ [Hz|Hl]]|(out & s' & e' & rc & _ & _ & Hrx & _ & Hn & _)].
  - discriminate Hz.
  - vm_compute in Hl. by destruct Hl.
  - exists out, s', e', rc. split; [exact Hrx|exact Hn].
Defined.

(** The signal filter: with the filter on, an action frame below the
    threshold (for known peers, below threshold plus grace) is rejected with
    [RX_IGNORE_RSSI] before anything changes, and one at or above it is not
    rejected by the filter. *)
Theorem rx_action_rssi_filter `{CallocEnv} `{MallocEnv} `{RxEnv} {E} (hooks : awdl_hooks E)
    frame rssi tsft src s P e subtype :
  state_ok s P → awdl_parse_action_hdr frame = Some subtype → 0 <= subtype →
  let limit := match P !! src with
               | Some _ => rssi_threshold s + rssi_grace s
               | None => rssi_threshold s
               end in
  awdl_rx_action hooks frame rssi tsft src s e =
    if negb (filter_rssi s =? 0) && (rssi <? limit) then Done (s, e, RX_IGNORE_RSSI)
    else rx_action_update hooks subtype (buf_strip frame sizeof_awdl_action).1 tsft src
           (with_stats (incr_rx_action (st_stats s)) s) e.
Proof.
  intros Hs Hp Hsub limit. unfold awdl_rx_action. rewrite Hp. cbn [of_option mbind outcome_bind].
  if_false. by rewrite (rssi_rejects_spec s P) by done.
Qed.

(** What [awdl_rx_data] does with a data frame from [src]: a frame from
    an unknown sender, without the LLC header or too short is refused with
    its code and delivers nothing; any other frame delivers exactly one
    Ethernet frame with the addresses, the type and the payload in place when
    the payload fits, always 1518 bytes long, the bytes beyond the payload
    being whatever the block held before. *)
Theorem rx_data_delivers `{RxEnvOk} `{OutRoom} frame src dst s P out : (length out < out_room)%nat →
  buf_wf frame → addr_ok src → addr_ok dst → state_ok s P →
  let s' := with_stats (incr_rx_data (st_stats s)) s in
  let l := contents frame in
  match P !! src with
  | None => awdl_rx_data frame src dst s out = Some (out, s', RX_IGNORE_PEER)
  | Some _ =>
      if negb (llc_ok l) then awdl_rx_data frame src dst s out = Some (out, s', RX_UNEXPECTED_FORMAT)
      else if Z.of_nat (length l) <? 16
      then awdl_rx_data frame src dst s out = Some (out, s', RX_TOO_SHORT)
      else ∃ b, awdl_rx_data frame src dst s out = Some (out ++ [b], s', RX_OK) ∧
        contents b = ether_frame dst src (be_val (take 2 (drop 14 l))) (drop 16 l)
                       (junk_block ETHER_MAX_LEN) ∧ buf_wf b ∧ b_len b = ETHER_MAX_LEN
  end.
Proof. apply rx_data_spec. Qed.

Definition sample_data : list Z :=
  [0xaa; 0xaa; 3; 0; 0x17; 0xf2; 8; 0; 3; 4; 0; 0; 0; 0; 0x86; 0xdd; 7; 7; 7].

Lemma sample_data_wf : buf_wf (buf_of sample_data).
Proof. apply buf_of_wf; [solve_list|simpl; int_lia]. Qed.
