(* ===== verification/TxRx.v ===== *)
(** * TxRx: what is sent is what is received (src/tx.c, src/rx.c)

    The frames of Tx given to the receiver of Rx.  Between the two nodes the
    radiotap header is replaced: the sender's asks its card for a rate, the
    receiver's reports what the card measured.  An element is [absorbed] when
    its handler accepts it and turns the entry of the sender and the
    receiver's clock into given ones; the handlers are run on the values the
    sender writes, the loop over the elements composes them. *)

From Stdlib Require Import ZArith Lia ZifyBool.
From stdpp Require Import base tactics numbers list gmap.
From S2P Require Import Prelude Wire Crc32 HashMap Sync Channel Election.
From S2P Require Import Peers State Frame Radiotap Tx Rx.

Local Open Scope Z_scope.

(** ** Reading a member of a structure *)

Lemma spec_read_member {A} (dec : list Z → A) fs i f o n :
  fs !! i = Some f → Z.of_nat (length (concat (take i fs))) = o → Z.of_nat (length f) = n →
  spec_read dec n (concat fs) o = (n, Some (dec f)).
Proof.
  intros Hf <- <-.
  assert (concat fs = concat (take i fs) ++ f ++ concat (drop (S i) fs)) as ->
    by (rewrite <- (take_drop_middle fs i f Hf) at 1; by rewrite concat_app).
  unfold spec_read. rewrite !length_app. if_true.
  by rewrite !Nat2Z.id, drop_app_length, take_app_length.
Qed.

Section members.
Context (val : buf) (fs : list (list Z)).
Hypothesis W : buf_wf val.
Hypothesis Hfs : contents val = concat fs.

Lemma member_end i f :
  fs !! i = Some f →
  Z.of_nat (length (concat (take i fs))) + Z.of_nat (length f) <= INT_MAX.
Proof.
  intros Hf. pose proof (contents_length val W) as Hl. pose proof (wf_len _ W) as Hw.
  rewrite Hfs, <- (take_drop_middle fs i f Hf), concat_app, concat_cons, !length_app in Hl. lia.
Qed.

Lemma read_u8_member i v o :
  fs !! i = Some (byte v) → Z.of_nat (length (concat (take i fs))) = o →
  read_u8 val o = Some (1, Some (u8 v)).
Proof.
  intros Hf <-. pose proof (member_end i _ Hf). rewrite read_u8_spec by (done || simpl in *; lia).
  rewrite Hfs, (spec_read_member le_val fs i (byte v)) by done. simpl.
  by rewrite Z.mul_0_r, Z.add_0_r.
Qed.

Lemma read_le16_member i v o :
  fs !! i = Some (htole16 v) → Z.of_nat (length (concat (take i fs))) = o →
  read_le16 val o = Some (2, Some (u16 v)).
Proof.
  intros Hf <-. pose proof (member_end i _ Hf). rewrite read_le16_spec by (done || simpl in *; lia).
  rewrite Hfs, (spec_read_member le_val fs i (htole16 v)) by done.
  unfold htole16. by rewrite le_val_bytes.
Qed.

Lemma read_le32_member i v o :
  fs !! i = Some (htole32 v) → Z.of_nat (length (concat (take i fs))) = o →
  read_le32 val o = Some (4, Some (u32 v)).
Proof.
  intros Hf <-. pose proof (member_end i _ Hf). rewrite read_le32_spec by (done || simpl in *; lia).
  rewrite Hfs, (spec_read_member le_val fs i (htole32 v)) by done.
  unfold htole32. by rewrite le_val_bytes.
Qed.

Lemma read_bytes_copy_member i f o n :
  fs !! i = Some f → Z.of_nat (length (concat (take i fs))) = o → Z.of_nat (length f) = n →
  read_bytes_copy val o n = Some (n, Some f).
Proof.
  intros Hf <- <-. pose proof (member_end i _ Hf). rewrite read_bytes_copy_spec by (done || lia).
  by rewrite Hfs, (spec_read_member id fs i f).
Qed.

Lemma read_ether_addr_member i f o :
  fs !! i = Some f → Z.of_nat (length (concat (take i fs))) = o → length f = 6%nat →
  read_ether_addr val o = Some (6, Some f).
Proof.
  intros Hf Ho Hl. apply (read_bytes_copy_member i); [done|done|]. by rewrite Hl.
Qed.
End members.

(** The side conditions of the lemmas above: which member it is, and the
    lengths of the members before it. *)
Ltac member := done || (simpl; rewrite ?length_app; simpl; rewrite ?length_app; simpl; lia).

(** *** Steps of a computation that goes on *)

Lemma bind_checked {S A B} err n (v : A) (f : A → M S B) st :
  0 <= n → (checked err (Some (n, Some v)) ≫= f) st = f v st.
Proof. intros. unfold mbind, M_bind, checked. by if_false. Qed.

Lemma bind_get {S B} (f : S → M S B) st : (get_st ≫= f) st = f st st.
Proof. done. Qed.

Lemma bind_guard {S B} b r (f : unit → M S B) st :
  b = false → (guard_ret b r ≫= f) st = f tt st.
Proof. by intros ->. Qed.

(** ** Elements *)

Lemma with_sync_id s : with_sync (st_sync s) s = s.
Proof. by destruct s. Qed.

(** The entry of the sender and the clock of the receiver. *)
Abbreviation view := (awdl_peer * awdl_sync_state)%type.

Section absorbs.
Context `{RxEnvOk} (el : awdl_election_state) (tsft : Z).

(** A receiver with election state [el] accepts the element at time [tsft]
    and goes from view [a] to [b]. *)
Definition absorbs (tv : Z * list Z) (a b : view) : Prop :=
  ∀ val s, buf_wf val → contents val = tv.2 → st_election s = el → st_sync s = a.2 →
    ∃ rc, 0 <= rc ∧
      run (awdl_handle_tlv tv.1 val tsft) (a.1, s) = Some ((b.1, with_sync b.2 s), rc).

Lemma absorbs_version state p sy :
  is_u8 (st_version state) → is_u8 (dev_class state) →
  absorbs (AWDL_VERSION_TLV, version_tlv_body (version_params state)) (p, sy)
    (set_version (st_version state) (dev_class state) p, sy).
Proof.
  intros Hv Hd val s W Hc _ Hsy. exists RX_OK. split; [done|]. simpl in *. subst sy.
  set (fs := [byte (st_version state); byte (dev_class state)]).
  assert (contents val = concat fs) as Hfs by done.
  change (awdl_handle_tlv AWDL_VERSION_TLV val tsft) with (awdl_handle_version_tlv val).
  unfold awdl_handle_version_tlv, rd_val, run.
  rewrite (read_u8_member val fs W Hfs 0 (st_version state) 0) by done.
  rewrite (read_u8_member val fs W Hfs 1 (dev_class state) 1) by done.
  simpl. rewrite !u8_id by done. by rewrite with_sync_id.
Qed.

(** An element without a handler. *)
Lemma absorbs_unknown t v a :
  t = AWDL_SERVICE_PARAMETERS_TLV ∨ t = AWDL_ENHANCED_DATA_RATE_CAPABILITIES_TLV →
  absorbs (t, v) a a.
Proof.
  intros Ht val s _ _ _ Hsy. exists RX_IGNORE. split; [done|]. rewrite <- Hsy, with_sync_id.
  by destruct Ht as [-> | ->].
Qed.

(** The election state the sender's elements of version 1 leave behind. *)
Definition election_v1_heard (e : awdl_election_state) (p : awdl_peer) : awdl_election_state :=
  if supports_v2 p =? 0 then
    mk_election (master_addr e) (sync_addr (election p)) (self_addr (election p)) (u8 (height e))
      (master_metric e) (self_metric e) (master_counter (election p)) (self_counter (election p))
  else election p.

Lemma absorbs_election state p sy :
  election_ok (st_election state) →
  absorbs (AWDL_ELECTION_PARAMETERS_TLV, election_params_body (election_params state)) (p, sy)
    (set_election (election_v1_heard (st_election state) p) p, sy).
Proof.
  intros [[Hm _] _ _ _ Hmm Hsm _ _] val s W Hc _ Hsy. exists RX_OK. split; [done|].
  simpl in *. subst sy. set (e := st_election state) in *.
  set (fs := [byte 0; htole16 0; byte (height e); byte 0; master_addr e; htole32 (master_metric e);
              htole32 (self_metric e); [0; 0]]).
  assert (contents val = concat fs) as Hfs by done.
  change (awdl_handle_tlv AWDL_ELECTION_PARAMETERS_TLV val tsft)
    with (awdl_handle_election_params_tlv val).
  unfold awdl_handle_election_params_tlv, rd_val, run.
  rewrite (read_u8_member val fs W Hfs 2 (height e) 3) by done.
  rewrite (read_ether_addr_member val fs W Hfs 4 (master_addr e) 5) by done.
  rewrite (read_le32_member val fs W Hfs 5 (master_metric e) 11)
    by member.
  rewrite (read_le32_member val fs W Hfs 6 (self_metric e) 15)
    by member.
  unfold election_v1_heard, guard_ret, mbind, M_bind, get_st. cbn [fst].
  destruct (supports_v2 p =? 0); simpl; rewrite with_sync_id; [|by destruct p].
  by rewrite (u32_id (master_metric e)), (u32_id (self_metric e)).
Qed.

(** What a sender with election state [e] is known for: all of it. *)
Definition election_heard (e : awdl_election_state) (p : awdl_peer) : awdl_election_state :=
  mk_election (master_addr e) (sync_addr e) (self_addr (election p)) (height e) (master_metric e)
    (self_metric e) (master_counter e) (self_counter e).

Lemma absorbs_election_v2 state p sy :
  election_ok (st_election state) →
  absorbs (AWDL_ELECTION_PARAMETERS_V2_TLV, election_v2_body (election_v2 state)) (p, sy)
    (set_supports_v2 1 (set_election (election_heard (st_election state) p) p), sy).
Proof.
  intros [[Hm _] [Hs _] _ Hh Hmm Hsm Hmc Hsc] val s W Hc _ Hsy. exists RX_OK. split; [done|].
  simpl in *. subst sy. set (e := st_election state) in *.
  set (fs := [master_addr e; sync_addr e; htole32 (master_counter e); htole32 (height e);
              htole32 (master_metric e); htole32 (self_metric e); htole32 0; htole32 0;
              htole32 (self_counter e)]).
  assert (contents val = concat fs) as Hfs
    by (rewrite Hc; unfold election_v2_body, fs; cbn [concat]; by rewrite app_nil_r).
  change (awdl_handle_tlv AWDL_ELECTION_PARAMETERS_V2_TLV val tsft)
    with (awdl_handle_election_params_v2_tlv val).
  unfold awdl_handle_election_params_v2_tlv, rd_val, run.
  rewrite (read_le32_member val fs W Hfs 3 (height e) 16) by member.
  rewrite (read_ether_addr_member val fs W Hfs 0 (master_addr e) 0) by member.
  rewrite (read_ether_addr_member val fs W Hfs 1 (sync_addr e) 6) by member.
  rewrite (read_le32_member val fs W Hfs 2 (master_counter e) 12) by member.
  rewrite (read_le32_member val fs W Hfs 4 (master_metric e) 20) by member.
  rewrite (read_le32_member val fs W Hfs 5 (self_metric e) 24) by member.
  rewrite (read_le32_member val fs W Hfs 8 (self_counter e) 36) by member.
  simpl. rewrite with_sync_id, !u32_id by done. done.
Qed.

Lemma absorbs_data_path state p sy :
  length (self_address state) = 6%nat → length (country_code p) = 3%nat →
  absorbs (AWDL_DATA_PATH_STATE_TLV, data_path_body (data_path state)) (p, sy)
    (set_country_code country_X0 p, sy).
Proof.
  intros Ha Hcc val s W Hc _ Hsy. exists RX_OK. split; [done|]. simpl in *. subst sy.
  set (sc := dp_social_channels (data_path state)).
  set (fs := [htole16 0x8f24; country_X0; htole16 sc; self_address state; htole16 0]).
  assert (contents val = concat fs) as Hfs by done.
  change (awdl_handle_tlv AWDL_DATA_PATH_STATE_TLV val tsft)
    with (awdl_handle_data_path_state_tlv val).
  unfold awdl_handle_data_path_state_tlv, rd_val, rd_null, run, mbind, M_bind.
  rewrite (read_le16_member val fs W Hfs 0 0x8f24 0) by member. cbn [checked].
  change (2 <? 0) with false. change (u16 0x8f24) with 0x8f24. cbv iota.
  change (has_flag 0x8f24 AWDL_DATA_PATH_FLAG_COUNTRY_CODE) with true.
  change (has_flag 0x8f24 AWDL_DATA_PATH_FLAG_SOCIAL_CHANNEL_MAP) with true.
  change (has_flag 0x8f24 AWDL_DATA_PATH_FLAG_INFRA_INFO) with false.
  change (has_flag 0x8f24 AWDL_DATA_PATH_FLAG_INFRA_ADDRESS) with false.
  change (has_flag 0x8f24 AWDL_DATA_PATH_FLAG_AWDL_ADDRESS) with true. cbv iota.
  change (0 + 2) with 2. rewrite (read_bytes_copy_member val fs W Hfs 1 country_X0 2 3) by member.
  cbn [checked]. change (3 <? 0) with false. unfold get_st, lift. cbn [fst].
  rewrite store_Some by (rewrite ?Hcc; simpl; lia). simpl. rewrite drop_ge by lia.
  rewrite (read_le16_member val fs W Hfs 2 sc (2 + 3)) by member. simpl.
  rewrite (read_ether_addr_member val fs W Hfs 3 (self_address state) (2 + 3 + 2)) by member. simpl.
  by rewrite with_sync_id.
Qed.

Lemma absorbs_arpa name p sy :
  (length name <= 64)%nat → Z.of_nat (length (peer_name p)) = HOST_NAME_LENGTH_MAX + 1 →
  absorbs (AWDL_ARPA_TLV, arpa_value name) (p, sy)
    (set_name (name ++ 0 :: drop (S (length name)) (peer_name p)) p, sy).
Proof.
  intros Hn Hp val s W Hc _ Hsy. exists RX_OK. split; [done|]. simpl in Hc, Hsy |- *. subst sy.
  change (awdl_handle_tlv AWDL_ARPA_TLV val tsft) with (awdl_handle_arpa_tlv val).
  unfold HOST_NAME_LENGTH_MAX in *.
  destruct (read_int_string_gen val 1 64 W) as [Hr _]; [lia|int_lia|lia|].
  rewrite Hc in Hr.
  change (default 0 (arpa_value name !! Z.to_nat 1)) with (Z.of_nat (length name)) in Hr.
  change (drop (Z.to_nat (1 + 1)) (arpa_value name)) with (name ++ htobe16 AWDL_DNS_SHORT_LOCAL) in Hr.
  assert (length (arpa_value name) = length name + 4)%nat as Hv
    by (unfold arpa_value; rewrite !length_app; simpl; lia).
  rewrite Hv, Z.min_l in Hr by lia. revert Hr. if_true. if_true. intros Hr.
  rewrite Nat2Z.id, take_app_length in Hr.
  unfold awdl_handle_arpa_tlv, rd_val, run, HOST_NAME_LENGTH_MAX. rewrite Hr.
  unfold checked, mbind, M_bind. if_false. unfold get_st, lift. cbn [fst].
  rewrite store_Some by (rewrite ?length_app; simpl; lia). simpl.
  rewrite <- app_assoc, length_app, Nat.add_1_r, with_sync_id. done.
Qed.

(** The loop over two-byte channels, from entry [i] on. *)
Lemma read_chans_run val hdr seq pad n : ∀ i o l st,
  buf_wf val → contents val = concat (hdr :: map chan_bytes seq ++ [pad]) → length hdr = 6%nat →
  o = 6 + 2 * Z.of_nat i → (i + n)%nat = length seq → length l = length seq →
  read_chans val 2 n i o l st = Some (st, inr (take i l ++ drop i seq)).
Proof.
  induction n as [|n IH]; intros i o l st W Hc Hh -> Hin Hl.
  { simpl. rewrite take_ge, drop_ge, app_nil_r by lia. done. }
  destruct (lookup_lt_is_Some_2 seq i) as [c Hi]; [lia|].
  destruct (lookup_lt_is_Some_2 l i) as [c' Hi']; [lia|].
  assert (length (concat (take i (map chan_bytes seq))) = (2 * i)%nat) as Hlen.
  { clear -Hi. apply lookup_lt_Some in Hi. revert i Hi.
    induction seq as [|x seq IH]; intros [|i] Hi; simpl in *; try lia. rewrite IH by lia. lia. }
  cbn [read_chans]. unfold rd_val, mbind, M_bind.
  rewrite (read_bytes_copy_member val _ W Hc (S i) (chan_bytes c) (6 + 2 * Z.of_nat i) 2);
    [|simpl; rewrite lookup_app_l, list_lookup_fmap, Hi
      by (rewrite length_fmap; by apply lookup_lt_Some in Hi); done
     |simpl; rewrite take_app_le by (rewrite length_fmap; lia); rewrite length_app, Hlen; lia|done].
  cbn [checked]. change (2 <? 0) with false. cbv iota. unfold lift. rewrite Hi'.
  rewrite IH; [|done|done|done|lia|lia|by rewrite length_insert].
  do 3 f_equal. rewrite (take_S_r _ i (chan_overwrite c' (chan_bytes c)))
    by (apply list_lookup_insert_eq; lia).
  rewrite take_insert_ge, <- app_assoc by lia. f_equal. rewrite (drop_S seq c i Hi).
  by destruct c.
Qed.

Lemma absorbs_chanseq state p sy :
  awdl_chan_encoding_length (ch_enc (st_channel state)) = 2 →
  length (ch_sequence (st_channel state)) = AWDL_CHANSEQ_LENGTH → presence_mode sy = 4 →
  absorbs (AWDL_CHAN_SEQ_TLV, chanseq_value state) (p, sy)
    (set_sequence (ch_sequence (st_channel state)) p, sy).
Proof.
  intros He Hl Hm val s W Hc _ Hsy. exists RX_OK. split; [done|]. simpl in Hc, Hsy |- *.
  set (enc := ch_enc (st_channel state)) in *. set (seq := ch_sequence (st_channel state)) in *.
  assert (is_u8 enc ∧ awdl_chan_encoding_size enc = 2) as [Henc Hsize].
  { unfold awdl_chan_encoding_length, awdl_chan_encoding_size, AWDL_CHAN_ENC_SIMPLE,
      AWDL_CHAN_ENC_LEGACY, AWDL_CHAN_ENC_OPCLASS in *. revert He. split_ifs; int_lia. }
  set (hd := [byte 15; byte enc; byte 0; byte 3; htole16 0xffff]).
  assert (sequence_bytes enc seq = concat (map chan_bytes seq)) as Hsb
    by (unfold sequence_bytes; by rewrite He).
  assert (contents val = concat (concat hd :: map chan_bytes seq ++ [[0; 0; 0]])) as Hfs.
  { rewrite Hc. unfold chanseq_value, chanseq_bytes. fold enc seq. rewrite Hsb.
    rewrite concat_cons, concat_app. simpl. by rewrite ?app_nil_r, <- ?app_assoc. }
  assert (contents val = concat (hd ++ map chan_bytes seq ++ [[0; 0; 0]])) as Hfs'.
  { by rewrite Hfs, concat_cons, (concat_app hd). }
  change (awdl_handle_tlv AWDL_CHAN_SEQ_TLV val tsft) with (awdl_handle_chanseq_tlv val).
  unfold awdl_handle_chanseq_tlv, rd_val, run. rewrite bind_get. cbn [fst snd].
  rewrite (read_u8_member val _ W Hfs' 0 15 0), bind_checked, bind_guard by done.
  rewrite (read_u8_member val _ W Hfs' 2 0 2), bind_checked, bind_guard by done.
  rewrite (read_u8_member val _ W Hfs' 3 3 3), bind_checked, bind_guard by (done || by rewrite Hsy, Hm).
  rewrite (read_le16_member val _ W Hfs' 4 0xffff 4), bind_checked, bind_guard by done.
  rewrite (read_u8_member val _ W Hfs' 1 enc 1), bind_checked, u8_id by done. rewrite Hsize.
  rewrite bind_guard by done. unfold mbind, M_bind.
  rewrite (read_chans_run val (concat hd) seq [0; 0; 0]); [|done|done|done|done| |].
  - unfold take, drop. cbn [app]. rewrite <- Hsy, with_sync_id.
    case_decide as Hd; [|done]. rewrite <- Hd. by destruct p.
  - by rewrite Hl.
  - by rewrite junk_chans_length, Hl.
Qed.

(** The clock of a receiver after the sender's synchronisation parameters:
    adopted if the sender is its master. *)
Definition sync_heard (state : awdl_state) (now : Z) (src : ether_addr) (sy : awdl_sync_state) :
    awdl_sync_state :=
  if awdl_election_is_sync_master el src then
    let t := awdl_sync_next_aw_tu now (st_sync state) in
    let c := awdl_sync_current_aw now (st_sync state) in
    let err := awdl_sync_error_tu tsft t c sy in
    let bad := (err >? AWDL_SYNC_THRESHOLD) || (err <? - AWDL_SYNC_THRESHOLD) in
    awdl_sync_update_last tsft t c
      (mk_sync (aw_counter sy) (sync_last_update sy) (aw_period sy) (presence_mode sy)
         (if bad then u64 (meas_err sy + 1) else meas_err sy) (u64 (meas_total sy + 1)))
  else sy.

Lemma absorbs_sync state now p sy :
  length (master_addr (st_election state)) = 6%nat →
  absorbs (AWDL_SYNCHRONIZATON_PARAMETERS_TLV, sync_params_value state now) (p, sy)
    (p, sync_heard state now (peer_addr p) sy).
Proof.
  intros Hm val s W Hc Hel Hsy. simpl in Hc, Hsy |- *. subst sy.
  change (awdl_handle_tlv AWDL_SYNCHRONIZATON_PARAMETERS_TLV val tsft)
    with (awdl_handle_sync_params_tlv val tsft).
  unfold awdl_handle_sync_params_tlv, sync_heard, run, mbind, M_bind, get_st. cbn [fst snd].
  rewrite Hel. destruct (awdl_election_is_sync_master el (peer_addr p)); simpl; cycle 1.
  { exists RX_IGNORE. split; [done|]. by rewrite with_sync_id. }
  set (x := sync_params state now 0) in *.
  set (fs := [byte (sp_next_aw_channel x); htole16 (sp_tx_down_counter x); byte (sp_master_channel x);
    byte (sp_guard_time x); htole16 (sp_aw_period x); htole16 (sp_af_period x); htole16 (sp_flags x);
    htole16 (sp_aw_ext_length x); htole16 (sp_aw_com_length x); htole16 (sp_remaining_aw_length x);
    byte (sp_min_ext x); byte (sp_max_ext_multicast x); byte (sp_max_ext_unicast x);
    byte (sp_max_ext_af x); sp_master_addr x; byte (sp_presence_mode x); byte (sp_reserved x);
    htole16 (sp_next_aw_seq x); htole16 (sp_ap_alignment x); chanseq_bytes state; [0; 0]]).
  assert (contents val = concat fs) as Hfs.
  { rewrite Hc. unfold sync_params_value, sync_params_body. fold x. unfold fs.
    cbn [concat]. by rewrite <- !app_assoc. }
  assert (length (sp_master_addr x) = 6%nat) as Hma by done.
  exists RX_OK. split; [done|]. unfold rd_val.
  rewrite (read_le16_member val fs W Hfs 1 (sp_tx_down_counter x) 1) by member.
  rewrite (read_le16_member val fs W Hfs 17 (sp_next_aw_seq x) 29) by member.
  assert (u16 (sp_tx_down_counter x) = awdl_sync_next_aw_tu now (st_sync state)) as ->
    by (apply u16_id, u16_range).
  assert (u16 (sp_next_aw_seq x) = awdl_sync_current_aw now (st_sync state)) as ->
    by (apply u16_id, u16_range).
  unfold checked. change (2 <? 0) with false. unfold modify. cbn [fst snd].
  set (t := awdl_sync_next_aw_tu _ _). set (c := awdl_sync_current_aw _ _).
  set (sy := mk_sync _ _ _ _ _ _).
  change (awdl_sync_error_tu tsft t c sy) with (awdl_sync_error_tu tsft t c (st_sync s)).
  by destruct ((awdl_sync_error_tu _ _ _ _ >? _) || _).
Qed.
End absorbs.

(** ** All elements of an action frame *)

Section absorb_all.
Context `{RxEnvOk} (el : awdl_election_state) (tsft : Z).

Fixpoint absorb_all (l : list (Z * list Z)) (a b : view) : Prop :=
  match l with
  | [] => a = b
  | tv :: l => ∃ c, absorbs el tsft tv a c ∧ absorb_all l c b
  end.

(** The entry of a sender after its action frame of that type. *)
Definition heard (state : awdl_state) (name : list Z) (type : Z) (p : awdl_peer) : awdl_peer :=
  mk_peer (peer_addr p) (last_update p) (election_heard (st_election state) p)
    (ch_sequence (st_channel state)) (sync_offset p)
    (if type =? AWDL_ACTION_MIF then name ++ 0 :: drop (S (length name)) (peer_name p)
     else peer_name p)
    country_X0 (infra_addr p) (st_version state) (dev_class state) 1 (sent_mif p) (is_valid p).

Lemma absorb_action state P name type now k p sy :
  state_ok state P → (length name <= 64)%nat →
  awdl_chan_encoding_length (ch_enc (st_channel state)) = 2 → peer_ok k p → sync_ok sy →
  absorb_all (action_tlvs state name type now) (p, sy)
    (heard state name type p, sync_heard el tsft state now (peer_addr p) sy).
Proof.
  intros Hs Hn He Hp Hsy. destruct Hp as [_ _ _ _ _ Hpn Hpc].
  pose proof (sok_election _ _ Hs) as Hel. destruct (sok_self _ _ Hs) as [Hself _].
  assert (presence_mode (sync_heard el tsft state now (peer_addr p) sy) = 4) as Hmode.
  { unfold sync_heard. destruct (awdl_election_is_sync_master el (peer_addr p)); apply Hsy. }
  assert (self_addr (election_v1_heard (st_election state) p) = self_addr (election p)) as Hsa
    by (unfold election_v1_heard; by destruct (supports_v2 p =? 0)).
  unfold action_tlvs. eexists; split; [apply absorbs_sync, Hel|].
  eexists; split; [by apply absorbs_election|].
  eexists; split; [apply absorbs_chanseq; [done|apply Hs|done]|].
  eexists; split; [by apply absorbs_election_v2|].
  eexists; split; [apply absorbs_unknown; auto|].
  unfold heard, election_heard. destruct (type =? AWDL_ACTION_MIF).
  - eexists; split; [apply absorbs_unknown; auto|].
    eexists; split; [by apply absorbs_arpa|].
    eexists; split; [by apply absorbs_data_path|].
    eexists; split; [apply absorbs_version; apply Hs|]. simpl. by rewrite Hsa.
  - eexists; split; [by apply absorbs_data_path|].
    eexists; split; [apply absorbs_version; apply Hs|]. simpl. by rewrite Hsa.
Qed.
End absorb_all.

(** ** Receiving an action frame *)

Lemma write_peer_again p a b x y s :
  write_peer p b (with_sync y (write_peer p a (with_sync x s))) = write_peer p b (with_sync y s).
Proof. unfold write_peer. simpl. unfold with_peers, with_sync. simpl. by rewrite insert_insert_eq. Qed.

Lemma write_peer_same p peer s :
  p_heap (the_peers s) !! p = Some peer → write_peer p peer (with_sync (st_sync s) s) = s.
Proof.
  intros Hp. rewrite with_sync_id. unfold write_peer. rewrite insert_id by done.
  by destruct s as [????? ????? ??? [[] ??] ?].
Qed.

Section receive.
Context `{CallocBounded} `{MallocOk} `{RxEnvOk} {E : Type} (hooks : awdl_hooks E).

(** The loop of [awdl_rx_action] over well-formed elements. *)
Lemma rx_tlvs_absorb tsft p l : ∀ fuel frame s e a b,
  buf_wf frame → contents frame = tlvs_bytes l →
  Forall (λ tv, is_u8 tv.1 ∧ bytes_ok tv.2 ∧ (length tv.2 <= 73)%nat) l →
  (length l < fuel)%nat → absorb_all (st_election s) tsft l a b →
  p_heap (the_peers s) !! p = Some a.1 → st_sync s = a.2 →
  ∃ frame' e', rx_tlvs hooks fuel frame p tsft s e =
      Done (frame', write_peer p b.1 (with_sync b.2 s), e', None) ∧ b_len frame' = 0.
Proof.
  induction l as [|[t v] l IH]; intros fuel frame s e a b W Hc Hl Hf Hab Hheap Hsy;
    (destruct fuel as [|fuel]; [simpl in Hf; lia|]); cbn [rx_tlvs].
  { pose proof (read_tlv_step frame W) as Ht. rewrite Hc in Ht. simpl in Ht. rewrite Ht.
    simpl. simpl in Hab. subst b. rewrite <- Hsy, write_peer_same by done.
    eexists _, _; split; [done|]. by rewrite <- (contents_length frame W), Hc. }
  apply Forall_cons in Hl as [(Ht8 & _ & Hlen) Hl]. destruct Hab as (c & Hac & Hcb).
  pose proof (read_tlv_step frame W) as Ht.
  change (tlvs_bytes ((t, v) :: l)) with (tlv_bytes t v ++ tlvs_bytes l) in Hc.
  rewrite Hc, parse_tlv_bytes in Ht by (simpl in Hlen; lia).
  destruct Ht as (_ & q & vb & b' & -> & Hvb & Wv & Hv & Hstrip & W' & Hrest).
  cbn [of_option mbind outcome_bind]. if_false. cbn [of_option mbind outcome_bind].
  rewrite Hvb. cbn [of_option mbind outcome_bind]. rewrite Hheap. cbn [of_option mbind outcome_bind].
  destruct (Hac vb s Wv Hv eq_refl Hsy) as (rc & Hrc & Hrun). cbn [fst] in Hrun. rewrite Hrun.
  cbn [of_option mbind outcome_bind]. if_false. rewrite Hstrip. cbn [fst].
  destruct (IH fuel b' (write_peer p c.1 (with_sync c.2 s))
    (call_tlv_cb hooks e p t vb (write_peer p c.1 (with_sync c.2 s))) c b W' Hrest Hl)
    as (frame' & e' & -> & Hb0); [simpl in Hf; lia|done|simpl; apply lookup_insert_eq|done|].
  rewrite write_peer_again. eauto.
Qed.

Lemma parse_action_header frame type now rest :
  buf_wf frame → contents frame = action_header type now ++ rest →
  type = AWDL_ACTION_PSF ∨ type = AWDL_ACTION_MIF → awdl_parse_action_hdr frame = Some type.
Proof.
  intros W Hc Ht. destruct (action_header_facts type now) as [_ Hl].
  unfold awdl_parse_action_hdr, sizeof_awdl_action.
  rewrite read_bytes_spec, Hc, length_app, Hl by (done || int_lia). cbn [mbind option_bind]. if_true.
  cbn [fst]. change (16 <? 0) with false. cbv iota.
  rewrite <- (Z.add_0_r (b_data frame)), load_contents, Hc
    by (rewrite ?Hc, ?length_app, ?Hl; done || lia).
  change (Z.to_nat 0) with O. change (Z.to_nat 16) with 16%nat. rewrite drop_0.
  rewrite take_app_length' by done. by destruct Ht as [-> | ->].
Qed.

Lemma sync_heard_ok el tsft state now src sy :
  sync_ok sy → sync_ok (sync_heard el tsft state now src sy).
Proof.
  intros []. unfold sync_heard. destruct (awdl_election_is_sync_master el src); [|by constructor].
  apply sync_update_ok; [by constructor|]. apply u16_range.
Qed.

Lemma heard_ok state P name type k p :
  state_ok state P → (length name <= 64)%nat → peer_ok k p → peer_ok k (heard state name type p).
Proof.
  intros Hs Hn []. destruct (sok_election _ _ Hs). destruct pok_election. unfold HOST_NAME_LENGTH_MAX in *.
  constructor; simpl; try done.
  - apply (sok_sequence _ _ Hs).
  - unfold HOST_NAME_LENGTH_MAX. destruct (type =? AWDL_ACTION_MIF); [|done].
    rewrite length_app. simpl. rewrite length_drop. lia.
Qed.
End receive.

(** What a receiver knows of the sender after an action frame. *)
Record learned (state : awdl_state) (name : list Z) (type tsft : Z) (p : awdl_peer) : Prop := {
  learned_time : last_update p = tsft;
  learned_election : election p = st_election state;
  learned_sequence : sequence p = ch_sequence (st_channel state);
  learned_version : version p = st_version state ∧ devclass p = dev_class state;
  learned_v2 : supports_v2 p = 1;
  learned_mif : type = AWDL_ACTION_MIF →
    take (S (length name)) (peer_name p) = name ++ [0] ∧ sent_mif p = 1 ∧
    (st_version state ≠ 0 → dev_class state ≠ 0 → is_valid p ≠ 0) }.

Lemma heard_learned state P name type tsft p :
  state_ok state P → self_addr (st_election state) = self_address state →
  peer_ok (self_address state) p →
  learned state name type tsft
    (validate (set_last_update tsft
      (if type =? AWDL_ACTION_MIF then set_sent_mif 1 (heard state name type p)
       else heard state name type p))).
Proof.
  intros Hs Hself Hp.
  assert (election_heard (st_election state) p = st_election state) as He.
  { unfold election_heard. rewrite (pok_self _ _ Hp), <- Hself. by destruct (st_election state). }
  unfold validate. set (q := set_last_update _ _).
  assert (election q = st_election state ∧ last_update q = tsft ∧
    sequence q = ch_sequence (st_channel state) ∧ version q = st_version state ∧
    devclass q = dev_class state ∧ supports_v2 q = 1) as (? & ? & ? & ? & ? & ?).
  { unfold q. by destruct (type =? AWDL_ACTION_MIF). }
  assert (type = AWDL_ACTION_MIF →
    take (S (length name)) (peer_name q) = name ++ [0] ∧ sent_mif q = 1) as Hmif.
  { intros ->. unfold q, heard. simpl. split; [|done].
    rewrite cons_middle, app_assoc. apply take_app_length'. rewrite length_app. simpl. lia. }
  destruct ((is_valid q =? 0) && awdl_peer_is_valid q) eqn:Ev.
  - constructor; simpl; try done. intros Ht. destruct (Hmif Ht). split_and!; done.
  - constructor; try done. intros Ht. destruct (Hmif Ht) as [? Hm]. split_and!; [done|done|].
    intros ? ?. unfold awdl_peer_is_valid in Ev. lia.
Qed.

Section receive_action.
Context `{CallocBounded} `{MallocOk} `{RxEnvOk} {E : Type} (hooks : awdl_hooks E).
Context (state : awdl_state) (P : gmap mkey awdl_peer) (name : list Z) (type : Z).
Hypothesis Hst : state_ok state P.
Hypothesis Hname : name_is state name.
Hypothesis Hlen : (length name <= 64)%nat.
Hypothesis Htype : type = AWDL_ACTION_PSF ∨ type = AWDL_ACTION_MIF.
Hypothesis Henc : awdl_chan_encoding_length (ch_enc (st_channel state)) = 2.
Hypothesis Hself : self_addr (st_election state) = self_address state.

Abbreviation src := (self_address state).

(** What the receiver [r] with peers [Q] is left with. *)
Definition informed (tsft now : Z) (r : awdl_state) (Q : gmap mkey awdl_peer) (r' : awdl_state)
    (rc : Z) : Prop :=
  (rc = RX_OK ∧ st_sync r' = sync_heard (st_election r) tsft state now src (st_sync r) ∧
   st_channel r' = st_channel r ∧ same_node r r' ∧ ∃ p, state_ok r' (<[src := p]> Q) ∧ learned state name type tsft p ∧
     still_valid Q src p) ∨
  (rc = RX_IGNORE ∧ Q !! src = None ∧ cannot_grow src (the_peers r) (the_peers r') ∧
   ∃ Q', state_ok r' Q' ∧ Q' ⊆ Q).

Lemma rx_action_finish_heard frame tsft p q sy s Q e :
  state_ok s Q → to_map (p_map (the_peers s)) !! src = Some p → b_len frame = 0 →
  peer_ok src q → sync_ok sy →
  ∃ s' e' q', rx_action_finish hooks type frame p tsft src
      (write_peer p (heard state name type q) (with_sync sy s)) e = Done (s', e', RX_OK) ∧
    st_sync s' = sy ∧ st_channel s' = st_channel s ∧ same_node s s' ∧ state_ok s' (<[src := q']> Q) ∧
    learned state name type tsft q' ∧ (is_valid q ≠ 0 → is_valid q' ≠ 0).
Proof.
  intros Hs Hp Hb Hq Hsy. pose proof (heard_ok state P name type src q Hst Hlen Hq) as Hh.
  unfold rx_action_finish, buf_len. rewrite Hb. change (0 >? 0) with false. cbv iota.
  assert (p_heap (the_peers (write_peer p (heard state name type q) (with_sync sy s))) !! p =
    Some (heard state name type q)) as -> by apply lookup_insert_eq.
  cbn [of_option mbind outcome_bind].
  set (s1 := if type =? AWDL_ACTION_MIF then _ else _).
  set (q1 := if type =? AWDL_ACTION_MIF then set_sent_mif 1 (heard state name type q)
             else heard state name type q).
  assert (s1 = write_peer p q1 (with_sync sy s)) as ->.
  { unfold s1, q1. destruct (type =? AWDL_ACTION_MIF); [|done].
    apply (write_peer_again p _ _ sy sy). }
  assert (peer_ok src q1) as Hq1.
  { unfold q1. destruct (type =? AWDL_ACTION_MIF); [|done]. destruct Hh. by constructor. }
  destruct (write_peer_ok (with_sync sy s) Q src p q1) as (Hs1 & _ & _); [auto with owl|done|done|].
  destruct (peer_add_known (peer_cb hooks) (the_peers (write_peer p q1 (with_sync sy s))) _ e src tsft q1
    (sok_peers _ _ Hs1) (lookup_insert_eq _ _ _)) as (ps' & -> & R' & _).
  cbn [mbind outcome_bind]. rewrite insert_insert_eq in R'.
  eexists _, _, (validate (set_last_update tsft q1)). split; [done|].
  split; [done|]. split; [done|]. split; [done|].
  split; [|split; [by apply (heard_learned state P name type tsft q)|]].
  2: { intros Hv. apply validate_valid. unfold q1. by destruct (type =? AWDL_ACTION_MIF). }
  apply (state_ok_peers _ _ _ _ Hs1 R'). apply map_Forall_insert_2; [auto with owl|apply Hs].
Qed.

Lemma rx_action_heard frame now1 now2 rssi tsft r Q e :
  buf_wf frame →
  contents frame = action_header type now1 ++ tlvs_bytes (action_tlvs state name type now2) →
  state_ok r Q → rssi_rejects r src rssi = Some false →
  ∃ r' e' rc, awdl_rx_action hooks frame rssi tsft src r e = Done (r', e', rc) ∧
    informed tsft now2 r Q r' rc.
Proof.
  intros W Hc Hr Hrssi. destruct (action_header_facts type now1) as [_ Hhl].
  unfold awdl_rx_action. rewrite (parse_action_header frame type now1 _ W Hc Htype).
  cbn [of_option mbind outcome_bind].
  assert ((type <? 0) = false) as -> by (by destruct Htype as [-> | ->]).
  unfold sizeof_awdl_action.
  destruct (buf_strip_spec frame 16 W) as (f1 & -> & W1 & Hc1 & _);
    [rewrite Hc, length_app, Hhl; lia|].
  rewrite Hc, drop_app_length' in Hc1 by (rewrite Hhl; done). cbn [fst].
  rewrite Hrssi. cbn [of_option mbind outcome_bind]. unfold rx_action_update.
  set (r1 := with_stats _ r). assert (state_ok r1 Q) as Hr1 by (unfold r1; auto with owl).
  destruct (peer_add_total hooks r1 Q e src tsft Hr1 (sok_self _ _ Hst))
    as (ps' & e1 & rc & Q1 & -> & Hs1 & [(Hrc & (p1 & -> & Hv1) & _)|(-> & Hsub & Hnone & Hgrow)]).
  2: { cbn [mbind outcome_bind]. change (PEERS_INTERNAL <? 0) with true. cbv iota.
       eexists _, _, _. split; [done|]. right. split_and!; [done|done|exact Hgrow|eauto]. }
  cbn [mbind outcome_bind]. if_false. set (r2 := with_peers ps' r1) in *.
  destruct (rep_Some _ _ (sok_peers _ _ Hs1) src p1 (lookup_insert_eq _ _ _)) as (p & Hk & Hheap & _).
  rewrite (peer_get_spec _ _ (sok_peers _ _ Hs1)), Hk.
  cbn [of_option mbind outcome_bind]. change (PEERS_OK <? 0) with false. cbv iota.
  pose proof (sok_peers_ok _ _ Hs1 src p1 (lookup_insert_eq _ _ _)) as Hp1.
  pose proof (absorb_action (st_election r2) tsft state P name type now2 src p1 (st_sync r2)
    Hst Hlen Henc Hp1 (sok_sync _ _ Hs1)) as Hab. rewrite (pok_addr _ _ Hp1) in Hab.
  destruct (rx_tlvs_absorb hooks tsft p _ (tlv_fuel f1) f1 r2 e1 (p1, st_sync r2)
    (heard state name type p1, sync_heard (st_election r2) tsft state now2 src (st_sync r2)) W1 Hc1
    (action_tlvs_ok state P name Hst Hname Hlen type now2)) as (f2 & e2 & -> & Hb2);
    [|exact Hab|exact Hheap|done|].
  { unfold tlv_fuel. rewrite <- (contents_length f1 W1), Hc1, Nat2Z.id. unfold tlvs_bytes.
    generalize (action_tlvs state name type now2). induction l as [|[t v] l IH]; simpl; [lia|].
    rewrite !length_app. simpl. lia. }
  cbn [mbind outcome_bind fst snd].
  destruct (rx_action_finish_heard f2 tsft p p1
    (sync_heard (st_election r) tsft state now2 src (st_sync r)) r2 _ e2 Hs1 Hk Hb2 Hp1)
    as (r3 & e3 & q & Hfin & Hsy3 & Hch3 & Hsn3 & Hs3 & Hq & Hv3); [apply sync_heard_ok, Hr|].
  eexists _, _, _. split; [exact Hfin|]. left. rewrite insert_insert_eq in Hs3.
  do 3 (split; [done|]). split; [destruct Hsn3; by constructor|]. exists q. split; [done|]. split; [done|].
  intros old Hold Hv. by apply Hv3, (Hv1 old).
Qed.
End receive_action.

(** ** Whole frames *)

(** [frame] is what the card hands over for the bytes [mpdu]: a radiotap
    header of its own that reports [rssi] and [flags], then the bytes. *)
Record received `{RxEnv} `{Radiotap} (frame : buf) (mpdu : list Z) (rssi flags : Z) : Prop := {
  rcv_wf : buf_wf frame;
  rcv_parse : radiotap_parse frame junk_rssi junk_flags = Some (RX_OK, rssi, flags);
  rcv_contents : ∃ rt, contents frame = rt ++ mpdu ∧ rt_it_len (contents frame) = Z.of_nat (length rt);
  rcv_good : has_flag flags IEEE80211_RADIOTAP_F_BADFCS = false }.

Lemma hdr_members_bytes src d seq type :
  addr_ok src → addr_ok d → hdr_members (hdr_bytes src d seq type) = (u16 type, d, src).
Proof.
  intros [Hs _] [Hd _]. unfold hdr_members, hdr_bytes, ieee80211_hdr_bytes.
  do 7 (destruct src as [|? src]; try done). do 7 (destruct d as [|? d]; try done).
  cbn [app htole16 le_bytes byte take drop]. f_equal. f_equal. apply (le_val_bytes 2).
Qed.

(** The receiver strips radiotap header, checksum and IEEE 802.11 header. *)
Lemma rx_frame_body `{CallocEnv} `{MallocEnv} `{RxEnv} `{OutRoom} `{Radiotap} {E} (hooks : awdl_hooks E)
    frame src d seq type body fcs rssi flags tsft r e :
  received frame (hdr_bytes src d seq type ++ body ++ fcs) rssi flags →
  length fcs = (if has_flag flags IEEE80211_RADIOTAP_F_FCS then 4%nat else 0%nat) →
  addr_ok src → addr_ok d → length (self_address r) = 6%nat → src ≠ self_address r →
  ∃ f, buf_wf f ∧ contents f = body ∧
    awdl_rx hooks frame tsft r e = rx_dispatch hooks (u16 type) src d f rssi tsft r e [].
Proof.
  intros [W Hparse (rt & Hc & Hit) Hgood] Hfcs Hs Hd Hself Hne.
  destruct (hdr_bytes_facts src d seq type Hs Hd) as [_ Hhl].
  pose proof (hdr_members_bytes src d seq type Hs Hd) as Hmem.
  revert Hc Hhl Hmem. generalize (hdr_bytes src d seq type). intros h Hc Hhl Hmem.
  unfold awdl_rx. rewrite Hparse. cbn [of_option mbind outcome_bind].
  change (RX_OK <? 0) with false. cbv iota. rewrite Hit.
  destruct (buf_strip_spec frame (Z.of_nat (length rt)) W) as (f1 & -> & W1 & Hc1 & _);
    [rewrite Hc, length_app; lia|]. if_false.
  rewrite Hc, Nat2Z.id, drop_app_length in Hc1.
  assert (∃ f2, run (check_fcs flags) f1 = Some (f2, 0) ∧ buf_wf f2 ∧
    contents f2 = h ++ body) as (f2 & -> & W2 & Hc2).
  { unfold check_fcs, run. rewrite Hgood. unfold mbind, M_bind.
    destruct (has_flag flags IEEE80211_RADIOTAP_F_FCS) in Hfcs |- *.
    - unfold take_checked. destruct (buf_take_spec f1 4 W1) as (f2 & -> & W2 & Hc2);
        [rewrite Hc1, !length_app; lia|]. simpl. eexists; split; [done|]. split; [done|].
      rewrite Hc2, Hc1, app_assoc. apply take_app_length'. rewrite !length_app. lia.
    - apply nil_length_inv in Hfcs as ->. rewrite app_nil_r in Hc1. simpl. eauto. }
  cbn [of_option mbind outcome_bind]. change (negb (0 =? 0)) with false. cbv iota.
  unfold sizeof_ieee80211_hdr. rewrite read_bytes_spec, Hc2, length_app, Hhl by (done || int_lia).
  if_true. cbn [of_option mbind outcome_bind fst]. change (24 <? 0) with false. cbv iota.
  rewrite <- (Z.add_0_r (b_data f2)), load_contents, Hc2
    by (rewrite ?Hc2, ?length_app, ?Hhl; done || lia).
  change (Z.to_nat 0) with O. change (Z.to_nat 24) with 24%nat. rewrite drop_0.
  rewrite take_app_length' by done. cbn [of_option mbind outcome_bind].
  rewrite Hmem. destruct (memcmp src (self_address r) =? 0) eqn:Em.
  { exfalso. apply Hne, memcmp_eq; [destruct Hs; congruence|lia]. }
  destruct (buf_strip_spec f2 24 W2) as (f3 & -> & W3 & Hc3 & _);
    [rewrite Hc2, length_app; lia|]. change (24 <? 0) with false. cbv iota.
  exists f3. split_and!; [done| |done]. rewrite Hc3, Hc2. by apply drop_app_length'.
Qed.

(** The bytes on the air: the sender's frame without its radiotap header. *)
Definition on_air `{Radiotap} (blk : list Z) (len : Z) : list Z :=
  drop (Z.to_nat (sizeof_rt_header + 1)) (take (Z.to_nat len) blk).

Lemma on_air_frame `{RadiotapOk} mpdu fcs rest :
  on_air (with_fcs fcs (radiotap_bytes ++ mpdu) ++ rest)
    (Z.of_nat (length (with_fcs fcs (radiotap_bytes ++ mpdu)))) =
  mpdu ++ if fcs then htole32 (crc32 (radiotap_bytes ++ mpdu)) else [].
Proof.
  unfold on_air. rewrite Nat2Z.id, take_app_length.
  destruct radiotap_bytes_facts as (_ & _ & <-). rewrite Nat2Z.id. unfold with_fcs.
  by rewrite <- app_assoc, drop_app_length.
Qed.

(** ** Properties *)

(** An action frame at another node. *)
Lemma rx_action_frame `{CallocBounded} `{MallocOk} `{RxEnvOk} `{OutRoom} `{RadiotapOk} {E}
    (hooks : awdl_hooks E) state P name type now1 now2 ieee blk blk' len ieee' frame rssi flags
    tsft r Q e :
  state_ok state P → name_is state name → (length name <= 64)%nat →
  type = AWDL_ACTION_PSF ∨ type = AWDL_ACTION_MIF →
  awdl_chan_encoding_length (ch_enc (st_channel state)) = 2 →
  self_addr (st_election state) = self_address state → 1024 <= Z.of_nat (length blk) →
  awdl_init_full_action_frame blk state ieee type now1 now2 = Some (blk', len, ieee') →
  received frame (on_air blk' len) rssi flags →
  has_flag flags IEEE80211_RADIOTAP_F_FCS = ieee_fcs ieee →
  state_ok r Q → self_address state ≠ self_address r →
  rssi_rejects r (self_address state) rssi = Some false →
  ∃ r' e' rc, awdl_rx hooks frame tsft r e = Done ([], r', e', rc) ∧
    informed state name type tsft now2 r Q r' rc.
Proof.
  intros Hst Hn Hl Ht Henc Hself Hblk Htx Hrcv Hflag Hr Hne Hrssi.
  destruct (init_full_action_frame_spec state P name blk ieee type now1 now2 Hst Hn Hl Hblk)
    as [Heq _]. rewrite Heq in Htx. injection Htx as <- <- <-.
  unfold action_frame in Hrcv. rewrite on_air_frame, <- !app_assoc in Hrcv.
  rewrite (app_assoc (action_header type now1)) in Hrcv.
  destruct (rx_frame_body hooks frame (self_address state) (dst state) _ 0xd0 _ _ rssi flags tsft r e Hrcv)
    as (f & W & Hc & ->).
  - rewrite Hflag. by destruct (ieee_fcs ieee).
  - apply Hst.
  - apply Hst.
  - apply (sok_self _ _ Hr).
  - done.
  - unfold rx_dispatch. change (Z.land (u16 0xd0) _) with 0xd0.
    change (0xd0 =? Z.lor IEEE80211_FTYPE_MGMT IEEE80211_STYPE_ACTION) with true. cbv iota.
    destruct (rx_action_heard hooks state P name type Hst Hn Hl Ht Henc Hself f now1 now2 rssi tsft r Q e
      W Hc Hr Hrssi) as (r' & e' & rc & -> & Hi).
    cbn [mbind outcome_bind]. eauto.
Qed.

(** C17: an action frame tells the receiver what the sender knows. The frame
    [awdl_init_full_action_frame] writes into a buffer of 1024 bytes or more
    for a sender whose channel encoding takes two bytes per channel (the only
    one the receiver decodes), handed over undamaged and with a radiotap header
    that says whether it ends in a checksum, above the signal threshold and at
    another node, is accepted: the entry for the sender then has the sender's
    election state, channel sequence, version and device class, for a master
    indication also the name, and turns valid; the clock follows exactly if the
    sender is the receiver's master. The only other outcome is [RX_IGNORE] for
    a sender not known before, when its place in the table is taken and the
    allocator refuses the larger table. *)
Theorem action_frame_roundtrip `{CallocBounded} `{MallocOk} `{RxEnvOk} `{OutRoom} `{RadiotapOk} {E}
    (hooks : awdl_hooks E) state P name type now1 now2 ieee blk blk' len ieee' frame rssi flags
    tsft r Q e :
  state_ok state P → name_is state name → (length name <= 64)%nat →
  type = AWDL_ACTION_PSF ∨ type = AWDL_ACTION_MIF →
  awdl_chan_encoding_length (ch_enc (st_channel state)) = 2 →
  self_addr (st_election state) = self_address state → 1024 <= Z.of_nat (length blk) →
  awdl_init_full_action_frame blk state ieee type now1 now2 = Some (blk', len, ieee') →
  received frame (on_air blk' len) rssi flags →
  has_flag flags IEEE80211_RADIOTAP_F_FCS = ieee_fcs ieee →
  state_ok r Q → self_address state ≠ self_address r →
  rssi_rejects r (self_address state) rssi = Some false →
  ∃ r' e' rc, awdl_rx hooks frame tsft r e = Done ([], r', e', rc) ∧
    informed state name type tsft now2 r Q r' rc.
Proof. intros. by eapply rx_action_frame. Qed.

(** The data frame [with_fcs fcs (data_frame ...)] at a node that knows its
    sender. *)
Lemma rx_data_frame_any `{CallocBounded} `{MallocOk} `{RxEnvOk} `{OutRoom} `{RadiotapOk} {E} (hooks : awdl_hooks E)
    src d payload fcs iseq seq rest frame rssi flags tsft r Q e :
  addr_ok src → addr_ok d → (0 < out_room)%nat →
  let sent := with_fcs fcs (data_frame src d iseq seq payload) in
  received frame (on_air (sent ++ rest) (Z.of_nat (length sent))) rssi flags →
  has_flag flags IEEE80211_RADIOTAP_F_FCS = fcs →
  state_ok r Q → src ≠ self_address r → is_Some (Q !! src) →
  ∃ b r', awdl_rx hooks frame tsft r e = Done ([b], r', e, RX_OK) ∧ state_ok r' Q ∧
    buf_wf b ∧ b_len b = ETHER_MAX_LEN ∧
    contents b = ether_frame d src ETH_P_IPV6 payload (junk_block ETHER_MAX_LEN).
Proof.
  intros Hs Hd Hroom sent Hrcv Hflag Hr Hne [peer HQ]. unfold sent in Hrcv. clear sent.
  unfold data_frame in Hrcv. rewrite on_air_frame, <- !app_assoc in Hrcv.
  set (hd := llc_hdr_bytes _) in Hrcv. set (ad := awdl_data_bytes _) in Hrcv.
  rewrite (app_assoc ad), (app_assoc hd) in Hrcv.
  destruct (rx_frame_body hooks frame src d _ 0x08 _ _ rssi flags tsft r e Hrcv) as (f & W & Hc & ->).
  - rewrite Hflag. by destruct fcs.
  - done.
  - done.
  - apply (sok_self _ _ Hr).
  - done.
  - unfold rx_dispatch. change (Z.land (u16 0x08) _) with 0x08. cbv zeta.
    change (0x08 =? Z.lor IEEE80211_FTYPE_MGMT IEEE80211_STYPE_ACTION) with false. cbv iota.
    change (0x08 =? Z.lor (Z.lor IEEE80211_FTYPE_DATA IEEE80211_STYPE_DATA) IEEE80211_STYPE_QOS_DATA)
      with false. cbv iota.
    change (0x08 =? Z.lor IEEE80211_FTYPE_DATA IEEE80211_STYPE_DATA) with true. cbv iota.
    pose proof (rx_data_spec f src d r Q [] Hroom W Hs Hd Hr) as Hrx. cbv zeta in Hrx.
    rewrite HQ, Hc in Hrx.
    assert (length hd = 8%nat ∧ length ad = 8%nat) as [Hhd Had]
      by (split; reflexivity).
    assert (llc_ok (hd ++ ad ++ payload) = true) as Hllc.
    { assert ((8 <=? Z.of_nat (length (hd ++ ad ++ payload))) = true) as H8
        by (rewrite !length_app; simpl; lia).
      unfold llc_ok. by rewrite H8. }
    rewrite Hllc in Hrx. cbn [negb] in Hrx. revert Hrx. rewrite !length_app, Hhd, Had. if_false.
    intros (b & -> & Hb & Wb & Hlb). cbn [of_option mbind outcome_bind].
    eexists b, _. split; [done|]. split; [auto with owl|]. split; [done|]. split; [done|].
    rewrite Hb. change (drop 16 (hd ++ ad ++ payload)) with payload.
    by change (be_val (take 2 (drop 14 (hd ++ ad ++ payload)))) with ETH_P_IPV6.
Qed.

(** What such a frame holds. *)
Lemma ether_frame_fits dst src type payload junk :
  (length payload <= 1504)%nat → addr_ok src → addr_ok dst →
  take (14 + length payload) (ether_frame dst src type payload junk) = dst ++ src ++ be_bytes 2 type ++ payload.
Proof.
  intros Hfit [Hs _] [Hd _]. unfold ether_frame, ETHER_MAX_LEN. if_true.
  rewrite (app_assoc (dst ++ _)), take_app_length'; [by rewrite <- !app_assoc|].
  rewrite !length_app, length_be_bytes. lia.
Qed.

Lemma ether_frame_dropped dst src type payload junk :
  (1504 < length payload)%nat →
  ether_frame dst src type payload junk = dst ++ src ++ be_bytes 2 type ++ drop 14 junk.
Proof. intros Hfit. unfold ether_frame, ETHER_MAX_LEN. if_false. by rewrite <- !app_assoc. Qed.

Lemma rx_data_frame `{CallocBounded} `{MallocOk} `{RxEnvOk} `{OutRoom} `{RadiotapOk} {E} (hooks : awdl_hooks E)
    src d payload fcs iseq seq rest frame rssi flags tsft r Q e :
  addr_ok src → addr_ok d → (0 < out_room)%nat → (length payload <= 1504)%nat →
  let sent := with_fcs fcs (data_frame src d iseq seq payload) in
  received frame (on_air (sent ++ rest) (Z.of_nat (length sent))) rssi flags →
  has_flag flags IEEE80211_RADIOTAP_F_FCS = fcs →
  state_ok r Q → src ≠ self_address r → is_Some (Q !! src) →
  ∃ b r', awdl_rx hooks frame tsft r e = Done ([b], r', e, RX_OK) ∧ state_ok r' Q ∧
    buf_wf b ∧ b_len b = ETHER_MAX_LEN ∧
    take (14 + length payload) (contents b) = d ++ src ++ be_bytes 2 ETH_P_IPV6 ++ payload.
Proof.
  intros Hs Hd Hroom Hfit sent Hrcv Hflag Hr Hne HQ.
  destruct (rx_data_frame_any hooks src d payload fcs iseq seq rest frame rssi flags tsft r Q e Hs Hd Hroom
    Hrcv Hflag Hr Hne HQ) as (b & r' & Hrx & Hr' & W & Hl & Hc).
  exists b, r'. split_and!; [done..|]. rewrite Hc. by apply ether_frame_fits.
Qed.

(** C25: what becomes of the payload [awdl_init_full_data_frame] is given, at
    a node that knows the sender, has a place for a frame and is handed the
    frame undamaged with a radiotap header that says whether it ends in a
    checksum: exactly one Ethernet frame comes out, with the receiver's and
    the sender's address and always the type of IPv6.  A payload of at most
    1504 bytes follows the header; a longer one is lost, and behind the
    header is what the block held before. *)
Theorem data_frame_roundtrip `{CallocBounded} `{MallocOk} `{RxEnvOk} `{OutRoom} `{RadiotapOk} {E}
    (hooks : awdl_hooks E) state P src d payload ieee blk blk' len state' ieee' frame rssi flags
    tsft r Q e :
  state_ok state P → addr_ok src → addr_ok d → (0 < out_room)%nat →
  Z.of_nat (length payload) + 109 <= Z.of_nat (length blk) →
  awdl_init_full_data_frame blk src d payload state ieee = Some (blk', len, state', ieee') →
  received frame (on_air blk' len) rssi flags →
  has_flag flags IEEE80211_RADIOTAP_F_FCS = ieee_fcs ieee →
  state_ok r Q → src ≠ self_address r → is_Some (Q !! src) →
  ∃ b r', awdl_rx hooks frame tsft r e = Done ([b], r', e, RX_OK) ∧ state_ok r' Q ∧
    buf_wf b ∧ b_len b = ETHER_MAX_LEN ∧
    ((length payload <= 1504)%nat →
     take (14 + length payload) (contents b) = d ++ src ++ be_bytes 2 ETH_P_IPV6 ++ payload) ∧
    ((1504 < length payload)%nat →
     contents b = d ++ src ++ be_bytes 2 ETH_P_IPV6 ++ drop 14 (junk_block ETHER_MAX_LEN)).
Proof.
  intros Hst Hs Hd Hroom Hblk Htx Hrcv Hflag Hr Hne HQ.
  destruct (init_full_data_frame_spec state P blk src d payload ieee Hst Hs Hd Hblk) as [Heq _].
  rewrite Heq in Htx. injection Htx as <- <- <- <-.
  destruct (rx_data_frame_any hooks src d payload _ _ _ _ frame rssi flags tsft r Q e Hs Hd Hroom Hrcv
    Hflag Hr Hne HQ) as (b & r' & Hrx & Hr' & W & Hl & Hc).
  exists b, r'. rewrite Hc. split_and!; [done..| |]; intros; [by apply ether_frame_fits|by apply ether_frame_dropped].
Qed.

(** *** A frame from [sample_state] to [receiver] *)

(** A radiotap header without fields. *)
Definition plain_radiotap : list Z := [0; 0; 8; 0; 0; 0; 0; 0].

Definition sent_action : list Z * Z :=
  match @awdl_init_full_action_frame rt_standard (replicate 1024 0) sample_state
          (mk_ieee80211 7 false) AWDL_ACTION_MIF 5000 5001 with
  | Some (blk, len, _) => (blk, len)
  | None => ([], 0)
  end.

Definition sent_data : list Z * Z :=
  match @awdl_init_full_data_frame rt_standard (replicate 128 0) sample_key [0; 1; 2; 3; 4; 5]
          [7; 8; 9] sample_state (mk_ieee80211 7 true) with
  | Some (blk, len, _, _) => (blk, len)
  | None => ([], 0)
  end.

Definition air (header : list Z) (sent : list Z * Z) : buf :=
  buf_of (header ++ @on_air rt_standard sent.1 sent.2).

Lemma air_received header sent rssi flags :
  bytes_ok (header ++ @on_air rt_standard sent.1 sent.2) →
  Z.of_nat (length (header ++ @on_air rt_standard sent.1 sent.2)) <= INT_MAX →
  @radiotap_parse rt_standard (air header sent) 0 0 = Some (RX_OK, rssi, flags) →
  le_val (take 2 (drop 2 (header ++ @on_air rt_standard sent.1 sent.2))) =
    Z.of_nat (length header) →
  has_flag flags 64 = false →
  @received sample_rx_env rt_standard (air header sent) (@on_air rt_standard sent.1 sent.2) rssi flags.
Proof.
  intros Hb Hl Hp Hi Hf. destruct (buf_of_wf _ Hb Hl) as [W Hc]. split; [done|done| |done].
  exists header. rewrite <- Hi. by unfold air; rewrite Hc.
Qed.

Lemma action_frame_roundtrip_witness :
  ∃ r' e' rc, @awdl_rx small_calloc sample_malloc sample_rx_env 16%nat rt_standard unit no_hooks
      (air plain_radiotap sent_action) 9000 receiver tt = Done ([], r', e', rc) ∧
    @informed small_calloc sample_state [] AWDL_ACTION_MIF 9000 5001 receiver {[ sample_key := sample_peer ]} r' rc.
Proof.
  eapply (@action_frame_roundtrip small_calloc small_calloc_bounded sample_malloc sample_malloc_ok
    sample_rx_env sample_rx_env_ok 16%nat rt_standard rt_standard_ok unit no_hooks sample_state _ []
    AWDL_ACTION_MIF 5000 5001 (mk_ieee80211 7 false) (replicate 1024 0) sent_action.1 sent_action.2
    (mk_ieee80211 8 false)
    (air plain_radiotap sent_action) 0 0 9000 receiver _ tt sample_state_ok sample_name_is).
  - simpl. lia.
  - by right.
  - reflexivity.
  - reflexivity.
  - rewrite length_replicate. lia.
  - vm_compute. reflexivity.
  - apply air_received.
    + apply (bool_decide_unpack _). vm_compute. exact I.
    + vm_compute. discriminate.
    + vm_compute. reflexivity.
    + vm_compute. reflexivity.
    + reflexivity.
  - reflexivity.
  - exact receiver_ok.
  - discriminate.
  - rewrite (rssi_rejects_spec _ _ _ _ receiver_ok), lookup_singleton_eq. reflexivity.
Defined.

Lemma data_frame_roundtrip_witness :
  ∃ b r', @awdl_rx small_calloc sample_malloc sample_rx_env 16%nat rt_standard unit no_hooks
      (air [0; 0; 9; 0; 2; 0; 0; 0; 16] sent_data) 9000 receiver tt = Done ([b], r', tt, RX_OK) ∧
    take 17 (contents b) = [0; 1; 2; 3; 4; 5] ++ sample_key ++ [0x86; 0xdd; 7; 8; 9].
Proof.
  edestruct (@data_frame_roundtrip small_calloc small_calloc_bounded sample_malloc sample_malloc_ok
    sample_rx_env sample_rx_env_ok 16%nat rt_standard rt_standard_ok unit no_hooks sample_state _ sample_key
    [0; 1; 2; 3; 4; 5] [7; 8; 9] (mk_ieee80211 7 true) (replicate 128 0) sent_data.1 sent_data.2
    (with_sequence_number 1 sample_state) (mk_ieee80211 8 true)
    (air [0; 0; 9; 0; 2; 0; 0; 0; 16] sent_data) 0 16 9000 receiver
    {[ sample_key := sample_peer ]} tt sample_state_ok sample_addr_ok receiver_addr_ok) as (b & r' & Hrx & _ & _ & _ & Hb & _).
  - unfold out_room. lia.
  - rewrite length_replicate. simpl. lia.
  - vm_compute. reflexivity.
  - apply air_received.
    + apply (bool_decide_unpack _). vm_compute. exact I.
    + vm_compute. discriminate.
    + vm_compute. reflexivity.
    + vm_compute. reflexivity.
    + reflexivity.
  - reflexivity.
  - exact receiver_ok.
  - discriminate.
  - rewrite lookup_singleton_eq. eauto.
  - exists b, r'. split; [exact Hrx|apply Hb; simpl; lia].
Defined.
