(* ===== verification/Amsdu.v ===== *)
(** * Amsdu: aggregated data frames (src/rx.c, awdl_rx_data_amsdu)

    The format of an aggregated frame, subframes padded to multiples of four
    bytes, and that the receiver takes it apart into exactly the Ethernet
    frames it carries, in order, if the array it is given has room for them,
    and writes behind the array otherwise. *)

From Stdlib Require Import ZArith Lia ZifyBool.
From stdpp Require Import base tactics numbers list gmap.
From S2P Require Import Prelude Wire HashMap Election Peers State Frame Rx TxRx.

Local Open Scope Z_scope.

(** ** The format *)

Record subframe := mk_subframe {
  sub_dst : ether_addr;
  sub_src : ether_addr;
  sub_payload : list Z }.

Definition subframe_bytes (f : subframe) : list Z :=
  concat [sub_dst f; sub_src f; htobe16 (Z.of_nat (length (sub_payload f))); sub_payload f].

Definition padding (f : subframe) : Z :=
  Z.rem (4 - Z.rem (14 + Z.of_nat (length (sub_payload f))) 4) 4.

(** Every subframe but the last is padded. *)
Fixpoint amsdu_bytes (l : list subframe) : list Z :=
  match l with
  | [] => []
  | [f] => subframe_bytes f
  | f :: l => subframe_bytes f ++ replicate (Z.to_nat (padding f)) 0 ++ amsdu_bytes l
  end.

(** A subframe from a peer of the table, with an AWDL data frame in it. *)
Record sub_ok (P : gmap mkey awdl_peer) (f : subframe) : Prop := {
  sub_dst_ok : addr_ok (sub_dst f);
  sub_src_ok : addr_ok (sub_src f);
  sub_peer : is_Some (P !! sub_src f);
  sub_llc : llc_ok (sub_payload f) = true;
  sub_len : 16 <= Z.of_nat (length (sub_payload f)) < 65536 }.

(** The Ethernet frame it carries, in a buffer that held [junk]. *)
Definition carried (junk : list Z) (f : subframe) : list Z :=
  ether_frame (sub_dst f) (sub_src f) (be_val (take 2 (drop 14 (sub_payload f))))
    (drop 16 (sub_payload f)) junk.

(** ** Lemmas *)

Lemma subframe_length P f : sub_ok P f →
  Z.of_nat (length (subframe_bytes f)) = 14 + Z.of_nat (length (sub_payload f)).
Proof.
  intros [[Hd _] [Hs _] _ _ _]. unfold subframe_bytes. cbn [concat].
  rewrite !length_app. cbn [length htobe16 be_bytes]. simpl. lia.
Qed.

(** What follows a subframe. *)
Lemma amsdu_bytes_cons P f l :
  Forall (sub_ok P) l →
  amsdu_bytes (f :: l) = subframe_bytes f ++
    match amsdu_bytes l with [] => [] | _ => replicate (Z.to_nat (padding f)) 0 ++ amsdu_bytes l end.
Proof.
  intros Hl. destruct l as [|g l]; [simpl; by rewrite app_nil_r|].
  change (amsdu_bytes (f :: g :: l)) with
    (subframe_bytes f ++ replicate (Z.to_nat (padding f)) 0 ++ amsdu_bytes (g :: l)).
  destruct (amsdu_bytes (g :: l)) eqn:E; [exfalso|done].
  apply Forall_cons in Hl as [Hg _]. pose proof (subframe_length P g Hg) as Hgl. simpl in E.
  destruct l; [|apply app_eq_nil in E as [E _]]; rewrite E in Hgl; simpl in Hgl; lia.
Qed.

Lemma padding_range f : 0 <= padding f < 4.
Proof.
  unfold padding. assert (0 <= Z.rem (14 + Z.of_nat (length (sub_payload f))) 4 < 4)
    by (apply Z.rem_bound_pos; lia). apply Z.rem_bound_pos; lia.
Qed.

Lemma read_be16_member val fs i v o :
  buf_wf val → contents val = concat fs → fs !! i = Some (htobe16 v) →
  Z.of_nat (length (concat (take i fs))) = o → read_be16 val o = Some (2, Some (u16 v)).
Proof.
  intros W Hfs Hf <-. pose proof (member_end val fs W Hfs i _ Hf).
  rewrite read_be16_spec by (done || simpl in *; lia).
  rewrite Hfs, (spec_read_member be_val fs i (htobe16 v)) by done.
  unfold htobe16. by rewrite be_val_bytes.
Qed.

Section amsdu.
Context `{RxEnvOk} `{OutRoom} (P : gmap mkey awdl_peer).

(** The header of the first subframe. *)
Lemma amsdu_header frame f rest :
  buf_wf frame → sub_ok P f → contents frame = subframe_bytes f ++ rest →
  ∃ f1, (dst_a ← checked RX_TOO_SHORT (read_ether_addr frame 0);
         src_a ← checked RX_TOO_SHORT (read_ether_addr frame 6);
         len_a ← checked RX_TOO_SHORT (read_be16 frame 12);
         strip_checked RX_TOO_SHORT 14;;
         mret (dst_a, src_a, len_a)) frame =
    Some (f1, inr (sub_dst f, sub_src f, Z.of_nat (length (sub_payload f)))) ∧
    buf_wf f1 ∧ contents f1 = sub_payload f ++ rest.
Proof.
  intros W Hf Hc. pose proof (subframe_length P f Hf) as Hlen. destruct Hf as [[Hd _] [Hs _] _ _ Hl].
  set (fs := [sub_dst f; sub_src f; htobe16 (Z.of_nat (length (sub_payload f))); sub_payload f; rest]).
  assert (contents frame = concat fs) as Hfs.
  { rewrite Hc. unfold subframe_bytes, fs. simpl. by rewrite !app_nil_r, <- !app_assoc. }
  rewrite (read_ether_addr_member frame fs W Hfs 0 (sub_dst f) 0) by (done || member).
  rewrite (read_ether_addr_member frame fs W Hfs 1 (sub_src f) 6) by (done || (simpl; rewrite ?app_nil_r; lia)).
  rewrite (read_be16_member frame fs 2 (Z.of_nat (length (sub_payload f))) 12)
    by (done || (simpl; rewrite ?app_nil_r, ?length_app; lia)).
  rewrite !bind_checked by lia. rewrite u16_id by int_lia.
  destruct (buf_strip_spec frame 14 W) as (f1 & Hst & W1 & Hc1 & _); [rewrite Hc, length_app; lia|].
  exists f1. split; [|split; [done|]].
  - unfold mbind, M_bind, strip_checked. by rewrite Hst.
  - rewrite Hc1, Hfs.
    replace (concat fs) with ((sub_dst f ++ sub_src f ++ htobe16 (Z.of_nat (length (sub_payload f)))) ++
      sub_payload f ++ rest) by (unfold fs; cbn [concat]; by rewrite app_nil_r, <- !app_assoc).
    apply drop_app_length'. rewrite !length_app. simpl. lia.
Qed.

(** Behind its payload: the padding, if something follows. *)
Lemma amsdu_skip frame f rest :
  buf_wf frame →
  contents frame = sub_payload f ++
    match rest with [] => [] | _ => replicate (Z.to_nat (padding f)) 0 ++ rest end →
  ∃ f1, (strip_checked RX_TOO_SHORT (Z.of_nat (length (sub_payload f)));;
         b ← get_st;
         if buf_len b >? 0 then strip_checked RX_TOO_SHORT (padding f) else mret tt) frame =
    Some (f1, inr tt) ∧ buf_wf f1 ∧ contents f1 = rest.
Proof.
  intros W Hc. pose proof (padding_range f) as Hp.
  destruct (buf_strip_spec frame (Z.of_nat (length (sub_payload f))) W) as (f1 & Hst & W1 & Hc1 & _);
    [rewrite Hc, length_app; lia|].
  unfold mbind, M_bind, get_st, strip_checked at 1. rewrite Hst. if_false.
  rewrite Nat2Z.id, Hc, drop_app_length in Hc1. unfold buf_len.
  rewrite <- (contents_length f1 W1), Hc1. destruct rest as [|x rest]; [if_false; eauto|].
  rewrite length_app, length_replicate. if_true. unfold strip_checked.
  destruct (buf_strip_spec f1 (padding f) W1) as (f2 & -> & W2 & Hc2 & _);
    [rewrite Hc1, length_app, length_replicate; lia|]. if_false.
  exists f2. split; [done|]. split; [done|]. rewrite Hc2, Hc1. by rewrite drop_app_length' by (rewrite length_replicate; lia).
Qed.

(** What a run of the loop over the subframes [l] comes to, [out] being the
    frames already in the array. *)
Definition taken_apart (l : list subframe) (s : awdl_state) (out : list buf)
    (res : outcome (list buf * awdl_state * Z)) : Prop :=
  if decide (length out + length l <= out_room)%nat then
    ∃ bs s', res = Done (out ++ bs, s', RX_OK) ∧ state_ok s' P ∧ the_peers s' = the_peers s ∧
      Forall buf_wf bs ∧ contents <$> bs = carried (junk_block ETHER_MAX_LEN) <$> l
  else res = Undef.

(** The whole loop. *)
Lemma amsdu_run fuel : ∀ l frame s out,
  buf_wf frame → (Z.to_nat (b_len frame) < fuel)%nat → state_ok s P →
  contents frame = amsdu_bytes l → Forall (sub_ok P) l → (length out <= out_room)%nat →
  taken_apart l s out (awdl_rx_data_amsdu fuel frame s out).
Proof.
  induction fuel as [|fuel IH]; intros l frame s out W Hfuel Hs Hc Hl Hroom; [lia|].
  pose proof (contents_length frame W) as Hlen. cbn [awdl_rx_data_amsdu]. unfold buf_len at 1.
  destruct l as [|f l].
  { simpl in Hc. rewrite Hc in Hlen. simpl in Hlen. if_true. unfold taken_apart.
    rewrite decide_True by (simpl; lia).
    exists [], s. rewrite app_nil_r. split_and!; done || constructor. }
  apply Forall_cons in Hl as [Hf Hl]. pose proof (subframe_length P f Hf) as Hfl.
  rewrite (amsdu_bytes_cons P) in Hc by done. rename Hc into Hc'. rewrite Hc', length_app in Hlen. if_false.
  destruct (amsdu_header frame f _ W Hf Hc') as (f1 & -> & W1 & Hc1). cbn [of_option mbind outcome_bind].
  pose proof (contents_length f1 W1) as Hl1. rewrite Hc1, length_app in Hl1. destruct Hf as [Hd Hsr [p Hp] Hllc Hpl].
  change (buf_len f1) with (b_len f1). if_false. unfold buf_new_const. if_false. unfold buf_data. cbn [fst snd of_option mbind outcome_bind].
  destruct (sub_buf f1 0 (Z.of_nat (length (sub_payload f)))
    (mk_buf (b_mem f1) (b_data f1) (b_data f1) (Z.of_nat (length (sub_payload f))) false) W1) as [Ws Hcs];
    [lia|lia|rewrite Hc1, length_app; lia|unfold buf_new_const; if_false; simpl; do 2 f_equal; lia|].
  rewrite Nat2Z.id, Hc1, drop_0, take_app_length in Hcs.
  destruct (decide (length out < out_room)%nat) as [Hfree|Hfull].
  2: { unfold taken_apart. rewrite decide_False by (simpl; lia).
       destruct (rx_data_full _ (sub_src f) (sub_dst f) s P out ltac:(lia) Ws Hs) as [[_ Hshort]|[-> _]]; [|done].
       rewrite Hcs in Hshort. specialize (Hshort (ex_intro _ p Hp) Hllc). simpl in Hshort. lia. }
  pose proof (rx_data_spec _ (sub_src f) (sub_dst f) s P out Hfree Ws Hsr Hd Hs) as Hrx. cbv zeta in Hrx.
  rewrite Hp, Hcs, Hllc in Hrx. cbn [negb] in Hrx. replace (_ <? 16) with false in Hrx by lia.
  destruct Hrx as (b & -> & Hcb & Wb & _). cbn [of_option mbind outcome_bind]. change (RX_OK <? 0) with false. cbv iota.
  destruct (amsdu_skip f1 f (amsdu_bytes l) W1 Hc1) as (f2 & Hskip & W2 & Hc2).
  fold (padding f). rewrite Hskip. cbn [of_option mbind outcome_bind].
  pose proof (contents_length f2 W2) as Hl2. rewrite Hc2 in Hl2.
  assert (taken_apart l (with_stats (incr_rx_data (st_stats s)) s) (out ++ [b])
    (awdl_rx_data_amsdu fuel f2 (with_stats (incr_rx_data (st_stats s)) s) (out ++ [b]))) as Hrest.
  { apply IH; [done| |auto with owl|done|done|rewrite length_app; simpl; lia].
    destruct (amsdu_bytes l); simpl in *; rewrite ?length_app in *; simpl in *; lia. }
  unfold taken_apart in Hrest |- *. rewrite length_app in Hrest. cbn [length] in Hrest |- *.
  replace (length out + 1 + length l)%nat with (length out + S (length l))%nat in Hrest by lia.
  destruct (decide _); [|exact Hrest]. destruct Hrest as (bs & s' & -> & Hs' & Hps & Hbs & Hcbs).
  exists (b :: bs), s'. rewrite <- app_assoc. split_and!; [done|done|done|by constructor|].
  rewrite !fmap_cons. by rewrite Hcb, Hcbs.
Qed.
End amsdu.

(** ** Properties *)

(** C22: how an aggregated data frame is taken apart: if its bytes are the
    subframes [l], padded to multiples of four, each from a peer of the table
    and with an AWDL data frame in it, and the caller's array has room for
    them, [awdl_rx_data_amsdu] returns [RX_OK] with exactly one Ethernet frame
    per subframe, in order, each with the addresses of its subframe, the type
    of the data frame in it and, if that has at most 1504 bytes, its payload
    (a longer payload is left out).  If there are more subframes than free
    entries, it writes behind the array. *)
Theorem amsdu_delivers `{RxEnvOk} `{OutRoom} P l frame s out :
  buf_wf frame → state_ok s P → contents frame = amsdu_bytes l → Forall (sub_ok P) l →
  (length out <= out_room)%nat →
  if decide (length out + length l <= out_room)%nat then
    ∃ bs s', awdl_rx_data_amsdu (S (Z.to_nat (b_len frame))) frame s out = Done (out ++ bs, s', RX_OK) ∧
      state_ok s' P ∧ the_peers s' = the_peers s ∧
      contents <$> bs = carried (junk_block ETHER_MAX_LEN) <$> l
  else awdl_rx_data_amsdu (S (Z.to_nat (b_len frame))) frame s out = Undef.
Proof.
  intros W Hs Hc Hl Hroom.
  pose proof (amsdu_run P (S (Z.to_nat (b_len frame))) l frame s out W ltac:(lia) Hs Hc Hl Hroom) as Hrun.
  unfold taken_apart in Hrun. destruct (decide _); [|exact Hrun].
  destruct Hrun as (bs & s' & ? & ? & ? & _ & ?). by exists bs, s'.
Qed.

(** Two subframes of different lengths, the first one padded. *)
Definition sample_subframes : list subframe :=
  [mk_subframe [0; 1; 2; 3; 4; 5] sample_key sample_data;
   mk_subframe [0; 1; 2; 3; 4; 5] sample_key (sample_data ++ [8; 8])].

Lemma sample_subframe_ok p :
  llc_ok p = true → 16 <= Z.of_nat (length p) < 65536 →
  sub_ok {[sample_key := sample_peer]} (mk_subframe [0; 1; 2; 3; 4; 5] sample_key p).
Proof.
  intros Hl Hp. constructor; simpl;
    [exact receiver_addr_ok|exact sample_addr_ok|rewrite lookup_singleton_eq; by eexists|done|done].
Qed.

Lemma sample_subframes_ok : Forall (sub_ok {[sample_key := sample_peer]}) sample_subframes.
Proof. constructor; [|constructor; [|constructor]]; apply sample_subframe_ok; reflexivity || (simpl; lia). Qed.

Lemma sample_subframes_wf :
  buf_wf (buf_of (amsdu_bytes sample_subframes)) ∧
  contents (buf_of (amsdu_bytes sample_subframes)) = amsdu_bytes sample_subframes.
Proof. apply buf_of_wf; [apply (bool_decide_unpack _); vm_compute; exact I|vm_compute; by intros [=]]. Qed.

(** Both subframes are delivered into an array of sixteen entries; the second
    one is written behind an array of one. *)
Lemma amsdu_delivers_witness :
  (∃ bs s', @awdl_rx_data_amsdu sample_rx_env 16%nat (S (Z.to_nat (b_len (buf_of (amsdu_bytes sample_subframes)))))
      (buf_of (amsdu_bytes sample_subframes)) receiver [] = Done (bs, s', RX_OK) ∧
    contents <$> bs = carried (replicate (Z.to_nat ETHER_MAX_LEN) 0) <$> sample_subframes) ∧
  @awdl_rx_data_amsdu sample_rx_env 1%nat (S (Z.to_nat (b_len (buf_of (amsdu_bytes sample_subframes)))))
    (buf_of (amsdu_bytes sample_subframes)) receiver [] = Undef.
Proof.
  destruct sample_subframes_wf as [W Hc]. split.
  - destruct (@amsdu_delivers sample_rx_env sample_rx_env_ok 16%nat {[sample_key := sample_peer]} sample_subframes
      (buf_of (amsdu_bytes sample_subframes)) receiver [] W receiver_ok Hc sample_subframes_ok) as (bs & s' & Hr & _ & _ & Hb).
    + unfold out_room. simpl. lia.
    + exists bs, s'. split; [exact Hr|exact Hb].
  - apply (@amsdu_delivers sample_rx_env sample_rx_env_ok 1%nat {[sample_key := sample_peer]} sample_subframes
      (buf_of (amsdu_bytes sample_subframes)) receiver [] W receiver_ok Hc sample_subframes_ok).
    unfold out_room. simpl. lia.
Defined.
