(* ===== verification/Print.v ===== *)
(** * Print: texts for the log (src/election.c, src/peers.c, src/version.c)

    The functions that format the election tree, a peer and the peer table
    into a buffer of the caller.  A text is a list of character codes; the
    functions advance an offset by what [snprintf] would have written, and
    stop writing when it passes the end.  Lengths and results are [int]s,
    differences of pointers converted with [to_int].  [prints] says that a
    part of such a function appends a text, truncated to what fits, with the
    final zero. *)

From Stdlib Require Import ZArith Lia ZifyBool Ascii.
From stdpp Require Import base tactics numbers list strings gmap.
From S2P Require Import Prelude HashMap Channel Election Peers ElectionRun State Frame Radiotap Tx.

Local Open Scope Z_scope.

(** ** Formats *)

Fixpoint chars (s : string) : list Z :=
  match s with
  | EmptyString => []
  | String a s => Z.of_N (N_of_ascii a) :: chars s
  end.

(** The digit [d] in base ten or sixteen. *)
Definition digit (d : Z) : Z := if d <? 10 then 48 + d else 87 + d.

Fixpoint digits (base : Z) (fuel : nat) (n : Z) : list Z :=
  match fuel with
  | O => []
  | S fuel => (if n <? base then [] else digits base fuel (n / base)) ++ [digit (n mod base)]
  end.

(** [%u] of 32 bits, [%x] of a byte. *)
Definition fmt_u (n : Z) : list Z := digits 10 10 n.
Definition fmt_x (n : Z) : list Z := digits 16 2 n.

(** [ether_ntoa]: hexadecimal without leading zeros, separated by colons. *)
Fixpoint ether_ntoa (a : ether_addr) : list Z :=
  match a with
  | [] => []
  | [b] => fmt_x b
  | b :: a => fmt_x b ++ 58 :: ether_ntoa a
  end.

(** What [%s] prints of an array of characters. *)
Definition cstring (s : list Z) : option (list Z) := n ← strlen s; Some (take (Z.to_nat n) s).

(** [snprintf(blk + off, size, ...)] of the text [s]. *)
Definition snprintf (blk : list Z) (off size : Z) (s : list Z) : option (list Z) :=
  if size =? 0 then Some blk else store blk off (take (Z.to_nat (size - 1)) s ++ [0]).

(** [cur += snprintf(cur, cur < end ? end - cur : 0, ...)]. *)
Definition put (e : Z) (s : list Z) (o : list Z * Z) : option (list Z * Z) :=
  blk ← snprintf o.1 o.2 (if o.2 <? e then e - o.2 else 0) s;
  Some (blk, o.2 + Z.of_nat (length s)).

(** A difference of pointers as an [int]. *)
Definition to_int (z : Z) : Z := (z + 2 ^ 31) mod 2 ^ 32 - 2 ^ 31.

Lemma to_int_id z : is_int z → to_int z = z.
Proof. intros Hz. unfold to_int, is_int, INT_MIN, INT_MAX in *. rewrite Z.mod_small; lia. Qed.

Lemma to_int_add a b : to_int (a + to_int b) = to_int (a + b).
Proof.
  unfold to_int. replace (a + ((b + 2 ^ 31) mod 2 ^ 32 - 2 ^ 31) + 2 ^ 31) with (a + (b + 2 ^ 31) mod 2 ^ 32) by lia.
  rewrite Z.add_mod_idemp_r by lia. do 2 f_equal. lia.
Qed.

(** ** The functions *)

(** The loop that prints a dash per intermediate hop. *)
Fixpoint put_dashes (e : Z) (n : nat) (o : list Z * Z) : option (list Z * Z) :=
  match n with
  | O => Some o
  | S n => o ← put e (chars "-") o; put_dashes e n o
  end.

(** The block and the number of characters. *)
Definition awdl_election_tree_print (state : awdl_election_state) (blk : list Z) (str len : Z) :
    option (list Z * Z) :=
  let e := str + len in
  o ← put e (ether_ntoa (self_addr state)) (blk, str);
  o ← (if height state >? 0 then put e (chars " -> " ++ ether_ntoa (sync_addr state)) o else Some o);
  o ← (if height state >? 1 then
         o ← put e (chars " ") o;
         o ← put_dashes e (Z.to_nat (height state - 1)) o;
         put e (chars "> " ++ ether_ntoa (master_addr state)) o
       else Some o);
  o ← put e (chars " (met " ++ fmt_u (master_metric state) ++ chars ", ctr " ++ fmt_u (master_counter state)
             ++ chars ")") o;
  Some (o.1, to_int (o.2 - str)).

Definition awdl_peer_print (peer : awdl_peer) (blk : list Z) (str len : Z) : option (list Z * Z) :=
  let e := str + len in
  n ← strlen (peer_name peer);
  name ← cstring (peer_name peer);
  o ← (if negb (n =? 0) then put e (name ++ chars ": ") (blk, str) else put e (chars "<UNNAMED>: ") (blk, str));
  r ← awdl_election_tree_print (election peer) o.1 o.2 (to_int (e - o.2));
  Some (r.1, to_int (o.2 + r.2 - str)).

Definition awdl_peers_print (ps : awdl_peers) (blk : list Z) (str len : Z) : outcome (list Z * Z) :=
  let e := str + len in
  o ← peers_while_next ps (λ o p,
        peer ← p_heap ps !! p;
        r ← awdl_peer_print peer o.1 o.2 (to_int (e - o.2));
        put e [10] (r.1, o.2 + r.2)) (blk, str);
  Done (o.1, to_int (o.2 - str)).

(** The 64 bytes of the static array before and after. *)
Definition awdl_version_to_str (version : Z) (str : list Z) : option (list Z) :=
  let major := fmt_u (awdl_version_major version) in
  let cur := 0 in
  str ← snprintf str cur (u64 (64 - cur)) major;
  let cur := cur + Z.of_nat (length major) in
  str ← snprintf str cur (u64 (64 - cur)) (chars ".");
  let cur := cur + 1 in
  snprintf str cur (u64 (64 - cur)) (fmt_u (awdl_version_minor version)).

(** ** Printing as appending *)

(** [b] is the block [blk] with the text [t] at [str], in [len] bytes. *)
Definition wrote (blk : list Z) (str len : Z) (t b : list Z) : Prop :=
  (t = [] ∧ b = blk) ∨ store blk str (take (Z.to_nat (len - 1)) t ++ [0]) = Some b.

(** A part of a function with the end [e] that appends [t]. *)
Definition prints (e : Z) (t : list Z) (f : list Z * Z → option (list Z * Z)) : Prop :=
  ∀ blk str len t0 b, e = str + len → 0 <= str → 1 <= len → e <= Z.of_nat (length blk) → wrote blk str len t0 b →
  ∃ b', f (b, str + Z.of_nat (length t0)) = Some (b', str + Z.of_nat (length (t0 ++ t))) ∧
    wrote blk str len (t0 ++ t) b'.

Lemma wrote_more blk str len t b s :
  0 <= str → str + len <= Z.of_nat (length blk) → Z.of_nat (length t) < len →
  wrote blk str len t b →
  store b (str + Z.of_nat (length t)) (take (Z.to_nat (len - Z.of_nat (length t) - 1)) s ++ [0]) =
  store blk str (take (Z.to_nat (len - 1)) (t ++ s) ++ [0]).
Proof.
  intros Hs Hl Ht Hw. rewrite take_app.
  rewrite (take_ge t) by lia. replace (Z.to_nat (len - 1) - length t)%nat with (Z.to_nat (len - Z.of_nat (length t) - 1)) by lia.
  set (x := take (Z.to_nat (len - Z.of_nat (length t) - 1)) s ++ [0]).
  assert (1 <= length x <= Z.to_nat (len - Z.of_nat (length t)))%nat as Hx.
  { unfold x. rewrite length_app, length_take. simpl. lia. }
  rewrite <- app_assoc. fold x.
  destruct Hw as [[-> ->]|Hw]; [by rewrite Z.add_0_r|].
  pose proof (store_length _ _ _ _ Hw) as Hlb. rewrite (take_ge t) in Hw by lia.
  rewrite store_Some in Hw by (rewrite ?length_app; simpl; lia). injection Hw as Hb.
  rewrite !store_Some by (rewrite ?length_app; simpl; lia). f_equal.
  rewrite <- Hb. rewrite <- !app_assoc, (app_assoc (take (Z.to_nat str) blk) t).
  replace (Z.to_nat (str + Z.of_nat (length t))) with (length (take (Z.to_nat str) blk ++ t))
    by (rewrite length_app, length_take; lia).
  rewrite take_app_length, drop_app_add. rewrite <- !app_assoc. do 3 f_equal.
  destruct (length x) as [|n] eqn:En; [lia|]. cbn [app drop]. rewrite drop_drop, !length_app, En. f_equal. simpl. lia.
Qed.

Lemma put_prints e s : prints e s (put e s).
Proof.
  intros blk str len t b -> Hs Hl Hb Hw. unfold put, snprintf. cbn [fst snd].
  assert (str + Z.of_nat (length t) + Z.of_nat (length s) = str + Z.of_nat (length (t ++ s))) as ->
    by (rewrite length_app; lia).
  destruct (_ <? _) eqn:E; cycle 1.
  - change (0 =? 0) with true. cbv iota. eexists. split; [reflexivity|].
    destruct Hw as [[-> ->]|Hw]; [simpl in E; lia|]. right. rewrite take_app_le by lia. done.
  - if_false. replace (str + len - (str + Z.of_nat (length t)) - 1) with (len - Z.of_nat (length t) - 1) by lia.
    rewrite (wrote_more blk str len t b s) by (done || lia).
    rewrite store_Some; [|lia|rewrite length_app, length_take, length_app; simpl; lia].
    eexists. split; [reflexivity|]. right. rewrite store_Some; [done|lia|].
    rewrite length_app, length_take, length_app. simpl. lia.
Qed.

Lemma prints_nil e : prints e [] Some.
Proof. intros blk str len t b -> Hs Hl Hb Hw. exists b. by rewrite app_nil_r. Qed.

Lemma prints_bind e s t f g : prints e s f → prints e t g → prints e (s ++ t) (λ o, o' ← f o; g o').
Proof.
  intros Hf Hg blk str len t0 b -> Hs Hl Hb Hw.
  destruct (Hf blk str len t0 b eq_refl Hs Hl Hb Hw) as (b1 & -> & Hw1). cbn [mbind option_bind].
  destruct (Hg blk str len (t0 ++ s) b1 eq_refl Hs Hl Hb Hw1) as (b2 & -> & Hw2).
  exists b2. rewrite app_assoc. done.
Qed.

Lemma prints_if e (c : bool) s f : prints e s f → prints e (if c then s else []) (λ o, if c then f o else Some o).
Proof. intros Hf. destruct c; [done|apply prints_nil]. Qed.

Lemma dashes_print e n : prints e (replicate n 45) (put_dashes e n).
Proof.
  induction n as [|n IH]; [apply prints_nil|]. cbn [put_dashes replicate].
  apply (prints_bind e [45] (replicate n 45)); [apply put_prints|done].
Qed.

(** ** The texts *)

Definition tree_text (s : awdl_election_state) : list Z :=
  ether_ntoa (self_addr s) ++
  (if height s >? 0 then chars " -> " ++ ether_ntoa (sync_addr s) else []) ++
  (if height s >? 1
   then chars " " ++ replicate (Z.to_nat (height s - 1)) 45 ++ chars "> " ++ ether_ntoa (master_addr s) else []) ++
  chars " (met " ++ fmt_u (master_metric s) ++ chars ", ctr " ++ fmt_u (master_counter s) ++ chars ")".

(** The function without the return value. *)
Definition tree_puts (e : Z) (s : awdl_election_state) (o : list Z * Z) : option (list Z * Z) :=
  o ← put e (ether_ntoa (self_addr s)) o;
  o ← (if height s >? 0 then put e (chars " -> " ++ ether_ntoa (sync_addr s)) o else Some o);
  o ← (if height s >? 1 then
         o ← put e (chars " ") o;
         o ← put_dashes e (Z.to_nat (height s - 1)) o;
         put e (chars "> " ++ ether_ntoa (master_addr s)) o
       else Some o);
  put e (chars " (met " ++ fmt_u (master_metric s) ++ chars ", ctr " ++ fmt_u (master_counter s) ++ chars ")") o.

Lemma tree_print_puts s blk str len :
  awdl_election_tree_print s blk str len = (λ o : list Z * Z, (o.1, to_int (o.2 - str))) <$> tree_puts (str + len) s (blk, str).
Proof.
  unfold awdl_election_tree_print, tree_puts. destruct (put _ _ _) as [o|]; [cbn [mbind option_bind]|done].
  destruct (if height s >? 0 then _ else _) as [o1|]; [cbn [mbind option_bind]|done].
  destruct (if height s >? 1 then _ else _) as [o2|]; [cbn [mbind option_bind]|done].
  by destruct (put _ _ _).
Qed.

Lemma tree_puts_prints e s : prints e (tree_text s) (tree_puts e s).
Proof.
  unfold tree_text, tree_puts. apply prints_bind; [apply put_prints|].
  apply prints_bind; [apply prints_if, put_prints|]. apply prints_bind; [|apply put_prints].
  apply (prints_if e (height s >? 1) _ (λ o, o ← put e (chars " ") o; o ← put_dashes e (Z.to_nat (height s - 1)) o;
    put e (chars "> " ++ ether_ntoa (master_addr s)) o)).
  apply prints_bind; [apply put_prints|]. apply prints_bind; [apply dashes_print|apply put_prints].
Qed.

Definition name_text (p : awdl_peer) : list Z :=
  match cstring (peer_name p) with
  | Some [] => chars "<UNNAMED>: "
  | Some name => name ++ chars ": "
  | None => []
  end.

Definition peer_text (p : awdl_peer) : list Z := name_text p ++ tree_text (election p).

Definition peer_puts (e : Z) (p : awdl_peer) (o : list Z * Z) : option (list Z * Z) :=
  o ← put e (name_text p) o; tree_puts e (election p) o.

Lemma strlen_bound s : ∀ n, strlen s = Some n → 0 <= n <= Z.of_nat (length s).
Proof.
  induction s as [|c s IH]; intros n; simpl; [done|]. destruct (c =? 0); [intros [= <-]; lia|].
  destruct (strlen s) as [m|]; [|done]. intros [= <-]. specialize (IH m eq_refl). lia.
Qed.

(** The two branches for the name. *)
Lemma name_put e p o : is_Some (cstring (peer_name p)) →
  (n ← strlen (peer_name p);
   name ← cstring (peer_name p);
   if negb (n =? 0) then put e (name ++ chars ": ") o else put e (chars "<UNNAMED>: ") o) = put e (name_text p) o.
Proof.
  intros [name Hn]. unfold name_text. rewrite Hn. unfold cstring in Hn.
  destruct (strlen (peer_name p)) as [n|] eqn:El; [|done]. injection Hn as Hn. apply strlen_bound in El.
  cbn [mbind option_bind]. destruct (n =? 0) eqn:E; cbn [negb].
  - replace n with 0 in Hn by lia. simpl in Hn. by subst name.
  - destruct name as [|c name]; [|done]. apply (f_equal length) in Hn. rewrite length_take in Hn. simpl in Hn. lia.
Qed.

Lemma peer_print_puts e p blk cur : is_Some (cstring (peer_name p)) →
  is_int (e - cur) → is_int (e - (cur + Z.of_nat (length (name_text p)))) →
  awdl_peer_print p blk cur (to_int (e - cur)) = (λ o : list Z * Z, (o.1, to_int (o.2 - cur))) <$> peer_puts e p (blk, cur).
Proof.
  intros Hn He He2. pose proof (name_put e p (blk, cur) Hn) as Hput. unfold awdl_peer_print, peer_puts.
  rewrite to_int_id by done. replace (cur + (e - cur)) with e by lia.
  destruct Hn as [name Hn]. rewrite Hn in *.
  destruct (strlen (peer_name p)) as [n|] eqn:El; [|unfold cstring in Hn; by rewrite El in Hn].
  cbn [mbind option_bind] in *. rewrite Hput.
  unfold put at 1 2. cbn [fst snd]. destruct (snprintf _ _ _ _) as [b|]; [cbn [mbind option_bind fst snd]|done].
  rewrite to_int_id by done. set (cur1 := cur + _) in *. rewrite tree_print_puts. replace (cur1 + (e - cur1)) with e by lia.
  destruct (tree_puts _ _ _) as [[b' cur']|]; [|done]. cbn. do 2 f_equal.
  replace (cur1 + to_int (cur' - cur1) - cur) with (cur1 - cur + to_int (cur' - cur1)) by lia.
  rewrite to_int_add. f_equal. lia.
Qed.

Lemma peer_puts_prints e p : prints e (peer_text p) (peer_puts e p).
Proof. apply prints_bind; [apply put_prints|apply tree_puts_prints]. Qed.

(** The same for texts whose length is an [int]. *)
Definition prints_int (e : Z) (t : list Z) (f : list Z * Z → option (list Z * Z)) : Prop :=
  ∀ blk str len t0 b, e = str + len → 0 <= str → 1 <= len <= INT_MAX → e <= Z.of_nat (length blk) →
  Z.of_nat (length (t0 ++ t)) <= INT_MAX → wrote blk str len t0 b →
  ∃ b', f (b, str + Z.of_nat (length t0)) = Some (b', str + Z.of_nat (length (t0 ++ t))) ∧
    wrote blk str len (t0 ++ t) b'.

Lemma prints_int_bind e s t f g :
  prints_int e s f → prints_int e t g → prints_int e (s ++ t) (λ o, o' ← f o; g o').
Proof.
  intros Hf Hg blk str len t0 b -> Hs Hl Hb Hi Hw. rewrite app_assoc in Hi.
  destruct (Hf blk str len t0 b eq_refl Hs Hl Hb) as (b1 & -> & Hw1); [rewrite length_app in Hi; lia|done|].
  cbn [mbind option_bind].
  destruct (Hg blk str len (t0 ++ s) b1 eq_refl Hs Hl Hb Hi Hw1) as (b2 & -> & Hw2).
  exists b2. rewrite app_assoc. done.
Qed.

(** One iteration of the loop of [awdl_peers_print]. *)
Definition peers_body (ps : awdl_peers) (e : Z) (o : list Z * Z) (q : Z) : option (list Z * Z) :=
  peer ← p_heap ps !! q;
  r ← awdl_peer_print peer o.1 o.2 (to_int (e - o.2));
  put e [10] (r.1, o.2 + r.2).

(** What the call for one peer writes and returns. *)
Lemma peer_print_wrote e p blk str len t0 b :
  is_Some (cstring (peer_name p)) →
  e = str + len → 0 <= str → 1 <= len <= INT_MAX → e <= Z.of_nat (length blk) →
  Z.of_nat (length (t0 ++ name_text p)) <= INT_MAX → wrote blk str len t0 b →
  let cur := str + Z.of_nat (length t0) in
  ∃ b', awdl_peer_print p b cur (to_int (e - cur)) = Some (b', to_int (Z.of_nat (length (peer_text p)))) ∧
    wrote blk str len (t0 ++ peer_text p) b'.
Proof.
  intros Hn -> Hs [Hl Hm] Hb Hi Hw cur. unfold cur. rewrite length_app in Hi.
  rewrite peer_print_puts by (done || (unfold is_int, INT_MIN, INT_MAX in *; lia)).
  destruct (peer_puts_prints (str + len) p blk str len t0 b eq_refl Hs Hl Hb Hw) as (b' & -> & Hw').
  exists b'. split; [|done]. cbn [fmap option_fmap option_map fst snd]. do 3 f_equal. rewrite length_app. lia.
Qed.

Lemma peers_body_prints ps e q peer :
  p_heap ps !! q = Some peer → is_Some (cstring (peer_name peer)) →
  prints_int e (peer_text peer ++ [10]) (λ o, peers_body ps e o q).
Proof.
  intros Hq Hn. unfold peers_body. rewrite Hq. cbn [mbind option_bind].
  intros blk str len t0 b He Hs Hl Hb Hi Hw. rewrite app_assoc in Hi |- *. cbn [fst snd].
  assert (Z.of_nat (length (t0 ++ name_text peer)) <= INT_MAX) as Hname.
  { unfold peer_text in Hi. rewrite !length_app in *. lia. }
  destruct (peer_print_wrote e peer blk str len t0 b Hn He Hs Hl Hb Hname Hw) as (b1 & -> & Hw1).
  cbn [mbind option_bind fst snd]. rewrite to_int_id.
  2: { rewrite !length_app in Hi. unfold is_int, INT_MIN, INT_MAX in *. lia. }
  rewrite <- Z.add_assoc, <- Nat2Z.inj_add, <- length_app.
  apply (put_prints e [10] blk str len); try done. lia.
Qed.

(** A peer whose text is longer than an [int] can say moves the offset in
    front of the buffer. *)
Lemma peers_body_wraps ps e q peer blk str len :
  p_heap ps !! q = Some peer → is_Some (cstring (peer_name peer)) →
  e = str + len → 0 <= str → 1 <= len <= INT_MAX → e <= Z.of_nat (length blk) →
  Z.of_nat (length (name_text peer)) <= INT_MAX →
  INT_MAX < Z.of_nat (length (peer_text peer)) → str + Z.of_nat (length (peer_text peer)) < 2 ^ 32 →
  peers_body ps e (blk, str) q = None.
Proof.
  intros Hq Hn He Hs Hl Hb Hname Hbig Hsmall. unfold peers_body. rewrite Hq. cbn [mbind option_bind fst snd].
  destruct (peer_print_wrote e peer blk str len [] blk Hn He Hs Hl Hb Hname) as (b1 & E & _); [by left|].
  cbn [length] in E. rewrite Z.add_0_r in E. rewrite E. cbn [mbind option_bind fst snd].
  assert (to_int (Z.of_nat (length (peer_text peer))) = Z.of_nat (length (peer_text peer)) - 2 ^ 32) as ->.
  { unfold to_int, INT_MAX in *. rewrite <- (Z.mod_unique (Z.of_nat (length (peer_text peer)) + 2 ^ 31) (2 ^ 32) 1
      (Z.of_nat (length (peer_text peer)) + 2 ^ 31 - 2 ^ 32)); lia. }
  unfold put, snprintf. cbn [fst snd]. if_true. if_false. unfold store. by if_false.
Qed.

Lemma peers_fold_prints ps e l L :
  Forall2 (λ q peer, p_heap ps !! q = Some peer ∧ is_Some (cstring (peer_name peer))) l L →
  prints_int e (concat ((λ p, peer_text p ++ [10]) <$> L)) (λ o, fold_ptrs (peers_body ps e) l o).
Proof.
  induction 1 as [|q peer l L [Hq Hn] _ IH].
  { intros blk str len t0 b He Hs Hl Hb _ Hw. destruct Hl. by apply (prints_nil e blk str len). }
  cbn [fold_ptrs fmap list_fmap concat].
  apply (prints_int_bind e (peer_text peer ++ [10])); [by apply peers_body_prints|exact IH].
Qed.

(** The peers in the order of the table. *)
Lemma table_order ps P (Q : awdl_peer → Prop) : peers_rep ps P → (∀ k p, P !! k = Some p → Q p) →
  ∃ L, L ≡ₚ (map_to_list P).*2 ∧ Forall2 (λ q peer, p_heap ps !! q = Some peer ∧ Q peer) (entries (p_map ps)).*2 L.
Proof.
  intros R HQ. exists (omap (λ kp : mkey * Z, p_heap ps !! kp.2) (entries (p_map ps))). split.
  - assert (entries (p_map ps) ≡ₚ map_to_list (to_map (p_map ps))) as -> by (symmetry; apply map_to_list_to_map, R).
    rewrite (omap_values (λ p, p_heap ps !! p)). by rewrite <- (rep_peers _ _ R).
  - assert (∀ kp, kp ∈ entries (p_map ps) → ∃ peer, p_heap ps !! kp.2 = Some peer ∧ Q peer) as Hl.
    { intros [k q] Hkp. destruct (entries_live ps P R _ Hkp) as [_ [peer Hp]]. exists peer. split; [done|].
      apply (HQ k), (rep_lookup ps P R k q); [|done]. by apply to_map_entries; [apply R|]. }
    revert Hl. generalize (entries (p_map ps)). intros l Hl. induction l as [|kp l IH]; csimpl; [constructor|].
    destruct (Hl kp) as (peer & Hp & Hq); [by left|]. rewrite Hp. constructor; [done|]. apply IH. intros x Hx. apply Hl. by right.
Qed.

(** ** Lengths *)

Lemma digits_length base fuel : ∀ n, (length (digits base fuel n) <= fuel)%nat.
Proof.
  induction fuel as [|fuel IH]; intros n; simpl; [done|]. rewrite length_app. simpl.
  destruct (n <? base); simpl; [lia|]. specialize (IH (n / base)). lia.
Qed.

(** The digits of a number have its value. *)
Definition value10 (s : list Z) : Z := foldl (λ n c, n * 10 + (c - 48)) 0 s.

Lemma digits_value fuel : ∀ n, 0 <= n < 10 ^ Z.of_nat fuel → value10 (digits 10 fuel n) = n.
Proof.
  induction fuel as [|fuel IH]; intros n Hn; [simpl in Hn; unfold value10; simpl; lia|].
  cbn [digits]. unfold value10 in *. rewrite foldl_app. cbn [foldl].
  assert (0 <= n mod 10 < 10) as Hm by (apply Z.mod_pos_bound; lia). unfold digit. if_true.
  destruct (n <? 10) eqn:E.
  - cbn [foldl]. rewrite Z.mod_small by lia. lia.
  - rewrite IH. { pose proof (Z.div_mod n 10). lia. }
    rewrite Nat2Z.inj_succ, Z.pow_succ_r in Hn by lia. split; [apply Z.div_pos; lia|].
    apply Z.div_lt_upper_bound; lia.
Qed.

Lemma fmt_u_value n : is_u32 n → value10 (fmt_u n) = n.
Proof. intros Hn. apply digits_value. change (10 ^ Z.of_nat 10) with 10000000000. unfold is_u32 in Hn. lia. Qed.

Lemma ether_ntoa_length a : (length (ether_ntoa a) <= 3 * length a)%nat.
Proof.
  induction a as [|b a IH]; [done|]. cbn [ether_ntoa]. pose proof (digits_length 16 2 b).
  destruct a as [|c a]; [unfold fmt_x; simpl in *; lia|]. rewrite length_app. cbn [length] in *. unfold fmt_x. lia.
Qed.

Lemma tree_text_length s : election_ok s → height s <= AWDL_ELECTION_TREE_MAX_HEIGHT →
  (length (tree_text s) <= 120)%nat.
Proof.
  intros [[Hm _] [Hsy _] [Hse _] _ _ _ _ _] Hh. unfold AWDL_ELECTION_TREE_MAX_HEIGHT in Hh. unfold tree_text.
  pose proof (ether_ntoa_length (self_addr s)). pose proof (ether_ntoa_length (sync_addr s)).
  pose proof (ether_ntoa_length (master_addr s)). pose proof (digits_length 10 10 (master_metric s)).
  pose proof (digits_length 10 10 (master_counter s)). unfold fmt_u. rewrite !length_app.
  destruct (height s >? 0), (height s >? 1); rewrite ?length_app, ?length_replicate; cbn [chars length] in *; lia.
Qed.

(** ** The version *)

Lemma snprintf_put s blk cur : 0 <= cur < 64 →
  (b ← snprintf blk cur (u64 (64 - cur)) s; Some (b, cur + Z.of_nat (length s))) = put 64 s (blk, cur).
Proof.
  intros Hc. unfold put. cbn [fst snd]. if_true. assert (u64 (64 - cur) = 64 - cur) as -> by (apply Z.mod_small; lia). done.
Qed.

(** The version is printed as the major and minor number with a dot. *)
Lemma version_to_str_spec v str : length str = 64%nat →
  ∃ b, awdl_version_to_str v str = Some b ∧
    store str 0 (fmt_u (awdl_version_major v) ++ chars "." ++ fmt_u (awdl_version_minor v) ++ [0]) = Some b.
Proof.
  intros Hl. set (t1 := fmt_u (awdl_version_major v)). set (t3 := fmt_u (awdl_version_minor v)).
  assert (length t1 <= 10)%nat as H1 by apply digits_length. assert (length t3 <= 10)%nat as H3 by apply digits_length.
  destruct (prints_bind 64 _ _ _ _ (put_prints 64 t1) (prints_bind 64 _ _ _ _ (put_prints 64 (chars ".")) (put_prints 64 t3))
    str 0 64 [] str) as (b & Hp & Hw); [lia..|by left|].
  exists b. change (0 + Z.of_nat (length (@nil Z))) with 0 in Hp. rewrite <- snprintf_put in Hp by lia.
  unfold awdl_version_to_str. fold t1 t3. destruct (snprintf str 0 (u64 (64 - 0)) t1) as [b1|] eqn:E1; [cbn [mbind option_bind] in *|discriminate Hp].
  rewrite <- snprintf_put in Hp by lia. change (length (chars ".")) with 1%nat in Hp.
  destruct (snprintf b1 _ _ _) as [b2|] eqn:E2; [cbn [mbind option_bind] in *|discriminate Hp]. rewrite <- snprintf_put in Hp by lia.
  destruct (snprintf b2 _ _ _) as [b3|]; [|discriminate Hp]. cbn [mbind option_bind] in Hp. injection Hp as -> _. split; [done|].
  destruct Hw as [[Hnil _]|Hw]; [apply (f_equal length) in Hnil; rewrite !length_app in Hnil; cbn [chars length] in Hnil; lia|].
  cbn [app] in Hw.
  rewrite take_ge in Hw by (rewrite length_app; cbn [chars length app]; lia). by rewrite <- !app_assoc in Hw.
Qed.

(** ** Properties *)

(** The text of a table does not depend on the order in its length. *)
Lemma table_text_length L L' : L ≡ₚ L' →
  length (concat ((λ p, peer_text p ++ [10]) <$> L)) = length (concat ((λ p, peer_text p ++ [10]) <$> L')).
Proof. induction 1; cbn [fmap list_fmap concat]; rewrite ?length_app in *; lia. Qed.


Lemma sample_peers_named k p : ({[ sample_key := sample_peer ]} : gmap mkey awdl_peer) !! k = Some p →
  is_Some (cstring (peer_name p)).
Proof. intros [<- <-]%lookup_singleton_Some. by eexists. Qed.

