(* ===== verification/Log.v ===== *)
(** * Log: messages (src/log.c, src/log.h, awdl_print_stats of src/daemon/core.c)

    The logger keeps its configuration in one static variable.  [log_log]
    calls the lock function of the user, if there is one, and writes a line to
    the standard error and to a file; these are recorded as effects.  A text
    is a list of character codes; the text that the format of a message gives
    for its arguments is an argument of [log_log].  The local time is an
    argument too. *)

From Stdlib Require Import ZArith Lia ZifyBool.
From stdpp Require Import base tactics numbers list strings.
From S2P Require Import Prelude State Print.

Local Open Scope Z_scope.

(** ** State *)

(** [L]; pointers are numbers, the null pointer is 0. *)
Record logger := mk_logger {
  L_udata : Z;
  L_lock : Z;
  L_fp : Z;
  L_level : Z;
  L_quiet : Z }.

(** A static variable starts as zeros. *)
Definition logger_init : logger := mk_logger 0 0 0 0 0.

Definition LOG_EMERG : Z := 0.
Definition LOG_ALERT : Z := 1.
Definition LOG_CRIT : Z := 2.
Definition LOG_ERR : Z := 3.
Definition LOG_WARNING : Z := 4.
Definition LOG_NOTICE : Z := 5.
Definition LOG_INFO : Z := 6.
Definition LOG_DEBUG : Z := 7.
Definition LOG_TRACE : Z := 8.

Definition level_names : list (list Z) :=
  chars <$> ["EMERG"; "ALERT"; "CRIT"; "ERROR"; "WARN"; "NOTICE"; "INFO"; "DEBUG"; "TRACE"]%string.

(** The escape character in front of a text. *)
Definition esc (s : string) : list Z := 0x1b :: chars s.

Definition level_colors : list (list Z) :=
  esc <$> ["[94m"; "[36m"; "[32m"; "[33m"; "[31m"; "[35m"]%string.

Definition log_set_udata (udata : Z) (L : logger) : logger :=
  mk_logger udata (L_lock L) (L_fp L) (L_level L) (L_quiet L).
Definition log_set_lock (f : Z) (L : logger) : logger :=
  mk_logger (L_udata L) f (L_fp L) (L_level L) (L_quiet L).
Definition log_set_fp (fp : Z) (L : logger) : logger :=
  mk_logger (L_udata L) (L_lock L) fp (L_level L) (L_quiet L).
Definition log_set_level (level : Z) (L : logger) : logger :=
  mk_logger (L_udata L) (L_lock L) (L_fp L) level (L_quiet L).
Definition log_set_quiet (enable : Z) (L : logger) : logger :=
  mk_logger (L_udata L) (L_lock L) (L_fp L) (L_level L) (if enable =? 0 then 0 else 1).

(** ** Effects *)

Inductive log_effect :=
  | LockFn (f udata lock : Z)
  | ToStderr (text : list Z)
  | ToFile (fp : Z) (text : list Z).

Definition lock (L : logger) : list log_effect :=
  if L_lock L =? 0 then [] else [LockFn (L_lock L) (L_udata L) 1].
Definition unlock (L : logger) : list log_effect :=
  if L_lock L =? 0 then [] else [LockFn (L_lock L) (L_udata L) 0].

(** ** Formats *)

(** What [localtime_r] fills. *)
Record tm := mk_tm { tm_sec : Z; tm_min : Z; tm_hour : Z; tm_mday : Z; tm_mon : Z; tm_year : Z }.

(** [%d] of 32 bits, [%llu]. *)
Definition fmt_d (n : Z) : list Z := if n <? 0 then chars "-" ++ fmt_u (- n) else fmt_u n.
Definition fmt_llu (n : Z) : list Z := digits 10 20 n.

(** [%H] and the like: two digits; [%Y]. *)
Definition fmt_2 (n : Z) : list Z := [digit (n / 10 mod 10); digit (n mod 10)].
Definition fmt_Y (lt : tm) : list Z := fmt_d (tm_year lt + 1900).

Definition time_text (lt : tm) : list Z :=
  fmt_2 (tm_hour lt) ++ chars ":" ++ fmt_2 (tm_min lt) ++ chars ":" ++ fmt_2 (tm_sec lt).
Definition date_text (lt : tm) : list Z :=
  fmt_Y lt ++ chars "-" ++ fmt_2 (tm_mon lt + 1) ++ chars "-" ++ fmt_2 (tm_mday lt) ++ chars " " ++ time_text lt.

(** The string in [buf] after [buf[strftime(buf, size, ...)] = 0], where the
    format gives [text]: [strftime] returns 0 if [text] does not fit with the
    final zero. *)
Definition stamp (size : Z) (text : list Z) : list Z :=
  if Z.of_nat (length text) + 1 <=? size then text else [].

(** [%-5s] and [%-6s]. *)
Definition pad_right (n : nat) (s : list Z) : list Z := s ++ replicate (n - length s) 32.

(** An array of strings at an index; undefined outside of it. *)
Definition at_index {A} (l : list A) (i : Z) : option A := if i <? 0 then None else l !! Z.to_nat i.

(** ** Messages *)

Definition newline : list Z := [10].

Section log.
(** Whether the logger was compiled with [LOG_USE_COLOR]. *)
Variable LOG_USE_COLOR : bool.

(** What the [fprintf] calls of the standard error branch write, with the
    message [msg]. *)
Definition stderr_text (level : Z) (file : list Z) (line : Z) (lt : tm) (msg : list Z) : option (list Z) :=
  let buf := stamp 16 (time_text lt) in
  head ← (if LOG_USE_COLOR then
            color ← at_index level_colors level;
            name ← at_index level_names level;
            Some (buf ++ chars " " ++ color ++ pad_right 5 name ++ esc "[0m" ++ chars " " ++ esc "[90m" ++
                  file ++ chars ":" ++ fmt_d line ++ chars ":" ++ esc "[0m" ++ chars " ")
          else
            name ← at_index level_names level;
            Some (buf ++ chars " " ++ pad_right 5 name ++ chars ": "));
  Some (head ++ msg ++ newline).

Definition file_text (level : Z) (file : list Z) (line : Z) (lt : tm) (msg : list Z) : option (list Z) :=
  let buf := stamp 32 (date_text lt) in
  name ← at_index level_names level;
  Some (buf ++ chars " " ++ pad_right 6 name ++ chars " " ++ file ++ chars ":" ++ fmt_d line ++ chars ": " ++
        msg ++ newline).

Definition log_log (L : logger) (level : Z) (file : list Z) (line : Z) (lt : tm) (msg : list Z) :
    option (list log_effect * Z) :=
  if level >? L_level L then Some ([], 0) else
  err ← (if L_quiet L =? 0 then t ← stderr_text level file line lt msg; Some [ToStderr t] else Some []);
  out ← (if L_fp L =? 0 then Some [] else t ← file_text level file line lt msg; Some [ToFile (L_fp L) t]);
  Some (lock L ++ err ++ out ++ unlock L, 1).

(** ** Statistics *)

(** The [log_info] calls of [awdl_print_stats]; [file] and [line] are what the
    compiler puts for the place of the first, second and third. *)
Definition awdl_print_stats (file : list Z) (line : Z → Z) (L : logger) (lt : tm) (stats : awdl_stats) :
    option (list log_effect) :=
  a ← log_log L LOG_INFO file (line 1) lt (chars "STATISTICS");
  b ← log_log L LOG_INFO file (line 2) lt
    (chars " TX action " ++ fmt_llu (tx_action stats) ++ chars ", data " ++ fmt_llu (tx_data stats) ++
     chars ", unicast " ++ fmt_llu (tx_data_unicast stats) ++
     chars ", multicast " ++ fmt_llu (tx_data_multicast stats));
  c ← log_log L LOG_INFO file (line 3) lt
    (chars " RX action " ++ fmt_llu (rx_action stats) ++ chars ", data " ++ fmt_llu (rx_data stats) ++
     chars ", unknown " ++ fmt_llu (rx_unknown stats));
  Some (a.1 ++ b.1 ++ c.1).
End log.

(** ** Stamps *)

(** What the standard promises of [localtime_r]. *)
Record tm_ok (lt : tm) : Prop := {
  tok_sec : 0 <= tm_sec lt <= 60;
  tok_min : 0 <= tm_min lt < 60;
  tok_hour : 0 <= tm_hour lt < 24;
  tok_mday : 1 <= tm_mday lt <= 31;
  tok_mon : 0 <= tm_mon lt < 12;
  tok_year : INT_MIN <= tm_year lt <= INT_MAX }.

Lemma fmt_d_length n : (length (fmt_d n) <= 11)%nat.
Proof.
  unfold fmt_d, fmt_u. pose proof (digits_length 10 10 n). pose proof (digits_length 10 10 (- n)).
  destruct (n <? 0); rewrite ?length_app; cbn [length chars]; lia.
Qed.

(** Both buffers are long enough. *)
Lemma time_fits lt : stamp 16 (time_text lt) = time_text lt.
Proof. reflexivity. Qed.

Lemma date_fits lt : stamp 32 (date_text lt) = date_text lt.
Proof.
  unfold stamp. pose proof (fmt_d_length (tm_year lt + 1900)) as Hy.
  assert (length (date_text lt) <= 26)%nat; [|by if_true].
  unfold date_text, time_text, fmt_Y, fmt_2. rewrite !length_app. cbn [length chars]. lia.
Qed.

(** ** Levels *)

Lemma level_named level : LOG_EMERG <= level <= LOG_TRACE →
  ∃ name, at_index level_names level = Some name ∧ (4 <= length name <= 6)%nat ∧ Forall (λ c, 65 <= c <= 90) name.
Proof.
  unfold LOG_EMERG, LOG_TRACE. intros Hl.
  assert (level ∈ [0; 1; 2; 3; 4; 5; 6; 7; 8]) as Hin by (rewrite !elem_of_cons; lia).
  revert Hin. rewrite !elem_of_cons, elem_of_nil.
  intros [->|[->|[->|[->|[->|[->|[->|[->|[->|[]]]]]]]]]];
    (eexists; split; [reflexivity|]; split; [simpl; lia|solve_list]).
Qed.

(** The line without colours. *)
Definition plain_line (name : list Z) (lt : tm) (msg : list Z) : list Z :=
  time_text lt ++ chars " " ++ pad_right 5 name ++ chars ": " ++ msg ++ newline.

Lemma stderr_plain level name file line lt msg : at_index level_names level = Some name →
  stderr_text false level file line lt msg = Some (plain_line name lt msg).
Proof. intros Hn. unfold stderr_text. rewrite Hn, time_fits. simpl. unfold plain_line. by rewrite <- !app_assoc. Qed.

(** Below the threshold a message is one line per destination, between lock
    and unlock. *)
Lemma log_log_shown L level file line lt msg : LOG_EMERG <= level <= LOG_TRACE → level <= L_level L →
  ∃ name, at_index level_names level = Some name ∧
    log_log false L level file line lt msg = Some (lock L ++
      (if L_quiet L =? 0 then [ToStderr (plain_line name lt msg)] else []) ++
      (if L_fp L =? 0 then [] else [ToFile (L_fp L) (date_text lt ++ chars " " ++ pad_right 6 name ++ chars " " ++
         file ++ chars ":" ++ fmt_d line ++ chars ": " ++ msg ++ newline)]) ++ unlock L, 1).
Proof.
  intros Hl Hlev. destruct (level_named level Hl) as (name & Hn & _). exists name. split; [done|].
  unfold log_log, file_text. if_false. rewrite (stderr_plain _ name), Hn, date_fits by done.
  destruct (L_quiet L =? 0), (L_fp L =? 0); reflexivity.
Qed.

Lemma log_log_hidden color L level file line lt msg : L_level L < level →
  log_log color L level file line lt msg = Some ([], 0).
Proof. intros Hl. unfold log_log. by if_true. Qed.

(** With colours, the messages the daemon shows by default index behind the
    array of colours. *)
Lemma color_info_undefined L file line lt msg :
  LOG_INFO <= L_level L → L_quiet L = 0 → log_log true L LOG_INFO file line lt msg = None.
Proof. intros Hl Hq. unfold log_log. if_false. rewrite Hq. done. Qed.

(** ** Reading a line back *)

(** The numbers in a text: the values of the longest runs of digits. *)
Fixpoint scan (acc : option Z) (s : list Z) : list Z :=
  match s with
  | [] => option_list acc
  | c :: s => if (48 <=? c) && (c <=? 57) then scan (Some (default 0 acc * 10 + (c - 48))) s
              else option_list acc ++ scan None s
  end.
Definition numbers (s : list Z) : list Z := scan None s.

Definition is_digit (c : Z) : Prop := 48 <= c <= 57.

Lemma scan_digits ds : ∀ acc s, Forall is_digit ds → ds ≠ [] →
  scan acc (ds ++ s) = scan (Some (foldl (λ n c, n * 10 + (c - 48)) (default 0 acc) ds)) s.
Proof.
  induction ds as [|c ds IH]; intros acc s Hd Hn; [done|]. apply Forall_cons in Hd as [Hc Hd].
  unfold is_digit in Hc. cbn [app scan foldl]. if_true.
  destruct ds as [|c' ds]; [done|]. by rewrite IH.
Qed.

Definition no_digits (t : list Z) : bool := forallb (λ c, negb ((48 <=? c) && (c <=? 57))) t.

Lemma scan_text t : ∀ acc s, no_digits t = true → t ≠ [] → scan acc (t ++ s) = option_list acc ++ scan None s.
Proof.
  induction t as [|c t IH]; intros acc s Ht Hn; [done|]. apply andb_true_iff in Ht as [Hc%negb_true_iff Ht].
  cbn [app scan]. rewrite Hc. destruct t as [|c' t]; [done|]. by rewrite IH.
Qed.

Lemma digits_are_digits fuel : ∀ n, 0 <= n → Forall is_digit (digits 10 fuel n).
Proof.
  induction fuel as [|fuel IH]; intros n Hn; cbn [digits]; [constructor|].
  apply Forall_app. split.
  - destruct (n <? 10); [constructor|]. apply IH, Z.div_pos; lia.
  - pose proof (Z.mod_pos_bound n 10 ltac:(lia)). constructor; [|done]. unfold is_digit, digit. if_true. lia.
Qed.

Lemma scan_number fuel n s : 0 <= n < 10 ^ Z.of_nat fuel → fuel ≠ O →
  scan None (digits 10 fuel n ++ s) = scan (Some n) s.
Proof.
  intros Hn Hf. rewrite scan_digits; [|apply digits_are_digits; lia|].
  - do 2 f_equal. apply (digits_value fuel n Hn).
  - destruct fuel; [done|]. cbn [digits]. by destruct (if _ <? _ then _ else _).
Qed.

(** ** What an observer sees *)

(** The lines on the standard error and in the file [fp]. *)
Definition on_stderr (l : list log_effect) : list (list Z) :=
  omap (λ e, match e with ToStderr t => Some t | _ => None end) l.
Definition in_file (fp : Z) (l : list log_effect) : list (list Z) :=
  omap (λ e, match e with ToFile f t => if f =? fp then Some t else None | _ => None end) l.

(** The calls of the lock function [f] alternate between taking and giving
    back, with the argument [udata]; lines are written only in between; it is
    free before and afterwards. *)
Fixpoint guarded (f udata : Z) (held : bool) (l : list log_effect) : bool :=
  match l with
  | [] => negb held
  | LockFn g u b :: l =>
      (g =? f) && (u =? udata) && (b =? if held then 0 else 1) && guarded f udata (negb held) l
  | _ :: l => held && guarded f udata held l
  end.

Lemma guarded_app f udata a : ∀ held b, guarded f udata held a = true → guarded f udata false b = true →
  guarded f udata held (a ++ b) = true.
Proof.
  induction a as [|e a IH]; intros held b Ha Hb.
  - by destruct held.
  - destruct e; cbn [guarded app] in *; rewrite ?andb_true_iff in *; destruct Ha as [? ?]; auto.
Qed.

Lemma on_stderr_app a b : on_stderr (a ++ b) = on_stderr a ++ on_stderr b.
Proof. apply omap_app. Qed.

(** The effects of one message. *)
Lemma lines_guarded L (err : list Z) (out : list log_effect) :
  Forall (λ e, match e with ToFile _ _ => True | _ => False end) out → L_lock L ≠ 0 →
  guarded (L_lock L) (L_udata L) false
    (lock L ++ (if L_quiet L =? 0 then [ToStderr err] else []) ++ out ++ unlock L) = true.
Proof.
  intros Ho Hk%Z.eqb_neq. unfold lock, unlock. rewrite Hk. cbn [app guarded]. rewrite !Z.eqb_refl.
  assert (guarded (L_lock L) (L_udata L) true (out ++ [LockFn (L_lock L) (L_udata L) 0]) = true) as Hg.
  { induction Ho as [|[] out He _ IH]; try done. cbn [app guarded]. by rewrite !Z.eqb_refl. }
  by destruct (L_quiet L =? 0).
Qed.

Lemma lines_on_stderr L (err : list Z) (out : list log_effect) :
  Forall (λ e, match e with ToFile _ _ => True | _ => False end) out →
  on_stderr (lock L ++ (if L_quiet L =? 0 then [ToStderr err] else []) ++ out ++ unlock L) =
    if L_quiet L =? 0 then [err] else [].
Proof.
  intros Ho. assert (on_stderr out = []) as Hout by (induction Ho as [|[] out He _ IH]; done).
  rewrite !on_stderr_app, Hout. unfold lock, unlock. by destruct (L_lock L =? 0), (L_quiet L =? 0).
Qed.

(** The number of a two-digit field. *)
Lemma scan_2 n acc s : 0 <= n < 100 → acc = None → scan acc (fmt_2 n ++ s) = scan (Some n) s.
Proof.
  intros Hn ->. pose proof (Z.mod_pos_bound n 10 ltac:(lia)). pose proof (Z.mod_pos_bound (n / 10) 10 ltac:(lia)).
  rewrite scan_digits; [|unfold fmt_2, digit, is_digit; repeat if_true; repeat constructor; lia|done].
  do 2 f_equal. unfold fmt_2, digit. repeat if_true. cbn [foldl default]. Z.to_euclidean_division_equations. lia.
Qed.

(** ** Properties *)

(** C38: [log_log] writes a message exactly if its level is at most the
    threshold, and says so with its result: one line on the standard error
    unless that was turned off, one line in the file if there is one.  Each
    line begins with the complete time, which always fits the buffer, and ends with the message and a line break.
    Every level has a name, and with a lock function the lines are written
    between one call that takes the lock and one that gives it back. *)
Theorem log_log_lines L level file line lt msg :
  LOG_EMERG <= level <= LOG_TRACE →
  ∃ effects rc, log_log false L level file line lt msg = Some (effects, rc) ∧
    (rc = 1 ↔ level <= L_level L) ∧ (effects = [] ∧ rc = 0 ∨ rc = 1) ∧
    (rc = 1 →
     (∃ name, level_names !! Z.to_nat level = Some name ∧
       on_stderr effects = if L_quiet L =? 0 then [plain_line name lt msg] else []) ∧
     (L_fp L ≠ 0 → ∃ middle, in_file (L_fp L) effects = [date_text lt ++ middle ++ msg ++ newline])) ∧
    (L_lock L ≠ 0 → guarded (L_lock L) (L_udata L) false effects = true).
Proof.
  intros Hl. destruct (decide (level <= L_level L)) as [Hle|Hgt]; cycle 1.
  { rewrite log_log_hidden by lia. eexists _, _. split; [done|]. split; [lia|]. split; [by left|].
    split; [lia|done]. }
  destruct (log_log_shown L level file line lt msg Hl Hle) as (name & Hn & ->).
  eexists _, _. split; [done|]. split; [lia|]. split; [by right|]. split.
  - intros _. split.
    + exists name. split; [unfold at_index, LOG_EMERG in *; by rewrite (proj2 (Z.ltb_ge level 0)) in Hn by lia|].
      apply lines_on_stderr. by destruct (L_fp L =? 0); repeat constructor.
    + intros Hf. exists (chars " " ++ pad_right 6 name ++ chars " " ++ file ++ chars ":" ++ fmt_d line ++ chars ": ").
      rewrite <- !app_assoc. set (t := date_text lt ++ _). clearbody t. unfold in_file.
      apply Z.eqb_neq in Hf. rewrite Hf. unfold lock, unlock.
      destruct (L_lock L =? 0), (L_quiet L =? 0); simpl; by rewrite Z.eqb_refl.
  - apply lines_guarded. by destruct (L_fp L =? 0); repeat constructor.
Qed.

(** The message [msg] below its head, read back. *)
Lemma plain_line_numbers name lt msg : tm_ok lt → Forall (λ c, 65 <= c <= 90) name →
  numbers (plain_line name lt msg) = [tm_hour lt; tm_min lt; tm_sec lt] ++ scan None (msg ++ newline).
Proof.
  intros [] Hn. unfold numbers, plain_line, time_text. rewrite <- !app_assoc.
  assert (no_digits (chars " " ++ pad_right 5 name ++ chars ": ") = true) as Ht.
  { unfold no_digits, pad_right. rewrite !forallb_app, !andb_true_iff. split_and!; try done; apply Is_true_true, forallb_True.
    - eapply Forall_impl; [exact Hn|]. simpl. intros c Hc. destruct (_ && _) eqn:E; [lia|done].
    - by apply Forall_replicate. }
  rewrite scan_2 by (done || lia). do 2 (rewrite (scan_text (chars ":")), scan_2 by (done || lia)).
  rewrite (app_assoc (pad_right 5 name)), (app_assoc (chars " ")), scan_text by done. done.
Qed.

Ltac read_text := rewrite <- ?app_assoc; rewrite scan_text by done.
Ltac read_number := unfold fmt_llu; rewrite scan_number by (done || (change (10 ^ Z.of_nat 20) with (10 ^ 20); int_lia)).

(** The counters of a node are 64 bits wide. *)
Record stats_ok (st : awdl_stats) : Prop := {
  sto_tx_action : is_u64 (tx_action st);
  sto_tx_data : is_u64 (tx_data st);
  sto_tx_unicast : is_u64 (tx_data_unicast st);
  sto_tx_multicast : is_u64 (tx_data_multicast st);
  sto_rx_action : is_u64 (rx_action st);
  sto_rx_data : is_u64 (rx_data st);
  sto_rx_unknown : is_u64 (rx_unknown st) }.

(** One [log_info] message on the standard error. *)
Lemma info_line L file line lt msg :
  tm_ok lt → LOG_INFO <= L_level L → L_quiet L = 0 →
  ∃ effects, log_log false L LOG_INFO file line lt msg = Some (effects, 1) ∧
    (L_lock L ≠ 0 → guarded (L_lock L) (L_udata L) false effects = true) ∧
    numbers <$> on_stderr effects = [[tm_hour lt; tm_min lt; tm_sec lt] ++ scan None (msg ++ newline)].
Proof.
  intros Ht Hl Hq. destruct (log_log_shown L LOG_INFO file line lt msg) as (name & Hn & ->); [done|done|].
  eexists. split; [reflexivity|]. split; [apply lines_guarded; by destruct (L_fp L =? 0); repeat constructor|].
  rewrite <- (plain_line_numbers name lt msg Ht).
  - rewrite lines_on_stderr, Hq by (by destruct (L_fp L =? 0); repeat constructor). done.
  - injection Hn as <-. solve_list.
Qed.

(** The statistics can be read back from the log.  With a threshold of
    at least [LOG_INFO], [awdl_print_stats] writes three lines to the standard
    error, each under the lock; the numbers in them are the time of day and
    then, complete and in order, the counters of the node. *)
Theorem print_stats_readable file line L lt st :
  tm_ok lt → stats_ok st → LOG_INFO <= L_level L → L_quiet L = 0 →
  ∃ effects, awdl_print_stats false file line L lt st = Some effects ∧
    (L_lock L ≠ 0 → guarded (L_lock L) (L_udata L) false effects = true) ∧
    let now := [tm_hour lt; tm_min lt; tm_sec lt] in
    numbers <$> on_stderr effects =
      [now; now ++ [tx_action st; tx_data st; tx_data_unicast st; tx_data_multicast st];
       now ++ [rx_action st; rx_data st; rx_unknown st]].
Proof.
  intros Ht [] Hl Hq. unfold awdl_print_stats.
  destruct (info_line L file (line 1) lt (chars "STATISTICS")) as (a & -> & Ga & Na); [done..|].
  cbn [mbind option_bind fst].
  match goal with |- context [log_log false L _ _ (line 2) lt ?m] =>
    destruct (info_line L file (line 2) lt m) as (b & -> & Gb & Nb); [done..|] end.
  cbn [mbind option_bind fst].
  match goal with |- context [log_log false L _ _ (line 3) lt ?m] =>
    destruct (info_line L file (line 3) lt m) as (c & -> & Gc & Nc); [done..|] end.
  eexists. split; [reflexivity|]. cbn [fst].
  split; [intros Hk; specialize (Ga Hk); specialize (Gb Hk); specialize (Gc Hk); by repeat apply guarded_app|].
  rewrite !on_stderr_app, !fmap_app, Na, Nb, Nc. cbn [app]. do 2 f_equal; [|f_equal].
  - do 3 f_equal. repeat (read_text; read_number). reflexivity.
  - do 3 f_equal. repeat (read_text; read_number). reflexivity.
Qed.

(** ** At a concrete time *)

(** Noon of the second of January 2024. *)
Definition sample_tm : tm := mk_tm 5 30 12 2 0 124.

(** A logger with a lock function that writes to a file too. *)
Definition sample_logger : logger :=
  log_set_level LOG_INFO (log_set_fp 7 (log_set_udata 9 (log_set_lock 3 logger_init))).

Lemma sample_tm_ok : tm_ok sample_tm.
Proof. constructor; unfold INT_MIN, INT_MAX; simpl; lia. Qed.

Lemma log_log_lines_witness :
  ∃ effects, log_log false sample_logger LOG_ERR (chars "rx.c") 10 sample_tm (chars "bad") = Some (effects, 1) ∧
    on_stderr effects = [chars "12:30:05 ERROR: bad" ++ newline] ∧ guarded 3 9 false effects = true.
Proof.
  destruct (log_log_lines sample_logger LOG_ERR (chars "rx.c") 10 sample_tm (chars "bad"))
    as (effects & rc & Heq & Hrc & _ & Hlines & Hg); [unfold LOG_EMERG, LOG_ERR, LOG_TRACE; lia|].
  assert (rc = 1) as -> by (apply Hrc; simpl; unfold LOG_ERR, LOG_INFO; lia).
  destruct (Hlines eq_refl) as [(name & Hn & Hs) _]. injection Hn as <-.
  exists effects. split; [exact Heq|]. split; [exact Hs|]. apply Hg. discriminate.
Defined.
