(* ===== verification/Os.v ===== *)
(** * Os: calls into the system and its libraries

    What src/daemon/netutils.c and src/daemon/io.c do is a sequence of calls
    to the netlink libraries or CoreWLAN, libpcap and the kernel.  A
    call is recorded in a log with its result; the results are a parameter
    ([Os]) and may depend on everything that happened before.  A pointer or
    descriptor is a number, a null pointer is 0, and reading a variable that
    was not initialised is undefined ([None]).  [balance] counts how often an
    object was obtained and released. *)

From Stdlib Require Import ZArith Lia ZifyBool.
From stdpp Require Import base tactics numbers list.
From S2P Require Import Prelude Election.

Local Open Scope Z_scope.

(** ** Calls *)

(** Constants of the interfaces, by name, and numbers. *)
Inductive sym :=
  | Num (z : Z)
  | AF_INET6 | AF_LLC | NUD_PERMANENT | NLM_F_CREATE
  | NL80211_CMD_GET_WIPHY | NL80211_CMD_SET_INTERFACE | NL80211_CMD_SET_CHANNEL
  | NL80211_ATTR_IFINDEX | NL80211_ATTR_IFTYPE | NL80211_ATTR_MNTR_FLAGS | NL80211_ATTR_WIPHY_FREQ
  | NL80211_ATTR_WIPHY_CHANNEL_TYPE | NL80211_ATTR_SPLIT_WIPHY_DUMP
  | NL80211_IFTYPE_MONITOR | NL80211_MNTR_FLAG_ACTIVE | NL80211_CHAN_HT40PLUS
  | IFF_TAP | IFF_NO_PI | IFF_UP | IFF_RUNNING | SIGCHLD | SIGHUP.

Inductive sys_call :=
  (* libnl: sockets *)
  | nl_socket_alloc | nl_socket_free (sk : Z) | nl_connect (sk : Z) | genl_connect (sk : Z)
  | nl_socket_set_buffer_size (sk rx tx : Z) | genl_ctrl_resolve (sk : Z)
  (* libnl: neighbours *)
  | rtnl_neigh_alloc | rtnl_neigh_put (n : Z) | rtnl_neigh_set_ifindex (n ifindex : Z)
  | nl_addr_build (family : sym) (bytes : list Z) | nl_addr_put (a : Z)
  | rtnl_neigh_set_dst (n a : Z) | rtnl_neigh_set_lladdr (n a : Z) | rtnl_neigh_set_state (n : Z) (st : sym)
  | rtnl_neigh_add (sk n : Z) (flags : sym) | rtnl_neigh_delete (sk n : Z) (flags : sym)
  (* libnl: messages *)
  | nlmsg_alloc | nlmsg_free (m : Z) | genlmsg_put (m id : Z) (cmd : sym)
  | nla_put_u32 (m : Z) (attr v : sym) | nla_put_flag (m : Z) (attr : sym)
  | nla_put_nested (m : Z) (attr : sym) (nested : Z)
  | nlmsg_set_dump (m : Z) | nl_send_auto (sk m : Z) | nl_recvmsgs_default (sk : Z)
  | nl_cb_alloc | nl_cb_put (cb : Z) | nl_cb_set (cb : Z) | nl_recvmsgs (sk cb : Z)
  (* libnl: links; the result of [rtnl_link_get_kernel] is a negative error or
     the object it stores, when it returns zero *)
  | rtnl_link_get_kernel (sk ifindex : Z) (name : list Z) | rtnl_link_alloc | rtnl_link_put (l : Z)
  | rtnl_link_set_flags (l : Z) (up : bool) | rtnl_link_change (sk old new : Z) | rtnl_link_get_addr (l : Z)
  (* libpcap *)
  | pcap_create (dev : list Z) | pcap_open_offline (file : list Z) | pcap_close (h : Z)
  | pcap_set_snaplen (h n : Z) | pcap_set_promisc (h v : Z) | pcap_set_timeout (h ms : Z)
  | pcap_activate (h : Z) | pcap_setnonblock (h v : Z) | pcap_setdirection (h : Z) | pcap_datalink (h : Z)
  | pcap_compile (h : Z) (addr3 : ether_addr) | pcap_setfilter (h : Z) | pcap_get_selectable_fd (h : Z)
  (* the kernel and libc; a negative result of [gethostname] is minus [errno] *)
  | open_tun_device | close (fd : Z) | socket
  | ioctl_TUNSETIFF (fd : Z) (flags : list sym) (name : list Z) | ioctl_FIONBIO (fd : Z)
  | ioctl_SIOCSIFHWADDR (s : Z) (addr : ether_addr) | ioctl_SIOCGIFFLAGS (s : Z)
  | ioctl_SIOCSIFFLAGS (s flags : Z) (more : list sym) | ioctl_SIOCSIFMTU (s mtu : Z)
  | if_nametoindex (name : list Z) | gethostname (len : Z)
  | fork | setsid | signal_ignore (signal : sym) | umask (mode : Z) | chdir (dir : list Z) | sysconf_open_max
  | openlog
  (* output; the text is the one the format gives *)
  | printf (text : list Z) | fprintf_stderr (text : list Z)
  (* files and captures; a file is opened for appending *)
  | fopen_append (file : list Z) | fclose (f : Z) | pcap_open_dead | pcap_dump_open_append (h : Z) (file : list Z)
  | pcap_dump (d : Z) (bytes : list Z) | pcap_dump_close (d : Z)
  (* the kernel and the libraries of macOS *)
  | open_path (path : list Z) | fcntl_O_NONBLOCK (fd : Z) | ioctl_SIOCSIFLLADDR (s : Z) (dev : list Z) (addr : ether_addr)
  | ioctl_SIOCSIFMTU_dev (s : Z) (dev : list Z) (mtu : Z)
  | ioctl_SIOCAIFADDR_IN6 (s : Z) (dev addr mask : list Z)
  | getifaddrs | if_indextoname (ifindex : Z) | dup2 (fd fd2 : Z) | execlp (args : list (list Z))
  | sharedWiFiClient | interfaceWithName (client : Z) (name : list Z) | disassociate (iface : Z)
  | supportedWLANChannels (iface : Z) | setWLANChannel (iface number width : Z) | copyComputerName.

(** What a frequency of a band has among its attributes, a band with its type
    and frequencies, and a message about a device with its bands. *)
Record nl_freq := mk_nl_freq { nf_freq : option Z; nf_disabled : bool; nf_no_ir : bool }.
Record nl_band := mk_nl_band { nb_type : Z; nb_freqs : option (list nl_freq) }.
Abbreviation wiphy := (option (list nl_band)).

Abbreviation call_log := (list (sys_call * Z)).

(** Results, and what calls store through pointers: the bytes of an address, a
    name, the name of the host, interface flags, and the messages [nl_recvmsgs] passes to its
    callback; and the link type of radiotap captures. *)
Class Os := {
  os_result : call_log → sys_call → Z;
  os_bytes : call_log → list Z;
  os_name : call_log → list Z;
  os_hostname : call_log → list Z;
  os_flags : call_log → Z;
  os_messages : call_log → list wiphy;
  DLT_IEEE802_11_RADIO : Z }.

Definition EINVAL : Z := 22.
Definition EAGAIN : Z := 11.
Definition ENOENT : Z := 2.
Definition ENOMEM : Z := 12.
Definition ENOLINK : Z := 67.
Definition ENOBUFS : Z := 105.

(** ** Objects *)

Inductive resource :=
  | RSocket (p : Z) | RNeigh (p : Z) | RAddr (p : Z) | RMsg (p : Z) | RCb (p : Z) | RLink (p : Z)
  | RPcap (p : Z) | RFd (fd : Z) | RFile (p : Z) | RDumper (p : Z) | RIfaddrs (p : Z).

#[global] Instance resource_eq_dec : EqDecision resource.
Proof. solve_decision. Defined.

(** What a call with a result obtains, and what it releases. *)
Definition obtains (c : sys_call) (r : Z) : option resource :=
  match c with
  | nl_socket_alloc => if r =? 0 then None else Some (RSocket r)
  | rtnl_neigh_alloc => if r =? 0 then None else Some (RNeigh r)
  | nl_addr_build _ _ => if r =? 0 then None else Some (RAddr r)
  | nlmsg_alloc => if r =? 0 then None else Some (RMsg r)
  | nl_cb_alloc => if r =? 0 then None else Some (RCb r)
  | rtnl_link_get_kernel _ _ _ => if r <? 0 then None else Some (RLink r)
  | rtnl_link_alloc => if r =? 0 then None else Some (RLink r)
  | pcap_create _ | pcap_open_offline _ => if r =? 0 then None else Some (RPcap r)
  | open_tun_device | socket | open_path _ => if r <? 0 then None else Some (RFd r)
  | pcap_open_dead => if r =? 0 then None else Some (RPcap r)
  | fopen_append _ => if r =? 0 then None else Some (RFile r)
  | pcap_dump_open_append _ _ => if r =? 0 then None else Some (RDumper r)
  | getifaddrs => if r <? 0 then None else Some (RIfaddrs r)
  | _ => None
  end.

Definition releases (c : sys_call) : option resource :=
  match c with
  | nl_socket_free p => Some (RSocket p)
  | rtnl_neigh_put p => Some (RNeigh p)
  | nl_addr_put p => Some (RAddr p)
  | nlmsg_free p => Some (RMsg p)
  | nl_cb_put p => Some (RCb p)
  | rtnl_link_put p => Some (RLink p)
  | pcap_close p => Some (RPcap p)
  | close fd => if fd <? 0 then None else Some (RFd fd)
  | fclose p => Some (RFile p)
  | pcap_dump_close p => Some (RDumper p)
  | _ => None
  end.

Definition is_res (o : option resource) (x : resource) : Z := if decide (o = Some x) then 1 else 0.

(** How often [x] was obtained more often than released. *)
Fixpoint balance (l : call_log) (x : resource) : Z :=
  match l with
  | [] => 0
  | (c, r) :: l => is_res (obtains c r) x - is_res (releases c) x + balance l x
  end.

(** The calls of a run obtain [xs] and release the rest, or all, of what they
    obtain. *)
Definition held (l : call_log) (xs : list resource) : Prop :=
  ∀ x, balance l x = foldr (λ y n, is_res (Some y) x + n) 0 xs.
Abbreviation neutral l := (held l []).

Lemma balance_app l1 l2 x : balance (l1 ++ l2) x = balance l1 x + balance l2 x.
Proof. induction l1 as [|[c r] l1 IH]; simpl; lia. Qed.

Lemma is_res_None x : is_res None x = 0.
Proof. unfold is_res. by rewrite decide_False. Qed.

(** A neutral run in front. *)
Lemma held_after l1 l2 xs : neutral l1 → held l2 xs → held (l1 ++ l2) xs.
Proof. intros Hn Hh x. rewrite balance_app, (Hn x), (Hh x). done. Qed.
