(* ===== verification/Netutils.v ===== *)
(** * Netutils: the network configuration (src/daemon/netutils.c, Linux)

    A function of the file is a computation on [net]: the log of calls and
    the static variables, the two netlink sockets and the state
    [is_channel_available] keeps between calls.  Local pointers that a
    function may test without having set them are options; passing a null
    pointer to a function that follows it is undefined ([nonnull]). *)

From Stdlib Require Import ZArith Lia ZifyBool.
From stdpp Require Import base tactics numbers list.
From S2P Require Import Prelude Channel Election Os.

Local Open Scope Z_scope.

(** ** State *)

Record channels_ctx := mk_ctx { last_band : Z; width_40 : bool; width_80 : bool; width_160 : bool }.
Record channel_args := mk_args { ca_freq : Z; ca_available : bool; ca_ctx : channels_ctx }.

Record net := mk_net {
  n_log : call_log;
  nlroute_socket : Z;
  nl80211_socket : Z;
  nl80211_id : Z;
  n_args : channel_args }.

Definition with_log (l : call_log) (s : net) : net :=
  mk_net l (nlroute_socket s) (nl80211_socket s) (nl80211_id s) (n_args s).
Definition with_nlroute (sk : Z) (s : net) : net :=
  mk_net (n_log s) sk (nl80211_socket s) (nl80211_id s) (n_args s).
Definition with_nl80211 (sk id : Z) (s : net) : net :=
  mk_net (n_log s) (nlroute_socket s) sk id (n_args s).
Definition with_args (a : channel_args) (s : net) : net :=
  mk_net (n_log s) (nlroute_socket s) (nl80211_socket s) (nl80211_id s) a.

Section netutils.
Context `{Os}.

(** A call, recorded with its result. *)
Definition sys (c : sys_call) : M net Z := λ s,
  let r := os_result (n_log s) c in
  Some (with_log (n_log s ++ [(c, r)]) s, inr r).

(** The call of another function of the program. *)
Definition fn (m : M net Z) : M net Z := λ s, '(s', r) ← run m s; Some (s', inr r).

(** [if (p) release(p)] for a local that may not have been set. *)
Definition release (p : option Z) (c : Z → sys_call) : M net unit :=
  p ← lift p;
  if p =? 0 then mret tt else (_ ← sys (c p); mret tt).

(** [p], which has to point to something. *)
Definition nonnull (p : Z) : option Z := if p =? 0 then None else Some p.

(** ** Sockets *)

Definition nlroute_init : M net Z :=
  sk ← sys nl_socket_alloc;
  modify (with_nlroute sk);;
  guard_ret (sk =? 0) (- ENOMEM);;
  r ← sys (nl_connect sk);
  if negb (r =? 0) then (_ ← sys (nl_socket_free sk); mret (- ENOLINK)) else mret 0.

Definition nlroute_free : M net unit :=
  s ← get_st; _ ← sys (nl_socket_free (nlroute_socket s)); mret tt.

Definition nl80211_init : M net Z :=
  sk ← sys nl_socket_alloc;
  s ← get_st;
  modify (with_nl80211 sk (nl80211_id s));;
  guard_ret (sk =? 0) (- ENOMEM);;
  _ ← sys (nl_socket_set_buffer_size sk 8192 8192);
  r ← sys (genl_connect sk);
  if negb (r =? 0) then (_ ← sys (nl_socket_free sk); mret (- ENOLINK)) else
  id ← sys (genl_ctrl_resolve sk);
  modify (with_nl80211 sk id);;
  if id <? 0 then (_ ← sys (nl_socket_free sk); mret (- ENOENT)) else mret 0.

Definition nl80211_free : M net unit :=
  s ← get_st; _ ← sys (nl_socket_free (nl80211_socket s)); mret tt.

Definition netutils_init : M net Z :=
  err ← fn nlroute_init;
  guard_ret (err <? 0) err;;
  err ← fn nl80211_init;
  guard_ret (err <? 0) err;;
  mret 0.

Definition netutils_cleanup : M net unit := nlroute_free;; nl80211_free.

(** ** Neighbours *)

(** The label [out] of [neighbor_add]. *)
Definition neighbor_add_out (neigh nl_ipaddr nl_llcaddr : option Z) (err : Z) : M net Z :=
  release neigh rtnl_neigh_put;;
  release nl_ipaddr nl_addr_put;;
  release nl_llcaddr nl_addr_put;;
  mret err.

Definition neighbor_add (ifindex : Z) (eth : ether_addr) (in6 : list Z) : M net Z :=
  neigh ← sys rtnl_neigh_alloc;
  if neigh =? 0 then neighbor_add_out (Some neigh) None None (- ENOMEM) else
  _ ← sys (rtnl_neigh_set_ifindex neigh ifindex);
  nl_ipaddr ← sys (nl_addr_build AF_INET6 in6);
  if nl_ipaddr =? 0 then neighbor_add_out (Some neigh) (Some nl_ipaddr) None (- ENOMEM) else
  _ ← sys (rtnl_neigh_set_dst neigh nl_ipaddr);
  nl_llcaddr ← sys (nl_addr_build AF_LLC eth);
  if nl_llcaddr =? 0 then neighbor_add_out (Some neigh) (Some nl_ipaddr) (Some nl_llcaddr) (- ENOMEM) else
  _ ← sys (rtnl_neigh_set_lladdr neigh nl_llcaddr);
  _ ← sys (rtnl_neigh_set_state neigh NUD_PERMANENT);
  s ← get_st;
  err ← sys (rtnl_neigh_add (nlroute_socket s) neigh NLM_F_CREATE);
  neighbor_add_out (Some neigh) (Some nl_ipaddr) (Some nl_llcaddr) err.

Definition neighbor_remove_out (neigh nl_ipaddr : option Z) (err : Z) : M net Z :=
  release neigh rtnl_neigh_put;;
  release nl_ipaddr nl_addr_put;;
  mret err.

Definition neighbor_remove (ifindex : Z) (in6 : list Z) : M net Z :=
  neigh ← sys rtnl_neigh_alloc;
  if neigh =? 0 then neighbor_remove_out (Some neigh) None (- ENOMEM) else
  _ ← sys (rtnl_neigh_set_ifindex neigh ifindex);
  nl_ipaddr ← sys (nl_addr_build AF_INET6 in6);
  if nl_ipaddr =? 0 then neighbor_remove_out (Some neigh) (Some nl_ipaddr) (- ENOMEM) else
  _ ← sys (rtnl_neigh_set_dst neigh nl_ipaddr);
  s ← get_st;
  err ← sys (rtnl_neigh_delete (nlroute_socket s) neigh (Num 0));
  neighbor_remove_out (Some neigh) (Some nl_ipaddr) err.

(** ** Messages to the wireless subsystem *)

(** [NLA_PUT_U32] and [NLA_PUT_FLAG]: a failure jumps to [k]. *)
Definition nla_put (c : sys_call) (k : M net Z) (m : M net Z) : M net Z :=
  r ← sys c; if r <? 0 then k else m.

Definition monitor_out (m flags : Z) (err : Z) : M net Z :=
  release (Some m) nlmsg_free;; release (Some flags) nlmsg_free;; mret err.

Definition set_monitor_mode (ifindex : Z) : M net Z :=
  m ← sys nlmsg_alloc;
  if m =? 0 then monitor_out m 0 (- ENOMEM) else
  s ← get_st;
  _ ← sys (genlmsg_put m (nl80211_id s) NL80211_CMD_SET_INTERFACE);
  nla_put (nla_put_u32 m NL80211_ATTR_IFINDEX (Num ifindex)) (monitor_out m 0 (- ENOBUFS)) (
  nla_put (nla_put_u32 m NL80211_ATTR_IFTYPE NL80211_IFTYPE_MONITOR) (monitor_out m 0 (- ENOBUFS)) (
  flags ← sys nlmsg_alloc;
  if flags =? 0 then monitor_out m flags (- ENOMEM) else
  nla_put (nla_put_flag flags NL80211_MNTR_FLAG_ACTIVE) (monitor_out m flags (- ENOBUFS)) (
  _ ← sys (nla_put_nested m NL80211_ATTR_MNTR_FLAGS flags);
  _ ← sys (nlmsg_free flags);
  err ← sys (nl_send_auto (nl80211_socket s) m);
  if err <? 0 then monitor_out m 0 err else
  err ← sys (nl_recvmsgs_default (nl80211_socket s));
  monitor_out m 0 err))).

Definition set_channel_out (m : option Z) (err : Z) : M net Z := release m nlmsg_free;; mret err.

Definition set_channel (ifindex channel : Z) : M net Z :=
  freq ← lift (ieee80211_channel_to_frequency channel);
  if freq =? 0 then set_channel_out None (- EINVAL) else
  m ← sys nlmsg_alloc;
  if m =? 0 then set_channel_out (Some m) (- ENOMEM) else
  s ← get_st;
  r ← sys (genlmsg_put m (nl80211_id s) NL80211_CMD_SET_CHANNEL);
  if r =? 0 then set_channel_out (Some m) (- ENOBUFS) else
  nla_put (nla_put_u32 m NL80211_ATTR_IFINDEX (Num ifindex)) (set_channel_out (Some m) (- ENOBUFS)) (
  nla_put (nla_put_u32 m NL80211_ATTR_WIPHY_FREQ (Num freq)) (set_channel_out (Some m) (- ENOBUFS)) (
  nla_put (nla_put_u32 m NL80211_ATTR_WIPHY_CHANNEL_TYPE NL80211_CHAN_HT40PLUS)
    (set_channel_out (Some m) (- ENOBUFS)) (
  err ← sys (nl_send_auto (nl80211_socket s) m);
  if err <? 0 then set_channel_out (Some m) err else
  err ← sys (nl_recvmsgs_default (nl80211_socket s));
  set_channel_out (Some m) err))).

(** ** Which channels may be used *)

(** The loop over the frequencies of a band; [continue] skips one. *)
Fixpoint parse_freqs (test_freq : Z) (fs : list nl_freq) (available : bool) : bool :=
  match fs with
  | [] => available
  | f :: fs =>
      match nf_freq f with
      | None => parse_freqs test_freq fs available
      | Some freq =>
          if negb (freq =? test_freq) then parse_freqs test_freq fs available
          else if nf_disabled f || nf_no_ir f then parse_freqs test_freq fs available
          else parse_freqs test_freq fs true
      end
  end.

(** The loop over the bands. *)
Fixpoint parse_bands (bs : list nl_band) (a : channel_args) : channel_args :=
  match bs with
  | [] => a
  | b :: bs =>
      let ctx := if negb (last_band (ca_ctx a) =? nb_type b)
                 then mk_ctx (nb_type b) false false false else ca_ctx a in
      let available := match nb_freqs b with
                       | Some fs => parse_freqs (ca_freq a) fs (ca_available a)
                       | None => ca_available a
                       end in
      parse_bands bs (mk_args (ca_freq a) available ctx)
  end.

(** The callback, on a message about the device. *)
Definition parse_freq_support (msg : wiphy) (a : channel_args) : channel_args :=
  match msg with Some bs => parse_bands bs a | None => a end.

Definition available_out (cb m : option Z) (err : Z) : M net (Z * bool) :=
  release cb nl_cb_put;;
  release m nlmsg_free;;
  s ← get_st;
  mret (err, ca_available (n_args s)).

(** The result and [*is_available]. *)
Definition is_channel_available (ifindex channel : Z) : M net (Z * bool) :=
  freq ← lift (ieee80211_channel_to_frequency channel);
  if freq =? 0 then available_out None None (- EINVAL) else
  s ← get_st;
  modify (with_args (mk_args freq (ca_available (n_args s)) (ca_ctx (n_args s))));;
  m ← sys nlmsg_alloc;
  if m =? 0 then available_out None (Some m) (- ENOMEM) else
  cb ← sys nl_cb_alloc;
  r ← sys (genlmsg_put m (nl80211_id s) NL80211_CMD_GET_WIPHY);
  if r =? 0 then available_out (Some cb) (Some m) (- ENOBUFS) else
  r ← sys (nla_put_u32 m NL80211_ATTR_IFINDEX (Num ifindex));
  if r <? 0 then available_out (Some cb) (Some m) (- ENOBUFS) else
  _ ← sys (nla_put_flag m NL80211_ATTR_SPLIT_WIPHY_DUMP);
  _ ← sys (nlmsg_set_dump m);
  err ← sys (nl_send_auto (nl80211_socket s) m);
  if err <? 0 then available_out (Some cb) (Some m) err else
  cb ← lift (nonnull cb);
  _ ← sys (nl_cb_set cb);
  s' ← get_st;
  modify (with_args (fold_left (λ a msg, parse_freq_support msg a) (os_messages (n_log s')) (n_args s')));;
  err ← sys (nl_recvmsgs (nl80211_socket s) cb);
  available_out (Some cb) (Some m) err.

(** ** Links *)

Definition link_updown (ifindex : Z) (up : bool) : M net Z :=
  s ← get_st;
  old ← sys (rtnl_link_get_kernel (nlroute_socket s) ifindex []);
  guard_ret (old <? 0) old;;
  req ← sys rtnl_link_alloc;
  req ← lift (nonnull req);
  _ ← sys (rtnl_link_set_flags req up);
  _ ← sys (rtnl_link_change (nlroute_socket s) old req);
  _ ← sys (rtnl_link_put old);
  mret 0.

Definition link_up (ifindex : Z) : M net Z := fn (link_updown ifindex true).
Definition link_down (ifindex : Z) : M net Z := fn (link_updown ifindex false).

(** The result and the address, which is only stored on success. *)
Definition link_ether_addr_get (ifname : list Z) (addr : ether_addr) : M net (Z * ether_addr) :=
  s ← get_st;
  link ← sys (rtnl_link_get_kernel (nlroute_socket s) 0 ifname);
  if link <? 0 then mret (link, addr) else
  nladdr ← sys (rtnl_link_get_addr link);
  _ ← lift (nonnull nladdr);
  s ← get_st;
  mret (0, os_bytes (n_log s)).

Definition get_hostname (len : Z) : M net (Z * list Z) :=
  r ← sys (gethostname len);
  s ← get_st;
  mret (if r <? 0 then r else 0, os_hostname (n_log s)).
End netutils.

(** ** Lemmas *)

Section runs.
Context `{Os}.

Lemma sys_bind {A} c (f : Z → M net A) s :
  (sys c ≫= f) s =
    f (os_result (n_log s) c) (with_log (n_log s ++ [(c, os_result (n_log s) c)]) s).
Proof. done. Qed.

Lemma get_st_bind {A} (f : net → M net A) s : (get_st ≫= f) s = f s s.
Proof. done. Qed.

Lemma lift_bind {A B} (a : A) (f : A → M net B) s : (lift (Some a) ≫= f) s = f a s.
Proof. done. Qed.

Lemma modify_bind {A} g (f : unit → M net A) s : (modify g ≫= f) s = f tt (g s).
Proof. done. Qed.

Lemma bind_run {A B} (m : M net A) (f : A → M net B) s s' a :
  m s = Some (s', inr a) → (m ≫= f) s = f a s'.
Proof. intros Hm. unfold mbind, M_bind. by rewrite Hm. Qed.

(** [lift (nonnull p)] for the pointer of the last call. *)
Lemma nonnull_bind {A} p (f : Z → M net A) s :
  (lift (nonnull p) ≫= f) s = if p =? 0 then None else f p s.
Proof. unfold lift, nonnull, mbind, M_bind. by destruct (p =? 0). Qed.

Lemma release_bind {A} p c (f : unit → M net A) s :
  (release (Some p) c ≫= f) s =
    if p =? 0 then f tt s
    else f tt (with_log (n_log s ++ [(c p, os_result (n_log s) (c p))]) s).
Proof. unfold release, mbind, M_bind, lift. by destruct (p =? 0). Qed.

Lemma release_None {A} c (f : unit → M net A) s : (release None c ≫= f) s = None.
Proof. done. Qed.

Lemma nla_put_run c k m s :
  nla_put c k m s =
    (if os_result (n_log s) c <? 0 then k else m) (with_log (n_log s ++ [(c, os_result (n_log s) c)]) s).
Proof. done. Qed.
End runs.

(** Forgets how a result that is not tested came about. *)
Ltac tested l c :=
  match goal with
  | |- context [if ?b then _ else _] => match b with context [os_result l c] => idtac end
  end.
Ltac forget_results :=
  repeat match goal with
  | |- context [(?c, os_result ?l ?c)] =>
      tryif tested l c then fail else (let r := fresh "r" in set (r := os_result l c); clearbody r)
  end.

(** Decides a test of a result that was made before. *)
Ltac known_test :=
  match goal with
  | H : (?x =? 0) = ?b |- context [if ?x =? 0 then _ else _] => rewrite H; cbv iota
  end.

(** Evaluates a function up to the next test of a result. *)
Ltac calls :=
  repeat (first [rewrite sys_bind | rewrite get_st_bind | rewrite modify_bind | rewrite nla_put_run
                |rewrite release_bind | rewrite release_None | rewrite nonnull_bind | known_test];
          cbn [n_log nlroute_socket nl80211_socket nl80211_id n_args with_log with_nlroute with_nl80211 with_args];
          forget_results).

(** The objects of an explicit log. *)
Ltac neutral_log :=
  intros ?; cbn [app balance obtains releases foldr];
  repeat match goal with
  | H : (_ =? _) = _ |- _ => rewrite H
  | H : (_ <? _) = _ |- _ => rewrite H
  end;
  rewrite ?is_res_None; lia.

(** Names the result of the last call and splits on the test of it. *)
Ltac by_result r :=
  let E := fresh "E" r in
  match goal with
  | |- context [if ?b then _ else _] =>
      match b with
      | context [os_result ?l ?c] =>
          set (r := os_result l c); clearbody r;
          match goal with
          | |- context [if r =? 0 then _ else _] => destruct (r =? 0) eqn:E
          | |- context [if negb (r =? 0) then _ else _] => destruct (r =? 0) eqn:E
          | |- context [if r <? 0 then _ else _] => destruct (r <? 0) eqn:E
          | |- context [if r =? ?n then _ else _] => destruct (r =? n) eqn:E
          | |- context [if negb (r =? ?n) then _ else _] => destruct (r =? n) eqn:E
          end
      end
  end; cbn [negb]; cbv iota; calls.

(** A run that is defined and releases all it obtains. *)
Definition clean {A} (m : M net A) (s : net) : Prop :=
  ∃ s' a l, m s = Some (s', inr a) ∧ n_log s' = n_log s ++ l ∧ neutral l.

(** A function has returned. *)
Ltac returned :=
  repeat match goal with
  | |- context [os_result ?l ?c] => let r := fresh "r" in set (r := os_result l c); clearbody r
  end;
  eexists _, _, _; (split; [reflexivity|]);
  (split; [cbn [n_log with_log with_args]; rewrite <- ?app_assoc; reflexivity|]); try (split; [neutral_log|]); try neutral_log.

Section released.
Context `{Os}.

Lemma set_monitor_mode_clean ifindex s : clean (set_monitor_mode ifindex) s.
Proof.
  unfold clean, set_monitor_mode, monitor_out. calls.
  by_result m; [by returned|]. by_result r2; [by returned|]. by_result r3; [by returned|].
  by_result flags; [by returned|]. by_result r4; [by returned|]. by_result sent; by returned.
Qed.

(** Whether one of the first two allocations of [neighbor_add] fails. *)
Definition neigh_alloc_fails (ifindex : Z) (in6 : list Z) (l : call_log) : bool :=
  let neigh := os_result l rtnl_neigh_alloc in
  let l1 := l ++ [(rtnl_neigh_alloc, neigh)] in
  let l2 := l1 ++ [(rtnl_neigh_set_ifindex neigh ifindex, os_result l1 (rtnl_neigh_set_ifindex neigh ifindex))] in
  (neigh =? 0) || (os_result l2 (nl_addr_build AF_INET6 in6) =? 0).

Lemma neighbor_add_run ifindex eth in6 s :
  if neigh_alloc_fails ifindex in6 (n_log s) then neighbor_add ifindex eth in6 s = None
  else clean (neighbor_add ifindex eth in6) s.
Proof.
  unfold neigh_alloc_fails, clean, neighbor_add, neighbor_add_out. rewrite sys_bind. cbn [n_log with_log].
  set (neigh := os_result (n_log s) rtnl_neigh_alloc). clearbody neigh.
  destruct (neigh =? 0) eqn:En; [by calls|]. cbn [orb]. rewrite !sys_bind. cbn [n_log with_log].
  set (r := os_result _ (rtnl_neigh_set_ifindex neigh ifindex)). clearbody r.
  set (ip := os_result _ (nl_addr_build AF_INET6 in6)). clearbody ip.
  destruct (ip =? 0) eqn:Eip; calls; [done|]. by_result ll; by returned.
Qed.

Lemma neighbor_remove_run ifindex in6 s :
  if os_result (n_log s) rtnl_neigh_alloc =? 0 then neighbor_remove ifindex in6 s = None
  else clean (neighbor_remove ifindex in6) s.
Proof.
  unfold clean, neighbor_remove, neighbor_remove_out. calls.
  set (neigh := os_result (n_log s) rtnl_neigh_alloc). clearbody neigh.
  destruct (neigh =? 0) eqn:En; calls; [done|]. by_result ip; by returned.
Qed.

(** Without a callback object the request is sent, and then the object is
    used. *)
Lemma is_channel_available_run ifindex channel freq s :
  ieee80211_channel_to_frequency channel = Some freq →
  let m := os_result (n_log s) nlmsg_alloc in
  if (freq =? 0) || (m =? 0) then is_channel_available ifindex channel s = None
  else if os_result (n_log s ++ [(nlmsg_alloc, m)]) nl_cb_alloc =? 0
  then clean (is_channel_available ifindex channel) s ∨ is_channel_available ifindex channel s = None
  else clean (is_channel_available ifindex channel) s.
Proof.
  intros Hf m. unfold clean, is_channel_available, available_out. rewrite Hf, lift_bind.
  destruct (freq =? 0); [done|]. cbn [orb]. rewrite get_st_bind, modify_bind, sys_bind.
  cbn [n_log with_args with_log]. fold m. clearbody m. destruct (m =? 0) eqn:Em; [by calls|].
  rewrite sys_bind. cbn [n_log with_args with_log]. set (cb := os_result _ nl_cb_alloc). clearbody cb.
  calls. destruct (cb =? 0) eqn:Ecb.
  - by_result r1; [left; by returned|]. by_result r2; [left; by returned|]. by_result sent; [left; by returned|by right].
  - by_result r1; [by returned|]. by_result r2; [by returned|]. by_result sent; by returned.
Qed.

Lemma available_out_run cb m err s s' e b :
  available_out cb m err s = Some (s', inr (e, b)) →
  e = err ∧ n_args s' = n_args s ∧ b = ca_available (n_args s).
Proof.
  unfold available_out. destruct cb as [cb|]; [|done]. rewrite release_bind.
  destruct m as [m|]; [|by destruct (cb =? 0)].
  destruct (cb =? 0); rewrite release_bind; destruct (m =? 0); by intros [= <- <- <-].
Qed.
End released.

(** A frequency that may be used to send. *)
Definition usable (freq : Z) (f : nl_freq) : bool :=
  match nf_freq f with Some x => (x =? freq) && negb (nf_disabled f) && negb (nf_no_ir f) | None => false end.
Definition band_usable (freq : Z) (b : nl_band) : bool :=
  match nb_freqs b with Some fs => existsb (usable freq) fs | None => false end.
Definition msg_usable (freq : Z) (m : wiphy) : bool :=
  match m with Some bs => existsb (band_usable freq) bs | None => false end.

Lemma parse_freqs_spec t fs a : parse_freqs t fs a = a || existsb (usable t) fs.
Proof.
  revert a. induction fs as [|f fs IH]; intros a; simpl; [by rewrite orb_false_r|].
  unfold usable at 1. destruct (nf_freq f) as [x|]; [|apply IH].
  destruct (x =? t), (nf_disabled f), (nf_no_ir f); simpl; rewrite IH; by destruct a.
Qed.

Lemma parse_bands_spec bs : ∀ a,
  ca_freq (parse_bands bs a) = ca_freq a ∧
  ca_available (parse_bands bs a) = ca_available a || existsb (band_usable (ca_freq a)) bs.
Proof.
  induction bs as [|b bs IH]; intros a; simpl; [by rewrite orb_false_r|].
  destruct (IH (mk_args (ca_freq a) (match nb_freqs b with Some fs => parse_freqs (ca_freq a) fs (ca_available a)
    | None => ca_available a end) (if negb (last_band (ca_ctx a) =? nb_type b)
    then mk_ctx (nb_type b) false false false else ca_ctx a))) as [-> ->]. simpl. split; [done|].
  unfold band_usable at 2. destruct (nb_freqs b) as [fs|]; [rewrite parse_freqs_spec; by rewrite orb_assoc|done].
Qed.

Lemma parse_messages_spec ms : ∀ a,
  let a' := fold_left (λ a msg, parse_freq_support msg a) ms a in
  ca_freq a' = ca_freq a ∧ ca_available a' = ca_available a || existsb (msg_usable (ca_freq a)) ms.
Proof.
  induction ms as [|m ms IH]; intros a; simpl; [by rewrite orb_false_r|].
  destruct (IH (parse_freq_support m a)) as [-> ->]. destruct m as [bs|]; simpl; [|done].
  destruct (parse_bands_spec bs a) as [-> ->]. by rewrite orb_assoc.
Qed.

(** ** Properties *)

Section properties.
Context `{Os}.

(** [set_channel] with a channel number that has no frequency tests a
    pointer it never set; with any other it is defined whatever the calls
    return, releases the message exactly once, and reports success only
    after the kernel was sent and acknowledged a request for exactly the
    frequency of the channel. *)
Theorem set_channel_spec ifindex channel freq s :
  ieee80211_channel_to_frequency channel = Some freq →
  if freq =? 0 then set_channel ifindex channel s = None
  else ∃ s' err l, set_channel ifindex channel s = Some (s', inr err) ∧ n_log s' = n_log s ++ l ∧
    neutral l ∧
    (0 <= err → ∃ m r1 r2 r3 r4 sent rel, 0 <= sent ∧
       l = [(nlmsg_alloc, m); (genlmsg_put m (nl80211_id s) NL80211_CMD_SET_CHANNEL, r1);
            (nla_put_u32 m NL80211_ATTR_IFINDEX (Num ifindex), r2);
            (nla_put_u32 m NL80211_ATTR_WIPHY_FREQ (Num freq), r3);
            (nla_put_u32 m NL80211_ATTR_WIPHY_CHANNEL_TYPE NL80211_CHAN_HT40PLUS, r4);
            (nl_send_auto (nl80211_socket s) m, sent); (nl_recvmsgs_default (nl80211_socket s), err);
            (nlmsg_free m, rel)]).
Proof.
  intros Hf. unfold set_channel, set_channel_out. rewrite Hf, lift_bind.
  destruct (freq =? 0); [done|]. calls.
  by_result m; [returned; done|]. by_result r1; [returned; done|]. by_result r2; [returned; done|].
  by_result r3; [returned; done|]. by_result r4; [returned; done|]. by_result sent; [returned; lia|].
  returned. intros _. do 7 eexists. split; [|reflexivity]. lia.
Qed.

Lemma set_channel_run ifindex channel freq s :
  ieee80211_channel_to_frequency channel = Some freq →
  if freq =? 0 then set_channel ifindex channel s = None else clean (set_channel ifindex channel) s.
Proof.
  intros Hf. pose proof (set_channel_spec ifindex channel freq s Hf) as Hs.
  destruct (freq =? 0); [done|]. destruct Hs as (s' & err & l & ? & ? & ? & _). by exists s', err, l.
Qed.

(** C36: what five functions do with the netlink objects they use.
    [set_monitor_mode] is always defined and releases all it obtained.
    [neighbor_add] and [neighbor_remove] release all they obtained, unless
    there is no neighbour object (for [neighbor_add] also no first address),
    where the clean-up tests a pointer that was never set.  [set_channel]
    releases all it obtained, unless the channel has no frequency, where the
    same happens.  [is_channel_available] is undefined for these two reasons,
    a channel without a frequency and no message, may be undefined without a
    callback object, which it uses once the request is sent, and releases all
    it obtained in any other case. *)
Theorem netlink_objects_released ifindex eth in6 channel freq s :
  ieee80211_channel_to_frequency channel = Some freq →
  let m := os_result (n_log s) nlmsg_alloc in
  clean (set_monitor_mode ifindex) s ∧
  (if neigh_alloc_fails ifindex in6 (n_log s) then neighbor_add ifindex eth in6 s = None
   else clean (neighbor_add ifindex eth in6) s) ∧
  (if os_result (n_log s) rtnl_neigh_alloc =? 0 then neighbor_remove ifindex in6 s = None
   else clean (neighbor_remove ifindex in6) s) ∧
  (if freq =? 0 then set_channel ifindex channel s = None else clean (set_channel ifindex channel) s) ∧
  (if (freq =? 0) || (m =? 0) then is_channel_available ifindex channel s = None
   else if os_result (n_log s ++ [(nlmsg_alloc, m)]) nl_cb_alloc =? 0
   then clean (is_channel_available ifindex channel) s ∨ is_channel_available ifindex channel s = None
   else clean (is_channel_available ifindex channel) s).
Proof.
  intros Hf m. split_and!; [apply set_monitor_mode_clean|apply neighbor_add_run|apply neighbor_remove_run| |].
  - by apply set_channel_run.
  - by apply is_channel_available_run.
Qed.

(** C37: [is_channel_available] answers yes if and only if it has answered yes
    before, for whatever channel, or the device reports, in this query, the
    frequency of the channel as neither disabled nor closed to transmission;
    a query that succeeds has looked at the report. *)
Theorem channel_available_is_sticky ifindex channel freq s s' err b :
  ieee80211_channel_to_frequency channel = Some freq →
  is_channel_available ifindex channel s = Some (s', inr (err, b)) →
  ∃ asked l, (0 <= err → asked = true) ∧
    b = ca_available (n_args s) || (asked && existsb (msg_usable freq) (os_messages l)) ∧
    ca_available (n_args s') = b.
Proof.
  intros Hf. unfold is_channel_available. rewrite Hf, lift_bind.
  assert ((0 <= err → false = true) → b = ca_available (n_args s) → ca_available (n_args s') = b →
    ∃ asked l, (0 <= err → asked = true) ∧
      b = ca_available (n_args s) || (asked && existsb (msg_usable freq) (os_messages l)) ∧
      ca_available (n_args s') = b) as Hno.
  { intros Hn Hb Hs. exists false, []. by rewrite orb_false_r. }
  destruct (freq =? 0); [done|]. calls.
  by_result m; [done|]. by_result r1; [intros (He & Ha & Hb)%available_out_run; apply Hno; [rewrite He; done|exact Hb|by rewrite Ha, Hb]|].
  by_result r2; [intros (He & Ha & Hb)%available_out_run; apply Hno; [rewrite He; done|exact Hb|by rewrite Ha, Hb]|].
  by_result sent; [intros (He & Ha & Hb)%available_out_run; apply Hno; [lia|exact Hb|by rewrite Ha, Hb]|].
  match goal with |- (if ?b then None else _) = _ → _ => destruct b; [done|] end.
  intros (_ & Ha & Hb)%available_out_run. cbn [n_args with_log with_args] in Ha, Hb.
  match type of Hb with context [os_messages ?l] => set (ms := os_messages l) in *; exists true, l; fold ms end.
  split; [done|]. rewrite Ha, Hb. split; [|done].
  by destruct (parse_messages_spec ms (mk_args freq (ca_available (n_args s)) (ca_ctx (n_args s)))) as [_ ->].
Qed.
End properties.

(** ** A concrete system *)

(** Every allocation succeeds, every other call returns zero, and the device
    reports channel 6 as usable and channel 44 as disabled. *)
Definition sample_os : Os := {|
  os_result := λ _ c, match c with
    | nl_socket_alloc | rtnl_neigh_alloc | nl_addr_build _ _ | nlmsg_alloc | nl_cb_alloc | rtnl_link_alloc
    | rtnl_link_get_kernel _ _ _ | rtnl_link_get_addr _ | genlmsg_put _ _ _ | pcap_create _ | genl_ctrl_resolve _
    | fopen_append _ | pcap_open_dead | pcap_dump_open_append _ _ => 1
    | _ => 0
    end;
  os_bytes := λ _, [0; 1; 2; 3; 4; 5];
  os_name := λ _, [97];
  os_hostname := λ _, [97; 98];
  os_flags := λ _, 0;
  os_messages := λ _, [Some [mk_nl_band 0 (Some [mk_nl_freq (Some 2437) false false]);
                             mk_nl_band 1 (Some [mk_nl_freq (Some 5220) true false])]];
  DLT_IEEE802_11_RADIO := 0 |}.

Definition sample_net : net := mk_net [] 7 8 9 (mk_args 0 false (mk_ctx (-1) false false false)).

Lemma netlink_objects_released_witness :
  clean (@neighbor_add sample_os 4 [0; 1; 2; 3; 4; 5] [0xfe; 0x80]) sample_net ∧
  clean (@is_channel_available sample_os 3 6) sample_net.
Proof.
  destruct (@netlink_objects_released sample_os 4 [0; 1; 2; 3; 4; 5] [0xfe; 0x80] 6 2437 sample_net)
    as (_ & Ha & _ & _); [reflexivity|].
  destruct (@netlink_objects_released sample_os 3 [0; 1; 2; 3; 4; 5] [0xfe; 0x80] 6 2437 sample_net)
    as (_ & _ & _ & _ & Hc); [reflexivity|].
  split; [exact Ha|exact Hc].
Defined.

(** After channel 6 was found usable, channel 44 is reported usable too. *)
Lemma channel_available_is_sticky_witness :
  ∃ s1 s2 asked l, @is_channel_available sample_os 3 6 sample_net = Some (s1, inr (0, true)) ∧
    @is_channel_available sample_os 3 44 s1 = Some (s2, inr (0, true)) ∧
    true = ca_available (n_args s1) || (asked && existsb (msg_usable 5220) (@os_messages sample_os l)).
Proof.
  eexists _, _.
  destruct (@channel_available_is_sticky sample_os 3 44 5220
    (match @is_channel_available sample_os 3 6 sample_net with Some (s, _) => s | None => sample_net end)
    (match @is_channel_available sample_os 3 44
       (match @is_channel_available sample_os 3 6 sample_net with Some (s, _) => s | None => sample_net end)
     with Some (s, _) => s | None => sample_net end) 0 true)
    as (asked & l & _ & Hb & _); [reflexivity|vm_compute; reflexivity|].
  exists asked, l. split; [vm_compute; reflexivity|]. split; [vm_compute; reflexivity|]. exact Hb.
Defined.
