(* ===== verification/Io.v ===== *)
(** * Io: the devices of the daemon (src/daemon/io.c, src/daemon/netutils.c)

    What the daemon does to the outside is a trace of events: writes to the
    host device, injected frames, neighbour entries, channel changes, timers.
    What it reads from the host device is a list of results of [read].  The
    system calls and libraries behind them are parameters. *)

From Stdlib Require Import ZArith QArith Lia ZifyBool.
From stdpp Require Import base tactics numbers list.
From S2P Require Import Prelude Election Os.

Local Open Scope Z_scope.

(** ** Data *)

(** The timers of [struct ev_state]. *)
Inductive timer := MIF_TIMER | PSF_TIMER | TX_TIMER | TX_MCAST_TIMER | CHAN_TIMER | PEER_TIMER.

Inductive event :=
  | HostWrite (bs : list Z)                     (* [write] to the host device *)
  | PcapInject (bs : list Z)                    (* [pcap_inject] *)
  | NeighAdd (ifindex : Z) (eth in6 : list Z)   (* [neighbor_add] *)
  | NeighRemove (ifindex : Z) (in6 : list Z)    (* [neighbor_remove] *)
  | ChannelCheck (ifindex channel : Z)          (* [is_channel_available] *)
  | ChannelSet (ifindex channel : Z)            (* [set_channel] *)
  | TimerStart (t : timer) (after repeat : Q)   (* ... and [ev_timer_start] *)
  | TimerInit (t : timer) (after repeat : Q)    (* [ev_timer_init] *)
  | TimerAgain (t : timer)                      (* [ev_timer_again] *)
  | WatchWlan | WatchHost | WatchStats          (* [ev_io_start], [ev_signal_start] *)
  | FeedWlan | FeedHost                         (* [ev_feed_event] *)
  | DumpFrame (bs : list Z).                    (* [pcap_dump] *)

Abbreviation trace := (list event).

(** [struct io_state]; [dumpfile] is never used.  A null handle is 0. *)
Record io_state := mk_io {
  wlan_handle : Z;
  wlan_ifname : list Z;
  wlan_ifindex : Z;
  host_ifname : list Z;
  host_ifindex : Z;
  if_ether_addr : ether_addr;
  wlan_fd : Z;
  host_fd : Z;
  wlan_no_monitor_mode : bool;
  wlan_is_file : bool }.

(** The results of [pcap_inject] and [write] (minus [errno] for an error), as
    they may depend on what happened before. *)
Class IoEnv := {
  pcap_inject_result : trace → list Z → Z;
  write_result : trace → list Z → Z }.

(** ** Operations *)

Section io.
Context `{IoEnv}.

Definition wlan_send (io : io_state) (tr : trace) (bs : list Z) : trace * Z :=
  if wlan_handle io =? 0 then (tr, - EINVAL) else
  let err := pcap_inject_result tr bs in
  (tr ++ [PcapInject bs], if err <? 0 then err else 0).

Definition host_send (io : io_state) (tr : trace) (bs : list Z) : trace * Z :=
  if host_fd io =? 0 then (tr, - EINVAL) else
  let err := write_result tr bs in
  (tr ++ [HostWrite bs], if err <? 0 then err else 0).
End io.

(** The next results of [read] on the host device: an error or a packet; with
    none left the non-blocking read fails.  A packet is written to the start
    of [blk], cut off at [len]; the result is what is left, the block, the
    length and the code. *)
Definition host_recv (io : io_state) (pending : list (Z + list Z)) (blk : list Z) (len : Z) :
    list (Z + list Z) * list Z * Z * Z :=
  if host_fd io =? 0 then (pending, blk, len, - EINVAL) else
  match pending with
  | [] => ([], blk, len, - EAGAIN)
  | inl errno :: pending => (pending, blk, len, - errno)
  | inr bs :: pending =>
      let bs := take (Z.to_nat len) bs in
      (pending, bs ++ drop (length bs) blk, Z.of_nat (length bs), 0)
  end.

(** The link-local address of RFC 4291 with a modified EUI-64. *)
Definition rfc4291_addr (eth : ether_addr) : option (list Z) :=
  match eth with
  | [e0; e1; e2; e3; e4; e5] =>
      Some [0xfe; 0x80; 0; 0; 0; 0; 0; 0; Z.lxor e0 0x02; e1; e2; 0xff; 0xfe; e3; e4; e5]
  | _ => None
  end.

(** An address of another length does not exist in the program. *)
Definition neighbor_add_rfc4291 (ifindex : Z) (addr : ether_addr) (tr : trace) : trace :=
  match rfc4291_addr addr with
  | Some in6 => tr ++ [NeighAdd ifindex addr in6]
  | None => tr
  end.

Definition neighbor_remove_rfc4291 (ifindex : Z) (addr : ether_addr) (tr : trace) : trace :=
  match rfc4291_addr addr with
  | Some in6 => tr ++ [NeighRemove ifindex in6]
  | None => tr
  end.

(** ** Properties *)

Lemma lxor_u8 b c : is_u8 b → is_u8 c → is_u8 (Z.lxor b c).
Proof.
  intros Hb Hc. unfold is_u8 in *. split; [apply Z.lxor_nonneg; lia|].
  destruct (Z.eq_dec (Z.lxor b c) 0) as [->|Hn]; [lia|].
  apply Z.log2_lt_pow2; [pose proof (proj2 (Z.lxor_nonneg b c)); lia|].
  assert (Z.log2 b < 8) by (destruct (Z.eq_dec b 0) as [->|]; [simpl; lia|]; apply Z.log2_lt_pow2; lia).
  assert (Z.log2 c < 8) by (destruct (Z.eq_dec c 0) as [->|]; [simpl; lia|]; apply Z.log2_lt_pow2; lia).
  pose proof (Z.log2_lxor b c ltac:(lia) ltac:(lia)). lia.
Qed.

Lemma rfc4291_total a : addr_ok a → is_Some (rfc4291_addr a).
Proof. intros [Ha _]. do 7 (destruct a as [|? a]; try done). Qed.

(** [rfc4291_addr] turns a hardware address into sixteen bytes with the
    link-local prefix, and no two hardware addresses share the result: the
    entry removed for a peer is the entry added for it and no other. *)
Theorem rfc4291_injective a b :
  addr_ok a → addr_ok b →
  ∃ x y, rfc4291_addr a = Some x ∧ rfc4291_addr b = Some y ∧ length x = 16%nat ∧ bytes_ok x ∧
    take 8 x = [0xfe; 0x80; 0; 0; 0; 0; 0; 0] ∧ (x = y ↔ a = b).
Proof.
  intros [Ha Hab] [Hb _].
  do 7 (destruct a as [|? a]; try done). do 7 (destruct b as [|? b]; try done).
  eexists _, _. split; [reflexivity|]. split; [reflexivity|]. split; [done|].
  split.
  { repeat match goal with H : Forall _ (_ :: _) |- _ => apply Forall_cons in H as [? H] end.
    assert (is_u8 (Z.lxor z 2)) by (apply lxor_u8; [done|int_lia]). solve_list. }
  split; [done|]. split; [|by intros [= -> -> -> -> -> ->]].
  intros [= Hx -> -> -> -> ->]. f_equal.
  by rewrite <- (Z.lxor_0_r z), <- (Z.lxor_nilpotent 2), <- Z.lxor_assoc, Hx, Z.lxor_assoc,
    Z.lxor_nilpotent, Z.lxor_0_r.
Qed.
