(* ===== verification/IoInit.v ===== *)
(** * IoInit: opening the devices (src/daemon/io.c, Linux)

    The functions that open the radio (libpcap, or a capture file) and the
    virtual Ethernet device, as computations on the log of calls ([Os],
    [Netutils]).  A name is the list of its characters; [strcpy] into an
    array is undefined if it does not fit, and so is a log message whose
    format ends in a lone percent sign ([bad_format]).  The file descriptors and handles
    they obtain are accounted for with [balance]. *)

From Stdlib Require Import ZArith Lia ZifyBool.
From stdpp Require Import base tactics numbers list sets.
From S2P Require Import Prelude Election Os Netutils Io.

Local Open Scope Z_scope.

Definition PATH_MAX : Z := 4096.
Definition IFNAMSIZ : Z := 16.

(** Assignments to members. *)
Definition with_wlan_ifname (n : list Z) (i : io_state) : io_state :=
  mk_io (wlan_handle i) n (wlan_ifindex i) (host_ifname i) (host_ifindex i) (if_ether_addr i) (wlan_fd i)
    (host_fd i) (wlan_no_monitor_mode i) (wlan_is_file i).
Definition with_wlan_ifindex (n : Z) (i : io_state) : io_state :=
  mk_io (wlan_handle i) (wlan_ifname i) n (host_ifname i) (host_ifindex i) (if_ether_addr i) (wlan_fd i)
    (host_fd i) (wlan_no_monitor_mode i) (wlan_is_file i).
Definition with_wlan_is_file (b : bool) (i : io_state) : io_state :=
  mk_io (wlan_handle i) (wlan_ifname i) (wlan_ifindex i) (host_ifname i) (host_ifindex i) (if_ether_addr i)
    (wlan_fd i) (host_fd i) (wlan_no_monitor_mode i) b.
(** The descriptor, and the handle if the function stored one. *)
Definition with_wlan_fd (r : Z * option Z) (i : io_state) : io_state :=
  mk_io (default (wlan_handle i) r.2) (wlan_ifname i) (wlan_ifindex i) (host_ifname i) (host_ifindex i)
    (if_ether_addr i) r.1 (host_fd i) (wlan_no_monitor_mode i) (wlan_is_file i).
Definition with_ether_addr (a : ether_addr) (i : io_state) : io_state :=
  mk_io (wlan_handle i) (wlan_ifname i) (wlan_ifindex i) (host_ifname i) (host_ifindex i) a (wlan_fd i)
    (host_fd i) (wlan_no_monitor_mode i) (wlan_is_file i).
Definition with_host_ifname (n : list Z) (i : io_state) : io_state :=
  mk_io (wlan_handle i) (wlan_ifname i) (wlan_ifindex i) n (host_ifindex i) (if_ether_addr i) (wlan_fd i)
    (host_fd i) (wlan_no_monitor_mode i) (wlan_is_file i).
Definition with_host_fd (fd : Z) (i : io_state) : io_state :=
  mk_io (wlan_handle i) (wlan_ifname i) (wlan_ifindex i) (host_ifname i) (host_ifindex i) (if_ether_addr i)
    (wlan_fd i) fd (wlan_no_monitor_mode i) (wlan_is_file i).
Definition with_host_ifindex (n : Z) (i : io_state) : io_state :=
  mk_io (wlan_handle i) (wlan_ifname i) (wlan_ifindex i) (host_ifname i) n (if_ether_addr i) (wlan_fd i)
    (host_fd i) (wlan_no_monitor_mode i) (wlan_is_file i).

(** [strcpy] of a name into an array of [size] characters. *)
Definition strcpy (size : Z) (src : list Z) : option (list Z) :=
  if Z.of_nat (length src) <? size then Some src else None.

(** [log_error] with a format that ends in a conversion without its letter. *)
Definition bad_format {A} : M net A := lift None.

Section io.
Context `{Os}.

(** ** The radio *)

(** The result and what is stored through [pcap_handle]. *)
Definition open_nonblocking_device (dev : list Z) (bssid_filter : ether_addr) : M net (Z * option Z) :=
  handle ← sys (pcap_create dev);
  if handle =? 0 then mret (-1, None) else
  _ ← sys (pcap_set_snaplen handle 65535);
  _ ← sys (pcap_set_promisc handle 1);
  _ ← sys (pcap_set_timeout handle 1);
  r ← sys (pcap_activate handle);
  if r <? 0 then (_ ← sys (pcap_close handle); mret (-1, None)) else
  r ← sys (pcap_setnonblock handle 1);
  if negb (r =? 0) then (_ ← sys (pcap_close handle); mret (-1, None)) else
  _ ← sys (pcap_setdirection handle);
  link ← sys (pcap_datalink handle);
  if negb (link =? DLT_IEEE802_11_RADIO) then (_ ← sys (pcap_close handle); mret (-1, None)) else
  r ← sys (pcap_compile handle bssid_filter);
  if r =? -1 then mret (-1, None) else
  r ← sys (pcap_setfilter handle);
  if r =? -1 then mret (-1, None) else
  fd ← sys (pcap_get_selectable_fd handle);
  if fd =? -1 then mret (-1, None) else
  mret (fd, Some handle).

Definition open_savefile (filename : list Z) : M net (Z * option Z) :=
  handle ← sys (pcap_open_offline filename);
  if handle =? 0 then mret (-1, None) else
  fd ← sys (pcap_get_selectable_fd handle);
  if fd =? -1 then mret (-1, None) else
  mret (fd, Some handle).

(** ** The virtual device *)

(** The result and the name, which the kernel may have changed. *)
Definition open_tun (dev : list Z) (self : ether_addr) : M net (Z * list Z) :=
  fd ← sys open_tun_device;
  if fd <? 0 then mret (fd, dev) else
  err ← sys (ioctl_TUNSETIFF fd [IFF_TAP; IFF_NO_PI] dev);
  if err <? 0 then (_ ← sys (close fd); mret (err, dev)) else
  s ← get_st;
  dev ← lift (strcpy IFNAMSIZ (os_name (n_log s)));
  err ← sys (ioctl_FIONBIO fd);
  if err <? 0 then (_ ← sys (close fd); mret (err, dev)) else
  sk ← sys socket;
  err ← sys (ioctl_SIOCSIFHWADDR sk self);
  if err <? 0 then (_ ← sys (close fd); mret (err, dev)) else
  _ ← sys (ioctl_SIOCGIFFLAGS sk);
  s ← get_st;
  err ← sys (ioctl_SIOCSIFFLAGS sk (os_flags (n_log s)) [IFF_UP; IFF_RUNNING]);
  if err <? 0 then (_ ← sys (close fd); mret (err, dev)) else
  err ← sys (ioctl_SIOCSIFMTU sk 1450);
  if err <? 0 then (_ ← sys (close fd); mret (err, dev)) else
  _ ← sys (close sk);
  mret (fd, dev).

(** ** Initialisation *)

Definition io_state_init_wlan_try_savefile (st : io_state) : M net (io_state * Z) :=
  r ← open_savefile (wlan_ifname st);
  let st := with_wlan_fd r st in
  if wlan_fd st <? 0 then mret (st, wlan_fd st) else
  mret (with_wlan_ifindex 0 (with_wlan_is_file true st), 0).

Definition io_state_init_wlan (st : io_state) (wlan : list Z) (bssid_filter : ether_addr) :
    M net (io_state * Z) :=
  name ← lift (strcpy PATH_MAX wlan);
  let st := with_wlan_is_file false (with_wlan_ifname name st) in
  r ← io_state_init_wlan_try_savefile st;
  let '(st, err) := r in
  if err =? 0 then mret (st, 0) else
  index ← sys (if_nametoindex (wlan_ifname st));
  let st := with_wlan_ifindex index st in
  if index =? 0 then mret (st, - ENOENT) else
  err ← link_down index;
  if err <? 0 then bad_format else
  err ← (if wlan_no_monitor_mode st then mret err else set_monitor_mode index);
  if err <? 0 then mret (st, err) else
  err ← link_up index;
  if err <? 0 then bad_format else
  r ← open_nonblocking_device (wlan_ifname st) bssid_filter;
  let st := with_wlan_fd r st in
  if wlan_fd st <? 0 then mret (st, err) else
  r ← link_ether_addr_get (wlan_ifname st) (if_ether_addr st);
  let '(err, addr) := r in
  let st := with_ether_addr addr st in
  if err <? 0 then mret (st, err) else
  mret (st, 0).

Definition io_state_init_host (st : io_state) (host : list Z) : M net (io_state * Z) :=
  if (0 <? length host)%nat then
    name ← lift (strcpy IFNAMSIZ host);
    let st := with_host_ifname name st in
    r ← open_tun (host_ifname st) (if_ether_addr st);
    let '(fd, name) := r in
    let st := with_host_fd fd (with_host_ifname name st) in
    if fd <? 0 then mret (st, fd) else
    index ← sys (if_nametoindex (host_ifname st));
    let st := with_host_ifindex index st in
    if index =? 0 then mret (st, - ENOENT) else mret (st, 0)
  else mret (st, 0).

Definition io_state_init (st : io_state) (wlan host : list Z) (bssid_filter : ether_addr) :
    M net (io_state * Z) :=
  r ← io_state_init_wlan st wlan bssid_filter;
  let '(st, err) := r in
  if negb (err =? 0) then mret (st, err) else
  r ← io_state_init_host st host;
  let '(st, err) := r in
  if negb (err =? 0) then mret (st, err) else
  mret (st, 0).

Definition io_state_free (st : io_state) : M net unit :=
  _ ← sys (close (host_fd st));
  _ ← sys (pcap_close (wlan_handle st));
  mret tt.
End io.

(** ** Properties *)

(** The log a run appended, whatever it returns. *)
Ltac returned_log :=
  repeat match goal with
  | |- context [os_result ?l ?c] => let r := fresh "r" in set (r := os_result l c); clearbody r
  end;
  eexists _, _, _; (split; [reflexivity|]);
  (split; [cbn [n_log with_log with_args]; rewrite <- ?app_assoc; reflexivity|]).

(** The same when a branch of a test has been taken. *)
Ltac failed E := returned_log; cbn [fst snd]; rewrite ?E; cbv iota.

(** What is held when [open_tun] fails after it obtained a socket. *)
Ltac tun_leak sk :=
  first [solve [left; neutral_log] | right; exists sk; split; [set_solver|neutral_log]].

(** Whether a run tried to open the device. *)
Definition opens (l : call_log) : bool :=
  existsb (λ e, match e.1 with pcap_create _ => true | _ => false end) l.

Section properties.
Context `{Os}.

Lemma open_tun_run dev self s :
  (∀ l, Z.of_nat (length (os_name l)) < IFNAMSIZ) →
  ∃ s' ret l, open_tun dev self s = Some (s', inr ret) ∧ n_log s' = n_log s ++ l ∧
    if ret.1 <? 0 then held l [] ∨ ∃ sk, (socket, sk) ∈ l ∧ held l [RFd sk] else held l [RFd ret.1].
Proof.
  intros Hname. unfold open_tun. calls.
  by_result fd. { failed Efd. left. neutral_log. }
  by_result err. { failed Eerr. left. neutral_log. }
  unfold strcpy. match goal with |- context [os_name ?l] => specialize (Hname l); set (name := os_name l) in * end.
  if_true. rewrite lift_bind. calls.
  by_result err2. { failed Eerr2. left. neutral_log. }
  rename r into sk. destruct (sk <? 0) eqn:Esk.
  all: by_result err3; [failed Eerr3; tun_leak sk|].
  all: set (flags := os_flags _); clearbody flags; by_result err4; [failed Eerr4; tun_leak sk|].
  all: by_result err5; [failed Eerr5; tun_leak sk|].
  all: failed Efd; neutral_log.
Qed.

Lemma open_savefile_run file s :
  ∃ s' ret l, open_savefile file s = Some (s', inr ret) ∧ n_log s' = n_log s ++ l ∧
    match ret.2 with
    | Some h => ret.1 ≠ -1 ∧ held l [RPcap h]
    | None => ret.1 = -1 ∧ (held l [] ∨ ∃ h r, (pcap_get_selectable_fd h, r) ∈ l ∧ held l [RPcap h])
    end.
Proof.
  unfold open_savefile. calls.
  by_result h. { failed Eh. split; [done|]. left. neutral_log. }
  by_result fd; failed Efd.
  - split; [done|]. right. exists h, fd. split; [set_solver|]. neutral_log.
  - split; [lia|]. neutral_log.
Qed.

Lemma open_nonblocking_device_run dev bssid s :
  ∃ s' ret l, open_nonblocking_device dev bssid s = Some (s', inr ret) ∧ n_log s' = n_log s ++ l ∧ opens l = true ∧
    match ret.2 with
    | Some h => ret.1 ≠ -1 ∧ held l [RPcap h]
    | None => ret.1 = -1 ∧ (held l [] ∨ ∃ h r, (pcap_compile h bssid, r) ∈ l ∧ held l [RPcap h])
    end.
Proof.
  unfold open_nonblocking_device. calls.
  by_result h. { failed Eh. split; [done|]. split; [done|]. left. neutral_log. }
  by_result act. { failed Eact. split; [done|]. split; [done|]. left. neutral_log. }
  by_result nb; [|failed Enb; split; [done|]; split; [done|]; left; neutral_log].
  by_result link; [|failed Elink; split; [done|]; split; [done|]; left; neutral_log].
  by_result comp. { failed Ecomp. split; [done|]. split; [done|]. right. exists h, comp. split; [set_solver|]. neutral_log. }
  by_result filt. { failed Efilt. split; [done|]. split; [done|]. right. exists h, comp. split; [set_solver|]. neutral_log. }
  by_result fd; failed Efd; (split; [done|]).
  - split; [done|]. right. exists h, comp. split; [set_solver|]. neutral_log.
  - split; [lia|]. neutral_log.
Qed.

(** ** Opening the radio *)

(** Since the log was [l0] no device was opened. *)
Definition closed (l0 : call_log) (s : net) : Prop := ∃ l, n_log s = l0 ++ l ∧ opens l = false.

Lemma closed_nil s : closed (n_log s) s.
Proof. exists []. by rewrite app_nil_r. Qed.

Lemma safe_sys l0 c : opens [(c, 0)] = false → safe (closed l0) (sys c) (λ _, True).
Proof.
  intros Hc s (l & Hl & Ho). eexists _, _. split; [reflexivity|]. split; [|done].
  exists (l ++ [(c, os_result (n_log s) c)]). cbn [n_log with_log]. rewrite Hl, app_assoc. split; [done|].
  unfold opens in *. rewrite existsb_app, Ho. exact Hc.
Qed.

Lemma safe_release l0 p c : opens [(c p, 0)] = false → safe (closed l0) (release (Some p) c) (λ _, True).
Proof.
  intros Hc. unfold release. eapply safe_bind; [by apply (safe_lift _ _ (eq p)); eauto|]. intros q <-.
  destruct (p =? 0); [by apply safe_ret|]. eapply safe_bind; [by apply safe_sys|]. intros. by apply safe_ret.
Qed.

Lemma safe_nla_put l0 c k m (Q : Z → Prop) : opens [(c, 0)] = false →
  safe (closed l0) k Q → safe (closed l0) m Q → safe (closed l0) (nla_put c k m) Q.
Proof. intros Hc Hk Hm. eapply safe_bind; [by apply safe_sys|]. intros r _. by destruct (r <? 0). Qed.

(** Runs a computation that opens no device. *)
Ltac closed_steps :=
  repeat match goal with
  | |- safe _ (nla_put _ _ _) _ => eapply safe_nla_put; [reflexivity| |]
  | |- safe _ (_ ≫= _) _ => eapply safe_bind; [|intros ? _]
  | |- safe _ (if ?b then _ else _) _ => destruct b
  | |- safe _ (sys _) _ => by apply safe_sys
  | |- safe _ (release _ _) _ => by apply safe_release
  | |- safe _ get_st _ => by apply (safe_get _ (λ _, True))
  | |- safe _ (mret _) _ => by apply safe_ret
  end.

Lemma set_monitor_mode_closed l0 ifindex : safe (closed l0) (set_monitor_mode ifindex) (λ _, True).
Proof. unfold set_monitor_mode, monitor_out. closed_steps. Qed.

Lemma set_monitor_mode_run l0 ifindex s : closed l0 s →
  ∃ s' r, set_monitor_mode ifindex s = Some (s', inr r) ∧ closed l0 s'.
Proof.
  intros Hs. destruct (set_monitor_mode_clean ifindex s) as (s' & r & _ & E & _ & _).
  destruct (set_monitor_mode_closed l0 ifindex s Hs) as (s1 & r1 & E1 & H1 & _).
  rewrite E in E1. injection E1 as <- <-. eauto.
Qed.

(** The results that make opening the radio undefined: the kernel does not
    give the link of the interface, there is no link object for the request,
    or the link has no address. *)
Definition link_refusal (c : sys_call) (r : Z) : bool :=
  match c with
  | rtnl_link_get_kernel _ _ [] => r <? 0
  | rtnl_link_alloc | rtnl_link_get_addr _ => r =? 0
  | _ => false
  end.
Definition link_trouble (l0 : call_log) : Prop :=
  ∃ l c, link_refusal c (os_result (l0 ++ l) c) = true.

Lemma link_trouble_app l0 l : link_trouble (l0 ++ l) → link_trouble l0.
Proof. intros (l' & c & Hc). exists (l ++ l'), c. by rewrite app_assoc. Qed.

Lemma link_trouble_closed l0 s : closed l0 s → link_trouble (n_log s) → link_trouble l0.
Proof. intros (l & -> & _). apply link_trouble_app. Qed.

Lemma link_trouble_here l0 c : link_refusal c (os_result l0 c) = true → link_trouble l0.
Proof. intros Hc. exists [], c. by rewrite app_nil_r. Qed.

(** A link is switched, or there is trouble. *)
Lemma link_updown_closed l0 ifindex up s : closed l0 s →
  (∃ s', fn (link_updown ifindex up) s = Some (s', inr 0) ∧ closed l0 s') ∨
  (link_trouble l0 ∧
   (fn (link_updown ifindex up) s = None ∨ ∃ s' r, fn (link_updown ifindex up) s = Some (s', inr r) ∧ r < 0)).
Proof.
  intros Hs. unfold fn, run, link_updown, guard_ret. rewrite get_st_bind, sys_bind. cbn [n_log with_log].
  destruct (safe_sys l0 (rtnl_link_get_kernel (nlroute_socket s) ifindex []) eq_refl s Hs)
    as (s1 & r1 & [= <- <-] & H1 & _).
  pose proof (link_trouble_here (n_log s) (rtnl_link_get_kernel (nlroute_socket s) ifindex [])) as Ht. simpl in Ht.
  set (old := os_result _ _) in *. clearbody old. destruct (old <? 0) eqn:Eold.
  { right. split; [by eapply link_trouble_closed, Ht|]. right. cbn. eexists _, _. split; [reflexivity|lia]. }
  rewrite bind_ret_l, sys_bind, nonnull_bind. cbn [n_log with_log] in *.
  destruct (safe_sys l0 rtnl_link_alloc eq_refl _ H1) as (s2 & r2 & [= <- <-] & H2 & _). cbn [n_log with_log] in *.
  pose proof (link_trouble_here (n_log s ++ [(rtnl_link_get_kernel (nlroute_socket s) ifindex [], old)]) rtnl_link_alloc) as Ha.
  simpl in Ha. set (req := os_result _ rtnl_link_alloc) in *. clearbody req. destruct (req =? 0) eqn:Ereq.
  { right. split; [|by left]. by eapply link_trouble_closed, link_trouble_app, Ha. }
  left. assert (safe (closed l0) (_ ← sys (rtnl_link_set_flags req up);
    _ ← sys (rtnl_link_change (nlroute_socket s) old req); _ ← sys (rtnl_link_put old); mret 0) (λ r, r = 0))
    as Hrest by closed_steps.
  destruct (Hrest _ H2) as (s3 & [r|r] & Heq & H3 & _); [discriminate Heq|]. rewrite Heq.
  injection Heq as _ <-. by exists s3.
Qed.

Lemma try_savefile_closed l0 st :
  safe (closed l0) (io_state_init_wlan_try_savefile st) (λ r,
    if_ether_addr r.1 = if_ether_addr st ∧
    if r.2 =? 0 then wlan_is_file r.1 = true ∧ 0 <= wlan_fd r.1 else wlan_is_file r.1 = wlan_is_file st).
Proof.
  unfold io_state_init_wlan_try_savefile. eapply (safe_bind _ _ _ (λ _, True)); [unfold open_savefile; closed_steps|].
  intros r _. destruct (wlan_fd (with_wlan_fd r st) <? 0) eqn:Efd; apply safe_ret; cbn [fst snd]; (split; [done|]).
  - if_false. done.
  - split; [done|]. cbn in *. lia.
Qed.

Lemma try_savefile_run l0 st s : closed l0 s →
  ∃ s' r, io_state_init_wlan_try_savefile st s = Some (s', inr r) ∧ closed l0 s' ∧
    if_ether_addr r.1 = if_ether_addr st ∧
    if r.2 =? 0 then wlan_is_file r.1 = true ∧ 0 <= wlan_fd r.1 else wlan_is_file r.1 = wlan_is_file st.
Proof.
  intros Hs. destruct (try_savefile_closed l0 st s Hs) as (s' & [r|r] & E & Hs' & Hr); [|by exists s', r].
  revert E. unfold io_state_init_wlan_try_savefile, mbind, M_bind.
  destruct (open_savefile_run (wlan_ifname st) s) as (s1 & r1 & l & -> & _). by destruct (_ <? 0).
Qed.

(** What a caller learns from the result of [io_state_init_wlan]. *)
Definition wlan_result (st' : io_state) (err : Z) (l : call_log) : Prop :=
  if opens l then wlan_is_file st' = false ∧ (wlan_fd st' < 0 → err = 0) ∧ err <= 0
  else if wlan_is_file st' then err = 0 ∧ 0 <= wlan_fd st' else err < 0.

(** Where the address of the device comes from: the library, or it was not
    written. *)
Definition addr_from (st st' : io_state) : Prop :=
  if_ether_addr st' = if_ether_addr st ∨ ∃ l, if_ether_addr st' = os_bytes l.

Lemma link_ether_addr_get_run ifname addr s :
  (∃ s' err addr' l, link_ether_addr_get ifname addr s = Some (s', inr (err, addr')) ∧
    n_log s' = n_log s ++ l ∧ err <= 0 ∧ (addr' = addr ∨ ∃ l, addr' = os_bytes l)) ∨
  (link_ether_addr_get ifname addr s = None ∧ link_trouble (n_log s)).
Proof.
  unfold link_ether_addr_get. rewrite get_st_bind, sys_bind. cbn [n_log with_log].
  set (link := os_result (n_log s) _). clearbody link. destruct (link <? 0) eqn:Elink.
  { left. eexists _, _, _, _. split; [reflexivity|]. split; [reflexivity|]. split; [lia|by left]. }
  rewrite sys_bind, nonnull_bind. cbn [n_log with_log].
  pose proof (link_trouble_here (n_log s ++ [(rtnl_link_get_kernel (nlroute_socket s) 0 ifname, link)])
    (rtnl_link_get_addr link)) as Ht. simpl in Ht.
  set (a := os_result _ (rtnl_link_get_addr link)) in *. clearbody a. destruct (a =? 0).
  { right. split; [done|]. by eapply link_trouble_app, Ht. }
  left. eexists _, _, _, _. split; [reflexivity|]. cbn. rewrite <- app_assoc. split; [reflexivity|].
  split; [done|]. right. by eexists.
Qed.

Lemma wlan_open_run st bssid err s : err = 0 → wlan_is_file st = false →
  let m := r ← open_nonblocking_device (wlan_ifname st) bssid;
    let st := with_wlan_fd r st in
    if wlan_fd st <? 0 then mret (st, err) else
    r ← link_ether_addr_get (wlan_ifname st) (if_ether_addr st);
    let '(err, addr) := r in
    let st := with_ether_addr addr st in
    if err <? 0 then mret (st, err) else mret (st, 0) in
  (∃ s' st' err' l, m s = Some (s', inr (st', err')) ∧ n_log s' = n_log s ++ l ∧ opens l = true ∧
    (wlan_is_file st' = false ∧ (wlan_fd st' < 0 → err' = 0) ∧ err' <= 0) ∧ addr_from st st') ∨
  (m s = None ∧ link_trouble (n_log s)).
Proof.
  intros -> Hf m. unfold m. clear m.
  destruct (open_nonblocking_device_run (wlan_ifname st) bssid s) as (s1 & r & l & E & L & Ho & _).
  rewrite !(bind_run _ _ _ _ _ E). destruct (wlan_fd (with_wlan_fd r st) <? 0) eqn:Efd.
  { left. eexists _, _, _, l. split; [reflexivity|]. split_and!; [done..|by left]. }
  assert (∀ l', opens (l ++ l') = true) as Ha by (intros l'; unfold opens in *; by rewrite existsb_app, Ho).
  destruct (link_ether_addr_get_run (wlan_ifname st) (if_ether_addr st) s1)
    as [(s2 & err & addr & l2 & E2 & L2 & He & Haddr)|[E2 Ht]].
  - left. rewrite (bind_run _ _ _ _ _ E2). destruct (err <? 0) eqn:Eerr; eexists _, _, _, (l ++ l2);
      (split; [reflexivity|]); rewrite L2, L, app_assoc; (split; [done|]);
      (split_and!; [apply Ha|done|cbn in *; lia|lia|]); destruct Haddr as [-> | [? ->]]; (by left) || (right; by eexists).
  - right. unfold mbind, M_bind. cbn [wlan_ifname if_ether_addr with_wlan_fd]. rewrite E2. split; [done|].
    rewrite L in Ht. by eapply link_trouble_app.
Qed.

(** How opening the radio ends. *)
Definition wlan_ends (st : io_state) (s : net) (res : option (net * (Z + io_state * Z))) : Prop :=
  (∃ s' st' err l, res = Some (s', inr (st', err)) ∧ n_log s' = n_log s ++ l ∧
    wlan_result st' err l ∧ addr_from st st') ∨
  (res = None ∧ link_trouble (n_log s)).

Lemma wlan_closed st0 st err s s' : closed (n_log s) s' → wlan_is_file st = false → err < 0 → addr_from st0 st →
  wlan_ends st0 s (Some (s', inr (st, err))).
Proof.
  intros (l & Hl & Ho) Hf He Ha. left. exists s', st, err, l. split_and!; [done|done| |done].
  unfold wlan_result. by rewrite Ho, Hf.
Qed.

Lemma wlan_trouble st0 s (m : M net Z) s1 f :
  link_trouble (n_log s) ∧ (m s1 = None ∨ ∃ s' r, m s1 = Some (s', inr r) ∧ r < 0) →
  wlan_ends st0 s ((err ← m; if err <? 0 then bad_format else f err) s1).
Proof.
  intros [Ht Hm]. right. split; [|done]. unfold mbind, M_bind.
  destruct Hm as [-> | (s' & r & -> & Hr)]; [done|]. by if_true.
Qed.

Lemma io_state_init_wlan_run st wlan bssid s :
  Z.of_nat (length wlan) < PATH_MAX → wlan_ends st s (io_state_init_wlan st wlan bssid s).
Proof.
  intros Hlen. unfold io_state_init_wlan, strcpy. if_true. rewrite lift_bind.
  set (st0 := with_wlan_is_file false _). assert (wlan_is_file st0 = false) as Hf0 by done.
  assert (if_ether_addr st0 = if_ether_addr st) as Ha0 by done. clearbody st0.
  destruct (try_savefile_run (n_log s) st0 s (closed_nil s)) as (s1 & [st1 e1] & E1 & H1 & Ha & Hr). cbn [fst snd] in *.
  rewrite Ha0 in Ha.
  rewrite (bind_run _ _ _ _ _ E1). destruct (e1 =? 0) eqn:Ee1.
  { destruct H1 as (l & Hl & Ho), Hr as [Hf Hfd]. left. exists s1, st1, 0, l. split_and!; [done|done| |by left].
    unfold wlan_result. rewrite Ho, Hf. lia. }
  rewrite Hf0 in Hr. destruct (safe_sys _ (if_nametoindex (wlan_ifname st1)) eq_refl s1 H1) as (s2 & [|index] & E2 & H2 & _); [done|].
  rewrite (bind_run _ _ _ _ _ E2). set (st2 := with_wlan_ifindex index st1).
  assert (wlan_is_file st2 = false) as Hf by done. assert (addr_from st st2) as Ha2 by by left.
  assert (if_ether_addr st2 = if_ether_addr st) as Ha2' by done. clearbody st2. destruct (index =? 0).
  { by apply wlan_closed. }
  destruct (link_updown_closed (n_log s) index false s2 H2) as [(s3 & E3 & H3)|Hbad]; [|by apply wlan_trouble].
  rewrite (bind_run _ _ _ _ _ E3). change (0 <? 0) with false. cbv iota.
  assert (∃ s4 r4, (if wlan_no_monitor_mode st2 then mret 0 else set_monitor_mode index) s3 = Some (s4, inr r4) ∧
    closed (n_log s) s4) as (s4 & r4 & E4 & H4).
  { destruct (wlan_no_monitor_mode st2); [by exists s3, 0|by apply set_monitor_mode_run]. }
  rewrite (bind_run _ _ _ _ _ E4). destruct (r4 <? 0) eqn:E; [apply wlan_closed; [done..|lia|done]|clear E].
  destruct (link_updown_closed (n_log s) index true s4 H4) as [(s5 & E5 & H5)|Hbad]; [|by apply wlan_trouble].
  rewrite (bind_run _ _ _ _ _ E5). change (0 <? 0) with false. cbv iota.
  destruct (wlan_open_run st2 bssid 0 s5) as [(s6 & st' & err & l & E6 & L & Ho & Hres & Ha6)|[Hn Ht]]; [done|done| |].
  2: { right. split; [exact Hn|]. by eapply link_trouble_closed. }
  left. destruct H5 as (l5 & L5 & Ho5). exists s6, st', err, (l5 ++ l). rewrite L, L5, app_assoc. split; [exact E6|]. split; [done|].
  split; [|unfold addr_from in *; by rewrite Ha2' in Ha6].
  unfold wlan_result, opens in *. by rewrite existsb_app, Ho, orb_true_r.
Qed.


(** C35: what the functions that open devices hold when they return.  A device
    that is open is held exactly once and handed to the caller.  After a
    failure of [open_tun] only the socket it used for configuration may
    remain, after one of [open_nonblocking_device] only the handle, and that
    only when the filter had been reached; after one of [open_savefile] only
    a handle without descriptor.  Nothing is released twice. *)
Theorem devices_accounted dev file bssid self s :
  (∀ l, Z.of_nat (length (os_name l)) < IFNAMSIZ) →
  (∃ s' ret l, open_tun dev self s = Some (s', inr ret) ∧ n_log s' = n_log s ++ l ∧
    if ret.1 <? 0 then held l [] ∨ ∃ sk, (socket, sk) ∈ l ∧ held l [RFd sk] else held l [RFd ret.1]) ∧
  (∃ s' ret l, open_savefile file s = Some (s', inr ret) ∧ n_log s' = n_log s ++ l ∧
    match ret.2 with
    | Some h => ret.1 ≠ -1 ∧ held l [RPcap h]
    | None => ret.1 = -1 ∧ (held l [] ∨ ∃ h r, (pcap_get_selectable_fd h, r) ∈ l ∧ held l [RPcap h])
    end) ∧
  (∃ s' ret l, open_nonblocking_device dev bssid s = Some (s', inr ret) ∧ n_log s' = n_log s ++ l ∧ opens l = true ∧
    match ret.2 with
    | Some h => ret.1 ≠ -1 ∧ held l [RPcap h]
    | None => ret.1 = -1 ∧ (held l [] ∨ ∃ h r, (pcap_compile h bssid, r) ∈ l ∧ held l [RPcap h])
    end).
Proof.
  intros Hname. split_and!; [by apply open_tun_run|apply open_savefile_run|apply open_nonblocking_device_run].
Qed.

(** All of [io_state_init]. *)
Lemma io_state_init_run st wlan host bssid s :
  Z.of_nat (length wlan) < PATH_MAX → Z.of_nat (length host) < IFNAMSIZ →
  (∀ l, Z.of_nat (length (os_name l)) < IFNAMSIZ) →
  (∃ s' st' err, io_state_init st wlan host bssid s = Some (s', inr (st', err)) ∧ err <= 0 ∧ addr_from st st') ∨
  (io_state_init st wlan host bssid s = None ∧ link_trouble (n_log s)).
Proof.
  intros Hw Hh Hn. unfold io_state_init.
  destruct (io_state_init_wlan_run st wlan bssid s Hw) as [(s1 & st1 & err1 & l1 & E1 & _ & R1 & A1)|[E1 Ht]].
  2: { right. split; [|done]. unfold mbind, M_bind. by rewrite E1. }
  left. assert (err1 <= 0) as He1 by (revert R1; unfold wlan_result; destruct (opens l1), (wlan_is_file st1); lia).
  rewrite (bind_run _ _ _ _ _ E1). destruct (err1 =? 0); [cbn [negb]|by eexists _, _, _].
  unfold io_state_init_host. destruct (0 <? length host)%nat; [|by eexists _, _, _].
  unfold strcpy. if_true.
  destruct (open_tun_run host (if_ether_addr st1) s1 Hn) as (s2 & [fd name] & l2 & E2 & _).
  unfold mbind, M_bind, lift. cbn [host_ifname with_host_ifname if_ether_addr]. rewrite E2.
  destruct (fd <? 0) eqn:Efd; cbn; [destruct (fd =? 0) eqn:?; [lia|]; cbn; eexists _, _, _; split; [done|]; split; [lia|done]|].
  destruct (_ =? 0); cbn; eexists _, _, _; (split; [reflexivity|]); (split; [done|exact A1]).
Qed.
End properties.

(** ** A concrete system *)

(** The radio [97] cannot be opened, everything else works. *)
Definition blank_io : io_state := mk_io 0 [] 0 [] 0 [0; 0; 0; 0; 0; 0] 0 0 false false.
Definition broken_radio : Os := {|
  os_result := λ l c, match c with
    | pcap_open_offline _ | pcap_create _ => 0
    | if_nametoindex _ => 3
    | open_tun_device => 5
    | socket => 6
    | _ => @os_result sample_os l c
    end;
  os_bytes := @os_bytes sample_os;
  os_name := @os_name sample_os;
  os_hostname := @os_hostname sample_os;
  os_flags := @os_flags sample_os;
  os_messages := @os_messages sample_os;
  DLT_IEEE802_11_RADIO := 0 |}.


Lemma devices_accounted_witness :
  ∃ s' ret l, @open_tun broken_radio [97] [0; 1; 2; 3; 4; 5] sample_net = Some (s', inr ret) ∧ ret.1 = 5 ∧
    n_log s' = l ∧ held l [RFd 5].
Proof.
  destruct (@devices_accounted broken_radio [97] [97] [0; 1; 2; 3; 4; 5] [0; 1; 2; 3; 4; 5] sample_net)
    as [(s' & ret & l & E & L & R) _]; [intros l; reflexivity|].
  assert (ret.1 = 5) as Hr by (vm_compute in E; injection E as <- <-; reflexivity).
  rewrite Hr in R. exists s', ret, l. split_and!; [exact E|exact Hr|exact L|exact R].
Defined.
