(* ===== verification/Dump.v ===== *)
(** * Dump: frames that could not be handled (dump_frame of src/daemon/core.c)

    With the option [-d] a frame [awdl_rx] fails on is appended to a capture
    file; the event [DumpFrame] of Daemon stands for these calls.  Passing a
    null pointer to [fclose] or to libpcap is undefined ([None]). *)

From Stdlib Require Import ZArith Lia ZifyBool.
From stdpp Require Import base tactics numbers list sets.
From S2P Require Import Prelude Election Os Netutils.

Local Open Scope Z_scope.

Section dump.
Context `{Os}.

(** [dump_file] is none for a null pointer; [buf] holds what [hdr] says was
    captured. *)
Definition dump_frame (dump_file : option (list Z)) (buf : list Z) : M net unit :=
  match dump_file with
  | None => mret tt
  | Some file =>
      f ← sys (fopen_append file);
      f ← lift (nonnull f);
      _ ← sys (fclose f);
      p ← sys pcap_open_dead;
      p ← lift (nonnull p);
      dumper ← sys (pcap_dump_open_append p file);
      dumper ← lift (nonnull dumper);
      _ ← sys (pcap_dump dumper buf);
      _ ← sys (pcap_close p);
      _ ← sys (pcap_dump_close dumper);
      mret tt
  end.

(** The bytes a run appended to captures. *)
Definition dumped (l : call_log) : list (list Z) :=
  omap (λ c, match c.1 with pcap_dump _ b => Some b | _ => None end) l.

(** Dumping a frame appends it, once and unchanged, to the capture and
    releases the file, the handle and the dumper again; without a file name
    nothing happens.  It is undefined only if the file cannot be opened
    for appending or libpcap has no handle or no dumper for it. *)
Theorem dump_frame_appends file buf s :
  dump_frame None buf s = Some (s, inr tt) ∧
  match dump_frame (Some file) buf s with
  | Some (s', r) =>
      r = inr tt ∧ with_log (n_log s) s' = s ∧
      ∃ l f h d, n_log s' = n_log s ++ l ∧ neutral l ∧ dumped l = [buf] ∧ f ≠ 0 ∧ h ≠ 0 ∧ d ≠ 0 ∧
        (fopen_append file, f) ∈ l ∧ (pcap_open_dead, h) ∈ l ∧ (pcap_dump_open_append h file, d) ∈ l
  | None => ∃ l c, os_result (n_log s ++ l) c = 0 ∧
      (c = fopen_append file ∨ c = pcap_open_dead ∨ ∃ h, c = pcap_dump_open_append h file)
  end.
Proof.
  split; [done|]. unfold dump_frame. rewrite sys_bind, nonnull_bind.
  set (f := os_result _ _). destruct (f =? 0) eqn:Ef.
  { exists [], (fopen_append file). rewrite app_nil_r. split; [unfold f in Ef; lia|by left]. }
  rewrite sys_bind, sys_bind, nonnull_bind. set (r1 := os_result _ (fclose f)). clearbody f r1.
  cbn [n_log with_log]. rewrite <- !app_assoc. set (h := os_result _ pcap_open_dead). destruct (h =? 0) eqn:Eh.
  { eexists _, pcap_open_dead. split; [apply Z.eqb_eq, Eh|by right; left]. }
  rewrite sys_bind, nonnull_bind. clearbody h. cbn [n_log with_log]. rewrite <- !app_assoc.
  set (d := os_result _ (pcap_dump_open_append h file)). destruct (d =? 0) eqn:Ed.
  { eexists _, (pcap_dump_open_append h file). split; [apply Z.eqb_eq, Ed|by right; right; exists h]. }
  clearbody d. rewrite !sys_bind. cbn [n_log with_log]. rewrite <- !app_assoc. cbn [app].
  set (r2 := os_result _ _). clearbody r2. set (r3 := os_result _ _). clearbody r3. set (r4 := os_result _ _). clearbody r4.
  split; [done|]. split; [by destruct s|]. eexists _, f, h, d. cbn [n_log with_log].
  split; [by rewrite <- ?app_assoc|]. split; [neutral_log|]. split; [done|]. do 3 (split; [lia|]). set_solver.
Qed.

(** If the file cannot be opened, [fclose] gets a null pointer. *)
Lemma dump_unwritable_undefined file buf s :
  os_result (n_log s) (fopen_append file) = 0 → dump_frame (Some file) buf s = None.
Proof. intros Hf. unfold dump_frame. rewrite sys_bind, nonnull_bind. by rewrite Hf. Qed.
End dump.
