(* ===== verification/Apple.v ===== *)
(** * Apple: the macOS variants (src/daemon/netutils.c, src/daemon/io.c,
    src/daemon/corewlan.m)

    Between [#else] and [#endif] of the two C files and in the Objective-C
    file.  The names end in [_apple] where Linux has a function of that name.
    The static state of corewlan.m is passed explicitly; a message to nil does
    nothing and returns nil.  What the system stores or returns besides a
    number is a parameter ([AppleEnv]). *)

From Stdlib Require Import ZArith Lia ZifyBool.
From stdpp Require Import base tactics numbers list strings sets.
From S2P Require Import Prelude Channel Election Print Log Os Netutils Io IoInit.

Local Open Scope Z_scope.

(** ** Parameters *)

(** A [CWChannel]: its number and width. *)
Record cw_channel := mk_cw_channel { channelNumber : Z; channelWidth : Z }.

(** An entry of the list [getifaddrs] returns: whether it has an address of
    the family [AF_LINK], its name, and the link address. *)
Record ifaddr := mk_ifaddr { ifa_link : bool; ifa_name : list Z; ifa_lladdr : list Z }.

(** The channels of an interface (nil for none), the interface addresses, the
    name of an interface and of the computer (none for a null pointer), the
    text of an IPv6 address, and what an [NSError] variable holds that was not
    initialised. *)
Class AppleEnv := {
  mac_channels : call_log → option (list cw_channel);
  mac_ifaddrs : call_log → list ifaddr;
  mac_ifname : call_log → option (list Z);
  mac_computer_name : call_log → option (list Z);
  inet_ntop : list Z → list Z;
  err_junk : Z }.

(** ** CoreWLAN *)

(** [state] of corewlan.m. *)
Record wlan_state := mk_wlan {
  cw_client : Z;
  cw_iface : Z;
  cw_supported : option (list cw_channel) }.

Definition corewlan_init (st : wlan_state) : wlan_state * Z := (mk_wlan (cw_client st) 0 None, 0).

Definition corewlan_free (st : wlan_state) : wlan_state := st.

Section apple.
Context `{Os} `{AppleEnv}.

(** The two tests at the begin of [corewlan_disassociate] and
    [corewlan_set_channel]; a string cannot be made of a null pointer. *)
Definition corewlan_open (ifindex : Z) (st : wlan_state) : M net wlan_state :=
  client ← (if cw_client st =? 0 then sys sharedWiFiClient else mret (cw_client st));
  if cw_iface st =? 0 then
    _ ← sys (if_indextoname ifindex);
    s ← get_st;
    name ← lift (mac_ifname (n_log s));
    iface ← sys (interfaceWithName client name);
    mret (mk_wlan client iface (cw_supported st))
  else mret (mk_wlan client (cw_iface st) (cw_supported st)).

Definition corewlan_disassociate (ifindex : Z) (st : wlan_state) : M net (wlan_state * Z) :=
  st ← corewlan_open ifindex st;
  _ ← sys (disassociate (cw_iface st));
  mret (st, 0).

(** The body of the loop. *)
Definition better (channel : Z) (current : option cw_channel) (chan : cw_channel) : option cw_channel :=
  if negb (channelNumber chan =? channel) then current else
  match current with
  | None => Some chan
  | Some c => if channelWidth chan >? channelWidth c then Some chan else Some c
  end.

(** [state.supportedChannels], asked for unless it is known. *)
Definition corewlan_supported (st : wlan_state) : M net (option (list cw_channel)) :=
  match cw_supported st with
  | Some l => mret (Some l)
  | None =>
      _ ← sys (supportedWLANChannels (cw_iface st));
      s ← get_st;
      mret (if cw_iface st =? 0 then None else mac_channels (n_log s))
  end.

(** The result of [setWLANChannel] is the error it stores, 0 when it stores
    none. *)
Definition corewlan_set_channel (ifindex channel : Z) (st : wlan_state) : M net (wlan_state * Z) :=
  st ← corewlan_open ifindex st;
  supported ← corewlan_supported st;
  let st := mk_wlan (cw_client st) (cw_iface st) supported in
  match fold_left (better channel) (default [] supported) None with
  | None => mret (st, -1)
  | Some c =>
      r ← sys (setWLANChannel (cw_iface st) (channelNumber c) (channelWidth c));
      let err := if r =? 0 then err_junk else r in
      mret (st, if err =? 0 then 1 else 0)
  end.

(** [strlcpy]: as much as fits with the final zero. *)
Definition strlcpy (len : Z) (src : list Z) : list Z := take (Z.to_nat (len - 1)) src.

Definition corewlan_get_hostname (len : Z) : M net (list Z * Z) :=
  _ ← sys copyComputerName;
  s ← get_st;
  name ← lift (mac_computer_name (n_log s));
  mret (strlcpy len name, 0).

(** ** Network configuration *)

Definition netutils_init_apple (st : wlan_state) : wlan_state * Z := corewlan_init st.

Definition netutils_cleanup_apple (st : wlan_state) : wlan_state := corewlan_free st.

Definition set_monitor_mode_apple (ifindex : Z) (st : wlan_state) : M net (wlan_state * Z) :=
  r ← corewlan_disassociate ifindex st; mret (r.1, 0).

(** The result and [*is_available]. *)
Definition is_channel_available_apple (ifindex channel : Z) : Z * bool := (0, true).

Definition set_channel_apple (ifindex channel : Z) (st : wlan_state) : M net (wlan_state * Z) :=
  corewlan_set_channel ifindex channel st.

Definition link_up_apple (ifindex : Z) : Z := 0.
Definition link_down_apple (ifindex : Z) : Z := 0.

(** The loop of [link_ether_addr_get]: the first entry with a link address
    and the name; copying more than an [ether_addr] holds is undefined, and
    what is copied replaces the begin of [addr]. *)
Fixpoint find_lladdr (ifname : list Z) (l : list ifaddr) (addr : ether_addr) : option (Z * ether_addr) :=
  match l with
  | [] => Some (-1, addr)
  | ifa :: l =>
      if ifa_link ifa && bool_decide (ifa_name ifa = ifname) then
        if (length addr <? length (ifa_lladdr ifa))%nat then None
        else Some (0, ifa_lladdr ifa ++ drop (length (ifa_lladdr ifa)) addr)
      else find_lladdr ifname l addr
  end.

Definition link_ether_addr_get_apple (ifname : list Z) (addr : ether_addr) : M net (Z * ether_addr) :=
  r ← sys getifaddrs;
  if r <? 0 then mret (-1, addr) else
  s ← get_st;
  lift (find_lladdr ifname (mac_ifaddrs (n_log s)) addr).

Definition get_hostname_apple (len : Z) : M net (list Z * Z) := corewlan_get_hostname len.

Definition INET6_ADDRSTRLEN : Z := 46.

(** The part of [neighbor_add] and [neighbor_remove] in the child, after the
    hardware address: [args] are the arguments of [ndp] for an address with
    its scope.  [None] if the process has become [ndp]; [execlp] returns only
    when it fails. *)
Definition become_ndp (ifindex : Z) (in6 : list Z) (args : list Z → list (list Z)) : M net (option Z) :=
  _ ← sys (if_indextoname ifindex);
  s ← get_st;
  iface ← lift (mac_ifname (n_log s));
  in6scope_str ← lift (strcpy (INET6_ADDRSTRLEN + 1 + IFNAMSIZ) (inet_ntop in6 ++ chars "%" ++ iface));
  null ← sys (open_path (chars "/dev/null"));
  _ ← sys (dup2 null 1);
  _ ← sys (dup2 null 2);
  r ← sys (execlp (args in6scope_str));
  if r <? 0 then (_ ← sys (close null); mret (Some 0)) else mret None.

Definition ndp : list Z := chars "/usr/sbin/ndp".

Definition neighbor_add_apple (ifindex : Z) (eth : ether_addr) (in6 : list Z) : M net (option Z) :=
  pid ← sys fork;
  if pid >? 0 then mret (Some 0) else
  let eth_str := strlcpy 18 (ether_ntoa eth) in
  become_ndp ifindex in6 (λ in6scope_str, [ndp; chars "-sn"; in6scope_str; eth_str]).

Definition neighbor_remove_apple (ifindex : Z) (in6 : list Z) : M net (option Z) :=
  pid ← sys fork;
  if pid >? 0 then mret (Some 0) else
  become_ndp ifindex in6 (λ in6scope_str, [ndp; chars "-dn"; in6scope_str]).

(** ** The virtual device *)

Definition prefix_64 : list Z := replicate 8 0xff ++ replicate 8 0.

(** The loop of [open_tun] from device [i] on, for [n] devices; a negative
    result of [fcntl] and of the last [ioctl] is minus [errno]. *)
Fixpoint open_tun_from (n : nat) (i : Z) (dev : list Z) (self : ether_addr) : M net (Z * list Z) :=
  match n with
  | O => mret (-1, dev)
  | S n =>
      tuntap ← lift (strcpy IFNAMSIZ (chars "/dev/tap" ++ fmt_d i));
      fd ← sys (open_path tuntap);
      if fd >? 0 then
        r ← sys (fcntl_O_NONBLOCK fd);
        if r <? 0 then mret (r, dev) else
        dev ← lift (strcpy IFNAMSIZ (chars "tap" ++ fmt_d i));
        sk ← sys socket;
        err ← sys (ioctl_SIOCSIFLLADDR sk dev self);
        if err <? 0 then (_ ← sys (close fd); mret (err, dev)) else
        err ← sys (ioctl_SIOCSIFMTU_dev sk dev 1450);
        if err <? 0 then (_ ← sys (close fd); mret (err, dev)) else
        in6 ← lift (rfc4291_addr self);
        r ← sys (ioctl_SIOCAIFADDR_IN6 sk dev in6 prefix_64);
        if r <? 0 then (_ ← sys (close fd); mret (r, dev)) else
        _ ← sys (close sk);
        mret (fd, dev)
      else open_tun_from n (i + 1) dev self
  end.

Definition open_tun_apple (dev : list Z) (self : ether_addr) : M net (Z * list Z) := open_tun_from 16 0 dev self.
End apple.

(** ** Channels *)

Section channel.
Variable channel : Z.

(** The widest of the channels with the number, if there are any. *)
Definition widest (l : list cw_channel) (o : option cw_channel) : Prop :=
  match o with
  | None => ∀ c, c ∈ l → channelNumber c ≠ channel
  | Some c => c ∈ l ∧ channelNumber c = channel ∧
      ∀ c', c' ∈ l → channelNumber c' = channel → channelWidth c' <= channelWidth c
  end.

Lemma elem_snoc (l : list cw_channel) c c' : c' ∈ l ++ [c] ↔ c' ∈ l ∨ c' = c.
Proof. by rewrite elem_of_app, list_elem_of_singleton. Qed.

Lemma better_widest l c o : widest l o → widest (l ++ [c]) (better channel o c).
Proof.
  intros Hw. unfold better. destruct (channelNumber c =? channel) eqn:E; simpl.
  - destruct o as [b|]; [destruct Hw as (Hb & Hn & Hmax); destruct (channelWidth c >? channelWidth b) eqn:Ew|].
    + split; [set_solver|]. split; [lia|]. intros c' [Hc'| ->]%elem_snoc Hn'; [|lia].
      specialize (Hmax c' Hc' Hn'). lia.
    + split; [set_solver|]. split; [done|]. intros c' [Hc'| ->]%elem_snoc Hn'; [by apply Hmax|lia].
    + split; [set_solver|]. split; [lia|]. intros c' [Hc'| ->]%elem_snoc Hn'; [|lia].
      by destruct (Hw c' Hc').
  - destruct o as [b|]; [destruct Hw as (Hb & Hn & Hmax)|].
    + split; [set_solver|]. split; [done|]. intros c' [Hc'| ->]%elem_snoc Hn'; [by apply Hmax|lia].
    + intros c' [Hc'| ->]%elem_snoc; [by apply Hw|lia].
Qed.

Lemma candidate_widest l : widest l (fold_left (better channel) l None).
Proof.
  assert (∀ done o, widest done o → widest (done ++ l) (fold_left (better channel) l o)) as Hgen; [|apply (Hgen [] None); intros c Hc; by apply not_elem_of_nil in Hc].
  induction l as [|c l IH]; intros d o Hw; simpl; [by rewrite app_nil_r|].
  change (d ++ c :: l) with (d ++ [c] ++ l). rewrite app_assoc. apply IH. by apply better_widest.
Qed.
End channel.

(** ** Properties *)

Section properties.
Context `{Os} `{AppleEnv}.

(** What the interfaces guarantee: a name fits its array, an address has a
    text of at most 45 characters. *)
Class AppleOk : Prop := {
  apple_name_fits : ∀ l name, mac_ifname l = Some name → Z.of_nat (length name) < IFNAMSIZ;
  inet_ntop_fits : ∀ in6, Z.of_nat (length (inet_ntop in6)) < INET6_ADDRSTRLEN }.

(** The channels a run has set. *)
Definition channels_set (l : call_log) : list (Z * Z) :=
  omap (λ c, match c.1 with setWLANChannel _ n w => Some (n, w) | _ => None end) l.

Lemma channels_set_app a b : channels_set (a ++ b) = channels_set a ++ channels_set b.
Proof. apply omap_app. Qed.

(** The log [l] behind [l0] looks the interface up by the name of its index. *)
Definition looked_up (l0 l : call_log) (ifindex : Z) (st : wlan_state) : Prop :=
  ∃ pre r name rest,
    l = pre ++ [(if_indextoname ifindex, r); (interfaceWithName (cw_client st) name, cw_iface st)] ++ rest ∧
    mac_ifname (l0 ++ pre ++ [(if_indextoname ifindex, r)]) = Some name.

Lemma looked_up_app l0 l l' ifindex st : looked_up l0 l ifindex st → looked_up l0 (l ++ l') ifindex st.
Proof. intros (pre & r & name & rest & -> & Hn). exists pre, r, name, (rest ++ l'). by rewrite <- !app_assoc. Qed.

(** Asking for the interface, once and for all.  There may be no name for the
    index. *)
Lemma corewlan_open_run ifindex st s :
  (∃ s' st' l, corewlan_open ifindex st s = Some (s', inr st') ∧ n_log s' = n_log s ++ l ∧ neutral l ∧
    channels_set l = [] ∧ cw_supported st' = cw_supported st ∧
    (cw_client st ≠ 0 → cw_iface st ≠ 0 → st' = st ∧ l = []) ∧
    (cw_iface st ≠ 0 → cw_iface st' = cw_iface st) ∧
    (cw_iface st = 0 → looked_up (n_log s) l ifindex st')) ∨
  (corewlan_open ifindex st s = None ∧ cw_iface st = 0 ∧ ∃ l, mac_ifname (n_log s ++ l) = None).
Proof.
  unfold corewlan_open.
  assert (∀ {A} (f : Z → M net A) s0, ∃ client l0, ((if cw_client st =? 0 then sys sharedWiFiClient else mret (cw_client st)) ≫= f) s0
    = f client (with_log (n_log s0 ++ l0) s0) ∧ neutral l0 ∧ channels_set l0 = [] ∧ (cw_client st ≠ 0 → client = cw_client st ∧ l0 = [])) as Hclient.
  { intros A f s0. destruct (cw_client st =? 0) eqn:E.
    - eexists _, [_]. split; [apply sys_bind|]. split; [neutral_log|]. split; [done|lia].
    - eexists _, []. rewrite app_nil_r. split; [by destruct s0|]. by split; [neutral_log|]. }
  edestruct (Hclient wlan_state) as (client & l0 & -> & Hl0 & Hs0 & Hc). clear Hclient.
  destruct (cw_iface st =? 0) eqn:Ei.
  - rewrite sys_bind, get_st_bind. cbn [n_log with_log]. set (r := os_result _ _). clearbody r.
    destruct (mac_ifname ((n_log s ++ l0) ++ [(if_indextoname ifindex, r)])) as [name|] eqn:Hn; cycle 1.
    { right. split; [done|]. split; [lia|]. rewrite <- app_assoc in Hn. eauto. }
    left. rewrite lift_bind, sys_bind. cbn [n_log with_log]. set (iface := os_result _ _). clearbody iface.
    eexists _, _, (l0 ++ [(if_indextoname ifindex, r); (interfaceWithName client name, iface)]).
    split; [reflexivity|]. cbn [n_log with_log cw_supported cw_client cw_iface]. split; [by rewrite <- !app_assoc|].
    split; [apply held_after; [done|]; neutral_log|].
    split; [by rewrite channels_set_app, Hs0|]. split; [done|]. split; [lia|]. split; [lia|]. intros _.
    exists l0, r, name, []. split; [done|]. by rewrite app_assoc.
  - left. eexists _, _, l0. split; [reflexivity|]. split; [done|]. split; [done|]. split; [done|]. split; [done|].
    split; [|split; [done|lia]]. intros Hcl _. destruct (Hc Hcl) as [-> ->]. by destruct st.
Qed.

(** The channels are those known before, or those the interface reports. *)
Lemma corewlan_supported_run st s :
  ∃ s' sup l, corewlan_supported st s = Some (s', inr sup) ∧ n_log s' = n_log s ++ l ∧ neutral l ∧
    channels_set l = [] ∧ (is_Some (cw_supported st) → sup = cw_supported st ∧ l = []) ∧
    (cw_supported st = None → (∃ r, l = [(supportedWLANChannels (cw_iface st), r)]) ∧
       sup = if cw_iface st =? 0 then None else mac_channels (n_log s ++ l)).
Proof.
  unfold corewlan_supported. destruct (cw_supported st) as [sup|].
  - eexists _, _, []. rewrite app_nil_r. split; [done|]. by split; [|split; [neutral_log|]].
  - rewrite sys_bind, get_st_bind. eexists _, _, [_]. split; [reflexivity|]. split; [reflexivity|].
    split; [neutral_log|]. split; [done|]. split; [by intros [? ?]|]. intros _. split; [by eexists|done].
Qed.

(** C39: on macOS [set_channel] sets the widest channel with the number among
    those the interface reports (the report of the first call is kept) and
    fails with -1, setting none, exactly if there is none.  The interface is
    the one [CWWiFiClient] has for the name of the index, and is looked up
    and asked for its channels once.  An error of setting the channel gives
    0, like success on Linux, and never a negative result.  The function is
    undefined only if the index has no name. *)
Theorem set_channel_apple_widest ifindex channel st s :
  (∃ s' st' rc l, set_channel_apple ifindex channel st s = Some (s', inr (st', rc)) ∧
    n_log s' = n_log s ++ l ∧ neutral l ∧
    (cw_client st ≠ 0 → cw_iface st ≠ 0 → is_Some (cw_supported st) →
     st' = st ∧ Forall (λ c, is_Some (channels_set [c] !! 0%nat)) l) ∧
    (cw_iface st ≠ 0 → cw_iface st' = cw_iface st) ∧
    (cw_iface st = 0 → looked_up (n_log s) l ifindex st') ∧
    match cw_supported st with
    | Some known => cw_supported st' = Some known
    | None => ∃ asked r rest, l = asked ++ [(supportedWLANChannels (cw_iface st'), r)] ++ rest ∧
        cw_supported st' = if cw_iface st' =? 0 then None
                           else mac_channels (n_log s ++ asked ++ [(supportedWLANChannels (cw_iface st'), r)])
    end ∧
    let chans := default [] (cw_supported st') in
    (rc = -1 ↔ ∀ c, c ∈ chans → channelNumber c ≠ channel) ∧
    (rc = -1 → channels_set l = []) ∧
    (rc ≠ -1 → ∃ c e, c ∈ chans ∧ channelNumber c = channel ∧
      (∀ c', c' ∈ chans → channelNumber c' = channel → channelWidth c' <= channelWidth c) ∧
      channels_set l = [(channel, channelWidth c)] ∧
      (setWLANChannel (cw_iface st') channel (channelWidth c), e) ∈ l ∧ (e ≠ 0 → rc = 0) ∧ (rc = 0 ∨ rc = 1))) ∨
  (set_channel_apple ifindex channel st s = None ∧ cw_iface st = 0 ∧ ∃ l, mac_ifname (n_log s ++ l) = None).
Proof.
  unfold set_channel_apple, corewlan_set_channel.
  destruct (corewlan_open_run ifindex st s)
    as [(s1 & st1 & l1 & E1 & Hl1 & Hn1 & Hc1 & Hs1 & Hst & Hif & Hif0)|[E1 Hno]].
  2: { right. split; [|done]. unfold mbind, M_bind. by rewrite E1. }
  left. rewrite (bind_run _ _ _ _ _ E1).
  destruct (corewlan_supported_run st1 s1) as (s2 & sup & l2 & E2 & Hl2 & Hn2 & Hc2 & Hsup & Hask).
  rewrite (bind_run _ _ _ _ _ E2). rewrite Hs1 in Hsup, Hask.
  pose proof (candidate_widest channel (default [] sup)) as Hw. unfold widest in Hw.
  assert (cw_client st ≠ 0 → cw_iface st ≠ 0 → is_Some (cw_supported st) →
    mk_wlan (cw_client st1) (cw_iface st1) sup = st ∧ l1 = [] ∧ l2 = []) as Hknown.
  { intros Hcl Hi Hso. destruct (Hst Hcl Hi) as [-> ->]. destruct (Hsup Hso) as [-> ->]. by destruct st. }
  assert (∀ rest, match cw_supported st with
    | Some known => sup = Some known
    | None => ∃ asked r rest', l1 ++ l2 ++ rest = asked ++ [(supportedWLANChannels (cw_iface st1), r)] ++ rest' ∧
        sup = if cw_iface st1 =? 0 then None
              else mac_channels (n_log s ++ asked ++ [(supportedWLANChannels (cw_iface st1), r)])
    end) as Htie.
  { intros rest. destruct (cw_supported st) as [known|]; [by destruct Hsup as [-> _]|].
    destruct (Hask eq_refl) as [[r ->] ->]. exists l1, r, rest. split; [done|]. by rewrite Hl1, <- app_assoc. }
  assert (∀ rest, cw_iface st = 0 →
    looked_up (n_log s) (l1 ++ rest) ifindex (mk_wlan (cw_client st1) (cw_iface st1) sup)) as Hlook
    by (intros rest Hz; apply looked_up_app, (Hif0 Hz)).
  destruct (fold_left _ _ None) as [c|].
  - destruct Hw as (Hin & Hnum & Hmax). rewrite sys_bind. set (e := os_result _ _). clearbody e.
    eexists _, _, _, (l1 ++ l2 ++ [(setWLANChannel (cw_iface st1) (channelNumber c) (channelWidth c), e)]).
    split; [reflexivity|]. cbn [n_log with_log cw_supported cw_iface cw_client]. split; [by rewrite Hl2, Hl1, <- !app_assoc|].
    split; [do 2 (apply held_after; [done|]); neutral_log|]. split.
    { intros Hcl Hi Hso. destruct (Hknown Hcl Hi Hso) as (-> & -> & ->). split; [done|]. by repeat constructor. }
    split; [exact Hif|]. split; [apply Hlook|]. split; [apply Htie|].
    set (rc := if (if e =? 0 then err_junk else e) =? 0 then 1 else 0).
    assert ((e ≠ 0 → rc = 0) ∧ (rc = 0 ∨ rc = 1)) as [He Hrc] by (unfold rc; split_ifs; lia). clearbody rc.
    split; [split; [lia|]; intros Hno; by destruct (Hno c Hin)|]. split; [lia|]. intros _.
    exists c, e. rewrite !channels_set_app, Hc1, Hc2, Hnum. split_and!; try done.
    by rewrite app_assoc; apply elem_of_app; right; left.
  - eexists _, _, _, (l1 ++ l2). split; [reflexivity|]. split; [by rewrite Hl2, Hl1, <- app_assoc|].
    split; [by apply held_after|]. split.
    { intros Hcl Hi Hso. destruct (Hknown Hcl Hi Hso) as (-> & -> & ->). done. }
    cbn [cw_supported cw_iface cw_client]. split; [exact Hif|]. split; [apply Hlook|].
    split; [rewrite <- (app_nil_r l2); apply Htie|]. split; [done|]. rewrite channels_set_app, Hc1, Hc2. split; [done|lia].
Qed.

(** The programs a run has tried to become. *)
Definition executed (l : call_log) : list (list (list Z)) :=
  omap (λ c, match c.1 with execlp args => Some args | _ => None end) l.

(** In the parent nothing happens.  Otherwise the process runs [ndp] with
    [args] for the address [in6] with the name of the interface, or, if that
    fails, goes on like the parent with nothing left open. *)
Definition runs_ndp (m : M net (option Z)) (in6 : list Z) (args : list Z → list (list Z)) : Prop :=
  ∀ s, let pid := os_result (n_log s) fork in
  ∃ s' r l, m s = Some (s', inr r) ∧ n_log s' = n_log s ++ (fork, pid) :: l ∧
    (0 < pid → r = Some 0 ∧ l = []) ∧
    (pid <= 0 → ∃ l0 name l1, mac_ifname l0 = Some name ∧
     let a := args (inet_ntop in6 ++ chars "%" ++ name) in
     let e := os_result l1 (execlp a) in
     executed l = [a] ∧ (execlp a, e) ∈ l ∧
     if e <? 0 then r = Some 0 ∧ neutral l else r = None).

Lemma become_ndp_run `{!AppleOk} ifindex in6 args s :
  (∀ l, is_Some (mac_ifname l)) →
  ∃ s' r l, become_ndp ifindex in6 args s = Some (s', inr r) ∧ n_log s' = n_log s ++ l ∧
    ∃ l0 name l1, mac_ifname l0 = Some name ∧
      let a := args (inet_ntop in6 ++ chars "%" ++ name) in
      let e := os_result l1 (execlp a) in
      executed l = [a] ∧ (execlp a, e) ∈ l ∧ if e <? 0 then r = Some 0 ∧ neutral l else r = None.
Proof.
  intros Hname. unfold become_ndp. rewrite sys_bind, get_st_bind. cbn [n_log with_log].
  set (r0 := os_result _ _). clearbody r0. set (l0 := n_log s ++ _). destruct (Hname l0) as [name Hn].
  rewrite Hn, lift_bind. pose proof (apple_name_fits l0 name Hn) as Hf. pose proof (inet_ntop_fits in6) as Hi.
  assert ((Z.of_nat (length (inet_ntop in6 ++ chars "%" ++ name)) <? INET6_ADDRSTRLEN + 1 + IFNAMSIZ) = true) as Hlt.
  { rewrite !length_app. change (length (chars "%")) with 1%nat. lia. }
  unfold strcpy. rewrite Hlt, lift_bind, !sys_bind.
  set (a := args _). cbn [n_log with_log].
  set (null := os_result _ (open_path _)). clearbody null. set (r1 := os_result _ (dup2 null 1)). clearbody r1.
  set (r2 := os_result _ (dup2 null 2)). clearbody r2. match goal with |- context [os_result ?l (execlp a)] => set (l1 := l) end. set (e := os_result l1 (execlp a)).
  destruct (e <? 0) eqn:Ee; [rewrite sys_bind|]; cbn [n_log with_log]; [set (r3 := os_result _ (close null)); clearbody r3|];
    (eexists _, _, _; split; [reflexivity|]; cbn [n_log with_log];
     split; [unfold l1, l0; rewrite <- !app_assoc; reflexivity|]; exists l0, name, l1;
     split; [done|]; fold a e; split; [reflexivity|]; rewrite Ee).
  - split; [|split; [done|]]; [set_solver|].
    clearbody e. destruct (null <? 0) eqn:En; neutral_log.
  - split; [set_solver|done].
Qed.

Lemma ether_ntoa_tight a : a ≠ [] → (length (ether_ntoa a) <= 3 * length a - 1)%nat.
Proof.
  intros Ha. destruct a as [|b a]; [done|]. clear Ha. revert b. induction a as [|c a IH]; intros b.
  - pose proof (digits_length 16 2 b). cbn [ether_ntoa length]. unfold fmt_x. lia.
  - pose proof (digits_length 16 2 b). specialize (IH c). remember (c :: a) as t. cbn [ether_ntoa length].
    rewrite Heqt at 1. rewrite length_app. cbn [length]. unfold fmt_x. rewrite Heqt in *. cbn [length] in *. lia.
Qed.

(** On macOS neighbours are added and removed by running [ndp].  The
    parent goes on at once.  The child runs [ndp] with the complete address,
    scope and hardware address: the arrays are long enough for every address
    and interface.  If [ndp] cannot be run the child closes what it opened
    and returns 0 as well. *)
Theorem neighbors_apple_run_ndp `{!AppleOk} ifindex eth in6 :
  (∀ l, is_Some (mac_ifname l)) → addr_ok eth →
  runs_ndp (neighbor_add_apple ifindex eth in6) in6 (λ scope, [ndp; chars "-sn"; scope; ether_ntoa eth]) ∧
  runs_ndp (neighbor_remove_apple ifindex in6) in6 (λ scope, [ndp; chars "-dn"; scope]).
Proof.
  intros Hname [Hlen _].
  assert (strlcpy 18 (ether_ntoa eth) = ether_ntoa eth) as Hstr.
  { unfold strlcpy. apply take_ge. pose proof (ether_ntoa_tight eth) as Ht. rewrite Hlen in Ht.
    change (Z.to_nat (18 - 1)) with 17%nat. apply Ht. by destruct eth. }
  split; intros s pid; unfold neighbor_add_apple, neighbor_remove_apple; rewrite sys_bind; fold pid; clearbody pid;
    (destruct (pid >? 0) eqn:Ep;
     [eexists _, _, []; split; [reflexivity|]; split; [reflexivity|]; split; [done|lia]|]);
    [rewrite Hstr|];
    match goal with |- context [become_ndp ifindex in6 ?args ?s0] =>
      destruct (become_ndp_run ifindex in6 args s0 Hname) as (s' & r & l & -> & Hl & Hrun) end;
    (exists s', r, l; split; [reflexivity|]; split; [rewrite Hl; cbn [n_log with_log]; by rewrite <- app_assoc|];
     split; [lia|]; intros _; exact Hrun).
Qed.

(** If [fork] fails there is no child, and the daemon itself becomes [ndp]. *)
Lemma fork_failure_replaces_daemon `{!AppleOk} ifindex eth in6 s :
  (∀ l, is_Some (mac_ifname l)) → os_result (n_log s) fork = -1 → (∀ l a, 0 <= os_result l (execlp a)) →
  ∃ s', neighbor_add_apple ifindex eth in6 s = Some (s', inr None).
Proof.
  intros Hname Hfork Hexec. unfold neighbor_add_apple. rewrite sys_bind, Hfork. cbv iota beta.
  change (-1 >? 0) with false. cbv iota.
  match goal with |- context [become_ndp ifindex in6 ?args ?s0] =>
    destruct (become_ndp_run ifindex in6 args s0 Hname) as (s' & r & l & -> & _ & l0 & name & l1 & _ & _ & _ & Hr) end.
  rewrite (proj2 (Z.ltb_ge _ 0)) in Hr by apply Hexec. rewrite Hr. by eexists.
Qed.
(** What [open_tun] is left with. *)
Definition tun_result (l : call_log) (self : ether_addr) (ret : Z * list Z) : Prop :=
  if ret.1 <? 0 then neutral l ∨ ∃ fd, held l [RFd fd]
  else held l [RFd ret.1] ∧ ∃ i in6 sk, 0 <= i < 16 ∧ ret.2 = chars "tap" ++ fmt_d i ∧
    (open_path (chars "/dev/tap" ++ fmt_d i), ret.1) ∈ l ∧ rfc4291_addr self = Some in6 ∧
    ∃ r, (ioctl_SIOCAIFADDR_IN6 sk ret.2 in6 prefix_64, r) ∈ l ∧ 0 <= r.

Lemma tap_fits (p : string) i : 0 <= i < 16 → (length (chars p) <= 8)%nat →
  strcpy IFNAMSIZ (chars p ++ fmt_d i) = Some (chars p ++ fmt_d i).
Proof.
  intros Hi Hp. unfold strcpy.
  assert (length (fmt_d i) <= 2)%nat.
  { assert (Z.of_nat (Z.to_nat i) = i) as <- by lia. assert (Z.to_nat i < 16)%nat as Hn by lia. revert Hn.
    generalize (Z.to_nat i). intros n Hn. do 16 (destruct n as [|n]; [vm_compute; lia|]). lia. }
  rewrite length_app. unfold IFNAMSIZ. if_true. done.
Qed.

Lemma tun_result_after l1 l2 self ret : neutral l1 → tun_result l2 self ret → tun_result (l1 ++ l2) self ret.
Proof.
  intros Hn. unfold tun_result. destruct (ret.1 <? 0).
  - intros [?|[fd ?]]; [left|right; exists fd]; by apply held_after.
  - intros (Hh & i & in6 & sk & Hi & Hd & Ho & Hr & r & Hin & Hr0). split; [by apply held_after|].
    exists i, in6, sk. split; [done|]. split; [done|]. split; [apply elem_of_app; auto|].
    split; [done|]. exists r. split; [apply elem_of_app; auto|done].
Qed.

(** The end of [open_tun] when the socket [sk] is lost. *)
Ltac tun_failed sk E :=
  match goal with |- context [os_result ?l (close ?fd)] => let r := fresh "r" in set (r := os_result l (close fd)); clearbody r end;
  eexists _, _, _; split; [reflexivity|]; cbn [n_log with_log]; split; [rewrite <- !app_assoc; reflexivity|];
  unfold tun_result; cbn [fst app]; rewrite E;
  let E2 := fresh "E" in destruct (sk <? 0) eqn:E2; [left; neutral_log|right; exists sk; neutral_log].

Lemma open_tun_from_run self : addr_ok self → (∀ l p, os_result l (open_path p) ≠ 0) → ∀ n i dev s,
  0 <= i → i + Z.of_nat n = 16 →
  ∃ s' ret l, open_tun_from n i dev self s = Some (s', inr ret) ∧ n_log s' = n_log s ++ l ∧ tun_result l self ret.
Proof.
  intros Hself H0fd. destruct (rfc4291_total self Hself) as [in6 Hin6].
  induction n as [|n IH]; intros i dev s Hi Hn.
  { eexists _, _, []. rewrite app_nil_r. split; [reflexivity|]. split; [done|]. left. neutral_log. }
  cbn [open_tun_from]. rewrite (tap_fits "/dev/tap"), lift_bind, sys_bind by (done || lia || (simpl; lia)).
  pose proof (H0fd (n_log s) (chars "/dev/tap" ++ fmt_d i)) as Hfd0.
  set (path := chars "/dev/tap" ++ fmt_d i) in *. set (fd := os_result _ _) in *. clearbody fd.
  destruct (fd >? 0) eqn:Efd; cycle 1.
  { destruct (IH (i + 1) dev (with_log (n_log s ++ [(open_path path, fd)]) s)) as (s' & ret & l & -> & Hl & Hr); [lia..|].
    exists s', ret, ([(open_path path, fd)] ++ l). split; [done|]. split; [rewrite Hl; simpl; by rewrite <- app_assoc|].
    apply tun_result_after; [|done]. assert ((fd <? 0) = true) as E by lia. neutral_log. }
  assert ((fd <? 0) = false) as Eneg by lia. clear Efd Hfd0.
  rewrite sys_bind. cbn [n_log with_log]. set (nb := os_result _ (fcntl_O_NONBLOCK fd)). clearbody nb.
  destruct (nb <? 0) eqn:Enb; [failed Enb; unfold tun_result; cbn [fst]; rewrite Enb; right; exists fd; neutral_log|].
  rewrite (tap_fits "tap"), lift_bind, sys_bind, sys_bind by (done || lia || (simpl; lia)). cbn [n_log with_log].
  set (name := chars "tap" ++ fmt_d i). set (sk := os_result _ socket). clearbody sk.
  set (hw := os_result _ (ioctl_SIOCSIFLLADDR sk name self)). clearbody hw.
  destruct (hw <? 0) eqn:Ehw; [rewrite sys_bind; tun_failed sk Ehw|].
  rewrite sys_bind. cbn [n_log with_log]. set (mtu := os_result _ (ioctl_SIOCSIFMTU_dev sk name 1450)). clearbody mtu.
  destruct (mtu <? 0) eqn:Emtu; [rewrite sys_bind; tun_failed sk Emtu|].
  rewrite Hin6, lift_bind, sys_bind. cbn [n_log with_log]. set (ip := os_result _ (ioctl_SIOCAIFADDR_IN6 sk name in6 prefix_64)).
  clearbody ip. destruct (ip <? 0) eqn:Eip; [rewrite sys_bind; tun_failed sk Eip|].
  rewrite sys_bind. cbn [n_log with_log]. set (cl := os_result _ (close sk)). clearbody cl.
  eexists _, _, _. split; [reflexivity|]. cbn [n_log with_log]. split; [rewrite <- !app_assoc; reflexivity|].
  unfold tun_result. cbn [fst snd app]. rewrite Eneg. split; [destruct (sk <? 0) eqn:Esk; neutral_log|].
  exists i, in6, sk. split; [lia|]. split; [done|]. split; [by left|]. split; [done|]. exists ip. split; [do 5 right; by left|lia].
Qed.

(** On macOS [open_tun] takes the first of sixteen devices that can be
    opened, puts its name into [dev] and gives it the link-local address of
    the node with a prefix of 64 bits.  On success exactly the descriptor it
    returns stays open; when a step of the configuration fails, one
    descriptor may be lost: the device after [fcntl], else the socket. *)
Theorem open_tun_apple_accounted dev self s :
  addr_ok self → (∀ l p, os_result l (open_path p) ≠ 0) →
  ∃ s' ret l, open_tun_apple dev self s = Some (s', inr ret) ∧ n_log s' = n_log s ++ l ∧ tun_result l self ret.
Proof. intros Hself Hfd. by apply open_tun_from_run. Qed.
End properties.

(** ** A concrete system *)

(** A Mac whose first device is taken and whose processes fork into the
    child; the interface has a narrow and a wide channel 44. *)
Definition mac_os : Os := {|
  os_result := λ l c, match c with
    | open_path p => if bool_decide (p = chars "/dev/tap0") then -1 else 5
    | socket => 6
    | sharedWiFiClient | interfaceWithName _ _ => 9
    | _ => @os_result sample_os l c
    end;
  os_bytes := @os_bytes sample_os;
  os_name := @os_name sample_os;
  os_hostname := @os_hostname sample_os;
  os_flags := @os_flags sample_os;
  os_messages := @os_messages sample_os;
  DLT_IEEE802_11_RADIO := 0 |}.

Definition mac_env : AppleEnv := {|
  mac_channels := λ _, Some [mk_cw_channel 6 20; mk_cw_channel 44 20; mk_cw_channel 44 80];
  mac_ifaddrs := λ _, [];
  mac_ifname := λ _, Some (chars "en0");
  mac_computer_name := λ _, Some (chars "mac");
  inet_ntop := λ _, chars "fe80::1";
  err_junk := 0 |}.

Lemma mac_env_ok : @AppleOk mac_env.
Proof. constructor; [intros l name [= <-]|intros in6]; reflexivity. Qed.

Lemma set_channel_apple_widest_witness :
  ∃ s' st' rc l, @set_channel_apple mac_os mac_env 3 44 (mk_wlan 0 0 None) sample_net = Some (s', inr (st', rc)) ∧
    n_log s' = l ∧ channels_set l = [(44, 80)] ∧ rc = 1.
Proof.
  destruct (@set_channel_apple_widest mac_os mac_env 3 44 (mk_wlan 0 0 None) sample_net)
    as [(s' & st' & rc & l & E & Hl & _)|[E _]]; [|vm_compute in E; discriminate E].
  exists s', st', rc, l. split; [exact E|]. split; [exact Hl|].
  vm_compute in E. injection E as <- <- <-. vm_compute in Hl. subst l. by vm_compute.
Defined.

Lemma open_tun_apple_accounted_witness :
  ∃ s' ret l, @open_tun_apple mac_os [] [0; 1; 2; 3; 4; 5] sample_net = Some (s', inr ret) ∧ n_log s' = l ∧
    ret = (5, chars "tap1") ∧ held l [RFd 5].
Proof.
  destruct (@open_tun_apple_accounted mac_os [] [0; 1; 2; 3; 4; 5] sample_net) as (s' & ret & l & E & Hl & Hr).
  - split; [reflexivity|solve_list].
  - intros l p. simpl. by destruct (bool_decide _).
  - assert (ret = (5, chars "tap1")) as -> by (vm_compute in E; injection E as <- <-; reflexivity).
    exists s', (5, chars "tap1"), l. split; [exact E|]. split; [exact Hl|]. split; [reflexivity|]. apply Hr.
Defined.
