(* ===== verification/Calls.v ===== *)
(** * Calls: what the events of a trace do (src/daemon/netutils.c, dump_frame of src/daemon/core.c)

    A handler of Daemon records the calls it makes to the network
    configuration and to the capture file as events.  [perform] runs the
    function an event stands for, as modelled in Netutils and Dump, on the
    state these functions keep; [performs] runs the events of a trace in
    order.  A run may be undefined: [performs_run] shows for which results of
    which calls, and that a run that is defined releases all it obtains and
    keeps the netlink sockets. *)

From Stdlib Require Import ZArith QArith Lia ZifyBool.
From stdpp Require Import base tactics numbers list sets.
From S2P Require Import Prelude Channel Election Os Netutils Io Dump.

Local Open Scope Z_scope.

(** ** Sockets *)

(** The sockets of netutils.c. *)
Definition sockets (s : net) : Z * Z := (nlroute_socket s, nl80211_socket s).

(** A part of the program that leaves them alone. *)
Definition keeps {A} (m : M net A) : Prop := ∀ s s' r, m s = Some (s', r) → sockets s' = sockets s.

Section keeps.
Context `{Os}.

Lemma keeps_bind {A B} (m : M net A) (f : A → M net B) : keeps m → (∀ a, keeps (f a)) → keeps (m ≫= f).
Proof.
  intros Hm Hf s s' r. unfold mbind, M_bind. destruct (m s) as [[s1 [z|a]]|] eqn:E; [|intros Hr|discriminate].
  - intros [= <- <-]. exact (Hm _ _ _ E).
  - rewrite (Hf a _ _ _ Hr). exact (Hm _ _ _ E).
Qed.

Lemma keeps_sys c : keeps (sys c).
Proof. by intros s s' r [= <- <-]. Qed.
Lemma keeps_ret {A} (a : A) : keeps (mret a).
Proof. by intros s s' r [= <- <-]. Qed.
Lemma keeps_get : keeps get_st.
Proof. by intros s s' r [= <- <-]. Qed.
Lemma keeps_args f : keeps (modify (λ s, with_args (f s) s)).
Proof. by intros s s' r [= <- <-]. Qed.
Lemma keeps_set_args a : keeps (modify (with_args a)).
Proof. exact (keeps_args (λ _, a)). Qed.
Lemma keeps_lift {A} (o : option A) : keeps (lift o).
Proof. intros s s' r. unfold lift. destruct o; [by intros [= <- <-]|discriminate]. Qed.
Lemma keeps_guard b z : keeps (guard_ret b z).
Proof. intros s s' r. unfold guard_ret. destruct b; by intros [= <- <-]. Qed.
Lemma keeps_fn m : keeps m → keeps (fn m).
Proof.
  intros Hm s s' r. unfold fn, run. destruct (m s) as [[s1 [z|z]]|] eqn:E; [| |discriminate];
    intros [= <- <-]; exact (Hm _ _ _ E).
Qed.
Lemma keeps_release p c : keeps (release p c).
Proof.
  apply keeps_bind; [apply keeps_lift|]. intros q. destruct (q =? 0); [apply keeps_ret|].
  apply keeps_bind; [apply keeps_sys|intros _; apply keeps_ret].
Qed.
End keeps.

Create HintDb keeps.
#[export] Hint Resolve keeps_sys keeps_ret keeps_get keeps_lift keeps_guard keeps_release keeps_fn keeps_set_args : keeps.

(** Decides it from the text. *)
Ltac keeps_steps :=
  repeat match goal with
  | |- keeps (nla_put _ _ _) => unfold nla_put
  | |- keeps (_ ≫= _) => apply keeps_bind; [|intros ?]
  | |- keeps (if ?b then _ else _) => destruct b
  | |- keeps (let '(_, _) := ?p in _) => destruct p
  | |- keeps (let _ := _ in _) => cbv zeta
  | |- keeps (fn _) => apply keeps_fn
  | |- keeps _ => solve [auto with keeps]
  end.

(** ** Performing events *)

Section perform.
Context `{Os} (dump_file : list Z).

(** A call whose result the caller ignores. *)
Definition void {A} (m : M net A) : M net unit := λ s, '(s', _) ← m s; Some (s', inr tt).

Definition perform (e : event) : M net unit :=
  match e with
  | NeighAdd ifindex eth in6 => void (neighbor_add ifindex eth in6)
  | NeighRemove ifindex in6 => void (neighbor_remove ifindex in6)
  | ChannelCheck ifindex channel => void (is_channel_available ifindex channel)
  | ChannelSet ifindex channel => void (set_channel ifindex channel)
  | DumpFrame bs => dump_frame (Some dump_file) bs
  | _ => mret tt
  end.

Fixpoint performs (tr : trace) : M net unit :=
  match tr with
  | [] => mret tt
  | e :: tr => perform e;; performs tr
  end.

(** ** When they are defined *)

(** A channel [set_channel] and [is_channel_available] know. *)
Definition tunable (channel : Z) : Prop :=
  ∃ freq, ieee80211_channel_to_frequency channel = Some freq ∧ freq ≠ 0.

Definition tunes_to (e : event) : option Z :=
  match e with ChannelCheck _ c | ChannelSet _ c => Some c | _ => None end.

(** The calls that obtain an object the functions then rely on. *)
Definition relied_on (c : sys_call) : bool :=
  match c with
  | rtnl_neigh_alloc | nl_addr_build AF_INET6 _ | nlmsg_alloc | nl_cb_alloc
  | pcap_open_dead | pcap_dump_open_append _ _ => true
  | fopen_append file => bool_decide (file = dump_file)
  | _ => false
  end.

(** One of them fails after [l0]. *)
Definition denied (l0 : call_log) : Prop := ∃ l c, relied_on c = true ∧ os_result (l0 ++ l) c = 0.

Lemma denied_app l0 l : denied (l0 ++ l) → denied l0.
Proof. intros (l' & c & Hc & Hr). exists (l ++ l'), c. by rewrite app_assoc. Qed.

Lemma denied_here l0 c : relied_on c = true → (os_result l0 c =? 0) = true → denied l0.
Proof. intros Hc Hr. exists [], c. rewrite app_nil_r. split; [done|lia]. Qed.

Lemma void_clean {A} (m : M net A) s : clean m s →
  ∃ s' l, void m s = Some (s', inr tt) ∧ n_log s' = n_log s ++ l ∧ neutral l.
Proof. intros (s' & a & l & E & L & Hl). exists s', l. unfold void. by rewrite E. Qed.

Lemma void_keeps {A} (m : M net A) : keeps m → keeps (void m).
Proof.
  intros Hm s s' r. unfold void. destruct (m s) as [[s1 a]|] eqn:E; [|discriminate].
  intros [= <- <-]. exact (Hm _ _ _ E).
Qed.

Lemma void_undef {A} (m : M net A) s : m s = None → void m s = None.
Proof. intros E. unfold void. by rewrite E. Qed.

Lemma perform_keeps e : keeps (perform e).
Proof.
  destruct e; cbn [perform]; try apply keeps_ret.
  - apply void_keeps. unfold neighbor_add, neighbor_add_out. keeps_steps.
  - apply void_keeps. unfold neighbor_remove, neighbor_remove_out. keeps_steps.
  - apply void_keeps. unfold is_channel_available, available_out. keeps_steps.
  - apply void_keeps. unfold set_channel, set_channel_out. keeps_steps.
  - unfold dump_frame. keeps_steps.
Qed.

(** What a call comes to: it is undefined for a reason, or releases what it
    obtains. *)
Definition call_ends (s : net) (reason : Prop) (res : option (net * (Z + unit))) : Prop :=
  (∃ s' l, res = Some (s', inr tt) ∧ n_log s' = n_log s ++ l ∧ neutral l) ∨ (res = None ∧ reason).

Lemma neighbor_add_ends ifindex eth in6 s :
  call_ends s (denied (n_log s)) (void (neighbor_add ifindex eth in6) s).
Proof.
  pose proof (neighbor_add_run ifindex eth in6 s) as Hrun.
  destruct (neigh_alloc_fails ifindex in6 (n_log s)) eqn:E; [|left; by apply void_clean].
  right. split; [by apply void_undef|]. unfold neigh_alloc_fails in E. apply orb_true_iff in E as [E|E].
  - eapply denied_here; [|exact E]; done.
  - rewrite <- app_assoc in E. eapply denied_app, denied_here; [|exact E]. done.
Qed.

Lemma neighbor_remove_ends ifindex in6 s :
  call_ends s (denied (n_log s)) (void (neighbor_remove ifindex in6) s).
Proof.
  pose proof (neighbor_remove_run ifindex in6 s) as Hrun.
  destruct (os_result (n_log s) rtnl_neigh_alloc =? 0) eqn:E; [|left; by apply void_clean].
  right. split; [by apply void_undef|]. eapply denied_here; [|exact E]; done.
Qed.

Lemma channel_check_ends ifindex channel s : tunable channel →
  call_ends s (denied (n_log s)) (void (is_channel_available ifindex channel) s).
Proof.
  intros (freq & Hf & Hne). pose proof (is_channel_available_run ifindex channel freq s Hf) as Hrun. cbv zeta in Hrun.
  replace (freq =? 0) with false in Hrun by lia. cbn [orb] in Hrun.
  destruct (os_result (n_log s) nlmsg_alloc =? 0) eqn:E.
  { right. split; [by apply void_undef|]. eapply denied_here; [|exact E]; done. }
  destruct (os_result (n_log s ++ _) nl_cb_alloc =? 0) eqn:E2; [|left; by apply void_clean].
  destruct Hrun as [Hrun|Hrun]; [left; by apply void_clean|].
  right. split; [by apply void_undef|]. eapply denied_app, denied_here; [|exact E2]; done.
Qed.

Lemma channel_set_ends ifindex channel s : tunable channel →
  call_ends s (denied (n_log s)) (void (set_channel ifindex channel) s).
Proof.
  intros (freq & Hf & Hne). pose proof (set_channel_run ifindex channel freq s Hf) as Hrun.
  replace (freq =? 0) with false in Hrun by lia. left. by apply void_clean.
Qed.

Lemma dump_ends bs s : call_ends s (denied (n_log s)) (dump_frame (Some dump_file) bs s).
Proof.
  destruct (dump_frame_appends dump_file bs s) as [_ Hd].
  destruct (dump_frame (Some dump_file) bs s) as [[s' r]|].
  - destruct Hd as (-> & _ & l & _ & _ & _ & L & Hn & _). left. eauto.
  - right. split; [done|]. destruct Hd as (l & c & Hr & Hc). exists l, c. split; [|done].
    destruct Hc as [-> |[-> |[h ->]]]; [by apply bool_decide_eq_true|done..].
Qed.

Lemma perform_ends e s : (∀ c, tunes_to e = Some c → tunable c) →
  call_ends s (denied (n_log s)) (perform e s).
Proof.
  intros Ht. destruct e; cbn [perform];
    try (left; exists s, []; rewrite app_nil_r; by split_and!).
  - apply neighbor_add_ends.
  - apply neighbor_remove_ends.
  - apply channel_check_ends. by apply Ht.
  - apply channel_set_ends. by apply Ht.
  - apply dump_ends.
Qed.

(** The calls of a trace to channels that exist release what they obtain and
    keep the sockets, unless an object they rely on is denied. *)
Lemma performs_run tr s : Forall (λ e, ∀ c, tunes_to e = Some c → tunable c) tr →
  (∃ s' l, performs tr s = Some (s', inr tt) ∧ n_log s' = n_log s ++ l ∧ neutral l ∧ sockets s' = sockets s) ∨
  (performs tr s = None ∧ denied (n_log s)).
Proof.
  intros Htr. revert s. induction Htr as [|e tr He _ IH]; intros s; cbn [performs].
  { left. exists s, []. rewrite app_nil_r. by split_and!. }
  destruct (perform_ends e s He) as [(s1 & l1 & E1 & L1 & N1)|[E1 Hr]].
  2: { right. split; [|done]. unfold mbind, M_bind. by rewrite E1. }
  pose proof (perform_keeps e _ _ _ E1) as K1. rewrite (bind_run _ _ _ _ _ E1).
  destruct (IH s1) as [(s2 & l2 & E2 & L2 & N2 & K2)|[E2 Hr]].
  - left. exists s2, (l1 ++ l2). rewrite L2, L1, app_assoc. split_and!; [done|done| |congruence].
    by apply held_after.
  - right. split; [done|]. rewrite L1 in Hr. by eapply denied_app.
Qed.

(** A call that is defined, whatever the channel. *)
Lemma perform_ran e s s' r : perform e s = Some (s', r) →
  r = inr tt ∧ sockets s' = sockets s ∧ ∃ l, n_log s' = n_log s ++ l ∧ neutral l.
Proof.
  intros E. pose proof (perform_keeps e _ _ _ E) as K.
  assert (∀ c, tunes_to e = Some c → tunable c) as Ht.
  { intros c Hc. destruct e; try discriminate Hc; injection Hc as ->; cbn [perform] in E; unfold void in E;
      (destruct (ieee80211_channel_to_frequency c) as [f|] eqn:Ef;
        [|unfold is_channel_available, set_channel in E; by rewrite Ef in E]);
      exists f; (split; [done|]); intros ->.
    - pose proof (is_channel_available_run ifindex c 0 s Ef) as Hu. cbn in Hu. by rewrite Hu in E.
    - pose proof (set_channel_run ifindex c 0 s Ef) as Hu. cbn in Hu. by rewrite Hu in E. }
  destruct (perform_ends e s Ht) as [(s1 & l & E1 & L1 & N1)|[E1 _]]; rewrite E in E1; [|done].
  injection E1 as <- <-. eauto.
Qed.

Lemma performs_ran tr : ∀ s s' r, performs tr s = Some (s', r) →
  r = inr tt ∧ sockets s' = sockets s ∧ ∃ l, n_log s' = n_log s ++ l ∧ neutral l.
Proof.
  induction tr as [|e tr IH]; intros s s' r; cbn [performs].
  { intros [= <- <-]. split; [done|]. split; [done|]. exists []. by rewrite app_nil_r. }
  unfold mbind, M_bind. destruct (perform e s) as [[s1 r1]|] eqn:E; [|done].
  destruct (perform_ran e _ _ _ E) as (-> & K1 & l1 & L1 & N1). intros (-> & K2 & l2 & L2 & N2)%IH.
  split; [done|]. split; [congruence|]. exists (l1 ++ l2). rewrite L2, L1, app_assoc. split; [done|]. by apply held_after.
Qed.
End perform.
