(* ===== verification/Daemon.v ===== *)
(** * Daemon: the event handlers (src/daemon/core.c, src/daemon/core.h)

    The daemon is driven by events: a frame from the air, packets on the host
    device, and timers.  A handler is a function on a [world], the state of
    the daemon with what it has done so far and what waits on the host
    device; clock readings are arguments, one per call of [clock_time_us]
    whose value matters.  [handle] dispatches an input to its handler. *)

From Stdlib Require Import ZArith QArith Lia ZifyBool.
From stdpp Require Import base tactics numbers list gmap.
From S2P Require Import Prelude Wire CircularBuffer HashMap Sync Channel Election Peers ElectionRun.
From S2P Require Import State Schedule Frame Radiotap Tx Rx Io.

Local Open Scope Z_scope.

(** ** Data *)

Definition ETHER_LENGTH : Z := 14.
Definition ETHER_DST_OFFSET : Z := 0.
Definition ETHER_SRC_OFFSET : Z := 6.
Definition ETHER_ETHERTYPE_OFFSET : Z := 12.
Definition POLL_NEW_UNICAST : Z := 0x1.
Definition POLL_NEW_MULTICAST : Z := 0x2.
Definition MAX_NUM_AMPDU : nat := 16.

(** The array [data_arr] of [awdl_receive_frame]. *)
#[global] Instance data_arr : OutRoom := MAX_NUM_AMPDU.

Record daemon_state := mk_daemon {
  d_io : io_state;
  d_awdl : awdl_state;
  d_ieee80211 : ieee80211_state;
  d_next : option buf;
  d_queue : circular_buf buf;      (* [tx_queue_multicast] *)
  d_dump : bool }.                 (* whether there is a dump file *)

Record world := mk_world {
  w_daemon : daemon_state;
  w_trace : trace;
  w_pending : list (Z + list Z) }.

(** The 65535 bytes of a local array before they are written. *)
Class StackEnv := stack_block : list Z.

(** Assignments to one member. *)
Definition with_awdl (s : awdl_state) (d : daemon_state) : daemon_state :=
  mk_daemon (d_io d) s (d_ieee80211 d) (d_next d) (d_queue d) (d_dump d).
Definition with_ieee80211 (i : ieee80211_state) (d : daemon_state) : daemon_state :=
  mk_daemon (d_io d) (d_awdl d) i (d_next d) (d_queue d) (d_dump d).
Definition with_next (b : option buf) (d : daemon_state) : daemon_state :=
  mk_daemon (d_io d) (d_awdl d) (d_ieee80211 d) b (d_queue d) (d_dump d).
Definition with_queue (q : circular_buf buf) (d : daemon_state) : daemon_state :=
  mk_daemon (d_io d) (d_awdl d) (d_ieee80211 d) (d_next d) q (d_dump d).
Definition with_daemon (d : daemon_state) (w : world) : world :=
  mk_world d (w_trace w) (w_pending w).
Definition with_trace (tr : trace) (w : world) : world :=
  mk_world (w_daemon w) tr (w_pending w).
Definition emit (e : event) (w : world) : world := with_trace (w_trace w ++ [e]) w.

(** Counters of the statistics. *)
Definition incr_tx_action (s : awdl_stats) : awdl_stats :=
  mk_stats (u64 (tx_action s + 1)) (tx_data s) (tx_data_unicast s) (tx_data_multicast s)
    (rx_action s) (rx_data s) (rx_unknown s).
Definition incr_tx_data (s : awdl_stats) : awdl_stats :=
  mk_stats (tx_action s) (u64 (tx_data s + 1)) (tx_data_unicast s) (tx_data_multicast s)
    (rx_action s) (rx_data s) (rx_unknown s).
Definition incr_tx_unicast (s : awdl_stats) : awdl_stats :=
  mk_stats (tx_action s) (tx_data s) (u64 (tx_data_unicast s + 1)) (tx_data_multicast s)
    (rx_action s) (rx_data s) (rx_unknown s).
Definition incr_tx_multicast (s : awdl_stats) : awdl_stats :=
  mk_stats (tx_action s) (tx_data s) (tx_data_unicast s) (u64 (tx_data_multicast s + 1))
    (rx_action s) (rx_data s) (rx_unknown s).
Definition incr_rx_unknown (s : awdl_stats) : awdl_stats :=
  mk_stats (tx_action s) (tx_data s) (tx_data_unicast s) (tx_data_multicast s)
    (rx_action s) (rx_data s) (u64 (rx_unknown s + 1)).
Definition count (f : awdl_stats → awdl_stats) (s : awdl_state) : awdl_state :=
  with_stats (f (st_stats s)) s.

(** ** The hooks the daemon installs *)

Definition awdl_neighbor_add (io : io_state) (tr : trace) (p : awdl_peer) : trace :=
  neighbor_add_rfc4291 (host_ifindex io) (peer_addr p) tr.

Definition awdl_neighbor_remove (io : io_state) (tr : trace) (p : awdl_peer) : trace :=
  neighbor_remove_rfc4291 (host_ifindex io) (peer_addr p) tr.

Definition daemon_hooks (io : io_state) : awdl_hooks trace :=
  mk_hooks None (Some (awdl_neighbor_add io)) (Some (awdl_neighbor_remove io)).

(** [ev_timer_rearm]: the timer fires once more. *)
Definition ev_timer_rearm (t : timer) (after : Q) (w : world) : world :=
  emit (TimerStart t after 0) w.

(** ** Sending *)

Section send.
Context `{IoEnv} `{StackEnv} `{Radiotap}.

(** The buffer is freed by the caller; the result is the node, the counters,
    the trace and the code. *)
Definition awdl_send_data (b : buf) (io : io_state) (s : awdl_state) (ieee : ieee80211_state)
    (tr : trace) : outcome (awdl_state * ieee80211_state * trace * Z) :=
  h ← of_option ((
    _ ← checked TX_FAIL (read_be16 b ETHER_ETHERTYPE_OFFSET);
    dst ← checked TX_FAIL (read_ether_addr b ETHER_DST_OFFSET);
    src ← checked TX_FAIL (read_ether_addr b ETHER_SRC_OFFSET);
    mret (src, dst)) tt);
  match h with
  | (_, inl r) => Done (s, ieee, tr, r)
  | (_, inr (src, dst)) =>
      let b := (buf_strip b ETHER_LENGTH).1 in
      payload ← of_option (load (b_mem b) (b_data b) (buf_len b));
      f ← of_option (awdl_init_full_data_frame stack_block src dst payload s ieee);
      let '(awdl_data, awdl_data_len, s, ieee) := f in
      let s := count incr_tx_data s in
      bytes ← of_option (load awdl_data 0 awdl_data_len);
      let '(tr, rc) := wlan_send io tr bytes in
      Done (s, ieee, tr, if rc <? 0 then TX_FAIL else TX_OK)
  end.

Definition awdl_send_action (w : world) (type now1 now2 : Z) : outcome world :=
  let d := w_daemon w in
  f ← of_option (awdl_init_full_action_frame stack_block (d_awdl d) (d_ieee80211 d) type now1 now2);
  let '(blk, len, ieee) := f in
  if len <? 0 then Done (with_daemon (with_ieee80211 ieee d) w) else
  bytes ← of_option (load blk 0 len);
  let '(tr, _) := wlan_send (d_io d) (w_trace w) bytes in
  Done (with_trace tr
    (with_daemon (with_awdl (count incr_tx_action (d_awdl d)) (with_ieee80211 ieee d)) w)).

Definition awdl_send_psf (w : world) (now1 now2 : Z) : outcome world :=
  awdl_send_action w AWDL_ACTION_PSF now1 now2.

Definition awdl_send_mif (w : world) (now now1 now2 : Z) : outcome world :=
  let s := d_awdl (w_daemon w) in
  let next_aw := awdl_sync_next_aw_us now (st_sync s) in
  let eaw_len := presence_mode (st_sync s) * aw_period (st_sync s) in
  w ← (if awdl_chan_num (ch_current (st_channel s)) (ch_enc (st_channel s)) >? 0
       then awdl_send_action w AWDL_ACTION_MIF now1 now2 else Done w);
  Done (ev_timer_rearm MIF_TIMER
    (usec_to_sec (u64 (next_aw + ieee80211_tu_to_usec (eaw_len / 2)))) w).

(** The branches of [awdl_send_unicast] with a frame to send, and the delay
    they compute. *)
Definition send_unicast_next (w : world) (now : Z) (next : buf) : outcome (world * Q) :=
  let d := w_daemon w in
  let s := d_awdl d in
  r ← of_option (read_ether_addr next ETHER_DST_OFFSET);
  dst ← of_option r.2;
  if compare_ether_addr dst (self_address s) =? 0 then
    bytes ← of_option (load (b_mem next) (b_data next) (buf_len next));
    let '(tr, _) := host_send (d_io d) (w_trace w) bytes in
    Done (with_trace tr (with_daemon (with_next None d) w), 0%Q)
  else
    g ← of_option (awdl_peer_get (the_peers s) dst);
    if g.1 <? 0 then Done (with_daemon (with_next None d) w, 0%Q) else
    peer ← of_option (p_heap (the_peers s) !! g.2);
    delay ← of_option (awdl_can_send_unicast_in s peer now AWDL_UNICAST_GUARD_TU);
    if Qeq_bool delay 0 then
      r ← awdl_send_data next (d_io d) s (d_ieee80211 d) (w_trace w);
      let '(s, ieee, tr, _) := r in
      let d := with_next None (with_ieee80211 ieee (with_awdl (count incr_tx_unicast s) d)) in
      Done (with_trace tr (with_daemon d w), 0%Q)
    else if negb (Qle_bool 0 delay) then
      Done (w, (- delay + usec_to_sec (ieee80211_tu_to_usec AWDL_UNICAST_GUARD_TU))%Q)
    else Done (w, delay).

Definition awdl_send_unicast (w : world) (now : Z) : outcome world :=
  r ← match d_next (w_daemon w) with
      | Some next => send_unicast_next w now next
      | None => Done (w, 0%Q)
      end;
  let '(w, delay) := r in
  match d_next (w_daemon w) with
  | Some _ => Done (ev_timer_rearm TX_TIMER delay w)
  | None => Done (emit FeedHost w)
  end.

(** The branches of [awdl_send_multicast] with a frame to send. *)
Definition send_multicast_next (w : world) (now : Z) : outcome (world * Q) :=
  let d := w_daemon w in
  let delay := awdl_can_send_in (d_awdl d) now AWDL_MULTICAST_GUARD_TU in
  if awdl_is_multicast_eaw (d_awdl d) now && Qeq_bool delay 0 then
    g ← of_option (circular_buf_get (d_queue d) false);
    let '(q, _, next) := g in
    next ← of_option next;
    r ← awdl_send_data next (d_io d) (d_awdl d) (d_ieee80211 d) (w_trace w);
    let '(s, ieee, tr, _) := r in
    let d := with_queue q (with_ieee80211 ieee (with_awdl (count incr_tx_multicast s) d)) in
    Done (with_trace tr (with_daemon d w), delay)
  else if Qeq_bool delay 0 then Done (w, usec_to_sec (ieee80211_tu_to_usec 64))
  else if negb (Qle_bool 0 delay) then
    Done (w, (- delay + usec_to_sec (ieee80211_tu_to_usec AWDL_MULTICAST_GUARD_TU))%Q)
  else Done (w, delay).

Definition awdl_send_multicast (w : world) (now : Z) : outcome world :=
  r ← (if circular_buf_empty (d_queue (w_daemon w)) =? 0 then send_multicast_next w now
       else Done (w, 0%Q));
  let '(w, delay) := r in
  if circular_buf_empty (d_queue (w_daemon w)) =? 0
  then Done (ev_timer_rearm TX_MCAST_TIMER delay w)
  else Done (emit FeedHost w).
End send.

(** ** The host device *)

(** [poll_host_device], from [result] on; every iteration but the last fills
    a place of the queue or the one for a unicast frame. *)
Fixpoint poll_host_device `{RxEnv} (fuel : nat) (w : world) (result : Z) : outcome (world * Z) :=
  match fuel with
  | O => OutOfFuel
  | S fuel =>
      let d := w_daemon w in
      if match d_next d with Some _ => true | None => negb (circular_buf_full (d_queue d) =? 0) end
      then Done (w, result) else
      b ← of_option (buf_new_owned ETHER_MAX_LEN (junk_block ETHER_MAX_LEN));
      let '(pending, blk, len, rc) := host_recv (d_io d) (w_pending w) (b_mem b) (buf_len b) in
      let w := mk_world d (w_trace w) pending in
      if rc <? 0 then Done (w, result) else
      let b := set_mem b blk in
      let b := (buf_take b (buf_len b - len)).1 in
      r ← of_option (read_ether_addr b ETHER_DST_OFFSET);
      if r.1 <? 0 then Done (w, result) else
      dst ← of_option r.2;
      first ← of_option (dst !! 0%nat);
      if has_flag first 0x01 then
        q ← of_option (circular_buf_put (d_queue d) b);
        poll_host_device fuel (with_daemon (with_queue q d) w) (Z.lor result POLL_NEW_MULTICAST)
      else
        poll_host_device fuel (with_daemon (with_next (Some b) d) w) (Z.lor result POLL_NEW_UNICAST)
  end.

(** One iteration per place of the queue, one for a unicast frame, the last. *)
Definition poll_fuel (d : daemon_state) : nat := Z.to_nat (circular_buf_capacity (d_queue d)) + 2.

Section ready.
Context `{CallocEnv} `{MallocEnv} `{RxEnv} `{IoEnv} `{StackEnv} `{Radiotap}.

Definition host_device_ready (w : world) (now1 now2 : Z) : outcome world :=
  r ← poll_host_device (poll_fuel (w_daemon w)) w 0;
  let '(w, poll_result) := r in
  w ← (if has_flag poll_result POLL_NEW_MULTICAST then awdl_send_multicast w now1 else Done w);
  if has_flag poll_result POLL_NEW_UNICAST then awdl_send_unicast w now2 else Done w.

(** ** Reception *)

(** Sends every buffer to the host device. *)
Fixpoint deliver (io : io_state) (data : list buf) (tr : trace) : outcome trace :=
  match data with
  | [] => Done tr
  | b :: data =>
      bytes ← of_option (load (b_mem b) (b_data b) (buf_len b));
      deliver io data (host_send io tr bytes).1
  end.

(** [awdl_rx] writes the frames to [data_arr]; the event [DumpFrame] is the
    call of [dump_frame], which [perform] of Calls makes. *)
Definition awdl_receive_frame (w : world) (bytes : list Z) (tsft : Z) : outcome world :=
  let d := w_daemon w in
  frame ← of_option (buf_new_const (bytes, 0) (Z.of_nat (length bytes)));
  r ← awdl_rx (daemon_hooks (d_io d)) frame tsft (d_awdl d) (w_trace w);
  let '(data, s, tr, result) := r in
  if result =? RX_OK then
    tr ← deliver (d_io d) data tr;
    Done (with_trace tr (with_daemon (with_awdl s d) w))
  else if result <? RX_OK then
    let tr := if d_dump d then tr ++ [DumpFrame bytes] else tr in
    Done (with_trace tr (with_daemon (with_awdl (count incr_rx_unknown s) d) w))
  else Done (with_trace tr (with_daemon (with_awdl s d) w)).

(** [pcap_dispatch] delivers at most one packet, [None] when there is none. *)
Definition wlan_device_ready (w : world) (packet : option (list Z)) (tsft : Z) : outcome world :=
  match packet with
  | None => Done w
  | Some bytes => w ← awdl_receive_frame w bytes tsft; Done (emit FeedWlan w)
  end.
End ready.

(** ** Timers *)

Definition awdl_switch_channel (w : world) (now : Z) : outcome world :=
  let d := w_daemon w in
  let s := d_awdl d in
  let ch := st_channel s in
  let chan_num_old := awdl_chan_num (ch_current ch) (ch_enc ch) in
  let slot := awdl_sync_current_eaw now (st_sync s) mod Z.of_nat AWDL_CHANSEQ_LENGTH in
  chan_new ← of_option (ch_sequence ch !! Z.to_nat slot);
  let chan_num_new := awdl_chan_num chan_new (ch_enc ch) in
  let w :=
    if negb (chan_num_new =? 0) && negb (chan_num_new =? chan_num_old) then
      let w := if wlan_is_file (d_io d) then w
               else emit (ChannelSet (wlan_ifindex (d_io d)) chan_num_new)
                      (emit (ChannelCheck (wlan_ifindex (d_io d)) chan_num_new) w) in
      with_daemon (with_awdl
        (with_channel (mk_channel (ch_enc ch) (ch_sequence ch) (ch_master ch) chan_new) s) d) w
    else w in
  Done (ev_timer_rearm CHAN_TIMER (usec_to_sec (awdl_sync_next_aw_us now (st_sync s))) w).

Definition awdl_clean_peers (w : world) (now : Z) : outcome world :=
  let d := w_daemon w in
  let s := d_awdl d in
  let cutoff_time := u64 (now - ps_timeout (st_peers s)) in
  r ← awdl_peers_remove (peer_remove_cb (daemon_hooks (d_io d))) (the_peers s) (w_trace w) cutoff_time;
  let '(ps, tr) := r in
  let s := with_peers ps s in
  e ← awdl_election_run (st_election s) (the_peers s);
  Done (emit (TimerAgain PEER_TIMER)
    (with_trace tr (with_daemon (with_awdl (with_election e s) d) w))).

(** ** Start *)

(** [netutils], [io] and [host] are the results of [netutils_init],
    [io_state_init] and [get_hostname]; [mem] and [ring] what the memory held
    before.  [inl] is an error. *)
Definition awdl_init `{CallocEnv} (netutils : Z) (io : Z + io_state) (host : Z + list Z)
    (chan : awdl_chan) (dump : bool) (now : Z) (mem : awdl_state) (ring : list buf) :
    option (Z + daemon_state) :=
  if netutils <? 0 then Some (inl netutils) else
  match io with
  | inl err => Some (inl err)
  | inr io =>
      match host with
      | inl err => Some (inl err)
      | inr hostname =>
          a ← awdl_init_state (E := trace) mem hostname (if_ether_addr io) chan now;
          q ← circular_buf_init 16 ring;
          Some (inr (mk_daemon io a.1 ieee80211_init_state None q dump))
      end
  end.

(** The timers and watchers [awdl_schedule] starts, in order. *)
Definition awdl_schedule (w : world) : world :=
  let s := d_awdl (w_daemon w) in
  let psf := usec_to_sec (ieee80211_tu_to_usec (psf_interval s)) in
  with_trace (w_trace w ++
    [TimerStart CHAN_TIMER 0 0;
     TimerInit PEER_TIMER 0 (usec_to_sec (ps_clean_interval (st_peers s)));
     TimerAgain PEER_TIMER;
     WatchWlan; WatchHost;
     TimerStart PSF_TIMER psf psf;
     TimerStart MIF_TIMER 0 0;
     TimerStart TX_TIMER 0 0;
     TimerStart TX_MCAST_TIMER 0 0;
     WatchStats]) w.

(** ** Events *)

(** What the event loop reports, with what the system calls of the handler
    return: packets that wait on the host device (for a later [HostReady]),
    a frame from the air, a timer that expired, the signal for statistics. *)
Inductive input :=
  | HostArrives (reads : list (Z + list Z))
  | HostReady (now1 now2 : Z)
  | WlanReady (packet : option (list Z)) (tsft : Z)
  | MifExpired (now now1 now2 : Z)
  | PsfExpired (now1 now2 : Z)
  | TxExpired (now : Z)
  | TxMcastExpired (now : Z)
  | ChanExpired (now : Z)
  | PeerExpired (now : Z)
  | StatsSignal.

(** The handlers [awdl_schedule] registers. *)
Definition handle `{CallocEnv} `{MallocEnv} `{RxEnv} `{IoEnv} `{StackEnv} `{Radiotap}
    (i : input) (w : world) : outcome world :=
  match i with
  | HostArrives reads => Done (mk_world (w_daemon w) (w_trace w) (w_pending w ++ reads))
  | HostReady now1 now2 => host_device_ready w now1 now2
  | WlanReady packet tsft => wlan_device_ready w packet tsft
  | MifExpired now now1 now2 => awdl_send_mif w now now1 now2
  | PsfExpired now1 now2 => awdl_send_psf w now1 now2
  | TxExpired now => awdl_send_unicast w now
  | TxMcastExpired now => awdl_send_multicast w now
  | ChanExpired now => awdl_switch_channel w now
  | PeerExpired now => awdl_clean_peers w now
  | StatsSignal => Done w
  end.
