(* ===== verification/DaemonRun.v ===== *)
(** * DaemonRun: what the daemon does, event by event (src/daemon/core.c)

    The invariant of the daemon ([daemon_ok]), and the effect on it and on the
    outside of polling the host device and of sending unicast and multicast
    frames. *)

From Stdlib Require Import ZArith QArith Lia Lqa ZifyBool.
From stdpp Require Import base tactics numbers list gmap.
From S2P Require Import Prelude Wire Crc32 CircularBuffer HashMap Sync Channel Election Peers ElectionRun.
From S2P Require Import State Schedule Frame Radiotap Tx Rx Io Daemon.

Local Open Scope Z_scope.

(** ** The invariant *)

(** A frame from the host device: at least an address, at most what fits. *)
Record frame_ok (b : buf) : Prop := {
  fr_wf : buf_wf b;
  fr_len : 6 <= b_len b <= ETHER_MAX_LEN }.

Record daemon_ok (d : daemon_state) (P : gmap mkey awdl_peer) (q : list buf) : Prop := {
  dok_state : state_ok (d_awdl d) P;
  dok_seq : 0 <= ieee_sequence_number (d_ieee80211 d) < 4096;
  dok_queue : rep (d_queue d) q;
  dok_cap : c_max (d_queue d) = 16;
  dok_frames : Forall frame_ok q;
  dok_next : ∀ b, d_next d = Some b → frame_ok b }.

(** What the device may deliver: an error or bytes. *)
Definition read_ok (r : Z + list Z) : Prop :=
  match r with inl errno => 0 < errno | inr bs => bytes_ok bs end.

(** The array a function of the daemon declares. *)
Class StackEnvOk `{StackEnv} : Prop := stack_length : Z.of_nat (length stack_block) = 65535.

Lemma state_ok_seq s P n : state_ok s P → is_u16 n → state_ok (with_sequence_number n s) P.
Proof. intros [] Hn. by constructor. Qed.
Lemma state_ok_count s P f : state_ok s P → state_ok (count f s) P.
Proof. apply state_ok_stats. Qed.
Lemma state_ok_election s P e : state_ok s P → election_ok e → state_ok (with_election e s) P.
Proof. intros [] He. by constructor. Qed.
#[export] Hint Resolve state_ok_seq state_ok_count state_ok_election : owl.

Lemma daemon_ok_awdl d P q s P' : daemon_ok d P q → state_ok s P' → daemon_ok (with_awdl s d) P' q.
Proof. intros [] Hs. by constructor. Qed.
Lemma daemon_ok_next d P q b :
  daemon_ok d P q → (∀ b', b = Some b' → frame_ok b') → daemon_ok (with_next b d) P q.
Proof. intros [] Hb. by constructor. Qed.
Lemma daemon_ok_ieee d P q i :
  daemon_ok d P q → 0 <= ieee_sequence_number i < 4096 → daemon_ok (with_ieee80211 i d) P q.
Proof. intros [] Hi. by constructor. Qed.
Lemma daemon_ok_queue d P q c q' :
  daemon_ok d P q → rep c q' → c_max c = 16 → Forall frame_ok q' → daemon_ok (with_queue c d) P q'.
Proof. intros [] ???. by constructor. Qed.
#[export] Hint Resolve daemon_ok_awdl daemon_ok_ieee : owl.

Lemma ieee_next_ok i :
  0 <= ieee_sequence_number i < 4096 →
  0 <= ieee_sequence_number (ieee80211_state_next_sequence_number i).2 < 4096.
Proof.
  intros Hi. simpl. rewrite land_0fff by apply u16_range. apply Z.mod_pos_bound. lia.
Qed.
#[export] Hint Resolve ieee_next_ok : owl.

Lemma load_window b : buf_wf b → load (b_mem b) (b_data b) (buf_len b) = Some (contents b).
Proof. intros []. unfold buf_len. by rewrite load_Some by lia. Qed.

(** ** Sending a data frame *)

(** The frame sent for an Ethernet frame of the host. *)
Definition data_frame_for `{Radiotap} (s : awdl_state) (ieee : ieee80211_state) (l : list Z) : list Z :=
  with_fcs (ieee_fcs ieee)
    (data_frame (take 6 (drop 6 l)) (take 6 l) (ieee_sequence_number ieee) (sequence_number s)
       (drop 14 l)).

(** The header [awdl_send_data] reads. *)
Lemma ether_header_spec b :
  frame_ok b →
  (_ ← checked TX_FAIL (read_be16 b ETHER_ETHERTYPE_OFFSET);
   dst ← checked TX_FAIL (read_ether_addr b ETHER_DST_OFFSET);
   src ← checked TX_FAIL (read_ether_addr b ETHER_SRC_OFFSET);
   mret (src, dst)) tt =
  Some (tt, if b_len b <? 14 then inl TX_FAIL
            else inr (take 6 (drop 6 (contents b)), take 6 (contents b))).
Proof.
  intros [W Hb]. unfold ETHER_ETHERTYPE_OFFSET, ETHER_DST_OFFSET, ETHER_SRC_OFFSET, ETHER_MAX_LEN in *.
  pose proof (contents_length b W) as Hl. unfold mbind, M_bind, mret, M_ret.
  rewrite read_be16_spec, !read_ether_addr_spec by (done || int_lia).
  rewrite checked_spec by lia. destruct (b_len b <? 14) eqn:E14; [by if_false|]. if_true.
  rewrite checked_spec by lia. if_true. rewrite checked_spec by lia. if_true. done.
Qed.

Section send.
Context `{IoEnv} `{StackEnvOk} `{RadiotapOk}.

Lemma send_data_spec b io s ieee tr P :
  frame_ok b → state_ok s P →
  awdl_send_data b io s ieee tr =
    if b_len b <? 14 then Done (s, ieee, tr, TX_FAIL)
    else
      let '(tr, rc) := wlan_send io tr (data_frame_for s ieee (contents b)) in
      Done (count incr_tx_data (with_sequence_number (u16 (sequence_number s + 1)) s),
            (ieee80211_state_next_sequence_number ieee).2, tr,
            if rc <? 0 then TX_FAIL else TX_OK).
Proof.
  intros Hf Hs. unfold awdl_send_data. rewrite ether_header_spec by done. destruct Hf as [W Hb].
  pose proof (contents_length b W) as Hl. unfold ETHER_MAX_LEN in Hb.
  cbn [of_option mbind outcome_bind]. destruct (b_len b <? 14) eqn:E14; [done|].
  unfold ETHER_LENGTH. destruct (buf_strip_spec b 14 W) as (b1 & -> & W1 & Hc1 & _); [lia|]. cbn [fst].
  rewrite load_window, Hc1 by done. change (Z.to_nat 14) with 14%nat.
  cbn [of_option mbind outcome_bind]. set (l := contents b) in *.
  pose proof (contents_ok b W) as Hok. fold l in Hok.
  destruct (init_full_data_frame_spec s P stack_block (take 6 (drop 6 l)) (take 6 l) (drop 14 l) ieee Hs)
    as [-> Hlen].
  - split; [rewrite length_take, length_drop; lia|by apply Forall_take, Forall_drop].
  - split; [rewrite length_take; lia|by apply Forall_take].
  - rewrite stack_length, length_drop. lia.
  - cbn [of_option mbind outcome_bind]. fold (data_frame_for s ieee l).
    rewrite load_Some by (rewrite ?length_app; lia). rewrite Nat2Z.id, drop_0, take_app_length.
    cbn [of_option mbind outcome_bind]. done.
Qed.

(** Whatever happens to the frame, the node stays well formed. *)
Lemma send_data_total b io s ieee tr P :
  frame_ok b → state_ok s P → 0 <= ieee_sequence_number ieee < 4096 →
  ∃ s' ieee' tr' rc, awdl_send_data b io s ieee tr = Done (s', ieee', tr', rc) ∧
    state_ok s' P ∧ 0 <= ieee_sequence_number ieee' < 4096.
Proof.
  intros Hb Hs Hi. rewrite (send_data_spec b io s ieee tr P Hb Hs).
  destruct (b_len b <? 14); [eauto 10|].
  destruct (wlan_send io tr _) as [tr' rc]. do 4 eexists. split; [done|].
  split; auto with owl.
Qed.
End send.

(** The world after [awdl_send_data] was called for [b] and the counter [f]
    was incremented. *)
Definition after_send `{IoEnv} `{Radiotap} (f : awdl_stats → awdl_stats) (b : buf) (w : world) : world :=
  let d := w_daemon w in
  let s := d_awdl d in
  if b_len b <? 14 then with_daemon (with_awdl (count f s) d) w
  else
    let sent := count incr_tx_data (with_sequence_number (u16 (sequence_number s + 1)) s) in
    with_trace (wlan_send (d_io d) (w_trace w) (data_frame_for s (d_ieee80211 d) (contents b))).1
      (with_daemon (with_ieee80211 (ieee80211_state_next_sequence_number (d_ieee80211 d)).2
         (with_awdl (count f sent) d)) w).

Lemma after_send_ok `{IoEnv} `{Radiotap} f b w P q :
  daemon_ok (w_daemon w) P q → daemon_ok (w_daemon (after_send f b w)) P q.
Proof.
  intros Hd. unfold after_send. destruct (b_len b <? 14); simpl.
  - eapply daemon_ok_awdl; [done|]. apply state_ok_count, Hd.
  - apply daemon_ok_ieee; [|apply ieee_next_ok, Hd]. eapply daemon_ok_awdl; [done|].
    apply state_ok_count, state_ok_count, state_ok_seq; [apply Hd|apply u16_range].
Qed.
#[export] Hint Resolve after_send_ok : owl.

(** What happens to the rest of a world when a frame was sent. *)
Lemma send_data_world `{IoEnv} `{StackEnvOk} `{RadiotapOk} f b w P q {B}
    (k : awdl_state → ieee80211_state → trace → B) (g : world → B) :
  frame_ok b → daemon_ok (w_daemon w) P q →
  (∀ s i tr, k s i tr = g (with_trace tr (with_daemon (with_ieee80211 i
                         (with_awdl (count f s) (w_daemon w))) w))) →
  (r ← awdl_send_data b (d_io (w_daemon w)) (d_awdl (w_daemon w)) (d_ieee80211 (w_daemon w)) (w_trace w);
   let '(s, ieee, tr, _) := r in Done (k s ieee tr)) = Done (g (after_send f b w)).
Proof.
  intros Hb Hd Hk. rewrite (send_data_spec b _ _ _ _ P) by (done || apply Hd).
  unfold after_send. destruct (b_len b <? 14); [|destruct (wlan_send _ _ _)];
    cbn [mbind outcome_bind]; rewrite Hk; done.
Qed.

(** ** Unicast frames *)

Definition dst_of (b : buf) : ether_addr := take 6 (contents b).

Definition drop_next (w : world) : world := with_daemon (with_next None (w_daemon w)) w.

(** When to try again, from the result of the schedule. *)
Definition retry_after (guard : Z) (delay : Q) : Q :=
  if Qle_bool 0 delay then delay else (- delay + usec_to_sec (ieee80211_tu_to_usec guard))%Q.

(** The cases of [awdl_send_unicast]: nothing to send, a frame to the node
    itself, to an unknown peer, to a peer that is reachable now, and to a peer
    that is not. *)
Inductive unicast_step `{IoEnv} `{Radiotap} (w : world) (P : gmap mkey awdl_peer) (now : Z) : world → Prop :=
  | unicast_idle :
      d_next (w_daemon w) = None → unicast_step w P now (emit FeedHost w)
  | unicast_loopback b :
      d_next (w_daemon w) = Some b → dst_of b = self_address (d_awdl (w_daemon w)) →
      unicast_step w P now (emit FeedHost (drop_next
        (with_trace (host_send (d_io (w_daemon w)) (w_trace w) (contents b)).1 w)))
  | unicast_drop b :
      d_next (w_daemon w) = Some b → dst_of b ≠ self_address (d_awdl (w_daemon w)) →
      P !! dst_of b = None →
      unicast_step w P now (emit FeedHost (drop_next w))
  | unicast_send b peer delay :
      d_next (w_daemon w) = Some b → dst_of b ≠ self_address (d_awdl (w_daemon w)) →
      P !! dst_of b = Some peer →
      awdl_can_send_unicast_in (d_awdl (w_daemon w)) peer now AWDL_UNICAST_GUARD_TU = Some delay →
      (delay == 0)%Q →
      unicast_step w P now (emit FeedHost (drop_next (after_send incr_tx_unicast b w)))
  | unicast_wait b peer delay :
      d_next (w_daemon w) = Some b → dst_of b ≠ self_address (d_awdl (w_daemon w)) →
      P !! dst_of b = Some peer →
      awdl_can_send_unicast_in (d_awdl (w_daemon w)) peer now AWDL_UNICAST_GUARD_TU = Some delay →
      ¬ (delay == 0)%Q →
      unicast_step w P now
        (emit (TimerStart TX_TIMER (retry_after AWDL_UNICAST_GUARD_TU delay) 0) w).

Lemma unicast_step_ok `{IoEnv} `{Radiotap} w P now w' q :
  daemon_ok (w_daemon w) P q → unicast_step w P now w' → daemon_ok (w_daemon w') P q.
Proof. intros Hd []; simpl; try (apply daemon_ok_next; [|done]); auto with owl. Qed.

Lemma retry_after_pos guard delay : 0 <= guard <= 64 → ¬ (delay == 0)%Q → (0 < retry_after guard delay)%Q.
Proof.
  intros Hg Hd. unfold retry_after. destruct (Qle_bool 0 delay) eqn:E.
  - apply Qle_bool_iff in E. destruct (Qle_lt_or_eq _ _ E); [done|]. by destruct Hd.
  - assert (delay < 0)%Q as Hn.
    { apply Qnot_le_lt. intros Hl%Qle_bool_iff. congruence. }
    assert (0 <= usec_to_sec (ieee80211_tu_to_usec guard))%Q as Hu.
    { unfold usec_to_sec, Qle, ieee80211_tu_to_usec. simpl. pose proof (u64_range (1024 * u64 guard)).
      unfold is_u64 in *. lia. }
    lra.
Qed.

Lemma dst_of_spec b : frame_ok b → read_ether_addr b ETHER_DST_OFFSET = Some (6, Some (dst_of b)).
Proof.
  intros [W Hb]. rewrite read_ether_addr_spec by (done || (unfold ETHER_DST_OFFSET; int_lia)).
  unfold spec_read. rewrite contents_length by done. unfold ETHER_DST_OFFSET. by if_true.
Qed.

Lemma compare_dst a b : addr_ok a → addr_ok b → (compare_ether_addr a b =? 0) = bool_decide (a = b).
Proof.
  intros [Ha _] [Hb _]. unfold compare_ether_addr. case_bool_decide as E.
  - subst. by rewrite memcmp_refl.
  - apply Z.eqb_neq. intros Hm. apply E. apply memcmp_eq; [lia|done].
Qed.

Section unicast.
Context `{IoEnv} `{StackEnvOk} `{RadiotapOk}.

Lemma send_unicast_spec w P q now :
  daemon_ok (w_daemon w) P q → ∃ w', awdl_send_unicast w now = Done w' ∧ unicast_step w P now w'.
Proof.
  intros Hd. unfold awdl_send_unicast. destruct (d_next (w_daemon w)) as [b|] eqn:Hb.
  2: { cbn [mbind outcome_bind]. rewrite Hb. eexists. split; [done|]. by constructor. }
  pose proof (dok_next _ _ _ Hd b Hb) as Hf. unfold send_unicast_next.
  rewrite dst_of_spec by done. cbn [of_option mbind outcome_bind snd].
  rewrite compare_dst; [|split|apply Hd].
  2: { unfold dst_of. destruct Hf as [W Hl]. pose proof (contents_length b W). rewrite length_take. lia. }
  2: { apply Forall_take, contents_ok, Hf. }
  case_bool_decide as Eself.
  { rewrite load_window by apply Hf. cbn [of_option mbind outcome_bind].
    destruct (host_send _ _ _) as [tr rc] eqn:Hh. cbn [mbind outcome_bind].
    eexists. split; [reflexivity|]. pose proof (unicast_loopback w P now b Hb Eself) as Hu.
    by rewrite Hh in Hu. }
  pose proof (sok_peers _ _ (dok_state _ _ _ Hd)) as R. rewrite (peer_get_spec _ _ R).
  cbn [of_option mbind outcome_bind].
  destruct (to_map _ !! dst_of b) as [p|] eqn:Hp; cbn [fst snd].
  2: { change (PEERS_MISSING <? 0) with true. cbv iota. cbn [mbind outcome_bind].
       eexists. split; [reflexivity|]. apply (unicast_drop w P now b Hb Eself).
       rewrite (rep_peers _ _ R). by rewrite lookup_omap, Hp. }
  change (PEERS_OK <? 0) with false. cbv iota.
  destruct (rep_live _ _ R _ _ Hp) as [_ [peer Hpeer]]. rewrite Hpeer. cbn [of_option mbind outcome_bind].
  assert (P !! dst_of b = Some peer) as HP.
  { rewrite (rep_peers _ _ R), lookup_omap, Hp. done. }
  destruct (can_send_unicast_total (d_awdl (w_daemon w)) P (dst_of b) peer now) as [delay Hdelay];
    [apply Hd|by apply Hd|]. rewrite Hdelay. cbn [of_option mbind outcome_bind].
  destruct (Qeq_bool delay 0) eqn:E0.
  - rewrite (send_data_world incr_tx_unicast b w P q _ (λ w, (drop_next w, 0%Q))) by done.
    cbn [mbind outcome_bind]. eexists. split; [reflexivity|].
    apply (unicast_send w P now b peer delay); auto using Qeq_bool_eq.
  - apply Qeq_bool_neq in E0. pose proof (unicast_wait w P now b peer delay Hb Eself HP Hdelay E0) as Hu.
    unfold retry_after in Hu. destruct (Qle_bool 0 delay); cbn [negb mbind outcome_bind] in *;
      rewrite Hb; eauto.
Qed.
End unicast.

(** ** Multicast frames *)

(** Whether a multicast frame may be sent at [now], and when to try again. *)
Definition multicast_now (s : awdl_state) (now : Z) : Prop :=
  awdl_is_multicast_eaw s now = true ∧ (awdl_can_send_in s now AWDL_MULTICAST_GUARD_TU == 0)%Q.

Definition multicast_retry (s : awdl_state) (now : Z) : Q :=
  let delay := awdl_can_send_in s now AWDL_MULTICAST_GUARD_TU in
  if Qeq_bool delay 0 then usec_to_sec 65536 else retry_after AWDL_MULTICAST_GUARD_TU delay.

(** The cases of [awdl_send_multicast] on a queue of frames: it is empty, its
    oldest frame is sent, or sending waits.  [c] is the ring without its
    oldest frame. *)
Inductive multicast_step `{IoEnv} `{Radiotap} (w : world) (now : Z) :
    list buf → world → list buf → Prop :=
  | multicast_idle :
      multicast_step w now [] (emit FeedHost w) []
  | multicast_send b q c :
      multicast_now (d_awdl (w_daemon w)) now →
      rep c q → c_max c = c_max (d_queue (w_daemon w)) →
      multicast_step w now (b :: q)
        (emit (if decide (q = []) then FeedHost
               else TimerStart TX_MCAST_TIMER
                      (awdl_can_send_in (d_awdl (w_daemon w)) now AWDL_MULTICAST_GUARD_TU) 0)
           (let w' := after_send incr_tx_multicast b w in
            with_daemon (with_queue c (w_daemon w')) w'))
        q
  | multicast_wait b q :
      ¬ multicast_now (d_awdl (w_daemon w)) now →
      multicast_step w now (b :: q)
        (emit (TimerStart TX_MCAST_TIMER (multicast_retry (d_awdl (w_daemon w)) now) 0) w)
        (b :: q).

Lemma multicast_step_ok `{IoEnv} `{Radiotap} w P now q w' q' :
  daemon_ok (w_daemon w) P q → multicast_step w now q w' q' → daemon_ok (w_daemon w') P q'.
Proof.
  intros Hd Hs. destruct Hs; simpl; [done| |done].
  apply (daemon_ok_queue _ P (b :: q)); auto with owl.
  - rewrite H3. apply Hd.
  - pose proof (dok_frames _ _ _ Hd) as Hf. by inversion Hf.
Qed.

Lemma multicast_retry_pos s now : (0 < multicast_retry s now)%Q.
Proof.
  unfold multicast_retry. destruct (Qeq_bool _ 0) eqn:E; [done|].
  apply retry_after_pos; [unfold AWDL_MULTICAST_GUARD_TU; lia|by apply Qeq_bool_neq].
Qed.

Section multicast.
Context `{IoEnv} `{StackEnvOk} `{RadiotapOk}.

Lemma send_multicast_spec w P q now :
  daemon_ok (w_daemon w) P q →
  ∃ w' q', awdl_send_multicast w now = Done w' ∧ multicast_step w now q w' q'.
Proof.
  intros Hd. unfold awdl_send_multicast. rewrite (rep_empty _ _ (dok_queue _ _ _ Hd)).
  destruct q as [|b q].
  { cbn [c_bool mbind outcome_bind]. simpl. rewrite (rep_empty _ _ (dok_queue _ _ _ Hd)).
    exists (emit FeedHost w), []. split; [done|constructor]. }
  change (c_bool (bool_decide (b :: q = [])) =? 0) with true. cbv iota. unfold send_multicast_next.
  destruct (awdl_is_multicast_eaw _ now && Qeq_bool _ 0) eqn:Enow.
  - apply andb_prop in Enow as [Em Ez].
    destruct (rep_get _ _ false (dok_queue _ _ _ Hd)) as (c & -> & Hc & Hmax).
    cbn [spec_get fst snd of_option mbind outcome_bind] in *.
    rewrite (send_data_world incr_tx_multicast b w P (b :: q) _
      (λ w', (with_daemon (with_queue c (w_daemon w')) w',
              awdl_can_send_in (d_awdl (w_daemon w)) now AWDL_MULTICAST_GUARD_TU)));
      [|apply (Forall_cons_1 frame_ok b q), Hd|done|done].
    cbn [mbind outcome_bind w_daemon with_daemon with_queue d_queue]. rewrite (rep_empty _ _ Hc).
    eexists _, q. split; [|apply (multicast_send w now b q c); [split; [done|by apply Qeq_bool_eq]|done..]].
    case_bool_decide; case_decide; done.
  - eexists _, (b :: q). split.
    2: { apply multicast_wait. intros [Em Ez%Qeq_eq_bool]. by rewrite Em, Ez in Enow. }
    unfold multicast_retry, retry_after.
    destruct (Qeq_bool _ 0) eqn:Ez; [|destruct (Qle_bool 0 _)]; cbn [negb mbind outcome_bind];
      rewrite (rep_empty _ _ (dok_queue _ _ _ Hd)); done.
Qed.
End multicast.

(** ** Polling the host device *)

Definition is_multicast (f : list Z) : bool :=
  match f with first :: _ => has_flag first 0x01 | [] => false end.

(** What polling takes from the device when no unicast frame waits and the
    queue has [room]: the multicast frames, the unicast frame it stops at, and
    what is left.  An error, or a packet without an address, is consumed and
    stops it. *)
Fixpoint poll_spec (room : nat) (pending : list (Z + list Z)) :
    list (list Z) * option (list Z) * list (Z + list Z) :=
  match room, pending with
  | O, _ => ([], None, pending)
  | _, [] => ([], None, [])
  | _, inl _ :: rest => ([], None, rest)
  | S room, inr bs :: rest =>
      let f := take (Z.to_nat ETHER_MAX_LEN) bs in
      if (length f <? 6)%nat then ([], None, rest)
      else if is_multicast f then
        let '(ms, u, rest) := poll_spec room rest in (f :: ms, u, rest)
      else ([], Some f, rest)
  end.

Definition poll_flags (ms : list (list Z)) (u : option (list Z)) : Z :=
  Z.lor (match ms with [] => 0 | _ => POLL_NEW_MULTICAST end)
        (match u with None => 0 | Some _ => POLL_NEW_UNICAST end).

(** The buffer [f] was read into. *)
Lemma read_into f junk :
  bytes_ok f → bytes_ok junk → Z.of_nat (length junk) = ETHER_MAX_LEN → Z.of_nat (length f) <= ETHER_MAX_LEN →
  let b := (buf_take (mk_buf (f ++ drop (length f) junk) 0 0 ETHER_MAX_LEN true)
              (ETHER_MAX_LEN - Z.of_nat (length f))).1 in
  buf_wf b ∧ contents b = f ∧ b_len b = Z.of_nat (length f).
Proof.
  intros Hf Hj Hjl Hl. unfold ETHER_MAX_LEN in *.
  assert (buf_wf (mk_buf (f ++ drop (length f) junk) 0 0 1518 true)) as W.
  { constructor; simpl; [lia|int_lia|rewrite length_app, length_drop; lia|].
    apply Forall_app; split; [done|by apply Forall_drop]. }
  pose proof (contents_length _ W) as Hc. cbn [b_len] in Hc.
  destruct (buf_take_spec _ (1518 - Z.of_nat (length f)) W) as (b & -> & Wb & Hb); [lia|]. cbn [fst].
  assert (contents b = f) as Hcb.
  { rewrite Hb. replace (length _ - _)%nat with (length f) by lia.
    unfold contents. cbn [b_len b_data b_mem]. rewrite drop_0, take_take, Nat.min_l by lia.
    apply take_app_length. }
  split_and!; [done|done|]. by rewrite <- (contents_length b Wb), Hcb.
Qed.

Lemma poll_stop `{RxEnv} fuel w result :
  (is_Some (d_next (w_daemon w)) ∨ circular_buf_full (d_queue (w_daemon w)) ≠ 0) →
  poll_host_device (S fuel) w result = Done (w, result).
Proof.
  intros Hs. simpl. destruct (d_next (w_daemon w)); [done|].
  destruct Hs as [[? [=]]|Hs%Z.eqb_neq]. by rewrite Hs.
Qed.

Section poll.
Context `{RxEnvOk}.

(** One iteration with room in the queue: the device delivers nothing. *)
Lemma poll_no_packet fuel w result :
  d_next (w_daemon w) = None → circular_buf_full (d_queue (w_daemon w)) = 0 →
  match w_pending w with inr _ :: _ => host_fd (d_io (w_daemon w)) = 0 | inl e :: _ => read_ok (inl e) | [] => True end →
  poll_host_device (S fuel) w result =
    Done (mk_world (w_daemon w) (w_trace w)
      (if host_fd (d_io (w_daemon w)) =? 0 then w_pending w else tail (w_pending w)), result).
Proof.
  intros Hn Hfull Hp. cbn [poll_host_device]. rewrite Hn, Hfull.
  change (negb (0 =? 0)) with false. cbv iota. unfold buf_new_owned.
  change (ETHER_MAX_LEN <? 0) with false. cbv iota. cbn [of_option mbind outcome_bind].
  unfold host_recv. destruct (host_fd _ =? 0) eqn:Hfd; [done|].
  destruct (w_pending w) as [|[e|bs] rest]; [done| |by rewrite Hp in Hfd].
  simpl in Hp. by replace (- e <? 0) with true by lia.
Qed.

(** One iteration with room in the queue and a packet [bs] on the device. *)
Lemma poll_packet fuel w result bs rest :
  d_next (w_daemon w) = None → circular_buf_full (d_queue (w_daemon w)) = 0 →
  host_fd (d_io (w_daemon w)) ≠ 0 → w_pending w = inr bs :: rest → bytes_ok bs →
  let f := take (Z.to_nat ETHER_MAX_LEN) bs in
  let w1 := mk_world (w_daemon w) (w_trace w) rest in
  if (length f <? 6)%nat then poll_host_device (S fuel) w result = Done (w1, result)
  else ∃ b, frame_ok b ∧ contents b = f ∧
    poll_host_device (S fuel) w result =
      if is_multicast f then
        q ← of_option (circular_buf_put (d_queue (w_daemon w)) b);
        poll_host_device fuel (with_daemon (with_queue q (w_daemon w)) w1) (Z.lor result POLL_NEW_MULTICAST)
      else poll_host_device fuel (with_daemon (with_next (Some b) (w_daemon w)) w1) (Z.lor result POLL_NEW_UNICAST).
Proof.
  intros Hn Hfull Hfd%Z.eqb_neq Hp Hbs f w1. cbn [poll_host_device]. rewrite Hn, Hfull.
  change (negb (0 =? 0)) with false. cbv iota.
  destruct (junk_block_ok ETHER_MAX_LEN) as [Hjl Hj]; [done|].
  unfold buf_new_owned. change (ETHER_MAX_LEN <? 0) with false. cbv iota. cbn [of_option mbind outcome_bind].
  unfold host_recv. rewrite Hfd, Hp. cbn [b_mem b_len buf_len]. fold f.
  change (0 <? 0) with false. cbv iota.
  assert (length f <= Z.to_nat ETHER_MAX_LEN)%nat as Hf by (unfold f; rewrite length_take; lia).
  destruct (read_into f (junk_block ETHER_MAX_LEN)) as (Wb & Hcb & Hlb);
    [by apply Forall_take|done|done|unfold ETHER_MAX_LEN in *; lia|].
  unfold set_mem, buf_len. cbn [b_orig b_data b_len b_owned]. set (b := (buf_take _ _).1) in *. clearbody b.
  rewrite read_ether_addr_spec by (done || (unfold ETHER_DST_OFFSET; int_lia)).
  unfold spec_read, ETHER_DST_OFFSET. rewrite Hcb. cbn [of_option mbind outcome_bind].
  destruct (length f <? 6)%nat eqn:E6; [by if_false|].
  exists b. split; [split; [done|unfold ETHER_MAX_LEN in *; lia]|]. split; [done|].
  if_true. cbn [fst snd]. change (6 <? 0) with false. cbv iota. cbn [of_option mbind outcome_bind].
  clearbody f. destruct f as [|x f]; [done|]. done.
Qed.

(** That polling from [w] with the queue [q] had the outcome [r], when the
    frames [msb] and [ub] were taken and [rest] is left. *)
Definition poll_post (w : world) (P : gmap mkey awdl_peer) (q : list buf) (result : Z)
    (out : list (list Z) * option (list Z) * list (Z + list Z)) (r : outcome (world * Z)) : Prop :=
  let '(msb, ub, rest) := out in
  ∃ ms nb c,
    r = Done (mk_world (with_next nb (with_queue c (w_daemon w))) (w_trace w) rest,
              Z.lor result (poll_flags msb ub)) ∧
    daemon_ok (with_next nb (with_queue c (w_daemon w))) P (q ++ ms) ∧
    contents <$> ms = msb ∧ contents <$> nb = ub.

Lemma poll_post_stop w P q result rest :
  daemon_ok (w_daemon w) P q → d_next (w_daemon w) = None →
  poll_post w P q result ([], None, rest) (Done (mk_world (w_daemon w) (w_trace w) rest, result)).
Proof.
  intros Hd Hn. exists [], None, (d_queue (w_daemon w)).
  assert (with_next None (with_queue (d_queue (w_daemon w)) (w_daemon w)) = w_daemon w) as ->
    by (destruct w as [[] ? ?]; simpl in *; by rewrite Hn).
  by rewrite app_nil_r, Z.lor_0_r.
Qed.

(** A frame that was queued first. *)
Lemma poll_post_cons w P q result b c rest0 msb ub rest r :
  poll_post (mk_world (with_queue c (w_daemon w)) (w_trace w) rest0) P (q ++ [b])
    (Z.lor result POLL_NEW_MULTICAST) (msb, ub, rest) r →
  poll_post w P q result (contents b :: msb, ub, rest) r.
Proof.
  intros (ms & nb & c' & -> & Hd & <- & <-). exists (b :: ms), nb, c'.
  rewrite <- app_assoc in Hd. split; [|done].
  rewrite <- Z.lor_assoc. do 2 f_equal. unfold poll_flags. by destruct ms, nb.
Qed.

Lemma poll_correct fuel w P q result :
  daemon_ok (w_daemon w) P q → host_fd (d_io (w_daemon w)) ≠ 0 → Forall read_ok (w_pending w) →
  d_next (w_daemon w) = None → (18 <= fuel + length q)%nat →
  poll_post w P q result (poll_spec (16 - length q) (w_pending w)) (poll_host_device fuel w result).
Proof.
  revert w q result. induction fuel as [|fuel IH]; intros w q result Hd Hfd Hr Hn Hfuel;
    pose proof (dok_queue _ _ _ Hd) as R; pose proof (rep_len _ _ R) as Hlen;
    rewrite (dok_cap _ _ _ Hd) in Hlen; [lia|].
  assert (circular_buf_full (d_queue (w_daemon w)) = c_bool (Z.of_nat (length q) =? 16)) as Hfull.
  { unfold circular_buf_full. by rewrite (rep_full _ _ R), (dok_cap _ _ _ Hd). }
  destruct (16 - length q)%nat as [|room] eqn:Hroom.
  { rewrite poll_stop; [|right; rewrite Hfull; unfold c_bool; by if_true].
    pose proof (poll_post_stop w P q result (w_pending w) Hd Hn) as Hs. by destruct w. }
  replace (Z.of_nat (length q) =? 16) with false in Hfull by lia. change (c_bool false) with 0 in Hfull.
  destruct (w_pending w) as [|[errno|bs] rest] eqn:Hp.
  1,2: rewrite (poll_no_packet fuel w result) by (done || rewrite Hp; done || by inversion Hr);
    rewrite Hp, (proj2 (Z.eqb_neq _ _) Hfd); by apply poll_post_stop.
  apply Forall_cons in Hr as [Hbs Hr]. pose proof (poll_packet fuel w result bs rest Hn Hfull Hfd Hp Hbs) as Hpk.
  cbn [poll_spec]. set (f := take _ bs) in *. cbv zeta in Hpk.
  destruct (length f <? 6)%nat; [rewrite Hpk; by apply poll_post_stop|].
  destruct Hpk as (b & Hb & <- & ->). destruct (is_multicast (contents b)).
  - destruct (rep_put _ _ b R) as (c & -> & Hc & Hmax). cbn [of_option mbind outcome_bind].
    unfold spec_put in Hc. rewrite (dok_cap _ _ _ Hd) in Hc, Hmax. replace (_ =? 16) with false in Hc by lia.
    specialize (IH (mk_world (with_queue c (w_daemon w)) (w_trace w) rest) (q ++ [b])
      (Z.lor result POLL_NEW_MULTICAST)). rewrite length_app in IH. simpl in IH.
    replace (16 - (length q + 1))%nat with room in IH by lia.
    destruct (poll_spec room rest) as [[msb ub] rest'].
    apply (poll_post_cons w P q result b c rest). apply IH; try done; [|lia].
    apply (daemon_ok_queue _ P q); try done. apply Forall_app; split; [apply Hd|by constructor].
  - destruct fuel as [|fuel]; [lia|]. rewrite poll_stop by (left; by eexists).
    exists [], (Some b), (d_queue (w_daemon w)). rewrite app_nil_r. split; [|split; [|done]].
    + by destruct w as [[] ? ?].
    + apply daemon_ok_next; [|by intros ? [= <-]]. apply (daemon_ok_queue _ P q); done || apply Hd.
Qed.
End poll.

(** ** A concrete daemon *)

Definition sample_io_env : IoEnv := {|
  pcap_inject_result := λ _ bs, Z.of_nat (length bs);
  write_result := λ _ bs, Z.of_nat (length bs) |}.

Definition sample_stack : StackEnv := replicate (Z.to_nat 65535) 0.

Lemma sample_stack_ok : @StackEnvOk sample_stack.
Proof. unfold StackEnvOk, stack_block, sample_stack. by rewrite length_replicate. Qed.

Definition sample_io : io_state := mk_io 1 [119] 3 [97] 4 [0; 1; 2; 3; 4; 5] 6 5 false false.

(** A ring of sixteen buffers, with [q] in its first places. *)
Definition sample_ring (q : list buf) : circular_buf buf :=
  mk_cbuf (q ++ replicate (16 - length q) (buf_of [])) (Z.of_nat (length q) mod 16) 0 16
    (c_bool (Z.of_nat (length q) =? 16)).

Lemma sample_ring_rep q : (length q <= 16)%nat → rep (sample_ring q) q.
Proof.
  intros Hq. constructor; unfold sample_ring; cbn [c_buffer c_head c_tail c_max c_full]; try lia; try done.
  - rewrite length_app, length_replicate. lia.
  - intros i x Hi. rewrite Z.mod_small by (apply lookup_lt_Some in Hi; lia).
    rewrite Z.add_0_l, Nat2Z.id. by apply lookup_app_l_Some.
Qed.

Definition sample_daemon (next : option buf) (q : list buf) : daemon_state :=
  mk_daemon sample_io receiver ieee80211_init_state next (sample_ring q) false.

Lemma sample_daemon_ok next q :
  (length q <= 16)%nat → Forall frame_ok q → (∀ b, next = Some b → frame_ok b) →
  daemon_ok (sample_daemon next q) {[sample_key := sample_peer]} q.
Proof.
  intros Hq Hf Hn. constructor.
  - exact receiver_ok.
  - split; reflexivity || discriminate.
  - apply (sample_ring_rep q Hq).
  - reflexivity.
  - exact Hf.
  - exact Hn.
Qed.

(** A frame to the peer of [receiver], one to an unknown station, one to all. *)
Definition sample_unicast : list Z := sample_key ++ [0; 1; 2; 3; 4; 5; 0x86; 0xdd; 7; 7; 7; 7].
Definition sample_other : list Z := [2; 2; 2; 2; 2; 2; 0; 1; 2; 3; 4; 5; 0x86; 0xdd; 9].
Definition sample_multicast : list Z := [0x33; 0x33; 0; 0; 0; 1; 0; 1; 2; 3; 4; 5; 0x86; 0xdd; 9; 9].

Lemma sample_unicast_ok : frame_ok (buf_of sample_unicast).
Proof. split; [apply buf_of_wf; [solve_list|simpl; int_lia]|simpl; unfold ETHER_MAX_LEN; lia]. Qed.
Lemma sample_multicast_ok : frame_ok (buf_of sample_multicast).
Proof. split; [apply buf_of_wf; [solve_list|simpl; int_lia]|simpl; unfold ETHER_MAX_LEN; lia]. Qed.

(** ** Properties *)

(** C18: polling the host device ends after at most one read per free place of
    the queue, one for a unicast frame and one that finds nothing: it queues
    the multicast frames in the order they were read, stops at the first
    unicast frame, which it holds back, and at an error or a packet without
    an address, and reports what it found; no frame in the queue is lost. *)
Theorem poll_host_device_spec `{RxEnvOk} w P q :
  daemon_ok (w_daemon w) P q → host_fd (d_io (w_daemon w)) ≠ 0 → Forall read_ok (w_pending w) →
  d_next (w_daemon w) = None →
  let '(msb, ub, rest) := poll_spec (16 - length q) (w_pending w) in
  ∃ ms nb c,
    poll_host_device (poll_fuel (w_daemon w)) w 0 =
      Done (mk_world (with_next nb (with_queue c (w_daemon w))) (w_trace w) rest, poll_flags msb ub) ∧
    daemon_ok (with_next nb (with_queue c (w_daemon w))) P (q ++ ms) ∧
    contents <$> ms = msb ∧ contents <$> nb = ub.
Proof.
  intros Hd Hfd Hr Hn. unfold poll_fuel, circular_buf_capacity. rewrite (dok_cap _ _ _ Hd).
  pose proof (poll_correct (Z.to_nat 16 + 2) w P q 0 Hd Hfd Hr Hn ltac:(lia)) as Hp.
  destruct (poll_spec _ _) as [[msb ub] rest]. destruct Hp as (ms & nb & c & Hp).
  rewrite Z.lor_0_l in Hp. by exists ms, nb, c.
Qed.

Lemma poll_host_device_spec_witness :
  let w := mk_world (sample_daemon None []) [] [inr sample_multicast; inr sample_other; inl 11] in
  ∃ ms nb c,
    @poll_host_device sample_rx_env (poll_fuel (w_daemon w)) w 0 =
      Done (mk_world (with_next nb (with_queue c (w_daemon w))) [] [inl 11], 3) ∧
    contents <$> ms = [sample_multicast] ∧ contents <$> nb = Some sample_other.
Proof.
  intros w. destruct (@poll_host_device_spec sample_rx_env sample_rx_env_ok w {[sample_key := sample_peer]} [])
    as (ms & nb & c & Hp & _ & Hm & Hu).
  - apply sample_daemon_ok; [simpl; lia|constructor|discriminate].
  - discriminate.
  - repeat constructor; try done; solve_list.
  - reflexivity.
  - exists ms, nb, c. split; [exact Hp|]. split; [exact Hm|exact Hu].
Defined.

Lemma unicast_step_det `{IoEnv} `{Radiotap} w P now w1 w2 :
  unicast_step w P now w1 → unicast_step w P now w2 → w1 = w2.
Proof. intros [] []; congruence. Qed.

(** C16: [awdl_send_unicast] does with the frame held back exactly what
    [unicast_step] says, and keeps the invariant: a frame to the node itself
    goes to the host, a frame to an unknown address is dropped, a frame to a
    peer is injected as one data frame when the schedule allows it, and
    otherwise kept, the timer being armed with a positive delay; whenever no
    frame is left the host device is polled again. *)
Theorem unicast_handled `{IoEnv} `{StackEnvOk} `{RadiotapOk} w P q now :
  daemon_ok (w_daemon w) P q →
  ∃ w', awdl_send_unicast w now = Done w' ∧ daemon_ok (w_daemon w') P q ∧
    (∀ w'', unicast_step w P now w'' ↔ w'' = w') ∧
    match d_next (w_daemon w') with
    | Some _ => ∃ after, (0 < after)%Q ∧ w' = emit (TimerStart TX_TIMER after 0) w
    | None => last (w_trace w') = Some FeedHost
    end.
Proof.
  intros Hd. destruct (send_unicast_spec w P q now Hd) as (w' & Hw & Hs). exists w'. split; [done|].
  split; [by eapply unicast_step_ok|]. split.
  { intros w''. split; [intros Hs'; by eapply unicast_step_det|by intros ->]. }
  destruct Hs as [Hn|b Hb _|b Hb _ _|b peer delay Hb|b peer delay Hb _ _ _ Hz].
  1-4: cbn; rewrite ?Hn; cbn; by rewrite last_snoc.
  cbn. rewrite Hb. eexists. split; [|done]. apply retry_after_pos; [unfold AWDL_UNICAST_GUARD_TU; lia|done].
Qed.

Lemma unicast_handled_witness :
  let w := mk_world (sample_daemon (Some (buf_of sample_unicast)) []) [] [] in
  @awdl_send_unicast sample_io_env sample_stack rt_standard w 20000 =
    Done (emit (TimerStart TX_TIMER (usec_to_sec 45536) 0) w).
Proof.
  intros w.
  destruct (@unicast_handled sample_io_env sample_stack sample_stack_ok rt_standard rt_standard_ok
    w {[sample_key := sample_peer]} [] 20000) as (w' & Hw & _ & Hu & _).
  - apply sample_daemon_ok; [simpl; lia|constructor|]. intros b Hb. injection Hb as <-. exact sample_unicast_ok.
  - rewrite Hw. f_equal. symmetry. apply Hu.
    apply (@unicast_wait sample_io_env rt_standard w {[sample_key := sample_peer]} 20000
      (buf_of sample_unicast) sample_peer (usec_to_sec 45536)).
    + reflexivity.
    + discriminate.
    + apply lookup_singleton_eq.
    + vm_compute. reflexivity.
    + discriminate.
Defined.

(** [awdl_send_multicast] serves the queue in order: in a multicast
    window, outside its guard intervals, the oldest frame leaves the queue
    and is injected as one data frame; otherwise nothing changes and the
    timer is armed with a positive delay; an empty queue is filled by polling
    the host device. *)
Theorem multicast_handled `{IoEnv} `{StackEnvOk} `{RadiotapOk} w P q now :
  daemon_ok (w_daemon w) P q →
  ∃ w' q', awdl_send_multicast w now = Done w' ∧ multicast_step w now q w' q' ∧
    daemon_ok (w_daemon w') P q' ∧
    (multicast_now (d_awdl (w_daemon w)) now → q' = tail q) ∧
    (¬ multicast_now (d_awdl (w_daemon w)) now → q ≠ [] →
       ∃ after, (0 < after)%Q ∧ w' = emit (TimerStart TX_MCAST_TIMER after 0) w).
Proof.
  intros Hd. destruct (send_multicast_spec w P q now Hd) as (w' & q' & Hw & Hs). exists w', q'.
  split; [done|]. split; [done|]. split; [by eapply multicast_step_ok|].
  destruct Hs as [|b q c Hm|b q Hm]; (split; [try done|]); intros Hn; try done.
  intros _. eexists. split; [apply multicast_retry_pos|done].
Qed.
