(* ===== verification/DaemonTimers.v ===== *)
(** * DaemonTimers: the periodic work of the daemon (src/daemon/core.c)

    The handlers of the timers for master indication and periodic
    synchronisation frames, channel switching and the clean-up of the peer
    table: what they do to the state and the outside, and when they run
    again. *)

From Stdlib Require Import ZArith QArith Lia ZifyBool.
From stdpp Require Import base tactics numbers list gmap.
From S2P Require Import Prelude Wire CircularBuffer HashMap Sync Channel Election Peers ElectionRun.
From S2P Require Import State Schedule Frame Radiotap Tx Rx Io Daemon DaemonRun.

Local Open Scope Z_scope.

Local Ltac Zify.zify_post_hook ::= Z.div_mod_to_equations.

(** ** Action frames *)

(** The frame [awdl_send_action] sends. *)
Definition action_frame_for `{Radiotap} (s : awdl_state) (ieee : ieee80211_state) (name : list Z)
    (type now1 now2 : Z) : list Z :=
  with_fcs (ieee_fcs ieee) (action_frame s name (ieee_sequence_number ieee) type now1 now2).

Section action.
Context `{IoEnv} `{StackEnvOk} `{RadiotapOk}.

Lemma send_action_spec w P q type now1 now2 :
  daemon_ok (w_daemon w) P q →
  let d := w_daemon w in
  ∃ name, name_is (d_awdl d) name ∧ (length name <= 64)%nat ∧
    awdl_send_action w type now1 now2 =
      Done (with_trace
        (wlan_send (d_io d) (w_trace w)
           (action_frame_for (d_awdl d) (d_ieee80211 d) name type now1 now2)).1
        (with_daemon (with_awdl (count incr_tx_action (d_awdl d))
           (with_ieee80211 (ieee80211_state_next_sequence_number (d_ieee80211 d)).2 d)) w)).
Proof.
  intros Hd d. pose proof (dok_state _ _ _ Hd) as Hs.
  destruct (name_exists _ _ Hs) as (name & Hn & Hl). exists name. split; [done|]. split; [done|].
  unfold awdl_send_action. fold d.
  destruct (init_full_action_frame_spec (d_awdl d) P name stack_block (d_ieee80211 d) type now1 now2
    Hs Hn Hl) as [-> _]; [rewrite stack_length; lia|].
  fold (action_frame_for (d_awdl d) (d_ieee80211 d) name type now1 now2).
  set (f := action_frame_for _ _ _ _ _ _). clearbody f. cbn [of_option mbind outcome_bind].
  if_false. rewrite load_Some by (rewrite ?length_app; lia). rewrite Nat2Z.id, drop_0, take_app_length.
  cbn [of_option mbind outcome_bind]. by destruct (wlan_send _ _ f).
Qed.

Lemma send_action_ok w P q type now1 now2 :
  daemon_ok (w_daemon w) P q →
  ∃ w', awdl_send_action w type now1 now2 = Done w' ∧ daemon_ok (w_daemon w') P q ∧
    w_pending w' = w_pending w.
Proof.
  intros Hd. destruct (send_action_spec w P q type now1 now2 Hd) as (name & _ & _ & ->).
  eexists. split; [done|]. split; [|done]. simpl.
  eapply daemon_ok_awdl; [apply daemon_ok_ieee; [done|apply ieee_next_ok, Hd]|].
  apply state_ok_count, Hd.
Qed.
End action.

Lemma sec_usec_mid z : 0 <= z <= 131072 → sec_to_usec (usec_to_sec z) = z.
Proof. intros. apply sec_usec. int_lia. Qed.

(** Half a window after the start of the next one is its middle. *)
Lemma next_eaw_middle now s :
  sync_ok (st_sync s) → elapsed now (st_sync s) + 131072 < 2 ^ 64 →
  let t := u64 (now + (awdl_sync_next_aw_us now (st_sync s) + 32768)) in
  in_eaw t s = 32768 ∧
  awdl_sync_current_eaw t (st_sync s) = (awdl_sync_current_eaw now (st_sync s) + 1) mod 16384.
Proof.
  intros Hs Hlt t. subst t. pose proof (Z.mod_pos_bound (elapsed now (st_sync s)) 65536 ltac:(lia)).
  unfold in_eaw. rewrite !current_eaw_eq, next_aw_us_eq, elapsed_add by (done || rewrite ?next_aw_us_eq by done; lia).
  destruct Hs as [_ _ Hc Ha _]. unfold u16, is_u16 in *.
  change (2 ^ 16) with 65536 in *. pose proof (elapsed_range now (st_sync s)) as He. unfold is_u64 in He.
  set (x := elapsed now (st_sync s)) in *. set (c := aw_counter (st_sync s)) in *. clearbody x c.
  clear Hlt He. split; lia.
Qed.

Section mif.
Context `{IoEnv} `{StackEnvOk} `{RadiotapOk}.

(** The delay [awdl_send_mif] asks for, in microseconds. *)
Lemma mif_delay now s : sync_ok (st_sync s) →
  u64 (awdl_sync_next_aw_us now (st_sync s) +
       ieee80211_tu_to_usec (presence_mode (st_sync s) * aw_period (st_sync s) / 2)) =
  awdl_sync_next_aw_us now (st_sync s) + 32768.
Proof.
  intros Hs. rewrite (ok_period _ Hs), (ok_mode _ Hs), next_aw_in_eaw by done.
  change (ieee80211_tu_to_usec (4 * 16 / 2)) with 32768. pose proof (in_eaw_range now s).
  apply u64_id. int_lia.
Qed.

Lemma send_mif_ok w P q now now1 now2 :
  daemon_ok (w_daemon w) P q →
  ∃ w', awdl_send_mif w now now1 now2 = Done w' ∧ daemon_ok (w_daemon w') P q ∧ w_pending w' = w_pending w.
Proof.
  intros Hd. unfold awdl_send_mif. destruct (awdl_chan_num _ _ >? 0).
  - destruct (send_action_ok w P q AWDL_ACTION_MIF now1 now2 Hd) as (w' & -> & Hd' & Hp). eauto.
  - eauto.
Qed.

(** C26: [awdl_send_mif] sends one master indication frame with the current
    state of the node if it is tuned to a channel and none otherwise, and
    runs again in the middle of the next extended availability window. *)
Theorem mif_in_mid_window w P q now now1 now2 :
  daemon_ok (w_daemon w) P q →
  let d := w_daemon w in
  let s := d_awdl d in
  elapsed now (st_sync s) + 131072 < 2 ^ 64 →
  ∃ w' name after, awdl_send_mif w now now1 now2 = Done w' ∧ name_is s name ∧
    w_trace w' =
      (if awdl_chan_num (ch_current (st_channel s)) (ch_enc (st_channel s)) >? 0
       then (wlan_send (d_io d) (w_trace w)
               (action_frame_for s (d_ieee80211 d) name AWDL_ACTION_MIF now1 now2)).1
       else w_trace w) ++ [TimerStart MIF_TIMER after 0] ∧
    let t := u64 (now + sec_to_usec after) in
    in_eaw t s = 32768 ∧
    awdl_sync_current_eaw t (st_sync s) = (awdl_sync_current_eaw now (st_sync s) + 1) mod 16384.
Proof.
  intros Hd d s Hlt. unfold awdl_send_mif. fold d. fold s.
  assert (sync_ok (st_sync s)) as Hs by apply Hd. rewrite mif_delay by done.
  destruct (send_action_spec w P q AWDL_ACTION_MIF now1 now2 Hd) as (name & Hn & _ & Ha).
  pose proof (in_eaw_range now s) as Hr.
  assert (∀ w0, ∃ after, ev_timer_rearm MIF_TIMER
      (usec_to_sec (awdl_sync_next_aw_us now (st_sync s) + 32768)) w0 =
      emit (TimerStart MIF_TIMER after 0) w0 ∧
    let t := u64 (now + sec_to_usec after) in
    in_eaw t s = 32768 ∧
    awdl_sync_current_eaw t (st_sync s) = (awdl_sync_current_eaw now (st_sync s) + 1) mod 16384) as Ht.
  { intros w0. eexists. split; [done|]. rewrite sec_usec_mid by (rewrite next_aw_in_eaw by done; lia).
    by apply next_eaw_middle. }
  destruct (awdl_chan_num _ _ >? 0).
  - rewrite Ha. cbn [mbind outcome_bind]. set (w1 := with_trace _ _). destruct (Ht w1) as (after & -> & Hm).
    exists (emit (TimerStart MIF_TIMER after 0) w1), name, after. done.
  - cbn [mbind outcome_bind]. destruct (Ht w) as (after & -> & Hm).
    exists (emit (TimerStart MIF_TIMER after 0) w), name, after. done.
Qed.
End mif.

(** ** Channel switching *)

Definition slot_at (now : Z) (s : awdl_state) : Z :=
  awdl_sync_current_eaw now (st_sync s) mod Z.of_nat AWDL_CHANSEQ_LENGTH.

(** The node tuned to [chan]. *)
Definition tuned (chan : awdl_chan) (s : awdl_state) : awdl_state :=
  let ch := st_channel s in
  with_channel (mk_channel (ch_enc ch) (ch_sequence ch) (ch_master ch) chan) s.

Lemma state_ok_tuned s P chan : state_ok s P → chan_ok chan → state_ok (tuned chan s) P.
Proof.
  intros [] Hc. constructor; try done. simpl in *.
  apply Forall_cons. by apply Forall_cons in sok_channels as [_ ?].
Qed.

Lemma slot_chan s P now : state_ok s P →
  ∃ chan, ch_sequence (st_channel s) !! Z.to_nat (slot_at now s) = Some chan ∧ chan_ok chan.
Proof.
  intros Hs. destruct (lookup_lt_is_Some_2 (ch_sequence (st_channel s)) (Z.to_nat (slot_at now s))) as [chan Hc].
  { rewrite (sok_sequence _ _ Hs). unfold slot_at, AWDL_CHANSEQ_LENGTH.
    pose proof (Z.mod_pos_bound (awdl_sync_current_eaw now (st_sync s)) (Z.of_nat 16) ltac:(lia)). lia. }
  exists chan. split; [done|]. pose proof (sok_channels _ _ Hs) as Hf.
  rewrite !Forall_cons in Hf. destruct Hf as (_ & _ & Hf). by apply (Forall_lookup_1 _ _ _ _ Hf Hc).
Qed.

Lemma switch_channel_spec w P q now :
  daemon_ok (w_daemon w) P q →
  let d := w_daemon w in
  let s := d_awdl d in
  let num := λ c, awdl_chan_num c (ch_enc (st_channel s)) in
  ∃ chan, ch_sequence (st_channel s) !! Z.to_nat (slot_at now s) = Some chan ∧ chan_ok chan ∧
    let change := negb (num chan =? 0) && negb (num chan =? num (ch_current (st_channel s))) in
    awdl_switch_channel w now = Done (mk_world
      (if change then with_awdl (tuned chan s) d else d)
      (w_trace w ++
       (if change && negb (wlan_is_file (d_io d))
        then [ChannelCheck (wlan_ifindex (d_io d)) (num chan); ChannelSet (wlan_ifindex (d_io d)) (num chan)]
        else []) ++ [TimerStart CHAN_TIMER (usec_to_sec (awdl_sync_next_aw_us now (st_sync s))) 0])
      (w_pending w)).
Proof.
  intros Hd d s num. destruct (slot_chan s P now) as (chan & Hc & Hok); [apply Hd|].
  exists chan. split; [done|]. split; [done|]. intros change. unfold awdl_switch_channel.
  fold d. fold s. unfold slot_at in Hc. rewrite Hc. cbn [of_option mbind outcome_bind].
  fold (num chan). fold (num (ch_current (st_channel s))). fold change.
  destruct change; [destruct (wlan_is_file (d_io d))|]; cbn [andb negb]; try done.
  unfold ev_timer_rearm, emit, with_trace, with_daemon, tuned. cbn [w_daemon w_trace w_pending].
  by rewrite <- !app_assoc.
Qed.

(** C20: [awdl_switch_channel] keeps the node on the channel its sequence has
    for the current extended window: afterwards it is tuned to that channel,
    or where it was if the slot is empty; the radio is told exactly when the
    channel number changes; nothing else changes; and it runs again at the
    very start of the next extended window, which has the next slot. *)
Theorem switch_channel_follows_sequence w P q now :
  daemon_ok (w_daemon w) P q →
  let d := w_daemon w in
  let s := d_awdl d in
  let num := λ c, awdl_chan_num c (ch_enc (st_channel s)) in
  elapsed now (st_sync s) + 65536 < 2 ^ 64 →
  ∃ w' chan after,
    awdl_switch_channel w now = Done w' ∧
    ch_sequence (st_channel s) !! Z.to_nat (slot_at now s) = Some chan ∧
    (w_daemon w' = d ∨ w_daemon w' = with_awdl (tuned chan s) d) ∧
    num (ch_current (st_channel (d_awdl (w_daemon w')))) =
      (if num chan =? 0 then num (ch_current (st_channel s)) else num chan) ∧
    w_trace w' = w_trace w ++
      (if decide (num (ch_current (st_channel (d_awdl (w_daemon w')))) ≠ num (ch_current (st_channel s)) ∧
                  wlan_is_file (d_io d) = false)
       then [ChannelCheck (wlan_ifindex (d_io d)) (num chan); ChannelSet (wlan_ifindex (d_io d)) (num chan)]
       else []) ++ [TimerStart CHAN_TIMER after 0] ∧
    let t := u64 (now + sec_to_usec after) in
    in_eaw t s = 0 ∧ slot_at t s = (slot_at now s + 1) mod 16.
Proof.
  intros Hd d s num Hlt. destruct (switch_channel_spec w P q now Hd) as (chan & Hc & _ & ->).
  fold d. fold s. fold (num chan). fold (num (ch_current (st_channel s))).
  assert (sync_ok (st_sync s)) as Hs by apply Hd. pose proof (in_eaw_range now s).
  eexists _, chan, _. split; [done|]. split; [done|]. cbn [w_daemon w_trace].
  split; [destruct (_ && _); auto|].
  assert (∀ b : bool, num (ch_current (st_channel (d_awdl (if b then with_awdl (tuned chan s) d else d)))) =
    if b then num chan else num (ch_current (st_channel s))) as Hnum by by intros [].
  rewrite Hnum. split; [split_ifs; lia|]. split.
  - do 2 f_equal. generalize (num (ch_current (st_channel s))). generalize (num chan). clear. intros a b.
    destruct (a =? 0) eqn:Ea, (a =? b) eqn:Eb, (wlan_is_file (d_io d)); simpl; case_decide as E; try done;
      destruct E; lia.
  - rewrite sec_usec_mid by (rewrite next_aw_in_eaw by done; lia).
    destruct (next_eaw_start now (st_sync s) Hs Hlt) as [H0 He]. split; [exact H0|].
    unfold slot_at. rewrite He. unfold AWDL_CHANSEQ_LENGTH. change (Z.of_nat 16) with 16.
    set (x := awdl_sync_current_eaw now (st_sync s)). clearbody x.
    replace 16384 with (16 * 1024) by lia. rewrite Z.rem_mul_r, Z.mul_comm, Z.mod_add, Z.mod_mod by lia.
    by rewrite Z.add_mod_idemp_l by lia.
Qed.

(** ** Cleaning the peer table *)

(** The peers heard of since [cutoff], and the others that were announced. *)
Definition fresh_since (cutoff : Z) (P : gmap mkey awdl_peer) : gmap mkey awdl_peer :=
  filter (λ kp, cutoff <= last_update kp.2) P.
Definition announced_before (cutoff : Z) (P : gmap mkey awdl_peer) : list awdl_peer :=
  (map_to_list (filter (λ kp, last_update kp.2 < cutoff ∧ is_valid kp.2 ≠ 0) P)).*2.

Lemma fresh_since_ok cutoff P : peers_ok P → peers_ok (fresh_since cutoff P).
Proof. intros Hp k p [Hk _]%map_lookup_filter_Some. by apply Hp. Qed.

Lemma announced_ok cutoff P : peers_ok P → Forall (λ p, addr_ok (peer_addr p)) (announced_before cutoff P).
Proof.
  intros Hp. apply Forall_forall. intros p ([k p'] & -> & Hk)%list_elem_of_fmap.
  apply elem_of_map_to_list, map_lookup_filter_Some in Hk as [Hk _]. simpl.
  destruct (Hp _ _ Hk) as [-> Ha _ _ _ _ _]. done.
Qed.

Lemma removals_trace io l tr :
  Forall (λ p, addr_ok (peer_addr p)) l →
  ∃ addrs, Forall2 (λ p in6, rfc4291_addr (peer_addr p) = Some in6) l addrs ∧
    fold_left (call_cb (Some (awdl_neighbor_remove io))) l tr =
      tr ++ (NeighRemove (host_ifindex io) <$> addrs).
Proof.
  intros Hl. revert tr. induction Hl as [|p l Hp _ IH]; intros tr.
  { exists []. split; [constructor|]. by rewrite app_nil_r. }
  destruct (rfc4291_total _ Hp) as [in6 Hi].
  destruct (IH (tr ++ [NeighRemove (host_ifindex io) in6])) as (addrs & Ha & Hf).
  exists (in6 :: addrs). split; [by constructor|].
  cbn [fold_left].
  change (call_cb _ tr p) with (neighbor_remove_rfc4291 (host_ifindex io) (peer_addr p) tr).
  unfold neighbor_remove_rfc4291. rewrite Hi, Hf.
  by rewrite <- app_assoc.
Qed.

Lemma clean_peers_spec w P q now :
  daemon_ok (w_daemon w) P q →
  let d := w_daemon w in
  let s := d_awdl d in
  let cutoff := u64 (now - ps_timeout (st_peers s)) in
  ∃ ps e l, awdl_clean_peers w now =
      Done (mk_world (with_awdl (with_election e (with_peers ps s)) d)
        (w_trace w ++ (NeighRemove (host_ifindex (d_io d)) <$> l) ++ [TimerAgain PEER_TIMER]) (w_pending w)) ∧
    daemon_ok (with_awdl (with_election e (with_peers ps s)) d) (fresh_since cutoff P) q ∧
    elected (st_election s) (fresh_since cutoff P) e ∧
    (no_leak (the_peers s) → no_leak ps) ∧
    ∃ gone, gone ≡ₚ announced_before cutoff P ∧
      Forall2 (λ p in6, rfc4291_addr (peer_addr p) = Some in6) gone l.
Proof.
  intros Hd d s cutoff. pose proof (dok_state _ _ _ Hd) as Hs. fold d in Hs. fold s in Hs.
  unfold awdl_clean_peers. fold d. fold s. fold cutoff. cbn [peer_remove_cb daemon_hooks].
  destruct (peers_remove_spec (Some (awdl_neighbor_remove (d_io d))) (the_peers s) P (sok_peers _ _ Hs)
    (w_trace w) cutoff) as (ps & gone & -> & R & Hleak & Hgone).
  fold (fresh_since cutoff P) in R. fold (announced_before cutoff P) in Hgone.
  assert (state_ok (with_peers ps s) (fresh_since cutoff P)) as Hs1.
  { apply (state_ok_peers s P); try done. apply fresh_since_ok, Hs. }
  cbn [mbind outcome_bind]. change (the_peers (with_peers ps s)) with ps.
  destruct (run_elected (st_election (with_peers ps s)) ps _ R (fresh_since_ok cutoff P (sok_peers_ok _ _ Hs)))
    as (e & -> & He); [apply Hs|].
  destruct (removals_trace (d_io d) gone (w_trace w)) as (l & Hl & ->).
  { rewrite Hgone. apply announced_ok, Hs. }
  cbn [mbind outcome_bind]. exists ps, e, l. split_and!; [|..|eauto]; try done.
  - unfold emit, with_trace, with_daemon. cbn [w_trace w_pending]. by rewrite <- app_assoc.
  - eapply daemon_ok_awdl; [done|]. apply state_ok_election; [done|].
    eapply elected_ok; [exact He|apply fresh_since_ok, Hs|apply Hs].
Qed.

(** The time [awdl_clean_peers] compares with. *)
Lemma cutoff_wraps now timeout : is_u64 now → is_u64 timeout →
  u64 (now - timeout) = if timeout <=? now then now - timeout else 2 ^ 64 - (timeout - now).
Proof.
  intros Hn Ht. unfold is_u64 in *. destruct (timeout <=? now) eqn:E.
  - apply u64_id. unfold is_u64. lia.
  - unfold u64. replace (now - timeout) with (2 ^ 64 - (timeout - now) + (-1) * 2 ^ 64) by lia.
    rewrite Z.mod_add by lia. apply Z.mod_small. lia.
Qed.

(** C19: which peers [awdl_clean_peers] forgets: once the clock has reached the
    timeout, exactly those not heard of for longer than the timeout; before,
    the unsigned difference wraps and it forgets every peer whose last frame
    is older than a time close to 2^64.  It releases their memory, removes
    the neighbour entry of each of them that had one and of no other, elects
    the master among the peers that remain, and is repeated. *)
Theorem clean_peers_forgets_and_elects w P q now :
  daemon_ok (w_daemon w) P q →
  let d := w_daemon w in
  let s := d_awdl d in
  is_u64 now → is_u64 (ps_timeout (st_peers s)) →
  ∃ w' P' gone addrs,
    awdl_clean_peers w now = Done w' ∧
    daemon_ok (w_daemon w') P' q ∧
    (∀ k p, P' !! k = Some p ↔ P !! k = Some p ∧
       if ps_timeout (st_peers s) <=? now then now - last_update p <= ps_timeout (st_peers s)
       else 2 ^ 64 - (ps_timeout (st_peers s) - now) <= last_update p) ∧
    elected (st_election s) P' (st_election (d_awdl (w_daemon w'))) ∧
    (no_leak (the_peers s) → no_leak (the_peers (d_awdl (w_daemon w')))) ∧
    w_trace w' = w_trace w ++ (NeighRemove (host_ifindex (d_io d)) <$> addrs) ++ [TimerAgain PEER_TIMER] ∧
    Forall2 (λ p in6, rfc4291_addr (peer_addr p) = Some in6) gone addrs ∧
    (∀ p, p ∈ gone ↔ ∃ k, P !! k = Some p ∧ P' !! k = None ∧ is_valid p ≠ 0).
Proof.
  intros Hd d s Hn Ht. destruct (clean_peers_spec w P q now Hd) as (ps & e & l & -> & Hd' & He & Hl & gone & Hg & Ha).
  fold d in Hd', He, Hg |- *. fold s in Hd', He, Hg |- *.
  pose proof (cutoff_wraps now (ps_timeout (st_peers s)) Hn Ht) as Hcut.
  set (cutoff := u64 (now - ps_timeout (st_peers s))) in *. clearbody cutoff.
  eexists _, (fresh_since cutoff P), gone, l. split; [reflexivity|]. split; [exact Hd'|].
  assert (∀ k p, fresh_since cutoff P !! k = Some p ↔ P !! k = Some p ∧ cutoff <= last_update p) as HP.
  { intros k p. apply map_lookup_filter_Some. }
  split; [intros k p; rewrite HP, Hcut; clear; destruct (_ <=? _); split; intros [? ?]; (split; [done|lia])|]. split; [exact He|]. split; [exact Hl|].
  split; [done|]. split; [done|]. intros p. rewrite Hg. unfold announced_before. rewrite list_elem_of_fmap. split.
  - intros ([k p'] & -> & [Hk [Hlt Hv]]%elem_of_map_to_list%map_lookup_filter_Some). simpl in *.
    exists k. split_and!; [done| |done]. destruct (fresh_since cutoff P !! k) as [p2|] eqn:E; [|done].
    apply HP in E as [E Hle]. simplify_eq. lia.
  - intros (k & Hk & Hf & Hv). exists (k, p). split; [done|].
    apply elem_of_map_to_list, map_lookup_filter_Some. split; [done|]. split; [|done]. simpl.
    destruct (decide (cutoff <= last_update p)) as [Hle|]; [|lia].
    rewrite (proj2 (HP k p)) in Hf by done. done.
Qed.

(** ** At a concrete daemon *)

Definition sample_world : world := mk_world (sample_daemon None []) [] [].

Lemma sample_world_ok : daemon_ok (w_daemon sample_world) {[sample_key := sample_peer]} [].
Proof. apply sample_daemon_ok; [simpl; lia|constructor|discriminate]. Qed.

Lemma mif_in_mid_window_witness :
  ∃ w' after, @awdl_send_mif sample_io_env sample_stack rt_standard sample_world 20000 20001 20002 = Done w' ∧
    w_trace w' = [TimerStart MIF_TIMER after 0] ∧ in_eaw (u64 (20000 + sec_to_usec after)) receiver = 32768.
Proof.
  destruct (@mif_in_mid_window sample_io_env sample_stack sample_stack_ok rt_standard rt_standard_ok
    sample_world {[sample_key := sample_peer]} [] 20000 20001 20002 sample_world_ok)
    as (w' & name & after & Hw & _ & Ht & Hin & _); [reflexivity|].
  exists w', after. split; [exact Hw|]. split; [exact Ht|exact Hin].
Defined.

Lemma switch_channel_follows_sequence_witness :
  ∃ w' after, awdl_switch_channel sample_world 20000 = Done w' ∧
    w_trace w' = [ChannelCheck 3 6; ChannelSet 3 6; TimerStart CHAN_TIMER after 0] ∧
    slot_at (u64 (20000 + sec_to_usec after)) receiver = 1.
Proof.
  destruct (switch_channel_follows_sequence sample_world {[sample_key := sample_peer]} [] 20000 sample_world_ok)
    as (w' & chan & after & Hw & Hc & _ & Hcur & Ht & _ & Hslot); [reflexivity|].
  injection Hc as <-. exists w', after. split; [exact Hw|]. split; [|exact Hslot].
  rewrite Ht, decide_True; [reflexivity|]. rewrite Hcur. split; [discriminate|reflexivity].
Defined.

Lemma clean_peers_forgets_and_elects_witness :
  ∃ w' P', awdl_clean_peers sample_world 5000000 = Done w' ∧ daemon_ok (w_daemon w') P' [] ∧
    P' !! sample_key = None.
Proof.
  destruct (clean_peers_forgets_and_elects sample_world {[sample_key := sample_peer]} [] 5000000
    sample_world_ok) as (w' & P' & gone & addrs & Hw & Hok & HP & _).
  - int_lia.
  - simpl. int_lia.
  - exists w', P'. split; [exact Hw|]. split; [exact Hok|].
    destruct (P' !! sample_key) as [p|] eqn:E; [exfalso|reflexivity].
    apply HP in E as [Hp Hl]. rewrite lookup_singleton_eq in Hp. injection Hp as <-. vm_compute in Hl. by apply Hl.
Defined.
