(* ===== verification/Traces.v ===== *)
(** * Traces: which calls the handlers make (src/daemon/core.c, src/rx.c)

    A handler only appends to the trace and leaves the devices as they are;
    only [awdl_switch_channel] calls functions that tune the radio, and only
    to channels of the node's own sequence.  [handle_calls] is a handler
    together with the calls behind its events ([performs] of Calls). *)

From Stdlib Require Import ZArith QArith Lia ZifyBool.
From stdpp Require Import base tactics numbers list gmap.
From S2P Require Import Prelude Wire CircularBuffer HashMap Sync Channel Election Peers ElectionRun.
From S2P Require Import State Schedule Frame Radiotap Tx Rx Os Netutils Io Calls Daemon.

Local Open Scope Z_scope.

(** ** Partial correctness *)

(** What holds of the result, if there is one. *)
Definition yields {A} (Q : A → Prop) (o : outcome A) : Prop := ∀ a, o = Done a → Q a.

Lemma yields_ret {A} (Q : A → Prop) a : Q a → yields Q (Done a).
Proof. by intros Ha b [= <-]. Qed.

Lemma yields_bind {A B} (Q : B → Prop) (o : outcome A) (k : A → outcome B) :
  (∀ a, o = Done a → yields Q (k a)) → yields Q (o ≫= k).
Proof. intros Hk b. destruct o as [a| |]; [apply Hk; done|discriminate..]. Qed.

(** Splits along the text, up to results and the calls of other functions. *)
Ltac yields_steps :=
  repeat match goal with
  | |- yields _ (_ ≫= _) => apply yields_bind; intros
  | |- yields _ (if ?b then _ else _) => destruct b
  | |- yields _ (match ?x with _ => _ end) => destruct x eqn:?
  | |- yields _ Undef => intros ? [=]
  | |- yields _ OutOfFuel => intros ? [=]
  end.

(** ** Reception *)

(** What the hooks do to the environment is all that happens to it. *)
Section rx_events.
Context `{CallocEnv} `{MallocEnv} `{RxEnv} `{OutRoom} `{Radiotap} {E} (hooks : awdl_hooks E).
Context (R : relation E) `{!PreOrder R}.
Hypothesis Hpeer : ∀ e p, R e (call_cb (peer_cb hooks) e p).
Hypothesis Htlv : ∀ e p type val s, R e (call_tlv_cb hooks e p type val s).

Lemma peer_add_out_events ps e p result : yields (λ r, R e r.1.2) (peer_add_out (peer_cb hooks) ps e p result).
Proof. unfold peer_add_out. yields_steps; apply yields_ret; [apply Hpeer|reflexivity]. Qed.

Lemma peer_add_events ps e addr now : yields (λ r, R e r.1.2) (awdl_peer_add (peer_cb hooks) ps e addr now).
Proof.
  unfold awdl_peer_add. yields_steps; first [apply peer_add_out_events | apply yields_ret; reflexivity].
Qed.

Lemma rx_tlvs_events fuel : ∀ frame p tsft s e, yields (λ r, R e r.1.2) (rx_tlvs hooks fuel frame p tsft s e).
Proof.
  induction fuel as [|fuel IH]; intros frame p tsft s e; [intros ? [=]|]. cbn [rx_tlvs].
  yields_steps; try (apply yields_ret; first [reflexivity | apply Htlv]).
  intros r Hr. etrans; [apply Htlv|]. by eapply IH.
Qed.

Lemma rx_action_events frame rssi tsft src s e :
  yields (λ r, R e r.1.2) (awdl_rx_action hooks frame rssi tsft src s e).
Proof.
  unfold awdl_rx_action. yields_steps; try (apply yields_ret; reflexivity). unfold rx_action_update.
  apply yields_bind. intros [[ps e1] status] R1%peer_add_events. cbn [fst snd] in R1.
  destruct (status <? 0); [by apply yields_ret|]. apply yields_bind. intros [status2 p] _.
  destruct (status2 <? 0); [by apply yields_ret|].
  apply yields_bind. intros [[[frame1 s1] e2] early] R2%rx_tlvs_events. cbn [fst snd] in R2.
  assert (R e e2) as R12 by by etrans. destruct early; [by apply yields_ret|]. unfold rx_action_finish.
  destruct (_ >? 0); [by apply yields_ret|]. apply yields_bind. intros peer _.
  apply yields_bind. intros [[ps3 e3] r3] R3%peer_add_events. cbn [fst snd] in R3.
  apply yields_ret. cbn. by etrans.
Qed.

Lemma rx_events frame tsft s e : yields (λ r, R e r.1.2) (awdl_rx hooks frame tsft s e).
Proof.
  unfold awdl_rx. yields_steps; try (apply yields_ret; reflexivity). unfold rx_dispatch.
  yields_steps; try (apply yields_ret; reflexivity).
  match goal with Hr : awdl_rx_action _ _ _ _ _ _ _ = Done _ |- _ => apply rx_action_events in Hr end.
  by apply yields_ret.
Qed.
End rx_events.

(** ** The handlers *)

(** The devices stay, the trace only grows, and the radio is not tuned. *)
Definition untuned (tr tr' : trace) : Prop := ∃ new, tr' = tr ++ new ∧ Forall (λ e, tunes_to e = None) new.
Definition quiet (w w' : world) : Prop :=
  d_io (w_daemon w') = d_io (w_daemon w) ∧ untuned (w_trace w) (w_trace w').

#[global] Instance untuned_preorder : PreOrder untuned.
Proof.
  split.
  - intros tr. exists []. by rewrite app_nil_r.
  - intros tr1 tr2 tr3 (n1 & -> & H1) (n2 & -> & H2). exists (n1 ++ n2). rewrite app_assoc. split; [done|].
    by apply Forall_app.
Qed.

#[global] Instance quiet_preorder : PreOrder quiet.
Proof.
  split; [intros w; by split|]. intros w1 w2 w3 [I1 T1] [I2 T2]. split; [congruence|by etrans].
Qed.

Lemma untuned_snoc tr e : tunes_to e = None → untuned tr (tr ++ [e]).
Proof. intros He. exists [e]. split; [done|]. by constructor. Qed.

Lemma emit_quiet e w : tunes_to e = None → quiet w (emit e w).
Proof. intros He. split; [done|]. by apply untuned_snoc. Qed.

Lemma wlan_send_untuned `{IoEnv} io tr bs : untuned tr (wlan_send io tr bs).1.
Proof. unfold wlan_send. destruct (_ =? 0); [reflexivity|by apply untuned_snoc]. Qed.

Lemma host_send_untuned `{IoEnv} io tr bs : untuned tr (host_send io tr bs).1.
Proof. unfold host_send. destruct (_ =? 0); [reflexivity|by apply untuned_snoc]. Qed.

Lemma neighbor_add_untuned io tr p : untuned tr (awdl_neighbor_add io tr p).
Proof. unfold awdl_neighbor_add, neighbor_add_rfc4291. case_match; [by apply untuned_snoc|reflexivity]. Qed.

Lemma neighbor_remove_untuned io tr p : untuned tr (awdl_neighbor_remove io tr p).
Proof. unfold awdl_neighbor_remove, neighbor_remove_rfc4291. case_match; [by apply untuned_snoc|reflexivity]. Qed.

(** The loop of [awdl_peers_remove] calls back for single peers. *)
Lemma while_next_yields {S} (Q : S → Prop) (body : S → hashmap_element → option (S * bool)) fuel : ∀ s m it,
  (∀ s el s' b, body s el = Some (s', b) → Q s → Q s') → Q s →
  yields (λ r, Q r.1) (while_next fuel body s m it).
Proof.
  induction fuel as [|fuel IH]; intros s m it Hb Hs; [intros ? [=]|]. cbn [while_next].
  apply yields_bind. intros r _. destruct r.2 as [el|]; [|by apply yields_ret].
  apply yields_bind. intros b Hr. apply yields_bind. intros m' _. apply IH; [done|].
  destruct (body s el) as [[s' b']|] eqn:E; [|done]. injection Hr as <-. by eapply Hb.
Qed.

Lemma peers_remove_untuned io ps tr before :
  yields (λ r, untuned tr r.2) (awdl_peers_remove (Some (awdl_neighbor_remove io)) ps tr before).
Proof.
  unfold awdl_peers_remove. apply yields_bind. intros [[h e] m] Hr.
  apply (while_next_yields (λ s, untuned tr s.2)) in Hr; [by apply yields_ret| |reflexivity].
  intros [h1 e1] el [h2 e2] b. unfold peers_remove_body. destruct (h1 !! _) as [peer|]; [|done]. cbn [mbind option_bind].
  destruct (last_update peer <? before); [|by intros [= <- <- <-]].
  destruct (heap_free _ _) as [h'|]; [|done]. intros [= <- <- <-] Ht. cbn [snd] in *.
  destruct (is_valid peer =? 0); [done|]. etrans; [exact Ht|apply neighbor_remove_untuned].
Qed.

(** Closes a goal about what sending appends. *)
Ltac sent :=
  match goal with
  | Hs : wlan_send ?io ?tr ?bs = _ |- _ =>
      let Hw := fresh in pose proof (wlan_send_untuned io tr bs) as Hw; rewrite Hs in Hw; exact Hw
  | Hs : host_send ?io ?tr ?bs = _ |- _ =>
      let Hw := fresh in pose proof (host_send_untuned io tr bs) as Hw; rewrite Hs in Hw; exact Hw
  end.

Section handlers.
Context `{CallocEnv} `{MallocEnv} `{RxEnv} `{IoEnv} `{StackEnv} `{Radiotap}.

Lemma send_data_untuned b io s ieee tr : yields (λ r, untuned tr r.1.2) (awdl_send_data b io s ieee tr).
Proof. unfold awdl_send_data. yields_steps; apply yields_ret; first [reflexivity | sent]. Qed.

Lemma send_action_quiet w type now1 now2 : yields (quiet w) (awdl_send_action w type now1 now2).
Proof.
  unfold awdl_send_action. yields_steps; apply yields_ret; (split; [done|]); first [reflexivity | sent].
Qed.

Lemma send_unicast_next_quiet w now next : yields (λ r, quiet w r.1) (send_unicast_next w now next).
Proof.
  unfold send_unicast_next. yields_steps; apply yields_ret; (split; [done|]); try first [reflexivity | sent].
  match goal with Hr : awdl_send_data _ _ _ _ _ = Done _ |- _ => exact (send_data_untuned _ _ _ _ _ _ Hr) end.
Qed.

Lemma send_unicast_quiet w now : yields (quiet w) (awdl_send_unicast w now).
Proof.
  unfold awdl_send_unicast. apply yields_bind. intros [w1 delay] Hr.
  assert (quiet w w1) as Hq.
  { revert Hr. destruct (d_next _); [apply (send_unicast_next_quiet w now b)|intros [= <- _]; reflexivity]. }
  destruct (d_next (w_daemon w1)); apply yields_ret; (etrans; [exact Hq|]); by apply emit_quiet.
Qed.

Lemma send_multicast_next_quiet w now : yields (λ r, quiet w r.1) (send_multicast_next w now).
Proof.
  unfold send_multicast_next. yields_steps; apply yields_ret; (split; [done|]); try first [reflexivity | sent].
  match goal with Hr : awdl_send_data _ _ _ _ _ = Done _ |- _ => exact (send_data_untuned _ _ _ _ _ _ Hr) end.
Qed.

Lemma send_multicast_quiet w now : yields (quiet w) (awdl_send_multicast w now).
Proof.
  unfold awdl_send_multicast. apply yields_bind. intros [w1 delay] Hr.
  assert (quiet w w1) as Hq.
  { revert Hr. destruct (_ =? 0); [apply (send_multicast_next_quiet w now)|intros [= <- _]; reflexivity]. }
  clear Hr. destruct (_ =? 0); apply yields_ret; (etrans; [exact Hq|]); by apply emit_quiet.
Qed.

Lemma poll_quiet fuel : ∀ w result, yields (λ r, quiet w r.1) (poll_host_device fuel w result).
Proof.
  induction fuel as [|fuel IH]; intros w result; [intros ? [=]|]. cbn [poll_host_device].
  yields_steps; try (apply yields_ret; split; [done|reflexivity]);
    intros r Hr; apply IH in Hr as [Hi Ht]; by split.
Qed.

Lemma host_device_ready_quiet w now1 now2 : yields (quiet w) (host_device_ready w now1 now2).
Proof.
  unfold host_device_ready. apply yields_bind. intros [w1 r] Hp%poll_quiet. cbn [fst] in Hp.
  apply yields_bind. intros w2 Hm.
  assert (quiet w w2) as Hq.
  { etrans; [exact Hp|]. revert Hm. destruct (has_flag _ _); [apply send_multicast_quiet|intros [= <-]; reflexivity]. }
  clear Hm. destruct (has_flag _ _); [|by apply yields_ret]. intros w3 Hu. etrans; [exact Hq|].
  exact (send_unicast_quiet _ _ _ Hu).
Qed.

Lemma deliver_untuned io data tr : yields (untuned tr) (deliver io data tr).
Proof.
  revert tr. induction data as [|b data IH]; intros tr; cbn [deliver]; [by apply yields_ret|].
  apply yields_bind. intros bytes _ tr' Htr. etrans; [apply host_send_untuned|]. by eapply IH.
Qed.

Lemma receive_frame_quiet w bytes tsft : yields (quiet w) (awdl_receive_frame w bytes tsft).
Proof.
  unfold awdl_receive_frame. apply yields_bind. intros frame _. apply yields_bind.
  intros [[[data s] tr] result] Hrx.
  apply (rx_events _ untuned) in Hrx; [|intros; apply neighbor_add_untuned|done]. cbn [fst snd] in Hrx.
  yields_steps; apply yields_ret; (split; [done|]); try done; cbn [w_trace with_trace].
  - etrans; [exact Hrx|]. by eapply deliver_untuned.
  - destruct (d_dump _); [|done]. etrans; [exact Hrx|]. by apply untuned_snoc.
Qed.

Lemma clean_peers_quiet w now : yields (quiet w) (awdl_clean_peers w now).
Proof.
  unfold awdl_clean_peers. apply yields_bind. intros [ps tr] Hr%peers_remove_untuned. cbn [snd] in Hr.
  apply yields_bind. intros e _. apply yields_ret. etrans; [|by apply emit_quiet]. by split.
Qed.

Lemma send_mif_quiet w now now1 now2 : yields (quiet w) (awdl_send_mif w now now1 now2).
Proof.
  unfold awdl_send_mif. apply yields_bind. intros w1 Hr. apply yields_ret. etrans; [|by apply emit_quiet].
  revert Hr. destruct (_ >? 0); [apply send_action_quiet|intros [= <-]; reflexivity].
Qed.

(** The channels of a node's sequence. *)
Definition own_channel (s : awdl_state) (c : Z) : Prop :=
  c ≠ 0 ∧ ∃ chan, chan ∈ ch_sequence (st_channel s) ∧ c = awdl_chan_num chan (ch_enc (st_channel s)).

(** What a handler appends to the trace. *)
Definition appended (w w' : world) (new : trace) : Prop :=
  w_trace w' = w_trace w ++ new ∧
  Forall (λ e, ∀ c, tunes_to e = Some c → own_channel (d_awdl (w_daemon w)) c) new.

Lemma quiet_appended w w' : quiet w w' → ∃ new, appended w w' new.
Proof.
  intros [_ (new & Ht & Hn)]. exists new. split; [done|]. eapply Forall_impl; [exact Hn|]. intros e He c. congruence.
Qed.

Lemma switch_channel_appends w now : yields (λ w', d_io (w_daemon w') = d_io (w_daemon w) ∧ ∃ new, appended w w' new)
  (awdl_switch_channel w now).
Proof.
  unfold awdl_switch_channel. apply yields_bind. intros chan Hc. apply yields_ret.
  set (ch := st_channel (d_awdl (w_daemon w))) in *.
  destruct (ch_sequence ch !! _) as [c|] eqn:E in Hc; [|done]. injection Hc as ->.
  destruct (negb _ && negb _) eqn:Ech; [destruct (wlan_is_file _)|]; (split; [done|]).
  1, 3: apply quiet_appended; (split; [done|by apply untuned_snoc]).
  eexists. unfold appended. cbn. rewrite <- !app_assoc. split; [reflexivity|].
  assert (own_channel (d_awdl (w_daemon w)) (awdl_chan_num chan (ch_enc ch))) as Ho.
  { split; [lia|]. exists chan. split; [by eapply list_elem_of_lookup_2|done]. }
  apply Forall_cons; split; [by intros c [= <-]|]. apply Forall_cons; split; [by intros c [= <-]|].
  apply Forall_cons; split; [by intros c|constructor].
Qed.

(** Every handler keeps the devices and appends to the trace. *)
Lemma handle_appends i w w' : handle i w = Done w' →
  d_io (w_daemon w') = d_io (w_daemon w) ∧ ∃ new, appended w w' new.
Proof.
  assert (∀ o, yields (quiet w) o → yields (λ w', d_io (w_daemon w') = d_io (w_daemon w) ∧ ∃ new, appended w w' new) o) as Hq.
  { intros o Ho w2 Hw2. apply Ho in Hw2. split; [apply Hw2|by apply quiet_appended]. }
  revert w'. change (yields (λ w', d_io (w_daemon w') = d_io (w_daemon w) ∧ ∃ new, appended w w' new) (handle i w)).
  destruct i; cbn [handle].
  - apply Hq, yields_ret. by split.
  - apply Hq, host_device_ready_quiet.
  - apply Hq. unfold wlan_device_ready. destruct packet as [bytes|]; [|by apply yields_ret].
    apply yields_bind. intros w1 Hr%receive_frame_quiet. apply yields_ret. etrans; [exact Hr|by apply emit_quiet].
  - apply Hq, send_mif_quiet.
  - apply Hq, send_action_quiet.
  - apply Hq, send_unicast_quiet.
  - apply Hq, send_multicast_quiet.
  - apply switch_channel_appends.
  - apply Hq, clean_peers_quiet.
  - apply Hq, yields_ret. reflexivity.
Qed.

(** ** Handlers and their calls *)

(** A handler, and then the calls of the events it appended.  A handler is
    undefined if one of its calls is, so the order does not matter. *)
Definition handle_calls `{Os} (dump_file : list Z) (i : input) (w : world) (n : net) : outcome (world * net) :=
  w' ← handle i w;
  r ← of_option (performs dump_file (drop (length (w_trace w)) (w_trace w')) n);
  Done (w', r.1).
End handlers.
