(* ===== verification/DaemonSafe.v ===== *)
(** * DaemonSafe: runs of the daemon (src/daemon/core.c)

    Reception, polling and the handlers together: every event finds the
    daemon in a well-formed state and leaves it in one ([handle_total]), so
    every state that a sequence of events leads to from [awdl_init] is well
    formed ([reachable]).  The exceptions are a frame with more than
    [MAX_NUM_AMPDU] subframes and calls that rely on an object they did not
    get ([denied] of Calls). *)

From Stdlib Require Import ZArith QArith Lia ZifyBool.
From stdpp Require Import base tactics numbers list gmap.
From S2P Require Import Prelude Wire CircularBuffer HashMap Sync Channel Election Peers ElectionRun.
From S2P Require Import State Schedule Frame Radiotap Tx Rx TxRx Os Netutils Io Dump Calls Daemon DaemonRun DaemonTimers Traces.

Local Open Scope Z_scope.

(** ** Invariant and inputs *)

(** The radio can be tuned to every channel of the sequence. *)
Definition channels_known (s : awdl_state) : Prop := ∀ c, own_channel s c → tunable c.

Definition same_channels (s s' : awdl_state) : Prop :=
  ch_enc (st_channel s') = ch_enc (st_channel s) ∧ ch_sequence (st_channel s') = ch_sequence (st_channel s).

Lemma channels_known_same s s' : same_channels s s' → channels_known s → channels_known s'.
Proof. intros [He Hq] Hs c. unfold own_channel. rewrite He, Hq. apply Hs. Qed.

Definition world_ok (w : world) : Prop :=
  channels_known (d_awdl (w_daemon w)) ∧ ∃ P q, daemon_ok (w_daemon w) P q ∧ Forall read_ok (w_pending w).

Lemma world_ok_step w w' P q :
  channels_known (d_awdl (w_daemon w)) → same_channels (d_awdl (w_daemon w)) (d_awdl (w_daemon w')) →
  daemon_ok (w_daemon w') P q → Forall read_ok (w_pending w') → world_ok w'.
Proof. intros Hc Hs Hd Hp. split; [by eapply channels_known_same|eauto]. Qed.

(** What the types of the interfaces guarantee of an input. *)
Definition input_ok (i : input) : Prop :=
  match i with
  | HostArrives reads => Forall read_ok reads
  | WlanReady (Some bytes) _ => bytes_ok bytes ∧ Z.of_nat (length bytes) <= INT_MAX
  | _ => True
  end.

(** ** Reception *)

Lemma deliver_spec `{IoEnv} io data tr :
  Forall buf_wf data →
  deliver io data tr = Done (fold_left (λ tr b, (host_send io tr (contents b)).1) data tr).
Proof.
  intros Hd. revert tr. induction Hd as [|b data Hb _ IH]; intros tr; [done|].
  cbn [deliver]. rewrite load_window by done. cbn [of_option mbind outcome_bind]. by rewrite IH.
Qed.

Section receive.
Context `{CallocBounded} `{MallocOk} `{RxEnvOk} `{IoEnv} `{StackEnv} `{RadiotapOk}.

Lemma receive_frame_total w P q bytes tsft :
  daemon_ok (w_daemon w) P q → bytes_ok bytes → Z.of_nat (length bytes) <= INT_MAX →
  (∃ w' P', awdl_receive_frame w bytes tsft = Done w' ∧ daemon_ok (w_daemon w') P' q ∧
     w_pending w' = w_pending w ∧ same_node (d_awdl (w_daemon w)) (d_awdl (w_daemon w'))) ∨
  (awdl_receive_frame w bytes tsft = Undef ∧ 510 <= Z.of_nat (length bytes)).
Proof.
  intros Hd Hb Hl. unfold awdl_receive_frame, buf_new_const. if_false. cbn [of_option mbind outcome_bind].
  cbn [fst snd]. change (mk_buf bytes 0 0 (Z.of_nat (length bytes)) false) with (buf_of bytes).
  destruct (rx_total (daemon_hooks (d_io (w_daemon w))) (buf_of bytes) tsft (d_awdl (w_daemon w)) P (w_trace w))
    as [[-> Hmany]|(out & s' & tr & rc & -> & from & [Hout _] & P' & Hs' & Hn & _)].
  { by apply buf_of_wf. }
  { apply Hd. }
  { right. split; [done|]. destruct Hmany as [Hmany|Hmany]; [discriminate Hmany|].
    unfold out_room, data_arr, MAX_NUM_AMPDU in Hmany. cbn [b_len buf_of] in Hmany. lia. }
  left. cbn [mbind outcome_bind]. destruct (rc =? RX_OK).
  { rewrite deliver_spec by (eapply Forall_impl; [exact Hout|]; by intros b []).
    cbn [mbind outcome_bind]. eexists _, P'. split; [done|]. split; [|done].
    by eapply daemon_ok_awdl. }
  destruct (rc <? RX_OK); eexists _, P'; (split; [done|]); (split; [|split; [done|]]);
    try (eapply daemon_ok_awdl; try done; by apply state_ok_count); [|done].
  transitivity s'; [done|by constructor].
Qed.
End receive.

(** ** Polling and sending *)

Lemma poll_spec_rest room pending :
  Forall read_ok pending → Forall read_ok (poll_spec room pending).2.
Proof.
  revert room. induction pending as [|[e|bs] pending IH]; intros [|room] Hp; try done.
  - by apply Forall_cons in Hp as [_ ?].
  - apply Forall_cons in Hp as [_ Hp]. cbn [poll_spec]. destruct (_ <? 6)%nat; [done|].
    destruct (is_multicast _); [|done]. specialize (IH room Hp). by destruct (poll_spec room pending) as [[]].
Qed.

Section ready.
Context `{RxEnvOk} `{IoEnv} `{StackEnvOk} `{RadiotapOk}.

Lemma poll_total w P q :
  daemon_ok (w_daemon w) P q → Forall read_ok (w_pending w) →
  ∃ w' r q', poll_host_device (poll_fuel (w_daemon w)) w 0 = Done (w', r) ∧
    daemon_ok (w_daemon w') P q' ∧ Forall read_ok (w_pending w') ∧ d_awdl (w_daemon w') = d_awdl (w_daemon w).
Proof.
  intros Hd Hp. unfold poll_fuel, circular_buf_capacity. rewrite (dok_cap _ _ _ Hd).
  change (Z.to_nat 16 + 2)%nat with (S 17).
  destruct (d_next (w_daemon w)) eqn:Hn.
  { rewrite poll_stop by (left; by eexists). eauto 10. }
  destruct (decide (circular_buf_full (d_queue (w_daemon w)) = 0)) as [Hf|Hf].
  2: { rewrite poll_stop by by right. eauto 10. }
  destruct (decide (host_fd (d_io (w_daemon w)) = 0)) as [Hz|Hz].
  { rewrite poll_no_packet; [|done|done|].
    - rewrite Hz. change (0 =? 0) with true. cbv iota. eauto 10.
    - destruct (w_pending w) as [|[]]; [done| |done]. by apply Forall_cons in Hp as [? _]. }
  pose proof (poll_correct 18 w P q 0 Hd Hz Hp Hn ltac:(lia)) as Hpoll.
  pose proof (poll_spec_rest (16 - length q) _ Hp) as Hrest.
  destruct (poll_spec _ _) as [[msb ub] rest]. destruct Hpoll as (ms & nb & c & -> & Hd' & _). eauto 10.
Qed.

Lemma send_unicast_total w P q now :
  daemon_ok (w_daemon w) P q →
  ∃ w', awdl_send_unicast w now = Done w' ∧ daemon_ok (w_daemon w') P q ∧ w_pending w' = w_pending w ∧
    same_node (d_awdl (w_daemon w)) (d_awdl (w_daemon w')).
Proof.
  intros Hd. destruct (send_unicast_spec w P q now Hd) as (w' & Hw & Hs). exists w'.
  split; [done|]. split; [by eapply unicast_step_ok|].
  destruct Hs; try done. simpl. unfold after_send. by destruct (_ <? 14).
Qed.

Lemma send_multicast_total w P q now :
  daemon_ok (w_daemon w) P q →
  ∃ w' q', awdl_send_multicast w now = Done w' ∧ daemon_ok (w_daemon w') P q' ∧ w_pending w' = w_pending w ∧
    same_node (d_awdl (w_daemon w)) (d_awdl (w_daemon w')).
Proof.
  intros Hd. destruct (send_multicast_spec w P q now Hd) as (w' & q' & Hw & Hs). exists w', q'.
  split; [done|]. split; [by eapply multicast_step_ok|].
  destruct Hs; try done. simpl. unfold after_send. by destruct (_ <? 14).
Qed.

Lemma host_device_ready_total w P q now1 now2 :
  daemon_ok (w_daemon w) P q → Forall read_ok (w_pending w) →
  ∃ w' q', host_device_ready w now1 now2 = Done w' ∧ daemon_ok (w_daemon w') P q' ∧
    Forall read_ok (w_pending w') ∧ same_node (d_awdl (w_daemon w)) (d_awdl (w_daemon w')).
Proof.
  intros Hd Hp. unfold host_device_ready.
  destruct (poll_total w P q Hd Hp) as (w1 & r & q1 & -> & Hd1 & Hp1 & Hn1). cbn [mbind outcome_bind]. rewrite <- Hn1.
  assert (∃ w2 q2, (if has_flag r POLL_NEW_MULTICAST then awdl_send_multicast w1 now1 else Done w1) = Done w2 ∧
    daemon_ok (w_daemon w2) P q2 ∧ Forall read_ok (w_pending w2) ∧
    same_node (d_awdl (w_daemon w1)) (d_awdl (w_daemon w2))) as (w2 & q2 & -> & Hd2 & Hp2 & Hn2).
  { destruct (has_flag r POLL_NEW_MULTICAST); [|by exists w1, q1].
    destruct (send_multicast_total w1 P q1 now1 Hd1) as (w2 & q2 & -> & Hd2 & Hp2 & Hn2).
    exists w2, q2. by rewrite Hp2. }
  cbn [mbind outcome_bind]. destruct (has_flag r POLL_NEW_UNICAST); [|eauto 10].
  destruct (send_unicast_total w2 P q2 now2 Hd2) as (w3 & -> & Hd3 & Hp3 & Hn3).
  exists w3, q2. rewrite Hp3. split_and!; [done..|]. by etrans.
Qed.
End ready.

(** ** Every event *)

Section handle.
Context `{CallocBounded} `{MallocOk} `{RxEnvOk} `{IoEnv} `{StackEnvOk} `{RadiotapOk}.

Lemma send_action_channels w type now1 now2 :
  yields (λ w', same_channels (d_awdl (w_daemon w)) (d_awdl (w_daemon w'))) (awdl_send_action w type now1 now2).
Proof. unfold awdl_send_action. yields_steps; by apply yields_ret. Qed.

Lemma send_mif_channels w now now1 now2 :
  yields (λ w', same_channels (d_awdl (w_daemon w)) (d_awdl (w_daemon w'))) (awdl_send_mif w now now1 now2).
Proof.
  unfold awdl_send_mif. apply yields_bind. intros w1 Hr. apply yields_ret. revert Hr.
  destruct (_ >? 0); [apply send_action_channels|by intros [= <-]].
Qed.

Lemma handle_total i w :
  world_ok w → input_ok i →
  (∃ w', handle i w = Done w' ∧ world_ok w') ∨
  (handle i w = Undef ∧ ∃ bytes tsft, i = WlanReady (Some bytes) tsft ∧ 510 <= Z.of_nat (length bytes)).
Proof.
  intros (Hc & P & q & Hd & Hp) Hi. destruct i as [reads|now1 now2|[bytes|] tsft|now now1 now2|now1 now2|now|now|now|now|];
    cbn [handle].
  - left. eexists. split; [done|]. eapply world_ok_step; [done|done|exact Hd|]. by apply Forall_app.
  - left. destruct (host_device_ready_total w P q now1 now2 Hd Hp) as (w' & q' & -> & ? & ? & Hn).
    eexists. split; [done|]. by eapply world_ok_step; [|apply Hn|..].
  - unfold wlan_device_ready.
    destruct (receive_frame_total w P q bytes tsft Hd (proj1 Hi) (proj2 Hi)) as [(w' & P' & -> & Hd' & Hp' & Hn)|[-> Hl]].
    + left. eexists. split; [done|]. eapply world_ok_step; [done|apply Hn|exact Hd'|]. cbn. by rewrite Hp'.
    + right. eauto.
  - left. eexists. split; [done|]. by eapply world_ok_step.
  - left. destruct (send_mif_ok w P q now now1 now2 Hd) as (w' & E & Hd' & Hp').
    exists w'. split; [done|]. eapply world_ok_step; [done|by eapply send_mif_channels|exact Hd'|by rewrite Hp'].
  - left. unfold awdl_send_psf. destruct (send_action_ok w P q AWDL_ACTION_PSF now1 now2 Hd) as (w' & E & Hd' & Hp').
    exists w'. split; [done|]. eapply world_ok_step; [done|by eapply send_action_channels|exact Hd'|by rewrite Hp'].
  - left. destruct (send_unicast_total w P q now Hd) as (w' & -> & Hd' & Hp' & Hn).
    eexists. split; [done|]. eapply world_ok_step; [done|apply Hn|exact Hd'|by rewrite Hp'].
  - left. destruct (send_multicast_total w P q now Hd) as (w' & q' & -> & Hd' & Hp' & Hn).
    eexists. split; [done|]. eapply world_ok_step; [done|apply Hn|exact Hd'|by rewrite Hp'].
  - left. destruct (switch_channel_spec w P q now Hd) as (chan & _ & Hch & ->).
    eexists. split; [done|]. eapply (world_ok_step w _ P q); [done|by destruct (_ && _)| |done]. cbn.
    destruct (_ && _); [|done]. eapply daemon_ok_awdl; [done|]. apply state_ok_tuned; [apply Hd|done].
  - left. destruct (clean_peers_spec w P q now Hd) as (ps & e & l & -> & Hd' & _).
    eexists. split; [done|]. by eapply world_ok_step; [| |exact Hd'|].
  - left. eexists. split; [done|]. by eapply world_ok_step.
Qed.

(** A handler with its calls. *)
Lemma handle_calls_total `{Os} dump_file i w n w' :
  channels_known (d_awdl (w_daemon w)) → handle i w = Done w' →
  (∃ n', handle_calls dump_file i w n = Done (w', n')) ∨
  (handle_calls dump_file i w n = Undef ∧ denied dump_file (n_log n)).
Proof.
  intros Hc Hw. destruct (handle_appends i w w' Hw) as (_ & new & Ht & Hn). unfold handle_calls.
  rewrite Hw. cbn [mbind outcome_bind]. rewrite Ht, drop_app_length.
  destruct (performs_run dump_file new n) as [(n' & l & -> & _)|[-> Hd]].
  - eapply Forall_impl; [exact Hn|]. intros e He c Hec. by apply Hc, He.
  - left. by exists n'.
  - by right.
Qed.
End handle.

(** ** Runs *)

(** What [awdl_init] gets from the system: the address of the device, a host
    name, a channel the program knows and memory of the right shape. *)
Record start_ok `{CallocEnv} (io : io_state) (hostname : list Z) (chan : awdl_chan) (now : Z)
    (mem : awdl_state) (ring : list buf) : Prop := {
  start_addr : addr_ok (if_ether_addr io);
  start_name : bytes_ok hostname;
  start_chan : chan_ok chan ∧ tunable (awdl_chan_num chan AWDL_CHAN_ENC_OPCLASS);
  start_now : is_u64 now;
  start_alloc : calloc_ok INITIAL_SIZE = true;
  start_mem_name : Z.of_nat (length (st_name mem)) = HOST_NAME_LENGTH_MAX + 1 ∧ bytes_ok (st_name mem);
  start_mem_chan : length (ch_sequence (st_channel mem)) = AWDL_CHANSEQ_LENGTH;
  start_ring : length ring = 16%nat }.

(** A name of 64 characters fills the copied part of the array, and ends where
    the array did before. *)
Definition name_ends (hostname : list Z) (mem : awdl_state) : Prop :=
  (length hostname < 64)%nat ∨ last (st_name mem) = Some 0.

Lemma awdl_init_total `{CallocEnv} netutils io hostname chan dump now mem ring :
  start_ok io hostname chan now mem ring → 0 <= netutils →
  ∃ d, awdl_init netutils (inr io) (inr hostname) chan dump now mem ring = Some (inr d) ∧
    (name_ends hostname mem → daemon_ok d ∅ []) ∧ d_io d = io ∧ d_next d = None ∧
    ch_sequence (st_channel (d_awdl d)) = replicate AWDL_CHANSEQ_LENGTH chan ∧ channels_known (d_awdl d).
Proof.
  intros [Ha Hhb [Hc Ht] Hn Hal [Hmn Hmb] Hmc Hr] Hnet.
  destruct (init_state_total (E := trace) mem hostname (if_ether_addr io) chan now)
    as (s & Hs & Hname & Hok & Hheap & Hnode); [done..|].
  assert (name_ends hostname mem → state_ok s ∅) as Hsok by (intros He; apply Hok; rewrite Hname; by apply name_terminated).
  destruct (rep_init 16 ring) as (c & Hci & Hrep & Hmax); [lia|lia|].
  unfold awdl_init. if_false. rewrite Hs. cbn [mbind option_bind fst]. rewrite Hci. cbn [mbind option_bind].
  eexists. split; [done|]. destruct Hnode. split_and!; [intros He; specialize (Hsok He); constructor; simpl; try done; lia|done|done|done|].
  intros k (Hk & ch & Hin & ->). cbn [d_awdl] in *. rewrite in_enc. rewrite in_sequence in Hin.
  apply elem_of_replicate in Hin as [-> _]. exact Ht.
Qed.

Lemma state_ok_filter s P v : state_ok s P → state_ok (with_filter_rssi v s) P.
Proof. intros []. by constructor. Qed.

Section runs.
Context `{CallocBounded} `{MallocOk} `{RxEnvOk} `{IoEnv} `{StackEnvOk} `{RadiotapOk}.

(** The states the daemon can be in between two events.  The caller of
    [awdl_init] chooses whether to filter by signal strength. *)
Inductive reachable : world → Prop :=
  | reach_start netutils io hostname chan dump now mem ring d filter :
      start_ok io hostname chan now mem ring → name_ends hostname mem →
      awdl_init netutils (inr io) (inr hostname) chan dump now mem ring = Some (inr d) →
      reachable (awdl_schedule (mk_world (with_awdl (with_filter_rssi filter (d_awdl d)) d) [] []))
  | reach_event w i w' :
      reachable w → input_ok i → handle i w = Done w' → reachable w'.

Lemma reachable_ok w : reachable w → world_ok w.
Proof.
  induction 1 as [netutils io hostname chan dump now mem ring d filter Hs He Hi|w i w' _ IH Hi Hh].
  - assert (0 <= netutils) as Hnet.
    { unfold awdl_init in Hi. destruct (netutils <? 0) eqn:E; [done|lia]. }
    destruct (awdl_init_total netutils io hostname chan dump now mem ring Hs Hnet) as (d' & Hd & Hok & _ & _ & _ & Hch).
    rewrite Hi in Hd. injection Hd as <-. split; [exact Hch|]. exists ∅, []. split; [|constructor].
    specialize (Hok He). eapply daemon_ok_awdl; [done|]. apply state_ok_filter, Hok.
  - destruct (handle_total i w IH Hi) as [(w2 & Hw & Hok)|[Hw _]]; rewrite Hh in Hw; by simplify_eq.
Qed.

End runs.

Lemma sample_os_grants file l c : @relied_on file c = true → @os_result sample_os l c = 0 → False.
Proof. by destruct c. Qed.

