(* ===== verification/DaemonLive.v ===== *)
(** * DaemonLive: queued frames are sent (src/daemon/core.c, src/schedule.c)

    The delays [awdl_send_multicast] asks for lead to a multicast window: if
    the timer expires on time, a bounded number of attempts leads to a window
    ([multicast_comes]; Multicast has the attempts).  The argument is on the time [e] since the
    start of the known extended window, counted in microseconds. *)

From Stdlib Require Import ZArith QArith Lia ZifyBool.
From stdpp Require Import base tactics numbers list gmap.
From S2P Require Import Prelude Wire CircularBuffer HashMap Sync Channel Election Peers.
From S2P Require Import State Schedule Frame Radiotap Tx Rx Io Daemon DaemonRun.

Local Open Scope Z_scope.

Local Ltac Zify.zify_post_hook ::= Z.div_mod_to_equations.

(** ** Attempts *)

(** When the timer expires next. *)
Definition next_try (s : awdl_state) (now : Z) : Z :=
  u64 (now + sec_to_usec (multicast_retry s now)).

(** ** The schedule in terms of the elapsed time *)

(** The slot at [e], for the extended window [a] at the start. *)
Definition slot_of (a e : Z) : Z := (a + e / 65536) mod 16.

Definition open_at (a e : Z) : Prop :=
  (slot_of a e = 0 ∨ slot_of a e = 10) ∧ 16384 <= e mod 65536 <= 49152.

(** The delay at a time that is not open. *)
Definition delay_at (e : Z) : Z :=
  if 49152 <? e mod 65536 then e mod 65536 - 32768
  else if e mod 65536 <? 16384 then 16384 - e mod 65536
  else 65536.

(** Slots until the next multicast slot. *)
Definition slots_left (a e : Z) : Z :=
  let k := slot_of a e in if k =? 0 then 0 else if k <=? 10 then 10 - k else 16 - k.

#[global] Instance open_at_dec a e : Decision (open_at a e).
Proof. unfold open_at. apply _. Defined.

(** The first open time among the attempts from [e]. *)
Definition first_open (a : Z) (bound : nat) (e : Z) : Prop :=
  ∃ n, (n <= bound)%nat ∧ open_at a (Nat.iter n (λ e, e + delay_at e) e) ∧
    ∀ m, (m < n)%nat → ¬ open_at a (Nat.iter m (λ e, e + delay_at e) e).

Lemma first_open_now a n e : open_at a e → first_open a n e.
Proof. intros Ho. exists O. split; [lia|]. split; [done|]. intros m Hm. lia. Qed.

Lemma first_open_step a n e :
  first_open a n (e + delay_at e) → first_open a (S n) e.
Proof.
  intros (k & Hk & Ho & Hm). destruct (decide (open_at a e)) as [He|He]; [by apply first_open_now|].
  exists (S k). split; [lia|]. rewrite Nat.iter_succ_r. split; [done|].
  intros [|m] Hlt; [done|]. rewrite Nat.iter_succ_r. apply Hm. lia.
Qed.

Lemma open_from_middle a d : ∀ e,
  16384 <= e mod 65536 <= 49152 → slots_left a e = Z.of_nat d → first_open a d e.
Proof.
  induction d as [|d IH]; intros e Hx; unfold slots_left, slot_of;
    split_ifs; intros Hd; try lia.
  1,2: apply first_open_now; split; [unfold slot_of; lia|done].
  all: apply first_open_step; unfold delay_at; if_false; if_false;
    (apply IH; [lia|unfold slots_left, slot_of; split_ifs; lia]).
Qed.

Lemma open_from_anywhere a e : 0 <= e → first_open a 11 e.
Proof.
  intros He.
  assert (∀ e n, 16384 <= e mod 65536 <= 49152 → (9 <= n)%nat → first_open a n e) as Hmid.
  { intros e' n Hx Hn. assert (0 <= slots_left a e' <= 9) as Hd by (unfold slots_left, slot_of; split_ifs; lia).
    destruct (open_from_middle a (Z.to_nat (slots_left a e')) e' Hx) as (k & Hk & Ho); [lia|].
    exists k. split; [lia|done]. }
  assert (∀ e n, e mod 65536 <= 49152 → (10 <= n)%nat → first_open a n e) as Hlow.
  { intros e' [|n] Hx Hn; [lia|]. destruct (decide (16384 <= e' mod 65536)); [apply Hmid; lia|].
    apply first_open_step, Hmid; [|lia]. unfold delay_at. if_false. if_true. lia. }
  destruct (decide (e mod 65536 <= 49152)); [apply Hlow; lia|].
  apply first_open_step, Hlow; [|lia]. unfold delay_at. if_true. lia.
Qed.

(** ** From the program to the elapsed time *)

Section schedule.
Context (s : awdl_state) (Hs : sync_ok (st_sync s)).

Lemma slot_elapsed now :
  awdl_sync_current_eaw now (st_sync s) mod 16 = slot_of (aw_counter (st_sync s) / 4) (elapsed now (st_sync s)).
Proof.
  rewrite current_eaw_eq by done. unfold slot_of, u16. destruct Hs as [_ _ Hc Ha _].
  pose proof (elapsed_range now (st_sync s)) as He. unfold is_u64, is_u16 in *.
  change (2 ^ 16) with 65536 in *. set (e := elapsed now (st_sync s)) in *. set (c := aw_counter (st_sync s)) in *.
  clearbody e c. lia.
Qed.

Lemma can_send_multicast_eq now :
  awdl_can_send_in s now AWDL_MULTICAST_GUARD_TU =
    if 49152 <? in_eaw now s then Qopp (usec_to_sec (in_eaw now s - 49152))
    else if in_eaw now s <? 16384 then usec_to_sec (16384 - in_eaw now s) else 0%Q.
Proof.
  unfold AWDL_MULTICAST_GUARD_TU. rewrite can_send_in_eq by (done || lia).
  replace (65536 - in_eaw now s <? 1024 * 16) with (49152 <? in_eaw now s) by lia.
  replace (1024 * 16 - (65536 - in_eaw now s)) with (in_eaw now s - 49152) by lia. done.
Qed.

Lemma multicast_now_open now :
  multicast_now s now ↔ open_at (aw_counter (st_sync s) / 4) (elapsed now (st_sync s)).
Proof.
  unfold multicast_now, awdl_is_multicast_eaw, open_at. rewrite can_send_multicast_eq.
  change (Z.of_nat AWDL_CHANSEQ_LENGTH) with 16. rewrite slot_elapsed. fold (in_eaw now s).
  generalize (slot_of (aw_counter (st_sync s) / 4) (elapsed now (st_sync s))). intros k.
  split_ifs; unfold usec_to_sec, Qopp, Qeq; cbn [Qnum Qden]; lia.
Qed.

Lemma retry_usec now :
  sec_to_usec (multicast_retry s now) = delay_at (elapsed now (st_sync s)).
Proof.
  unfold multicast_retry, delay_at. rewrite can_send_multicast_eq. fold (in_eaw now s).
  pose proof (in_eaw_range now s) as Hr. set (x := in_eaw now s) in *. clearbody x.
  destruct (49152 <? x) eqn:E1; [|destruct (x <? 16384) eqn:E2].
  - destruct (Qeq_bool _ 0) eqn:Ez; [apply Qeq_bool_eq in Ez; unfold Qeq in Ez; simpl in Ez; lia|].
    unfold retry_after. destruct (Qle_bool 0 _) eqn:El; [apply Qle_bool_iff in El; unfold Qle in El; simpl in El; lia|].
    unfold sec_to_usec, usec_to_sec, Qplus, Qopp. cbn [Qnum Qden].
    change (ieee80211_tu_to_usec AWDL_MULTICAST_GUARD_TU) with 16384.
    replace ((- - (x - 49152) * Z.pos 1000000 + 16384 * Z.pos 1000000) * 1000000)
      with ((x - 32768) * Z.pos (1000000 * 1000000)) by lia.
    rewrite Z.quot_mul by lia. apply u64_id. int_lia.
  - destruct (Qeq_bool _ 0) eqn:Ez; [apply Qeq_bool_eq in Ez; unfold Qeq in Ez; simpl in Ez; lia|].
    unfold retry_after. destruct (Qle_bool 0 _) eqn:El.
    + apply sec_usec. int_lia.
    + assert (Qle_bool 0 (usec_to_sec (16384 - x)) = true) by (apply Qle_bool_iff; unfold Qle; simpl; lia).
      congruence.
  - apply sec_usec. int_lia.
Qed.

Lemma delay_at_range e : 0 < delay_at e <= 65536.
Proof. unfold delay_at. split_ifs; lia. Qed.

(** The attempts follow the elapsed time. *)
Lemma tries_elapsed n now :
  elapsed now (st_sync s) + 65536 * Z.of_nat n < 2 ^ 64 →
  (∀ m, (m < n)%nat →
     ¬ open_at (aw_counter (st_sync s) / 4) (Nat.iter m (λ e, e + delay_at e) (elapsed now (st_sync s)))) →
  elapsed (Nat.iter n (next_try s) now) (st_sync s) =
    Nat.iter n (λ e, e + delay_at e) (elapsed now (st_sync s)).
Proof.
  revert now. induction n as [|n IH]; intros now Hlt Hm; [done|].
  rewrite !Nat.iter_succ_r. pose proof (delay_at_range (elapsed now (st_sync s))) as Hd.
  assert (elapsed (next_try s now) (st_sync s) = elapsed now (st_sync s) + delay_at (elapsed now (st_sync s))) as He.
  { unfold next_try. rewrite retry_usec. apply elapsed_add; lia. }
  rewrite IH; rewrite He; [done|lia|].
  intros m Hlm. specialize (Hm (S m) ltac:(lia)). by rewrite Nat.iter_succ_r in Hm.
Qed.

(** At most eleven expirations of the timer lead to a multicast window. *)
Lemma multicast_comes now :
  elapsed now (st_sync s) + 720896 < 2 ^ 64 →
  ∃ n, (n <= 11)%nat ∧ multicast_now s (Nat.iter n (next_try s) now) ∧
    ∀ m, (m < n)%nat → ¬ multicast_now s (Nat.iter m (next_try s) now).
Proof.
  intros Hlt. pose proof (elapsed_range now (st_sync s)) as He. unfold is_u64 in He.
  destruct (open_from_anywhere (aw_counter (st_sync s) / 4) (elapsed now (st_sync s))) as (n & Hn & Ho & Hm); [lia|].
  exists n. split; [done|]. split.
  - rewrite multicast_now_open, tries_elapsed; [done|lia|done].
  - intros m Hlm. rewrite multicast_now_open, tries_elapsed; [by apply Hm|lia|]. intros m' ?. apply Hm. lia.
Qed.
End schedule.
