(* ===== verification/EndToEnd.v ===== *)
(** * EndToEnd: from one host to another (src/daemon/core.c, src/tx.c, src/rx.c)

    Two daemons: the packet the host of one of them writes to its device is
    polled, put into a data frame and injected; the radio of the other one
    receives the frame, behind the radiotap header of its own card, and its
    daemon writes the packet to its host. *)

From Stdlib Require Import ZArith QArith Lia ZifyBool.
From stdpp Require Import base tactics numbers list gmap.
From S2P Require Import Prelude Wire CircularBuffer HashMap Sync Channel Election Peers ElectionRun.
From S2P Require Import State Schedule Frame Radiotap Tx Rx TxRx Amsdu Io Daemon DaemonRun DaemonTimers DaemonSafe.

Local Open Scope Z_scope.

(** ** The sender *)

(** A packet the host may hand over: an Ethernet frame to one other node. *)
Record packet_to (s : awdl_state) (l : list Z) : Prop := {
  pt_bytes : bytes_ok l;
  pt_len : 14 <= Z.of_nat (length l) <= ETHER_MAX_LEN;
  pt_unicast : is_multicast l = false;
  pt_other : take 6 l ≠ self_address s }.

(** The schedule lets [s] send to [peer] now. *)
Definition window_open (s : awdl_state) (peer : awdl_peer) (now : Z) : Prop :=
  ∃ delay, awdl_can_send_unicast_in s peer now AWDL_UNICAST_GUARD_TU = Some delay ∧ (delay == 0)%Q.

Section sender.
Context `{CallocEnv} `{MallocEnv} `{RxEnvOk} `{IoEnv} `{StackEnvOk} `{RadiotapOk}.

Lemma host_to_air w P q l rest peer now1 now2 :
  daemon_ok (w_daemon w) P q → (length q < 16)%nat → d_next (w_daemon w) = None →
  host_fd (d_io (w_daemon w)) ≠ 0 → wlan_handle (d_io (w_daemon w)) ≠ 0 →
  w_pending w = inr l :: rest → Forall read_ok rest →
  let s := d_awdl (w_daemon w) in
  packet_to s l → P !! take 6 l = Some peer → window_open s peer now2 →
  ∃ w', host_device_ready w now1 now2 = Done w' ∧ daemon_ok (w_daemon w') P q ∧
    d_next (w_daemon w') = None ∧ w_pending w' = rest ∧
    w_trace w' = w_trace w ++ [PcapInject (data_frame_for s (d_ieee80211 (w_daemon w)) l); FeedHost].
Proof.
  intros Hd Hq Hn Hfd Hh Hp Hr s [Hb Hl Hu Ho] HP (delay & Hdel & Hz).
  unfold host_device_ready. assert (Forall read_ok (w_pending w)) as Hrp by (rewrite Hp; by constructor).
  pose proof (poll_correct (poll_fuel (w_daemon w)) w P q 0 Hd Hfd Hrp Hn) as Hpoll.
  unfold poll_fuel, circular_buf_capacity in *. rewrite (dok_cap _ _ _ Hd) in *. specialize (Hpoll ltac:(lia)).
  destruct (16 - length q)%nat as [|room] eqn:Hroom; [lia|]. rewrite Hp in Hpoll. cbn [poll_spec] in Hpoll.
  rewrite take_ge in Hpoll by (unfold ETHER_MAX_LEN in *; lia). replace (length l <? 6)%nat with false in Hpoll by lia.
  rewrite Hu in Hpoll. destruct Hpoll as (ms & nb & c & -> & Hd1 & Hms & Hnb).
  apply fmap_nil_inv in Hms as ->. rewrite app_nil_r in Hd1. destruct nb as [b|]; [|done]. injection Hnb as Hnb.
  cbn [mbind outcome_bind]. change (has_flag _ POLL_NEW_MULTICAST) with false.
  change (has_flag _ POLL_NEW_UNICAST) with true. cbv iota. cbn [mbind outcome_bind].
  set (w1 := mk_world _ _ _).
  destruct (send_unicast_spec w1 P q now2 Hd1) as (w' & -> & Hs).
  assert (unicast_step w1 P now2 (emit FeedHost (drop_next (after_send incr_tx_unicast b w1)))) as Hs'.
  { apply (unicast_send w1 P now2 b peer delay); unfold dst_of; rewrite ?Hnb; done. }
  pose proof (unicast_step_det w1 P now2 _ _ Hs Hs') as ->. eexists. split; [reflexivity|].
  split; [exact (unicast_step_ok w1 P now2 _ q Hd1 Hs')|]. unfold after_send.
  assert ((b_len b <? 14) = false) as Hbl.
  { destruct (dok_next _ _ _ Hd1 b eq_refl) as [W _]. rewrite <- (contents_length b W), Hnb. lia. }
  rewrite Hbl. split; [done|]. split; [done|]. cbn. unfold wlan_send. rewrite (proj2 (Z.eqb_neq _ _) Hh), Hnb.
  cbn [fst]. by rewrite <- app_assoc.
Qed.
End sender.

(** ** The receiver *)

Section receiver.
Context `{CallocBounded} `{MallocOk} `{RxEnvOk} `{IoEnv} `{StackEnv} `{RadiotapOk}.

Lemma air_to_host w Q q packet sent rssi flags tsft s ieee l :
  daemon_ok (w_daemon w) Q q → host_fd (d_io (w_daemon w)) ≠ 0 →
  bytes_ok l → 14 <= Z.of_nat (length l) <= ETHER_MAX_LEN → sent = data_frame_for s ieee l →
  received (buf_of packet) (on_air sent (Z.of_nat (length sent))) rssi flags →
  has_flag flags IEEE80211_RADIOTAP_F_FCS = ieee_fcs ieee →
  let src := take 6 (drop 6 l) in
  src ≠ self_address (d_awdl (w_daemon w)) → is_Some (Q !! src) →
  ∃ w' out, wlan_device_ready w (Some packet) tsft = Done w' ∧ daemon_ok (w_daemon w') Q q ∧
    (w_pending w' = w_pending w ∧ d_io (w_daemon w') = d_io (w_daemon w) ∧
     same_node (d_awdl (w_daemon w)) (d_awdl (w_daemon w'))) ∧
    w_trace w' = w_trace w ++ [HostWrite out; FeedWlan] ∧
    take (length l) out = take 12 l ++ be_bytes 2 ETH_P_IPV6 ++ drop 14 l.
Proof.
  intros Hd Hfd Hb Hl -> Hrcv Hflag src Hne Hsrc. unfold ETHER_MAX_LEN in Hl.
  destruct (rx_data_frame (daemon_hooks (d_io (w_daemon w))) src (take 6 l) (drop 14 l) (ieee_fcs ieee)
    (ieee_sequence_number ieee) (sequence_number s) [] (buf_of packet) rssi flags tsft (d_awdl (w_daemon w)) Q (w_trace w))
    as (b & s' & Hrx & Hs' & W & _ & Hc); try done.
  - split; [unfold src; rewrite length_take, length_drop; lia|by apply Forall_take, Forall_drop].
  - split; [rewrite length_take; lia|by apply Forall_take].
  - unfold out_room, data_arr, MAX_NUM_AMPDU. lia.
  - rewrite length_drop. lia.
  - rewrite app_nil_r. exact Hrcv.
  - apply Hd.
  - unfold wlan_device_ready, awdl_receive_frame, buf_new_const. if_false. cbn [of_option mbind outcome_bind fst snd].
    change (mk_buf packet 0 0 (Z.of_nat (length packet)) false) with (buf_of packet). rewrite Hrx.
    cbn [mbind outcome_bind]. change (RX_OK =? RX_OK) with true. cbv iota. rewrite deliver_spec by (by constructor). cbn [fold_left mbind outcome_bind].
    assert (same_node (d_awdl (w_daemon w)) s') as Hsame.
    { destruct (rx_total (daemon_hooks (d_io (w_daemon w))) (buf_of packet) tsft (d_awdl (w_daemon w)) Q (w_trace w)
        (rcv_wf _ _ _ _ Hrcv) (dok_state _ _ _ Hd)) as [[E _]|(? & ? & ? & ? & E & _ & _ & _ & _ & Hn & _)]; rewrite Hrx in E; [done|]. injection E as _ <- _ _. exact Hn. }
    eexists _, (contents b). split; [reflexivity|]. split; [by eapply daemon_ok_awdl|]. split; [done|].
    split; [cbn; unfold host_send; rewrite (proj2 (Z.eqb_neq _ _) Hfd); cbn; by rewrite <- app_assoc|].
    rewrite length_drop in Hc. replace (14 + (length l - 14))%nat with (length l) in Hc by lia. rewrite Hc.
    rewrite app_assoc. unfold src. f_equal. exact (take_take_drop l 6 6).
Qed.
End receiver.

(** ** Both *)

Section link.
Context `{CallocBounded} `{MallocOk} `{RxEnvOk} `{IoEnv} `{StackEnvOk} `{RadiotapOk}.

(** C3: a packet travels from host to host.  If the device of one daemon has
    a packet for a peer and the schedule lets it send, handling the event
    takes the packet off the device and injects one frame.  Whatever
    radiotap header the card of the other node puts in front of that frame
    (any that does not report a bad checksum and says whether the frame ends in
    one), a daemon that knows the sender handles its
    reception by writing one packet to its host: addresses and payload are
    those of the original, and the whole packet is the original if it was
    IPv6; behind it are the bytes up to the fixed length of the buffer.
    Both daemons stay well formed. *)
Theorem unicast_end_to_end wa P qa l rest peer now1 now2 wb Q qb :
  daemon_ok (w_daemon wa) P qa → (length qa < 16)%nat → d_next (w_daemon wa) = None →
  host_fd (d_io (w_daemon wa)) ≠ 0 → wlan_handle (d_io (w_daemon wa)) ≠ 0 →
  w_pending wa = inr l :: rest → Forall read_ok rest → packet_to (d_awdl (w_daemon wa)) l →
  P !! take 6 l = Some peer → window_open (d_awdl (w_daemon wa)) peer now2 →
  daemon_ok (w_daemon wb) Q qb → host_fd (d_io (w_daemon wb)) ≠ 0 →
  take 6 (drop 6 l) ≠ self_address (d_awdl (w_daemon wb)) → is_Some (Q !! take 6 (drop 6 l)) →
  ∃ wa' sent, handle (HostReady now1 now2) wa = Done wa' ∧ daemon_ok (w_daemon wa') P qa ∧
    w_pending wa' = rest ∧ w_trace wa' = w_trace wa ++ [PcapInject sent; FeedHost] ∧
    (∀ packet rssi flags tsft, received (buf_of packet) (on_air sent (Z.of_nat (length sent))) rssi flags →
     has_flag flags IEEE80211_RADIOTAP_F_FCS = ieee_fcs (d_ieee80211 (w_daemon wa)) →
     ∃ wb' out, handle (WlanReady (Some packet) tsft) wb = Done wb' ∧ daemon_ok (w_daemon wb') Q qb ∧
       w_trace wb' = w_trace wb ++ [HostWrite out; FeedWlan] ∧
       take (length l) out = take 12 l ++ be_bytes 2 ETH_P_IPV6 ++ drop 14 l ∧
       (take 2 (drop 12 l) = be_bytes 2 ETH_P_IPV6 → take (length l) out = l)).
Proof.
  intros Ha Hq Hn Hfd Hh Hp Hr Hl HP Hw Hb Hfdb Hne Hsrc.
  destruct (host_to_air wa P qa l rest peer now1 now2) as (wa' & Hwa & Ha' & _ & Hpa & Htr); try done.
  eexists wa', _. split; [exact Hwa|]. split; [done|]. split; [done|]. split; [exact Htr|].
  intros packet rssi flags tsft Hrcv Hflag.
  destruct (air_to_host wb Q qb packet (data_frame_for (d_awdl (w_daemon wa)) (d_ieee80211 (w_daemon wa)) l) rssi flags tsft
    (d_awdl (w_daemon wa)) (d_ieee80211 (w_daemon wa)) l)
    as (wb' & out & Hwb & Hb' & _ & Htrb & Hout); try done; [apply Hl..|].
  exists wb', out. split_and!; [done..|]. intros Ht. rewrite Hout, <- Ht.
  rewrite (app_assoc (take 12 l)), (take_take_drop l 12 2). apply take_drop.
Qed.
End link.

(** ** Two concrete daemons *)

(** What a card without extras delivers for [sent]. *)
Definition card (sent : list Z) : list Z := plain_radiotap ++ @on_air rt_standard sent (Z.of_nat (length sent)).

Lemma card_received sent : bytes_ok sent → (length sent <= 1000)%nat →
  @received sample_rx_env rt_standard (buf_of (card sent)) (@on_air rt_standard sent (Z.of_nat (length sent))) 0 0.
Proof.
  intros Hb Hl. set (mpdu := @on_air rt_standard sent _).
  assert (bytes_ok mpdu) as Hm by (by apply Forall_drop, Forall_take).
  assert (length mpdu <= 1000)%nat as Hml by (unfold mpdu, on_air; rewrite length_drop, length_take; lia).
  assert (bytes_ok (plain_radiotap ++ mpdu)) as Hc.
  { apply Forall_app. split; [|done]. apply (bool_decide_unpack _). vm_compute. exact I. }
  assert (Z.of_nat (length (plain_radiotap ++ mpdu)) <= INT_MAX) as Hi.
  { rewrite length_app. unfold INT_MAX. simpl. lia. }
  apply (air_received plain_radiotap (sent, Z.of_nat (length sent))); try done.
  unfold air, radiotap_parse. cbn [fst snd]. fold mpdu. rewrite (proj2 (buf_of_wf _ Hc Hi)). clearbody mpdu.
  assert (forallb (λ b, (0 <=? b) && (b <? 256)) mpdu = true) as Hf.
  { apply forallb_forall. intros x Hx%list_elem_of_In. rewrite Forall_forall in Hm. specialize (Hm x Hx). int_lia. }
  cbn -[Z.leb Z.of_nat rt_standard_fields]. rewrite Hf, take_0.
  replace (_ <=? Z.of_nat _) with true by (symmetry; apply Z.leb_le; simpl; lia). reflexivity.
Qed.

(** A peer at the address of [receiver], on channel 6 all the time. *)
Definition near_peer : awdl_peer :=
  mk_peer sample_self 5 self_state (replicate 16 CHAN_OPCLASS_6) 0 (replicate 65 0) (replicate 3 0) [] 0x34 1 0 1 1.

Definition sender_state : awdl_state := with_peers (one_peer sample_self near_peer) sample_state.

Definition sample_packet : list Z := sample_self ++ sample_key ++ [0x86; 0xdd; 7; 7; 7; 7].

Definition sender_world : world :=
  mk_world (mk_daemon sample_io sender_state ieee80211_init_state None (sample_ring []) false) [] [inr sample_packet].
Definition receiver_world : world := mk_world (sample_daemon None []) [] [].

(** What the card of the receiver delivers. *)
Definition heard_packet : list Z :=
  plain_radiotap ++ @on_air rt_standard (@data_frame_for rt_standard sender_state ieee80211_init_state sample_packet) 53.

Lemma sender_ok : daemon_ok (w_daemon sender_world) {[ sample_self := near_peer ]} [].
Proof.
  assert (peers_ok {[ sample_self := near_peer ]}) as Hp.
  { intros k p [<- <-]%lookup_singleton_Some. constructor; try done; [apply self_state_ok|apply self_state_ok]. }
  assert (peers_rep (one_peer sample_self near_peer) {[ sample_self := near_peer ]}) as R.
  { apply one_peer_rep. vm_compute. reflexivity. }
  constructor.
  - destruct sample_state_ok. constructor; try done.
  - split; reflexivity || discriminate.
  - apply sample_ring_rep. simpl. lia.
  - reflexivity.
  - constructor.
  - discriminate.
Qed.

Lemma unicast_end_to_end_witness :
  ∃ wb' out,
    @handle small_calloc sample_malloc sample_rx_env sample_io_env sample_stack rt_standard
      (WlanReady (Some heard_packet) 9000) receiver_world = Done wb' ∧
    w_trace wb' = [HostWrite out; FeedWlan] ∧ take (length sample_packet) out = sample_packet.
Proof.
  destruct (@unicast_end_to_end small_calloc small_calloc_bounded sample_malloc sample_malloc_ok sample_rx_env
    sample_rx_env_ok sample_io_env sample_stack sample_stack_ok rt_standard rt_standard_ok
    sender_world {[ sample_self := near_peer ]} [] sample_packet [] near_peer 20000 20000
    receiver_world {[ sample_key := sample_peer ]} []) as (wa' & sent & Ha & _ & _ & Htr & Hlink).
  - exact sender_ok.
  - simpl. lia.
  - reflexivity.
  - discriminate.
  - discriminate.
  - reflexivity.
  - constructor.
  - constructor; [solve_list|simpl; unfold ETHER_MAX_LEN; lia|reflexivity|discriminate].
  - apply lookup_singleton_eq.
  - exists 0%Q. split; [vm_compute; reflexivity|reflexivity].
  - apply sample_daemon_ok; [simpl; lia|constructor|discriminate].
  - discriminate.
  - discriminate.
  - rewrite lookup_singleton_eq. eauto.
  - assert (sent = @data_frame_for rt_standard sender_state ieee80211_init_state sample_packet) as ->.
    { vm_compute in Ha. injection Ha as <-. vm_compute in Htr. injection Htr as <-. vm_compute. reflexivity. }
    destruct (Hlink heard_packet 0 0 9000) as (wb' & out & Hb & _ & Htrb & _ & Hout).
    + apply (air_received plain_radiotap (@data_frame_for rt_standard sender_state ieee80211_init_state sample_packet, 53)).
      * apply (bool_decide_unpack _). vm_compute. exact I.
      * vm_compute. discriminate.
      * vm_compute. reflexivity.
      * vm_compute. reflexivity.
      * reflexivity.
    + reflexivity.
    + exists wb', out. split; [exact Hb|]. split; [exact Htrb|]. apply Hout. reflexivity.
Defined.
