(* ===== verification/Follow.v ===== *)
(** * Follow: a node follows its master (src/daemon/core.c, src/rx.c, src/sync.c)

    Two daemons again: the periodic synchronisation frame of one of them at
    another one that has elected it as its master.  From the reception on
    both count the same availability windows, and their channel timers tune
    both radios to the same channel. *)

From Stdlib Require Import ZArith QArith Lia ZifyBool.
From stdpp Require Import base tactics numbers list gmap.
From S2P Require Import Prelude Wire CircularBuffer HashMap Sync Channel Election Peers ElectionRun.
From S2P Require Import State Schedule Frame Radiotap Tx Rx TxRx Amsdu Io Daemon DaemonRun DaemonTimers DaemonSafe EndToEnd.

Local Open Scope Z_scope.

(** The channel number the radio of [w] is on. *)
Definition radio_channel (w : world) : Z :=
  let ch := st_channel (d_awdl (w_daemon w)) in awdl_chan_num (ch_current ch) (ch_enc ch).

(** [b] at its time [tb] is where [a] is at its time [ta]: in the same
    extended window and equally far from its end. *)
Definition in_step (a b : awdl_state) (ta tb : Z) : Prop :=
  awdl_sync_current_eaw tb (st_sync b) = awdl_sync_current_eaw ta (st_sync a) ∧
  awdl_sync_next_aw_us tb (st_sync b) = awdl_sync_next_aw_us ta (st_sync a).

(** After adopting the announcement a master made at [now2], at [tsft]. *)
Lemma sync_heard_in_step el tsft sa src now2 sb sb' d :
  sync_ok (st_sync sa) → sync_ok (st_sync sb) → is_u64 tsft →
  awdl_election_is_sync_master el src = true →
  st_sync sb' = sync_heard el tsft sa now2 src (st_sync sb) →
  0 <= d → elapsed now2 (st_sync sa) + d < 2 ^ 64 →
  in_step sa sb' (u64 (now2 + d)) (u64 (tsft + elapsed now2 (st_sync sa) mod 1024 + d)).
Proof.
  intros Ha Hb Ht Hm Hs Hd Hlt. unfold in_step. rewrite Hs. unfold sync_heard. rewrite Hm.
  set (sy := mk_sync _ _ _ _ _ _). assert (sync_ok sy) as Hy by (destruct Hb; by constructor).
  destruct (follow_master now2 (st_sync sa) tsft sy d) as [Haw Hus]; [done..|].
  split; [|exact Hus]. unfold awdl_sync_current_eaw. rewrite Haw.
  assert (∀ t c, presence_mode (awdl_sync_update_last tsft t c sy) = presence_mode (st_sync sa)) as ->; [|done].
  intros t c. destruct Hy, Ha. simpl in *. congruence.
Qed.

(** The channel timer tunes to the slot of the current window. *)
Lemma chan_expired_tunes `{CallocEnv} `{MallocEnv} `{RxEnv} `{IoEnv} `{StackEnv} `{Radiotap} w P q now chan :
  daemon_ok (w_daemon w) P q →
  let s := d_awdl (w_daemon w) in
  ch_sequence (st_channel s) !! Z.to_nat (slot_at now s) = Some chan →
  awdl_chan_num chan (ch_enc (st_channel s)) ≠ 0 →
  ∃ w', handle (ChanExpired now) w = Done w' ∧ radio_channel w' = awdl_chan_num chan (ch_enc (st_channel s)).
Proof.
  intros Hd s Hc Hn. destruct (switch_channel_spec w P q now Hd) as (c & Hc' & _ & Hw).
  fold s in Hc', Hw. rewrite Hc in Hc'. injection Hc' as <-. revert Hw.
  rewrite (proj2 (Z.eqb_neq _ 0) Hn). intros Hw. eexists. split; [exact Hw|]. clear Hw. unfold radio_channel.
  destruct (awdl_chan_num chan (ch_enc (st_channel s)) =? awdl_chan_num (ch_current (st_channel s)) (ch_enc (st_channel s))) eqn:E.
  - apply Z.eqb_eq in E. symmetry. exact E.
  - reflexivity.
Qed.

Section follow.
Context `{CallocBounded} `{MallocOk} `{RxEnvOk} `{IoEnv} `{StackEnvOk} `{RadiotapOk}.

(** An action frame of a daemon. *)
Lemma action_to_air w P q type now1 now2 :
  daemon_ok (w_daemon w) P q →
  let d := w_daemon w in
  ∃ w' name blk blk' len ieee, awdl_send_action w type now1 now2 = Done w' ∧ daemon_ok (w_daemon w') P q ∧
    w_pending w' = w_pending w ∧ same_node (d_awdl d) (d_awdl (w_daemon w')) ∧
    st_sync (d_awdl (w_daemon w')) = st_sync (d_awdl d) ∧
    st_channel (d_awdl (w_daemon w')) = st_channel (d_awdl d) ∧
    name_is (d_awdl d) name ∧ (length name <= 64)%nat ∧ 1024 <= Z.of_nat (length blk) ∧
    awdl_init_full_action_frame blk (d_awdl d) (d_ieee80211 d) type now1 now2 = Some (blk', len, ieee) ∧
    w_trace w' = w_trace w ++ (if wlan_handle (d_io d) =? 0 then [] else [PcapInject (take (Z.to_nat len) blk')]) ∧
    0 <= len <= Z.of_nat (length blk').
Proof.
  intros Hd d. pose proof (dok_state _ _ _ Hd) as Hs.
  destruct (name_exists _ _ Hs) as (name & Hn & Hl).
  assert (1024 <= Z.of_nat (length stack_block)) as Hblk by (rewrite stack_length; lia).
  destruct (init_full_action_frame_spec (d_awdl d) P name stack_block (d_ieee80211 d) type now1 now2
    Hs Hn Hl Hblk) as [Heq _].
  unfold awdl_send_action. fold d. set (f := with_fcs _ _) in *. clearbody f.
  eexists _, name, stack_block, _, _, _. split.
  { rewrite Heq. cbn [of_option mbind outcome_bind]. if_false.
    rewrite load_Some by (rewrite ?length_app; lia). rewrite Nat2Z.id, drop_0, take_app_length.
    cbn [of_option mbind outcome_bind]. rewrite (surjective_pairing (wlan_send _ _ f)). reflexivity. }
  split; [eapply daemon_ok_awdl; [apply daemon_ok_ieee; [done|apply ieee_next_ok, Hd]|]; apply state_ok_count, Hd|].
  do 7 (split; [done|]). split; [exact Heq|]. rewrite Nat2Z.id, take_app_length, length_app. split; [|lia].
  cbn. unfold wlan_send. destruct (wlan_handle (d_io d) =? 0); [by rewrite app_nil_r|done].
Qed.

(** An action frame at another daemon. *)
Lemma action_heard w Q q sa P name type now1 now2 ieee blk blk' len ieee' packet rssi flags tsft :
  daemon_ok (w_daemon w) Q q → state_ok sa P → name_is sa name → (length name <= 64)%nat →
  type = AWDL_ACTION_PSF ∨ type = AWDL_ACTION_MIF →
  awdl_chan_encoding_length (ch_enc (st_channel sa)) = 2 →
  self_addr (st_election sa) = self_address sa → 1024 <= Z.of_nat (length blk) →
  awdl_init_full_action_frame blk sa ieee type now1 now2 = Some (blk', len, ieee') →
  received (buf_of packet) (on_air blk' len) rssi flags →
  has_flag flags IEEE80211_RADIOTAP_F_FCS = ieee_fcs ieee →
  let sb := d_awdl (w_daemon w) in
  self_address sa ≠ self_address sb → rssi_rejects sb (self_address sa) rssi = Some false →
  ∃ w' rc, handle (WlanReady (Some packet) tsft) w = Done w' ∧ w_pending w' = w_pending w ∧
    informed sa name type tsft now2 sb Q (d_awdl (w_daemon w')) rc ∧
    w_daemon w' = with_awdl (d_awdl (w_daemon w')) (w_daemon w) ∧
    ∀ Q', state_ok (d_awdl (w_daemon w')) Q' → daemon_ok (w_daemon w') Q' q.
Proof.
  intros Hd Hs Hn Hl Ht Henc Hself Hblk Htx Hrcv Hflag sb Hne Hrssi.
  destruct (rx_action_frame (daemon_hooks (d_io (w_daemon w))) sa P name type now1 now2 ieee blk blk' len
    ieee' (buf_of packet) rssi flags tsft sb Q (w_trace w)) as (s' & tr & rc & Hrx & Hi); try done; [apply Hd|].
  assert (rc = RX_OK ∨ rc = RX_IGNORE) as Hrc by (destruct Hi as [(-> & _)|(-> & _)]; auto).
  unfold handle, wlan_device_ready, awdl_receive_frame, buf_new_const. if_false.
  cbn [of_option mbind outcome_bind fst snd].
  change (mk_buf packet 0 0 (Z.of_nat (length packet)) false) with (buf_of packet). fold sb. rewrite Hrx.
  destruct Hrc as [-> | ->]; (eexists _, _; split; [reflexivity|]; split; [done|]; split; [exact Hi|]; split; [reflexivity|]);
    (intros Q' HQ'; by eapply daemon_ok_awdl).
Qed.

(** C6: a node follows its master.  When the timer for periodic
    synchronisation frames of a daemon (with two bytes per channel in its
    sequence) expires it injects one frame.  Whatever radiotap header the
    card of another node puts in front of it, if it does not report a bad
    checksum and says whether the frame ends in one, a daemon that knows the sender and has elected it as its master (and does
    not reject the signal) handles it and is then in step with the sender,
    for as long as the sender's clock runs without wrapping: in the same
    extended window and equally far from its end, when as much time has
    passed since the reception as since the sending, but for the part of a
    time unit the announcement cannot tell.  If both use the same sequence of
    channels the channel timers tune both radios to the same channel. *)
Theorem node_follows_master wa P qa now1 now2 wb Q qb :
  daemon_ok (w_daemon wa) P qa → wlan_handle (d_io (w_daemon wa)) ≠ 0 → daemon_ok (w_daemon wb) Q qb →
  let sa := d_awdl (w_daemon wa) in
  let sb := d_awdl (w_daemon wb) in
  awdl_chan_encoding_length (ch_enc (st_channel sa)) = 2 → self_addr (st_election sa) = self_address sa →
  self_address sa ≠ self_address sb → is_Some (Q !! self_address sa) →
  awdl_election_is_sync_master (st_election sb) (self_address sa) = true →
  ∃ wa' sent, handle (PsfExpired now1 now2) wa = Done wa' ∧ daemon_ok (w_daemon wa') P qa ∧
    w_trace wa' = w_trace wa ++ [PcapInject sent] ∧
    ∀ packet rssi flags tsft, received (buf_of packet) (on_air sent (Z.of_nat (length sent))) rssi flags →
    has_flag flags IEEE80211_RADIOTAP_F_FCS = ieee_fcs (d_ieee80211 (w_daemon wa)) → is_u64 tsft →
    rssi_rejects sb (self_address sa) rssi = Some false →
    ∃ wb' Q', handle (WlanReady (Some packet) tsft) wb = Done wb' ∧ daemon_ok (w_daemon wb') Q' qb ∧
      ∀ d, 0 <= d → elapsed now2 (st_sync sa) + d < 2 ^ 64 →
      let ta := u64 (now2 + d) in
      let tb := u64 (tsft + elapsed now2 (st_sync sa) mod 1024 + d) in
      in_step (d_awdl (w_daemon wa')) (d_awdl (w_daemon wb')) ta tb ∧
      ∀ chan, ch_sequence (st_channel sb) = ch_sequence (st_channel sa) →
        ch_enc (st_channel sb) = ch_enc (st_channel sa) →
        ch_sequence (st_channel sa) !! Z.to_nat (slot_at ta sa) = Some chan →
        awdl_chan_num chan (ch_enc (st_channel sa)) ≠ 0 →
        ∃ wa2 wb2, handle (ChanExpired ta) wa' = Done wa2 ∧ handle (ChanExpired tb) wb' = Done wb2 ∧
          radio_channel wa2 = awdl_chan_num chan (ch_enc (st_channel sa)) ∧ radio_channel wb2 = radio_channel wa2.
Proof.
  intros Ha Hh Hb sa sb Henc Hself Hne Hsrc Hm.
  destruct (action_to_air wa P qa AWDL_ACTION_PSF now1 now2 Ha) as
    (wa' & name & blk & blk' & len & ieee & Hwa & Ha' & _ & _ & Hsya & Hcha & Hn & Hl & Hblk & Htx & Htr & Hlen).
  rewrite (proj2 (Z.eqb_neq _ _) Hh) in Htr.
  eexists wa', _. split; [exact Hwa|]. split; [exact Ha'|]. split; [exact Htr|].
  intros packet rssi flags tsft Hrcv Hflag Ht Hrssi.
  assert (on_air (take (Z.to_nat len) blk') (Z.of_nat (length (take (Z.to_nat len) blk'))) = on_air blk' len) as Hair.
  { unfold on_air. rewrite length_take, Nat2Z.id, take_take. do 2 f_equal. lia. }
  rewrite Hair in Hrcv.
  destruct (action_heard wb Q qb sa P name AWDL_ACTION_PSF now1 now2 (d_ieee80211 (w_daemon wa)) blk blk' len ieee packet rssi flags tsft)
    as (wb' & rc & Hwb & _ & Hi & _ & Hb'); try done; [apply Ha|by left|].
  destruct Hi as [(_ & Hsyb & Hchb & _ & p & Hok & _ & _)|(_ & Hnone & _)];
    [|destruct Hsrc as [? Hsome]; congruence].
  apply Hb' in Hok as Hdb. clear Hb'. rename Hdb into Hb'.
  exists wb', (<[self_address sa := p]> Q). split; [exact Hwb|]. split; [exact Hb'|]. intros d Hd Hlt ta tb.
  assert (in_step (d_awdl (w_daemon wa')) (d_awdl (w_daemon wb')) ta tb) as Hstep.
  { destruct (sync_heard_in_step (st_election sb) tsft sa (self_address sa) now2 sb (d_awdl (w_daemon wb')) d)
      as [He Hu]; [apply Ha|apply Hb|done..|]. unfold in_step. rewrite Hsya. done. }
  split; [exact Hstep|]. intros chan Hseq Hencs Hc Hnum. destruct Hstep as [He _].
  destruct (chan_expired_tunes wa' P qa ta chan Ha') as (wa2 & Hwa2 & Hra).
  { unfold slot_at. rewrite Hcha, Hsya. exact Hc. }
  { by rewrite Hcha. }
  destruct (chan_expired_tunes wb' _ qb tb chan Hb') as (wb2 & Hwb2 & Hrb).
  { unfold slot_at. rewrite Hchb, He, Hsya. fold sb. rewrite Hseq. exact Hc. }
  { rewrite Hchb. fold sb. by rewrite Hencs. }
  exists wa2, wb2. split; [exact Hwa2|]. split; [exact Hwb2|]. rewrite Hra, Hrb, Hcha, Hchb.
  fold sb. rewrite Hencs. done.
Qed.
End follow.

(** ** Two concrete daemons *)

(** [receiver] once it follows [sample_key]. *)
Definition slave_world : world :=
  mk_world (with_awdl (with_election
    (mk_election sample_key sample_key sample_self 1 60 60 0 0) receiver) (sample_daemon None [])) [] [].

Lemma slave_ok : daemon_ok (w_daemon slave_world) {[ sample_key := sample_peer ]} [].
Proof.
  assert (addr_ok sample_key) as Hk by apply (sok_self _ _ sample_state_ok). pose proof receiver_addr_ok as Hs.
  constructor.
  - destruct receiver_ok. constructor; try done.
  - split; reflexivity || discriminate.
  - apply (sample_ring_rep []). simpl. lia.
  - reflexivity.
  - constructor.
  - discriminate.
Qed.

(** The frame the sender injects, and what the card of the other one delivers. *)
Definition sent_psf : list Z :=
  match @awdl_init_full_action_frame rt_standard (replicate 1024 0) sender_state ieee80211_init_state AWDL_ACTION_PSF
          5000 5001 with
  | Some (blk, len, _) => take (Z.to_nat len) blk
  | None => []
  end.
Definition heard_psf : list Z := plain_radiotap ++ @on_air rt_standard sent_psf (Z.of_nat (length sent_psf)).

Lemma psf_sent :
  match @handle small_calloc sample_malloc sample_rx_env sample_io_env sample_stack rt_standard
    (PsfExpired 5000 5001) sender_world with
  | Done w => w_trace w = [PcapInject sent_psf]
  | _ => False
  end.
Proof. vm_compute. reflexivity. Qed.

Lemma node_follows_master_witness :
  ∃ wa' wb' wb2,
    @handle small_calloc sample_malloc sample_rx_env sample_io_env sample_stack rt_standard
      (PsfExpired 5000 5001) sender_world = Done wa' ∧
    @handle small_calloc sample_malloc sample_rx_env sample_io_env sample_stack rt_standard
      (WlanReady (Some heard_psf) 9000) slave_world = Done wb' ∧
    in_step (d_awdl (w_daemon wa')) (d_awdl (w_daemon wb')) 75001 (9000 + elapsed 5001 (st_sync sender_state) mod 1024 + 70000) ∧
    @handle small_calloc sample_malloc sample_rx_env sample_io_env sample_stack rt_standard
      (ChanExpired (9000 + elapsed 5001 (st_sync sender_state) mod 1024 + 70000)) wb' = Done wb2 ∧
    radio_channel wb2 = 6.
Proof.
  destruct (@node_follows_master small_calloc small_calloc_bounded sample_malloc sample_malloc_ok sample_rx_env
    sample_rx_env_ok sample_io_env sample_stack sample_stack_ok rt_standard rt_standard_ok
    sender_world {[ sample_self := near_peer ]} [] 5000 5001 slave_world {[ sample_key := sample_peer ]} [])
    as (wa' & sent & Ha & _ & Htr & Hlink).
  - exact sender_ok.
  - discriminate.
  - exact slave_ok.
  - reflexivity.
  - reflexivity.
  - discriminate.
  - rewrite lookup_singleton_eq. eauto.
  - reflexivity.
  - pose proof psf_sent as Hs. rewrite Ha, Htr in Hs.
    apply (f_equal (λ t, match t with [PcapInject bytes] => bytes | _ => [] end)) in Hs.
    change (sent = sent_psf) in Hs. subst sent.
    destruct (Hlink heard_psf 0 0 9000) as (wb' & Q' & Hb & _ & Hd).
    + apply (air_received plain_radiotap (sent_psf, Z.of_nat (length sent_psf))).
      * apply (bool_decide_unpack _). vm_compute. exact I.
      * vm_compute. discriminate.
      * vm_compute. reflexivity.
      * vm_compute. reflexivity.
      * reflexivity.
    + reflexivity.
    + int_lia.
    + reflexivity.
    + destruct (Hd 70000) as [Hstep Hch]; [lia|vm_compute; reflexivity|].
      destruct (Hch CHAN_OPCLASS_6) as (wa2 & wb2 & _ & Hwb2 & Hra & Hrb); [reflexivity|reflexivity|vm_compute; reflexivity|discriminate|].
      exists wa', wb', wb2. split; [exact Ha|]. split; [exact Hb|]. split; [exact Hstep|].
      split; [exact Hwb2|]. rewrite Hrb. exact Hra.
Defined.
