(* ===== verification/Multicast.v ===== *)
(** * Multicast: packets for everybody (src/daemon/core.c, src/schedule.c, src/rx.c)

    A host hands multicast packets to its daemon, which queues them and sends
    them, one after the other, in the multicast windows its timer leads to;
    the daemons that hear the frames write the packets to their hosts, in the
    same order. *)

From Stdlib Require Import ZArith QArith Lia ZifyBool.
From stdpp Require Import base tactics numbers list gmap.
From S2P Require Import Prelude Wire CircularBuffer HashMap Sync Channel Election Peers ElectionRun.
From S2P Require Import State Schedule Frame Radiotap Tx Rx TxRx Amsdu Io Daemon DaemonRun DaemonTimers DaemonSafe DaemonLive EndToEnd.

Local Open Scope Z_scope.

(** ** The timer *)

(** The delay the last handler asked for. *)
Definition asked (w : world) : option Q :=
  match last (w_trace w) with Some (TimerStart TX_MCAST_TIMER after _) => Some after | _ => None end.

(** At most [k] expirations of the timer, each at the time it was set to, the
    last of which was at [now]; it ends when the timer is not set. *)
Fixpoint expirations `{CallocEnv} `{MallocEnv} `{RxEnv} `{IoEnv} `{StackEnv} `{Radiotap} (k : nat) (w : world) (now : Z) : outcome world :=
  match k, asked w with
  | S k, Some after =>
      let now := u64 (now + sec_to_usec after) in
      w ← handle (TxMcastExpired now) w;
      expirations k w now
  | _, _ => Done w
  end.

(** The frames injected, in order. *)
Definition injected (l : trace) : list (list Z) :=
  omap (λ e, match e with PcapInject bs => Some bs | _ => None end) l.

Lemma injected_app l1 l2 : injected (l1 ++ l2) = injected l1 ++ injected l2.
Proof. apply omap_app. Qed.

(** [f] is a data frame with the packet [l]. *)
Definition frame_with `{Radiotap} (fcs : bool) (f l : list Z) : Prop :=
  ∃ s ieee, ieee_fcs ieee = fcs ∧ f = data_frame_for s ieee l.

Lemma asked_emit w after r : asked (emit (TimerStart TX_MCAST_TIMER after r) w) = Some after.
Proof. unfold asked, emit. cbn. by rewrite last_snoc. Qed.

Lemma asked_feed w : asked (emit FeedHost w) = None.
Proof. unfold asked, emit. cbn. by rewrite last_snoc. Qed.

Section sender.
Context `{CallocEnv} `{MallocEnv} `{RxEnv} `{IoEnv} `{StackEnvOk} `{RadiotapOk}.

(** Sending at [now] and at up to [k] expirations after it ends in [w2]. *)
Definition serves (w : world) (now : Z) (k : nat) (w2 : world) : Prop :=
  ∃ w1, awdl_send_multicast w now = Done w1 ∧ expirations k w1 now = Done w2.

Lemma serves_wait w P b q now k w2 :
  daemon_ok (w_daemon w) P (b :: q) → ¬ multicast_now (d_awdl (w_daemon w)) now →
  serves (emit (TimerStart TX_MCAST_TIMER (multicast_retry (d_awdl (w_daemon w)) now) 0) w)
    (next_try (d_awdl (w_daemon w)) now) k w2 →
  serves w now (S k) w2.
Proof.
  intros Hd Hno (w1 & Hs & Hx). destruct (send_multicast_spec w P (b :: q) now Hd) as (w' & q' & E & Hstep).
  inversion Hstep; subst; [done|]. eexists. split; [exact E|]. cbn [expirations]. rewrite asked_emit.
  fold (next_try (d_awdl (w_daemon w)) now). cbn [handle]. rewrite Hs. exact Hx.
Qed.

(** The times of [n] attempts from [now] on, and what an attempt that only
    waits does. *)
Fixpoint tries (s : awdl_state) (n : nat) (now : Z) : list Z :=
  match n with O => [] | S n => now :: tries s n (next_try s now) end.
Definition wait (s : awdl_state) (t : Z) : event := TimerStart TX_MCAST_TIMER (multicast_retry s t) 0.

Lemma waits_inject s ts : injected (wait s <$> ts) = [].
Proof. by induction ts. Qed.

Lemma serves_waits n : ∀ w P b q now,
  daemon_ok (w_daemon w) P (b :: q) →
  let s := d_awdl (w_daemon w) in
  (∀ m, (m < n)%nat → ¬ multicast_now s (Nat.iter m (next_try s) now)) →
  ∀ k w2, serves (with_trace (w_trace w ++ (wait s <$> tries s n now)) w) (Nat.iter n (next_try s) now) k w2 →
    serves w now (n + k) w2.
Proof.
  induction n as [|n IH]; intros w P b q now Hd s Hm k w2 Hs.
  - simpl in Hs. rewrite app_nil_r in Hs. by destruct w.
  - apply (serves_wait w P b q); [done|by apply (Hm O); lia|]. fold (wait s now).
    apply (IH (emit (wait s now) w) P b q (next_try s now) Hd).
    + intros m Hlm. specialize (Hm (S m) ltac:(lia)). by rewrite Nat.iter_succ_r in Hm.
    + rewrite Nat.iter_succ_r in Hs. cbn [emit with_trace w_trace w_daemon]. rewrite <- app_assoc. exact Hs.
Qed.

(** In the window the timer is set to expire at once. *)
Lemma timer_at_once now s : multicast_now s now → is_u64 now →
  u64 (now + sec_to_usec (awdl_can_send_in s now AWDL_MULTICAST_GUARD_TU)) = now.
Proof.
  intros [_ Hz] Hu. unfold sec_to_usec. unfold Qeq in Hz. cbn [Qnum Qden] in Hz.
  replace (Qnum _) with 0 by lia. rewrite Z.mul_0_l, Z.quot_0_l by lia. change (u64 0) with 0. rewrite Z.add_0_r. by apply u64_id.
Qed.

(** What a sent frame leaves behind. *)
Lemma sent_facts b c e w :
  14 <= b_len b → wlan_handle (d_io (w_daemon w)) ≠ 0 →
  let w' := emit e (with_daemon (with_queue c (w_daemon (after_send incr_tx_multicast b w))) (after_send incr_tx_multicast b w)) in
  (∃ f, w_trace w' = w_trace w ++ [PcapInject f; e] ∧ frame_with (ieee_fcs (d_ieee80211 (w_daemon w))) f (contents b)) ∧
  d_io (w_daemon w') = d_io (w_daemon w) ∧ st_sync (d_awdl (w_daemon w')) = st_sync (d_awdl (w_daemon w)) ∧
  ieee_fcs (d_ieee80211 (w_daemon w')) = ieee_fcs (d_ieee80211 (w_daemon w)) ∧
  d_next (w_daemon w') = d_next (w_daemon w) ∧ w_pending w' = w_pending w.
Proof.
  intros Hb Hh w'. subst w'. unfold after_send. rewrite (proj2 (Z.ltb_ge _ _) Hb). split; [|done].
  eexists. split; [|by eexists _, _].
  cbn. unfold wlan_send. rewrite (proj2 (Z.eqb_neq _ _) Hh). cbn [fst]. by rewrite <- app_assoc.
Qed.

Lemma tries_time s now n :
  sync_ok (st_sync s) → is_u64 now → (n <= 11)%nat → elapsed now (st_sync s) + 720896 < 2 ^ 64 →
  (∀ m, (m < n)%nat → ¬ multicast_now s (Nat.iter m (next_try s) now)) →
  let t := Nat.iter n (next_try s) now in
  is_u64 t ∧ elapsed t (st_sync s) <= elapsed now (st_sync s) + 720896.
Proof.
  intros Hs Hu Hn Hlt Hm t.
  assert (is_u64 t) as Ht by (unfold t; destruct n; [done|apply u64_range]). split; [done|].
  assert (∀ m, (m <= n)%nat → elapsed (Nat.iter m (next_try s) now) (st_sync s) <= elapsed now (st_sync s) + 65536 * Z.of_nat m) as Hb.
  { induction m as [|m IH]; intros Hmn; [simpl; lia|]. specialize (IH ltac:(lia)). rewrite Nat.iter_succ.
    set (x := Nat.iter m (next_try s) now) in *. unfold next_try. rewrite retry_usec by done. pose proof (delay_at_range (elapsed x (st_sync s))).
    rewrite elapsed_add by lia. lia. }
  specialize (Hb n ltac:(lia)). fold t in Hb. lia.
Qed.

(** The oldest frame is sent; the rest follows. *)
Lemma head_served w P b q now :
  daemon_ok (w_daemon w) P (b :: q) → 14 <= b_len b → wlan_handle (d_io (w_daemon w)) ≠ 0 →
  is_u64 now → elapsed now (st_sync (d_awdl (w_daemon w))) + 720896 < 2 ^ 64 →
  ∃ n t w1 evs, (n <= 11)%nat ∧ is_u64 t ∧
    elapsed t (st_sync (d_awdl (w_daemon w))) <= elapsed now (st_sync (d_awdl (w_daemon w))) + 720896 ∧
    daemon_ok (w_daemon w1) P q ∧ w_trace w1 = w_trace w ++ evs ∧
    (∃ f, injected evs = [f] ∧ frame_with (ieee_fcs (d_ieee80211 (w_daemon w))) f (contents b)) ∧
    d_io (w_daemon w1) = d_io (w_daemon w) ∧ st_sync (d_awdl (w_daemon w1)) = st_sync (d_awdl (w_daemon w)) ∧
    ieee_fcs (d_ieee80211 (w_daemon w1)) = ieee_fcs (d_ieee80211 (w_daemon w)) ∧
    d_next (w_daemon w1) = d_next (w_daemon w) ∧ w_pending w1 = w_pending w ∧
    (q = [] → serves w now n w1 ∧ asked w1 = None) ∧ (q ≠ [] → ∀ k w2, serves w1 t k w2 → serves w now (n + S k) w2).
Proof.
  intros Hd Hb Hh Hu Hlt. pose proof (sok_sync _ _ (dok_state _ _ _ Hd)) as Hsy. set (s := d_awdl (w_daemon w)) in *.
  destruct (multicast_comes s Hsy now Hlt) as (n & Hn & Hnow & Hm).
  destruct (tries_time s now n Hsy Hu Hn Hlt Hm) as [Ht Hel]. set (t := Nat.iter n (next_try s) now) in *.
  pose proof (serves_waits n w P b q now Hd Hm) as Hw. fold s t in Hw. set (waits := wait s <$> tries s n now) in *.
  pose proof (waits_inject s (tries s n now)) as Hi. fold waits in Hi. clearbody waits.
  set (w0 := with_trace (w_trace w ++ waits) w) in *.
  destruct (send_multicast_spec w0 P (b :: q) t Hd) as (w1 & q' & E & Hstep).
  assert (q' = q) as -> by (inversion Hstep; subst; done).
  assert (daemon_ok (w_daemon w1) P q) as Hd1 by (eapply multicast_step_ok; [|exact Hstep]; exact Hd).
  assert (∃ c e, w1 = emit e (with_daemon (with_queue c (w_daemon (after_send incr_tx_multicast b w0))) (after_send incr_tx_multicast b w0)) ∧
    e = if decide (q = []) then FeedHost else TimerStart TX_MCAST_TIMER (awdl_can_send_in s t AWDL_MULTICAST_GUARD_TU) 0) as (c & e & -> & He).
  { inversion Hstep; subst; [eauto|done]. }
  destruct (sent_facts b c e w0 Hb Hh) as ((f & Htr & Hf) & Hio & Hsync & Hfcs & Hnext & Hpend). set (w1 := emit e _) in *.
  exists n, t, w1, (waits ++ [PcapInject f; e]). split_and!; try done.
  - rewrite Htr. cbn [w0 with_trace w_trace]. by rewrite <- app_assoc.
  - exists f. split; [|done]. rewrite injected_app, Hi. by destruct (decide (q = [])); subst e.
  - intros ->. rewrite decide_True in He by done. split; [|unfold w1; rewrite He; apply asked_feed].
    rewrite <- (Nat.add_0_r n). apply Hw. exists w1. split; [exact E|reflexivity].
  - intros Hq k w2 (w3 & E3 & Hx3). apply Hw. exists w1. split; [exact E|]. cbn [expirations].
    rewrite decide_False in He by done. unfold w1. rewrite He, asked_emit. rewrite <- He. fold w1.
    rewrite timer_at_once by done. cbn [handle]. rewrite E3. exact Hx3.
Qed.

(** The whole queue is sent, oldest frame first. *)
Lemma queue_drains q : ∀ w P b now,
  daemon_ok (w_daemon w) P (b :: q) → Forall (λ b, 14 <= b_len b) (b :: q) → wlan_handle (d_io (w_daemon w)) ≠ 0 →
  is_u64 now → elapsed now (st_sync (d_awdl (w_daemon w))) + 720896 * Z.of_nat (length (b :: q)) < 2 ^ 64 →
  ∃ k w2 evs, (k <= 12 * length (b :: q))%nat ∧ serves w now k w2 ∧ asked w2 = None ∧ daemon_ok (w_daemon w2) P [] ∧
    w_trace w2 = w_trace w ++ evs ∧ w_pending w2 = w_pending w ∧ d_next (w_daemon w2) = d_next (w_daemon w) ∧
    Forall2 (frame_with (ieee_fcs (d_ieee80211 (w_daemon w)))) (injected evs) (contents <$> b :: q).
Proof.
  induction q as [|b1 q IH]; intros w P b now Hd Hb Hh Hu Hlt; apply Forall_cons in Hb as [Hb Hq]; cbn [length] in Hlt;
    (destruct (head_served w P b _ now Hd Hb Hh Hu) as
      (n & t & w1 & evs & Hn & Ht & Hel & Hd1 & Htr & (f & Hi & Hf) & Hio & Hsy & Hfcs & Hnext & Hp & Hlast & Hmore); [lia|]).
  - exists n, w1, evs. split_and!; try done; [simpl; lia|by apply Hlast|by apply Hlast|]. rewrite Hi. by repeat constructor.
  - destruct (IH w1 P b1 t Hd1 Hq) as (k & w2 & evs2 & Hk & Hs & Hask & Hd2 & Htr2 & Hp2 & Hnext2 & Hall); try done.
    { by rewrite Hio. } { rewrite Hsy. cbn [length]. lia. }
    exists (n + S k)%nat, w2, (evs ++ evs2). split_and!; try done.
    + cbn [length] in *. lia.
    + by apply Hmore.
    + by rewrite Htr2, Htr, <- app_assoc.
    + congruence.
    + congruence.
    + rewrite injected_app, Hi. rewrite Hfcs in Hall. by constructor.
Qed.
End sender.

(** ** The host of the sender *)

(** A packet for everybody. *)
Record packet_for_all (l : list Z) : Prop := {
  pa_bytes : bytes_ok l;
  pa_len : 14 <= Z.of_nat (length l) <= ETHER_MAX_LEN;
  pa_multicast : is_multicast l = true }.

Lemma poll_all ls : ∀ room, (length ls <= room)%nat → Forall packet_for_all ls →
  poll_spec room (inr <$> ls) = (ls, None, []).
Proof.
  induction ls as [|l ls IH]; intros room Hr Hl; [by destruct room|]. apply Forall_cons in Hl as [[Hb Hlen Hm] Hl].
  destruct room as [|room]; [simpl in Hr; lia|]. cbn [poll_spec fmap list_fmap]. unfold ETHER_MAX_LEN in *.
  rewrite take_ge by lia. replace (length l <? 6)%nat with false by lia. rewrite Hm.
  change (list_fmap _ _ inr ls) with (inr (A := Z) <$> ls). rewrite IH by (done || (simpl in Hr; lia)). done.
Qed.

Section host.
Context `{CallocEnv} `{MallocEnv} `{RxEnvOk} `{IoEnv} `{StackEnvOk} `{RadiotapOk}.

Lemma hosts_to_air w P ls now1 now2 :
  daemon_ok (w_daemon w) P [] → d_next (w_daemon w) = None →
  host_fd (d_io (w_daemon w)) ≠ 0 → wlan_handle (d_io (w_daemon w)) ≠ 0 →
  w_pending w = inr <$> ls → ls ≠ [] → (length ls <= 16)%nat → Forall packet_for_all ls →
  is_u64 now1 → elapsed now1 (st_sync (d_awdl (w_daemon w))) + 720896 * Z.of_nat (length ls) < 2 ^ 64 →
  ∃ w1 k w2 evs, handle (HostReady now1 now2) w = Done w1 ∧ (k <= 12 * length ls)%nat ∧
    expirations k w1 now1 = Done w2 ∧ asked w2 = None ∧ daemon_ok (w_daemon w2) P [] ∧ w_pending w2 = [] ∧
    w_trace w2 = w_trace w ++ evs ∧ Forall2 (frame_with (ieee_fcs (d_ieee80211 (w_daemon w)))) (injected evs) ls.
Proof.
  intros Hd Hn Hfd Hh Hp Hne Hlen Hl Hu Hlt.
  assert (Forall read_ok (w_pending w)) as Hrp.
  { rewrite Hp. apply Forall_fmap. eapply Forall_impl; [exact Hl|]. by intros l []. }
  pose proof (poll_correct (poll_fuel (w_daemon w)) w P [] 0 Hd Hfd Hrp Hn) as Hpoll.
  unfold poll_fuel, circular_buf_capacity in Hpoll. rewrite (dok_cap _ _ _ Hd) in Hpoll. specialize (Hpoll ltac:(simpl; lia)).
  rewrite Hp, (poll_all ls) in Hpoll by (done || (simpl; lia)). destruct Hpoll as (ms & nb & c & Hpoll & Hd1 & Hms & Hnb).
  destruct nb; [done|]. rewrite app_nil_l in Hd1.
  destruct ms as [|m ms]; [destruct ls; done|].
  set (w1 := mk_world (with_next None (with_queue c (w_daemon w))) (w_trace w) []) in *.
  destruct (queue_drains ms w1 P m now1) as (k & w2 & evs & Hk & (w3 & Hs & Hx) & Hask & Hd2 & Htr & Hpend & _ & Hall); try done.
  { apply Forall_forall. intros b Hb. pose proof (proj1 (Forall_forall _ _) (dok_frames _ _ _ Hd1) b Hb) as [W _].
    rewrite <- (contents_length b W). rewrite Forall_forall in Hl. apply Hl. rewrite <- Hms. apply list_elem_of_fmap. eauto. }
  { rewrite <- Hms, length_fmap in Hlt. exact Hlt. }
  exists w3, k, w2, evs. split.
  { cbn [handle]. unfold host_device_ready, poll_fuel, circular_buf_capacity. rewrite (dok_cap _ _ _ Hd), Hpoll.
    cbn [mbind outcome_bind]. destruct ls as [|l ls]; [done|].
    change (has_flag _ POLL_NEW_MULTICAST) with true. change (has_flag _ POLL_NEW_UNICAST) with false. cbv iota.
    fold w1. rewrite Hs. reflexivity. }
  split; [by rewrite <- Hms, length_fmap|]. split; [exact Hx|]. split; [exact Hask|]. split; [done|]. split; [exact Hpend|]. split; [exact Htr|].
  rewrite <- Hms. exact Hall.
Qed.
End host.

(** ** The hosts of the receivers *)

(** What a card delivers of a frame, and when. *)
Record reception := mk_reception { rc_packet : list Z; rc_rssi : Z; rc_flags : Z; rc_tsft : Z }.

Definition reception_of `{RxEnv} `{Radiotap} (fcs : bool) (r : reception) (f : list Z) : Prop :=
  received (buf_of (rc_packet r)) (on_air f (Z.of_nat (length f))) (rc_rssi r) (rc_flags r) ∧
  has_flag (rc_flags r) IEEE80211_RADIOTAP_F_FCS = fcs.

Fixpoint receive_all `{CallocEnv} `{MallocEnv} `{RxEnv} `{IoEnv} `{StackEnv} `{Radiotap} (rs : list reception) (w : world) : outcome world :=
  match rs with
  | [] => Done w
  | r :: rs => w ← handle (WlanReady (Some (rc_packet r)) (rc_tsft r)) w; receive_all rs w
  end.

(** What is written to a host for the packet [l]. *)
Definition arrived (out l : list Z) : Prop :=
  take (length l) out = take 12 l ++ be_bytes 2 ETH_P_IPV6 ++ drop 14 l ∧
  (take 2 (drop 12 l) = be_bytes 2 ETH_P_IPV6 → take (length l) out = l).

Lemma ipv6_arrived out l :
  take (length l) out = take 12 l ++ be_bytes 2 ETH_P_IPV6 ++ drop 14 l → arrived out l.
Proof.
  intros Hout. split; [done|]. intros Ht. rewrite Hout, <- Ht.
  rewrite (app_assoc (take 12 l)), (take_take_drop l 12 2). apply take_drop.
Qed.

Lemma Forall_sublist {A} (P : A → Prop) l l' : sublist l' l → Forall P l → Forall P l'.
Proof. induction 1 as [|x l l' _ IH|x l l' _ IH]; rewrite ?Forall_cons; tauto. Qed.

(** Related lists, seen as a list of pairs. *)
Lemma Forall2_pairs {A B} (R : A → B → Prop) l k h :
  Forall2 R l k → sublist h (zip l k) → Forall2 R h.*1 h.*2 ∧ sublist h.*2 k.
Proof.
  intros Hall Hsub. split.
  - apply Forall2_fmap. apply Forall_Forall2_diag. eapply Forall_sublist; [exact Hsub|].
    clear Hsub. induction Hall; constructor; done.
  - rewrite <- (snd_zip l k) by (rewrite (Forall2_length _ _ _ Hall); done). by apply fmap_sublist.
Qed.

Section receivers.
Context `{CallocBounded} `{MallocOk} `{RxEnvOk} `{IoEnv} `{StackEnv} `{RadiotapOk}.

(** A packet from a peer of the daemon, not from itself. *)
Definition from_peer (w : world) (Q : gmap mkey awdl_peer) (l : list Z) : Prop :=
  let src := take 6 (drop 6 l) in src ≠ self_address (d_awdl (w_daemon w)) ∧ is_Some (Q !! src).

Lemma airs_to_host fcs rs : ∀ fs ls w Q q,
  Forall2 (reception_of fcs) rs fs → Forall2 (frame_with fcs) fs ls → Forall packet_for_all ls → Forall (from_peer w Q) ls →
  daemon_ok (w_daemon w) Q q → host_fd (d_io (w_daemon w)) ≠ 0 →
  ∃ w' outs, receive_all rs w = Done w' ∧ daemon_ok (w_daemon w') Q q ∧
    w_trace w' = w_trace w ++ concat ((λ out, [HostWrite out; FeedWlan]) <$> outs) ∧ Forall2 arrived outs ls.
Proof.
  induction rs as [|r rs IH]; intros fs ls w Q q Hr Hf Hl Hfrom Hd Hfd.
  - inversion Hr; subst. inversion Hf; subst. exists w, []. split; [done|]. split; [done|]. split; [by rewrite app_nil_r|constructor].
  - inversion Hr as [|? f ? fs' [Hrcv Hflag] Hr']; subst. inversion Hf as [|? l ? ls' (s & ieee & Hfcs & Heq) Hf']; subst.
    apply Forall_cons in Hl as [[Hb Hlen _] Hl]. apply Forall_cons in Hfrom as [[Hne Hsrc] Hfrom].
    destruct (air_to_host w Q q (rc_packet r) (data_frame_for s ieee l) (rc_rssi r) (rc_flags r) (rc_tsft r) s ieee l)
      as (w1 & out & Hw1 & Hd1 & (_ & Hio & Hsame) & Htr1 & Hout); try done.
    destruct (IH fs' ls' w1 Q q) as (w' & outs & Hw' & Hd' & Htr' & Hall); try done.
    { eapply Forall_impl; [exact Hfrom|]. intros l'. unfold from_peer. by rewrite (sn_addr _ _ Hsame). }
    { by rewrite Hio. }
    exists w', (out :: outs). split; [cbn [receive_all handle]; by rewrite Hw1|]. split; [done|].
    split; [rewrite Htr', Htr1, <- app_assoc; done|]. constructor; [by apply ipv6_arrived|done].
Qed.
End receivers.

(** ** Both *)

Section link.
Context `{CallocBounded} `{MallocOk} `{RxEnvOk} `{IoEnv} `{StackEnvOk} `{RadiotapOk}.

(** C4: multicast packets reach the hosts, in order. If up to sixteen multicast
    packets wait on the host device of an idle daemon, handling the event takes
    all of them, and at most twelve expirations of the transmission timer per
    packet, each when the daemon asked for it (before its 64-bit clock wraps),
    inject exactly one data frame with each packet, in the order of the
    packets, until queue and timer are idle again. A daemon that knows the
    senders of the packets and hears some or all of the frames (undamaged,
    behind radiotap headers that say whether the frames end in a checksum)
    writes to its host exactly the packets of the frames it heard, in the same
    order: as they were if they are IPv6, and always with the same addresses
    and payload. *)
Theorem multicast_end_to_end wa P ls now1 now2 wb Q qb :
  daemon_ok (w_daemon wa) P [] → d_next (w_daemon wa) = None →
  host_fd (d_io (w_daemon wa)) ≠ 0 → wlan_handle (d_io (w_daemon wa)) ≠ 0 →
  w_pending wa = inr <$> ls → ls ≠ [] → (length ls <= 16)%nat → Forall packet_for_all ls →
  is_u64 now1 → elapsed now1 (st_sync (d_awdl (w_daemon wa))) + 720896 * Z.of_nat (length ls) < 2 ^ 64 →
  daemon_ok (w_daemon wb) Q qb → host_fd (d_io (w_daemon wb)) ≠ 0 → Forall (from_peer wb Q) ls →
  ∃ wa1 k wa2 evs, handle (HostReady now1 now2) wa = Done wa1 ∧ (k <= 12 * length ls)%nat ∧
    expirations k wa1 now1 = Done wa2 ∧ asked wa2 = None ∧ daemon_ok (w_daemon wa2) P [] ∧ w_pending wa2 = [] ∧
    w_trace wa2 = w_trace wa ++ evs ∧
    Forall2 (frame_with (ieee_fcs (d_ieee80211 (w_daemon wa)))) (injected evs) ls ∧
    (∀ heard rs, sublist heard (zip (injected evs) ls) →
     Forall2 (reception_of (ieee_fcs (d_ieee80211 (w_daemon wa)))) rs heard.*1 →
     ∃ wb' outs, receive_all rs wb = Done wb' ∧ daemon_ok (w_daemon wb') Q qb ∧
       w_trace wb' = w_trace wb ++ concat ((λ out, [HostWrite out; FeedWlan]) <$> outs) ∧
       Forall2 arrived outs heard.*2).
Proof.
  intros Ha Hn Hfd Hh Hp Hne Hlen Hl Hu Hlt Hb Hfdb Hfrom.
  destruct (hosts_to_air wa P ls now1 now2)
    as (wa1 & k & wa2 & evs & Hrun1 & Hk & Hrun2 & Hask & Ha2 & Hp2 & Htr & Hall); try done.
  exists wa1, k, wa2, evs. split_and!; try done.
  intros heard rs Hsub Hrs. destruct (Forall2_pairs _ _ _ _ Hall Hsub) as [Hall' Hsub'].
  apply (airs_to_host _ rs heard.*1 heard.*2 wb Q qb Hrs Hall'); try done.
  - eapply Forall_sublist; [exact Hsub'|exact Hl].
  - eapply Forall_sublist; [exact Hsub'|exact Hfrom].
Qed.

(** C15: progress of the multicast queue: if the transmission timer expires
    when the handler asked for it, and the clock of the node is not corrected
    and does not wrap meanwhile, the oldest frame of the queue is handed to the
    radio in the first attempt that falls in a multicast window outside its
    guard intervals, which comes after at most eleven expirations; every
    attempt before does nothing but arm the timer for the next one. *)
Theorem multicast_progress w P b q now :
  daemon_ok (w_daemon w) P (b :: q) → 14 <= b_len b → wlan_handle (d_io (w_daemon w)) ≠ 0 →
  let s := d_awdl (w_daemon w) in
  elapsed now (st_sync s) + 720896 < 2 ^ 64 →
  ∃ n w1 w' after, (n <= 11)%nat ∧
    multicast_now s (Nat.iter n (next_try s) now) ∧
    (∀ m, (m < n)%nat → ¬ multicast_now s (Nat.iter m (next_try s) now)) ∧
    awdl_send_multicast w now = Done w1 ∧ expirations n w1 now = Done w' ∧ daemon_ok (w_daemon w') P q ∧
    w_trace w' = w_trace w ++ (wait s <$> tries s n now) ++
      [PcapInject (data_frame_for s (d_ieee80211 (w_daemon w)) (contents b)); after].
Proof.
  intros Hd Hb Hh s Hlt. pose proof (sok_sync _ _ (dok_state _ _ _ Hd)) as Hsy.
  destruct (multicast_comes s Hsy now Hlt) as (n & Hn & Hnow & Hm).
  pose proof (serves_waits n w P b q now Hd Hm 0) as Hw. fold s in Hw.
  destruct (send_multicast_spec (with_trace (w_trace w ++ (wait s <$> tries s n now)) w) P (b :: q)
    (Nat.iter n (next_try s) now) Hd) as (w' & q' & E & Hstep).
  assert (q' = q) as -> by (inversion Hstep; subst; done).
  assert (daemon_ok (w_daemon w') P q) as Hd' by (eapply multicast_step_ok; [|exact Hstep]; exact Hd).
  destruct (Hw w') as (w1 & E1 & Hx). { exists w'. split; [exact E|reflexivity]. }
  rewrite Nat.add_0_r in Hx.
  inversion Hstep as [|c ? ? ? ? ? Ew|]; subst; [|done].
  eexists n, w1, _, _. split_and!; [done..|exact Hx|exact Hd'|].
  unfold after_send. rewrite (proj2 (Z.ltb_ge _ _) Hb).
  cbn. unfold wlan_send. rewrite (proj2 (Z.eqb_neq _ _) Hh). cbn [fst]. by rewrite <- !app_assoc.
Qed.
End link.

(** ** Two concrete daemons *)

(** A packet of the node [sample_key] to all nodes of the link. *)
Definition packet_to_all : list Z := [0x33; 0x33; 0; 0; 0; 1] ++ sample_key ++ [0x86; 0xdd; 9; 9].

Definition multicaster : world :=
  mk_world (mk_daemon sample_io sender_state ieee80211_init_state None (sample_ring []) false) [] [inr packet_to_all].

Definition sent_multicast : list Z := @data_frame_for rt_standard sender_state ieee80211_init_state packet_to_all.

(** At 20000 the window is open. *)
Lemma multicast_sent :
  match @handle small_calloc sample_malloc sample_rx_env sample_io_env sample_stack rt_standard
    (HostReady 20000 20000) multicaster with
  | Done w => w_trace w = [PcapInject sent_multicast; FeedHost]
  | _ => False
  end.
Proof. vm_compute. reflexivity. Qed.

Lemma multicast_end_to_end_witness :
  ∃ wa' wb' out,
    @handle small_calloc sample_malloc sample_rx_env sample_io_env sample_stack rt_standard
      (HostReady 20000 20000) multicaster = Done wa' ∧ injected (w_trace wa') = [sent_multicast] ∧
    @receive_all small_calloc sample_malloc sample_rx_env sample_io_env sample_stack rt_standard
      [mk_reception (card sent_multicast) 0 0 9000] receiver_world = Done wb' ∧
    w_trace wb' = [HostWrite out; FeedWlan] ∧ take 16 out = packet_to_all.
Proof.
  destruct (@multicast_end_to_end small_calloc small_calloc_bounded sample_malloc sample_malloc_ok sample_rx_env
    sample_rx_env_ok sample_io_env sample_stack sample_stack_ok rt_standard rt_standard_ok
    multicaster {[ sample_self := near_peer ]} [packet_to_all] 20000 20000 receiver_world {[ sample_key := sample_peer ]} [])
    as (wa1 & k & wa2 & evs & Hrun1 & _ & Hrun2 & _ & _ & _ & Htr & _ & Hlink).
  - exact sender_ok.
  - reflexivity.
  - discriminate.
  - discriminate.
  - reflexivity.
  - discriminate.
  - simpl. lia.
  - apply Forall_cons_2; [|apply Forall_nil_2]. constructor; [solve_list|split; vm_compute; discriminate|reflexivity].
  - int_lia.
  - reflexivity.
  - apply (sample_daemon_ok None []); [simpl; lia|constructor|discriminate].
  - discriminate.
  - apply Forall_cons_2; [|apply Forall_nil_2]. split; [discriminate|]. change (take 6 (drop 6 packet_to_all)) with sample_key.
    rewrite lookup_singleton_eq. eauto.
  - pose proof multicast_sent as Hsent. rewrite Hrun1 in Hsent.
    assert (asked wa1 = None) as Hasked by (unfold asked; rewrite Hsent; reflexivity).
    assert (wa2 = wa1) as ->.
    { destruct k; cbn [expirations] in Hrun2; rewrite ?Hasked in Hrun2; injection Hrun2 as <-; reflexivity. }
    assert (evs = [PcapInject sent_multicast; FeedHost]) as -> by (rewrite <- Hsent; exact (eq_sym Htr)).
    destruct (Hlink [(sent_multicast, packet_to_all)] [mk_reception (card sent_multicast) 0 0 9000])
      as (wb' & outs & Hb & _ & Htrb & Hout).
    + reflexivity.
    + apply Forall2_cons_2; [|apply Forall2_nil_2]. split; [|reflexivity]. apply card_received.
      * apply (bool_decide_unpack _). vm_compute. exact I.
      * apply (bool_decide_unpack _). vm_compute. exact I.
    + inversion Hout as [|out ? outs' ? [_ Harr] Hnil]; subst. inversion Hnil; subst.
      exists wa1, wb', out. split; [exact Hrun1|]. split; [rewrite Hsent; reflexivity|]. split; [exact Hb|].
      split; [exact Htrb|]. apply Harr. reflexivity.
Defined.

(** A daemon with one frame in its queue. *)
Lemma multicast_progress_witness :
  let w := mk_world (sample_daemon None [buf_of sample_multicast]) [] [] in
  ∃ n w1 w', (n <= 11)%nat ∧
    @awdl_send_multicast sample_io_env sample_stack rt_standard w 100000 = Done w1 ∧
    @expirations small_calloc sample_malloc sample_rx_env sample_io_env sample_stack rt_standard n w1 100000 = Done w' ∧
    daemon_ok (w_daemon w') {[sample_key := sample_peer]} [].
Proof.
  intros w. destruct (@multicast_progress small_calloc sample_malloc sample_rx_env sample_io_env sample_stack
    sample_stack_ok rt_standard rt_standard_ok
    w {[sample_key := sample_peer]} (buf_of sample_multicast) [] 100000)
    as (n & w1 & w' & after & Hn & _ & _ & H1 & H2 & Hok & _).
  - apply sample_daemon_ok; [simpl; lia|constructor; [exact sample_multicast_ok|constructor]|discriminate].
  - simpl. lia.
  - discriminate.
  - reflexivity.
  - exists n, w1, w'. split; [exact Hn|]. split; [exact H1|]. split; [exact H2|exact Hok].
Defined.
