(* ===== verification/Cluster.v ===== *)
(** * Cluster: many daemons (src/daemon/core.c, src/tx.c, src/rx.c, src/election.c)

    Daemons within range of each other, each handling its own events: action
    frames they send and receive, the timer that runs the election, and
    everything else.  A frame is heard as its
    bytes arrive, behind the radiotap header of the receiving card; frames
    may be lost, repeated and late.  What the daemons do is a run of the
    network of ElectionAsync ([related]), so they all come to follow the same
    master. *)

From Stdlib Require Import ZArith QArith Lia ZifyBool.
From stdpp Require Import base tactics numbers list gmap.
From S2P Require Import Prelude Wire CircularBuffer HashMap Sync Channel Election Peers ElectionRun ElectionNet ElectionAsync.
From S2P Require Import State Schedule Frame Radiotap Tx Rx TxRx Amsdu Io Daemon DaemonRun DaemonTimers DaemonSafe EndToEnd Follow.

Local Open Scope Z_scope.

(** ** Runs *)

(** The daemons by address, and the last action frame each has sent, with
    whether it carries a checksum. *)
Record cluster := mk_cluster { c_worlds : gmap mkey world; c_air : gmap mkey (bool * list Z) }.

(** The daemon has [b] in its peer table. *)
Definition knows (w : world) (b : mkey) : bool :=
  match awdl_peer_get (the_peers (d_awdl (w_daemon w))) b with Some (rc, _) => rc =? PEERS_OK | None => false end.

(** That entry is valid: it counts in elections. *)
Definition trusts (w : world) (b : mkey) : bool :=
  let ps := the_peers (d_awdl (w_daemon w)) in
  match awdl_peer_get ps b with
  | Some (_, p) => match p_heap ps !! p with Some peer => negb (is_valid peer =? 0) | None => false end
  | None => false
  end.

(** Every peer was heard of within the timeout. *)
Definition all_fresh (w : world) (now : Z) : Prop :=
  let s := d_awdl (w_daemon w) in
  ∀ P, peers_rep (the_peers s) P → fresh_since (u64 (now - ps_timeout (st_peers s))) P = P.

(** The timers that send action frames. *)
Definition sends_action (i : input) : bool :=
  match i with
  | MifExpired _ _ _ | PsfExpired _ _ => true
  | _ => false
  end.

(** The steps that do not bear on the election: any event but the timer that
    runs it, and among the frames received those that leave the peer table
    alone, as data frames and everything the node does not accept. *)
Definition quiet (i : input) (w w' : world) : Prop :=
  match i with
  | WlanReady (Some _) _ => the_peers (d_awdl (w_daemon w')) = the_peers (d_awdl (w_daemon w))
  | PeerExpired _ => False
  | _ => True
  end.

Section cluster.
Context `{CallocBounded} `{MallocOk} `{RxEnvOk} `{IoEnv} `{StackEnvOk} `{RadiotapOk}.

Inductive cstep : list label → cluster → cluster → Prop :=
  | c_announce c a w w' i sent rest :
      c_worlds c !! a = Some w → sends_action i = true → handle i w = Done w' →
      w_trace w' = w_trace w ++ PcapInject sent :: rest →
      cstep [Announces a] c (mk_cluster (<[a := w']> (c_worlds c))
        (<[a := (ieee_fcs (d_ieee80211 (w_daemon w)), sent)]> (c_air c)))
  | c_hear c a b w w' fcs sent packet rssi flags tsft :
      c_worlds c !! a = Some w → a ≠ b → c_air c !! b = Some (fcs, sent) →
      received (buf_of packet) (on_air sent (Z.of_nat (length sent))) rssi flags →
      has_flag flags IEEE80211_RADIOTAP_F_FCS = fcs → rssi_rejects (d_awdl (w_daemon w)) b rssi = Some false →
      handle (WlanReady (Some packet) tsft) w = Done w' → knows w' b = true →
      cstep (if trusts w' b then [Hears a b] else []) c (mk_cluster (<[a := w']> (c_worlds c)) (c_air c))
  | c_elect c a w w' now :
      c_worlds c !! a = Some w → all_fresh w now → handle (PeerExpired now) w = Done w' →
      cstep [Elects a] c (mk_cluster (<[a := w']> (c_worlds c)) (c_air c))
  | c_quiet c a w w' i :
      c_worlds c !! a = Some w → quiet i w w' → input_ok i → handle i w = Done w' →
      cstep [] c (mk_cluster (<[a := w']> (c_worlds c)) (c_air c)).

Inductive crun : list label → cluster → cluster → Prop :=
  | crun_nil c : crun [] c c
  | crun_cons l1 l2 c c1 c2 : cstep l1 c c1 → crun l2 c1 c2 → crun (l1 ++ l2) c c2.

Lemma crun_app l1 l2 c c1 c2 : crun l1 c c1 → crun l2 c1 c2 → crun (l1 ++ l2) c c2.
Proof.
  induction 1 as [c|la lb c ca cb Hs _ IH]; [done|]. intros Hx. rewrite <- app_assoc. econstructor; [exact Hs|auto].
Qed.

(** ** The abstract network *)

(** What the valid entries of a table say. *)
Definition view_of (P : gmap mkey awdl_peer) : nodes :=
  omap (λ p, if is_valid p =? 0 then None else Some (election p)) P.

(** A node that announces itself: with a channel encoding of two bytes, a
    version and a device class, as [awdl_init_state] sets them. *)
Record speaks (a : mkey) (s : awdl_state) : Prop := {
  spk_addr : self_address s = a;
  spk_self : self_addr (st_election s) = a;
  spk_enc : awdl_chan_encoding_length (ch_enc (st_channel s)) = 2;
  spk_version : st_version s ≠ 0;
  spk_class : dev_class s ≠ 0 }.

Record member (a : mkey) (w : world) (P : gmap mkey awdl_peer) (q : list buf) : Prop := {
  mem_ok : daemon_ok (w_daemon w) P q;
  mem_pending : Forall read_ok (w_pending w);
  mem_speaks : speaks a (d_awdl (w_daemon w));
  mem_other : P !! a = None }.

(** [sent] is an action frame of node [b] with the election state [s]. *)
Definition announcement (type : Z) (b : mkey) (s : awdl_election_state) (fcs : bool) (sent : list Z) : Prop :=
  ∃ st P name ieee now1 now2 blk blk' len ieee',
    state_ok st P ∧ name_is st name ∧ (length name <= 64)%nat ∧ speaks b st ∧ st_election st = s ∧
    1024 <= Z.of_nat (length blk) ∧ (type = AWDL_ACTION_PSF ∨ type = AWDL_ACTION_MIF) ∧
    awdl_init_full_action_frame blk st ieee type now1 now2 = Some (blk', len, ieee') ∧
    sent = take (Z.to_nat len) blk' ∧ 0 <= len <= Z.of_nat (length blk') ∧ fcs = ieee_fcs ieee.

Definition election_of (w : world) : awdl_election_state := st_election (d_awdl (w_daemon w)).

Record related (c : cluster) (n : anet) : Prop := {
  rel_nodes : an_nodes n = election_of <$> c_worlds c;
  rel_members a w : c_worlds c !! a = Some w → ∃ P q, member a w P q ∧ view_at n a = view_of P;
  rel_air b fcs sent : c_air c !! b = Some (fcs, sent) →
    ∃ s type, an_air n !! b = Some s ∧ announcement type b s fcs sent }.

Lemma view_of_insert P b p : is_valid p ≠ 0 → view_of (<[b := p]> P) = <[b := election p]> (view_of P).
Proof. intros Hv. unfold view_of. rewrite omap_insert. by if_false. Qed.

Lemma view_of_invalid P b p :
  is_valid p = 0 → (∀ old, P !! b = Some old → is_valid old ≠ 0 → False) → view_of (<[b := p]> P) = view_of P.
Proof.
  intros Hv Hold. apply map_eq. intros x. unfold view_of. rewrite !lookup_omap.
  destruct (decide (x = b)) as [->|Hx]; [|by rewrite lookup_insert_ne].
  rewrite lookup_insert_eq. cbn [mbind option_bind]. if_true. destruct (P !! b) as [old|] eqn:E; [|done].
  cbn [mbind option_bind]. destruct (is_valid old =? 0) eqn:Eo; [done|]. exfalso. by apply (Hold old); [|lia].
Qed.

Lemma view_of_hears a P : peers_ok P → P !! a = None → hears (view_of P) a P.
Proof.
  intros Hok Ha. constructor; [done|..].
  - intros b s Hb. unfold view_of. rewrite lookup_omap. intros (p & Hp & Hs)%bind_Some.
    destruct (is_valid p =? 0) eqn:E; [done|]. injection Hs as <-. exists p. split; [done|]. split; [lia|done].
  - intros b p Hp Hv. split; [congruence|]. unfold view_of. rewrite lookup_omap, Hp. simpl. by if_false.
Qed.

Lemma speaks_same a s s' : same_node s s' → speaks a s → speaks a s'.
Proof. intros [? ? ? ? [] ? [] ?] []. constructor; congruence. Qed.
(** ** Simulation *)

Lemma member_same a w w' P q q' :
  member a w P q → daemon_ok (w_daemon w') P q' → Forall read_ok (w_pending w') →
  same_node (d_awdl (w_daemon w)) (d_awdl (w_daemon w')) → member a w' P q' ∧ election_of w' = election_of w.
Proof. intros [] Hd Hp Hs. split; [constructor; try done; by eapply speaks_same|apply Hs]. Qed.

(** The type and the two clock readings of the frame of a timer. *)
Definition action_of (i : input) : Z * Z * Z :=
  match i with
  | MifExpired _ now1 now2 => (AWDL_ACTION_MIF, now1, now2)
  | PsfExpired now1 now2 => (AWDL_ACTION_PSF, now1, now2)
  | _ => (0, 0, 0)
  end.

Lemma action_of_type i : sends_action i = true → (action_of i).1.1 = AWDL_ACTION_PSF ∨ (action_of i).1.1 = AWDL_ACTION_MIF.
Proof. destruct i; try done; auto. Qed.

(** Such a timer: a frame, or none if the radio is off. *)
Lemma send_cases i w P q :
  daemon_ok (w_daemon w) P q → sends_action i = true →
  ∃ w' rest, handle i w = Done w' ∧ daemon_ok (w_daemon w') P q ∧
    w_pending w' = w_pending w ∧ same_node (d_awdl (w_daemon w)) (d_awdl (w_daemon w')) ∧
    ((w_trace w' = w_trace w ++ rest ∧ match rest with PcapInject _ :: _ => False | _ => True end) ∨
     ∃ name blk blk' len ieee, let d := w_daemon w in
      name_is (d_awdl d) name ∧ (length name <= 64)%nat ∧ 1024 <= Z.of_nat (length blk) ∧
      (let '(type, now1, now2) := action_of i in
       awdl_init_full_action_frame blk (d_awdl d) (d_ieee80211 d) type now1 now2 = Some (blk', len, ieee)) ∧
      0 <= len <= Z.of_nat (length blk') ∧
      w_trace w' = w_trace w ++ PcapInject (take (Z.to_nat len) blk') :: rest).
Proof.
  intros Hd Hi. destruct i as [| | |now now1 now2|now1 now2| | | | |]; try done; cbn [handle action_of].
  - unfold awdl_send_mif. destruct (awdl_chan_num _ _ >? 0); cbn [mbind outcome_bind]; cycle 1.
    { eexists _, _. split; [reflexivity|]. split; [done|]. split; [done|]. split; [done|]. left. split; [reflexivity|done]. }
    destruct (action_to_air w P q AWDL_ACTION_MIF now1 now2 Hd) as
      (w1 & name & blk & blk' & len & ieee & -> & Hd1 & Hp1 & Hs1 & _ & _ & Hn & Hl & Hblk & Htx & Htr & Hlen).
    cbn [mbind outcome_bind]. eexists _, [TimerStart MIF_TIMER _ 0]. split; [reflexivity|]. split; [done|]. split; [exact Hp1|].
    split; [done|]. cbn [w_trace emit ev_timer_rearm with_trace]. rewrite Htr. destruct (wlan_handle _ =? 0).
    + left. split; [by rewrite app_nil_r|done].
    + right. exists name, blk, blk', len, ieee. split_and!; try done; try lia. by rewrite <- app_assoc.
  - unfold awdl_send_psf. destruct (action_to_air w P q AWDL_ACTION_PSF now1 now2 Hd) as
      (w1 & name & blk & blk' & len & ieee & -> & Hd1 & Hp1 & Hs1 & _ & _ & Hn & Hl & Hblk & Htx & Htr & Hlen).
    exists w1, []. split; [reflexivity|]. split; [done|]. split; [exact Hp1|]. split; [done|]. rewrite Htr.
    destruct (wlan_handle _ =? 0); [left; by rewrite app_nil_r|right].
    exists name, blk, blk', len, ieee. split_and!; try done; lia.
Qed.

Lemma quiet_member i a w w' P q :
  member a w P q → quiet i w w' → input_ok i → handle i w = Done w' →
  ∃ q', member a w' P q' ∧ election_of w' = election_of w.
Proof.
  intros Hm Hq Hi Hh. pose proof Hm as [Hd Hp _ _].
  destruct i as [reads|now1 now2|[bytes|] tsft|now now1 now2|now1 now2|now|now|now|now|]; try done.
  - injection Hh as <-. exists q. apply (member_same a w _ P q); try done. by apply Forall_app.
  - destruct (host_device_ready_total w P q now1 now2 Hd Hp) as (w1 & q' & E & Hd' & Hp' & Hs).
    cbn [handle] in Hh. rewrite E in Hh. injection Hh as <-. exists q'. by apply (member_same a w _ P q).
  - destruct (receive_frame_total w P q bytes tsft Hd (proj1 Hi) (proj2 Hi)) as [(w1 & P' & E & Hd' & Hp' & Hs)|[E _]];
      cbn [handle] in Hh; unfold wlan_device_ready in Hh; rewrite E in Hh; [|done]. injection Hh as <-.
    change (the_peers (d_awdl (w_daemon w1)) = the_peers (d_awdl (w_daemon w))) in Hq.
    assert (P' = P) as ->.
    { rewrite (rep_peers _ _ (sok_peers _ _ (dok_state _ _ _ Hd'))), Hq. symmetry. apply (rep_peers _ _ (sok_peers _ _ (dok_state _ _ _ Hd))). }
    exists q. apply (member_same a w _ P q); try done. cbn. by rewrite Hp'.
  - injection Hh as <-. by exists q.
  - destruct (send_cases (MifExpired now now1 now2) w P q Hd eq_refl) as (w1 & rest & E & Hd' & Hp' & Hs & _).
    rewrite E in Hh. injection Hh as <-. exists q. apply (member_same a w _ P q); try done. by rewrite Hp'.
  - destruct (send_cases (PsfExpired now1 now2) w P q Hd eq_refl) as (w1 & rest & E & Hd' & Hp' & Hs & _).
    rewrite E in Hh. injection Hh as <-. exists q. apply (member_same a w _ P q); try done. by rewrite Hp'.
  - destruct (send_unicast_total w P q now Hd) as (w1 & E & Hd' & Hp' & Hs).
    cbn [handle] in Hh. rewrite E in Hh. injection Hh as <-. exists q. apply (member_same a w _ P q); try done. by rewrite Hp'.
  - destruct (send_multicast_total w P q now Hd) as (w1 & q' & E & Hd' & Hp' & Hs).
    cbn [handle] in Hh. rewrite E in Hh. injection Hh as <-. exists q'. apply (member_same a w _ P q); try done. by rewrite Hp'.
  - destruct (switch_channel_spec w P q now Hd) as (chan & _ & Hc & E).
    cbn [handle] in Hh. rewrite E in Hh. injection Hh as <-. exists q. apply (member_same a w _ P q); try done; cbn [w_daemon].
    + destruct (_ && _); [|done]. eapply daemon_ok_awdl; [done|]. apply state_ok_tuned; [apply Hd|done].
    + destruct (_ && _); [|done]. by constructor.
  - injection Hh as <-. by exists q.
Qed.
Lemma knows_in_table w b Q q : daemon_ok (w_daemon w) Q q → knows w b = bool_decide (is_Some (Q !! b)).
Proof.
  intros Hd. pose proof (sok_peers _ _ (dok_state _ _ _ Hd)) as R. unfold knows. rewrite (peer_get_spec _ _ R).
  destruct (Q !! b) as [p|] eqn:E.
  - by destruct (rep_Some _ _ R b p E) as (ptr & -> & _).
  - by rewrite (rep_None _ _ R b E).
Qed.

Lemma trusts_in_table w b Q q p : daemon_ok (w_daemon w) Q q → Q !! b = Some p → trusts w b = negb (is_valid p =? 0).
Proof.
  intros Hd E. pose proof (sok_peers _ _ (dok_state _ _ _ Hd)) as R. unfold trusts. rewrite (peer_get_spec _ _ R).
  by destruct (rep_Some _ _ R b p E) as (ptr & -> & -> & _).
Qed.

(** An announcement at another daemon. *)
Lemma announcement_heard type a b w P q s fcs sent packet rssi flags tsft :
  member a w P q → a ≠ b → announcement type b s fcs sent →
  received (buf_of packet) (on_air sent (Z.of_nat (length sent))) rssi flags →
  has_flag flags IEEE80211_RADIOTAP_F_FCS = fcs → rssi_rejects (d_awdl (w_daemon w)) b rssi = Some false →
  ∃ w', handle (WlanReady (Some packet) tsft) w = Done w' ∧
    w_daemon w' = with_awdl (d_awdl (w_daemon w')) (w_daemon w) ∧
    ((∃ p, member a w' (<[b := p]> P) q ∧ same_node (d_awdl (w_daemon w)) (d_awdl (w_daemon w')) ∧
       st_channel (d_awdl (w_daemon w')) = st_channel (d_awdl (w_daemon w)) ∧
       last_update p = tsft ∧ election p = s ∧ still_valid P b p ∧ (type = AWDL_ACTION_MIF → is_valid p ≠ 0)) ∨
     (P !! b = None ∧ knows w' b = false)).
Proof.
  intros [Hd Hp Hsp Ho] Hne (st & Pst & name & ieee & now1 & now2 & blk & blk' & len & ieee' & Hst & Hn & Hl & Hsb & Hel &
    Hblk & Htype & Htx & -> & Hlen & ->) Hrcv Hflag Hrssi.
  assert (on_air (take (Z.to_nat len) blk') (Z.of_nat (length (take (Z.to_nat len) blk'))) = on_air blk' len) as Hair.
  { unfold on_air. rewrite length_take, Nat2Z.id, take_take. do 2 f_equal. lia. }
  rewrite Hair in Hrcv. destruct Hsb as [Hb Hself Henc Hv Hc]. pose proof (spk_addr _ _ Hsp) as Ha.
  destruct (action_heard w P q st Pst name type now1 now2 ieee blk blk' len ieee' packet rssi flags tsft)
    as (w1 & rc & E & Hp1 & Hi & Hw1 & Hok1); try done; [congruence|congruence|by rewrite Hb|].
  exists w1. split; [exact E|]. split; [exact Hw1|]. unfold informed in Hi. rewrite Hb in Hi.
  destruct Hi as [(_ & _ & Hch & Hs & p & Hok & Hlrn & Hsv)|(_ & Hnone & _ & Q' & Hok & Hsub)].
  - left. exists p. destruct Hlrn as [Ht He _ _ _ Hm]. rewrite Hel in He.
    split_and!; auto; [|intros Hmif; by apply (Hm Hmif)]. constructor; [by apply Hok1|by rewrite Hp1|by eapply speaks_same|by rewrite lookup_insert_ne].
  - right. split; [done|]. destruct (knows w1 b) eqn:Hk; [|done]. exfalso. apply Hok1 in Hok.
    rewrite (knows_in_table w1 b Q' q Hok) in Hk. apply bool_decide_eq_true in Hk as [p Hp']. pose proof (lookup_weaken _ _ _ _ Hp' Hsub). congruence.
Qed.

Lemma hear_member type a b w w' P q s fcs sent packet rssi flags tsft :
  member a w P q → a ≠ b → announcement type b s fcs sent →
  received (buf_of packet) (on_air sent (Z.of_nat (length sent))) rssi flags →
  has_flag flags IEEE80211_RADIOTAP_F_FCS = fcs → rssi_rejects (d_awdl (w_daemon w)) b rssi = Some false →
  handle (WlanReady (Some packet) tsft) w = Done w' → knows w' b = true →
  ∃ P', member a w' P' q ∧ election_of w' = election_of w ∧
    view_of P' = if trusts w' b then <[b := s]> (view_of P) else view_of P.
Proof.
  intros Hm Hne Hann Hrcv Hflag Hrssi Hh Hk.
  destruct (announcement_heard type a b w P q s fcs sent packet rssi flags tsft) as (w1 & E & _ & Hcase); try done.
  rewrite E in Hh. injection Hh as <-. destruct Hcase as [(p & Hm' & Hs & _ & _ & He & Hv & _)|[_ Hno]]; [|congruence].
  exists (<[b := p]> P). split; [done|]. split; [apply Hs|].
  rewrite (trusts_in_table _ b _ q p (mem_ok _ _ _ _ Hm') (lookup_insert_eq _ _ _)).
  destruct (is_valid p =? 0) eqn:Ep; cbn [negb]; [|rewrite view_of_insert by lia; by rewrite He].
  apply view_of_invalid; [lia|]. intros old Hold Hvo. specialize (Hv old Hold Hvo). lia.
Qed.

(** The timer that runs the election on the peers that have not expired. *)
Lemma expire_member a w w' P q now :
  member a w P q → handle (PeerExpired now) w = Done w' →
  let P' := fresh_since (u64 (now - ps_timeout (st_peers (d_awdl (w_daemon w))))) P in
  member a w' P' q ∧ runs_election (view_of P') a (election_of w) (election_of w').
Proof.
  intros [Hd Hp Hsp Ho] Hh P'. pose proof (dok_state _ _ _ Hd) as Hs.
  destruct (clean_peers_spec w P q now Hd) as (ps & e & l & E & Hd' & He & _). fold P' in Hd', He.
  cbn [handle] in Hh. rewrite E in Hh. injection Hh as <-. pose proof (dok_state _ _ _ Hd') as Hs'.
  destruct (run_elected (election_of w) ps P' (sok_peers _ _ Hs') (sok_peers_ok _ _ Hs') (sok_election _ _ Hs)) as (e' & Hrun & He').
  assert (e' = e) as -> by (eapply elected_unique; [apply Hs'|apply Hs|exact He'|exact He]).
  assert (P' !! a = None) as Ho' by (apply map_lookup_filter_None; left; done).
  split.
  - constructor; try done. destruct Hsp. constructor; try done. simpl.
    by destruct He as [[-> _]|(best & _ & -> & _)].
  - exists ps, P'. split; [apply Hs'|]. split; [|done]. apply view_of_hears; [apply Hs'|done].
Qed.

Lemma elect_member a w w' P q now :
  member a w P q → all_fresh w now → handle (PeerExpired now) w = Done w' →
  member a w' P q ∧ runs_election (view_of P) a (election_of w) (election_of w').
Proof.
  intros Hm Hf Hh. destruct (expire_member a w w' P q now Hm Hh) as [Hm' Hr].
  pose proof (sok_peers _ _ (dok_state _ _ _ (mem_ok _ _ _ _ Hm))) as R. by rewrite (Hf P R) in Hm', Hr.
Qed.

(** The daemon [a] has taken a step to [w']. *)
Lemma related_insert c n a w' P q air n' :
  related c n → member a w' P q →
  an_nodes n' = <[a := election_of w']> (an_nodes n) → view_at n' a = view_of P →
  (∀ x, x ≠ a → view_at n' x = view_at n x) →
  (∀ b fcs sent, air !! b = Some (fcs, sent) → ∃ s type, an_air n' !! b = Some s ∧ announcement type b s fcs sent) →
  related (mk_cluster (<[a := w']> (c_worlds c)) air) n'.
Proof.
  intros [Hn Hm _] Hw' Hn' Hv Hvx Hair. constructor; cbn [c_worlds c_air]; [by rewrite Hn', Hn, fmap_insert| |done].
  intros x w [[<- <-]|[Hne Hx]]%lookup_insert_Some; [eauto|]. rewrite Hvx by done. by apply Hm.
Qed.

Lemma cstep_simulated l c c' n : related c n → cstep l c c' → ∃ n', exec l n n' ∧ related c' n'.
Proof.
  intros Hr Hs. pose proof Hr as [Hnodes Hmem Hair].
  assert (∀ a w, c_worlds c !! a = Some w → an_nodes n !! a = Some (election_of w)) as Hlook.
  { intros a w Hw. by rewrite Hnodes, lookup_fmap, Hw. }
  destruct Hs as [c a w w' i sent rest Hw Hi Hh Htr|c a b w w' fcs sent packet rssi flags tsft Hw Hne Hsent Hrcv Hflag Hrssi Hh Hk
    |c a w w' now Hw Hf Hh|c a w w' i Hw Hq Hi Hh]; destruct (Hmem a w Hw) as (P & q & Hm & Hv).
  - pose proof Hm as [Hd Hp Hsp Ho].
    destruct (send_cases i w P q Hd Hi) as (w1 & rest' & E & Hd' & Hp' & Hsn & Hcase). rewrite E in Hh. injection Hh as <-.
    rewrite Htr in Hcase.
    destruct Hcase as [[Hno%app_inv_head Hr']|(name & blk & blk' & len & ieee & Hn & Hl & Hblk & Htx & Hlen & Hyes)]; [by rewrite <- Hno in Hr'|].
    apply app_inv_head in Hyes as [= -> ->].
    destruct (member_same a w w1 P q q Hm Hd') as [Hm' He']; [by rewrite Hp'|done|].
    eexists. split; [eapply exec_cons; [apply (step_announce n a (election_of w)); by apply Hlook|constructor]|].
    apply (related_insert c n a w1 P q); try done; cbn [an_nodes an_air].
    + rewrite He'. symmetry. apply insert_id. by apply Hlook.
    + intros b fcs bytes [[<- [= <- <-]]|[Hne Hb]]%lookup_insert_Some.
      * exists (election_of w), (action_of i).1.1. split; [apply lookup_insert_eq|].
        pose proof (action_of_type i Hi) as Htype. destruct (action_of i) as [[type now1] now2].
        exists (d_awdl (w_daemon w)), P, name, (d_ieee80211 (w_daemon w)), now1, now2, blk, blk', len, ieee.
        split_and!; try done; [apply Hd|lia..].
      * rewrite lookup_insert_ne by done. by apply Hair.
  - destruct (Hair b fcs sent Hsent) as (s & type & Hs & Hann).
    destruct (hear_member type a b w w' P q s fcs sent packet rssi flags tsft) as (P' & Hm' & He' & Hv'); try done.
    assert (an_nodes n = <[a := election_of w']> (an_nodes n)) as Hsame by (rewrite He'; symmetry; apply insert_id; by apply Hlook).
    destruct (trusts w' b).
    + eexists. split; [eapply exec_cons; [by apply (step_hear n a b s)|constructor]|].
      apply (related_insert c n a w' P' q); try done.
      * by rewrite view_insert, decide_True, Hv, Hv'.
      * intros x Hx. by rewrite view_insert, decide_False.
    + exists n. split; [constructor|]. apply (related_insert c n a w' P' q); try done. by rewrite Hv, Hv'.
  - destruct (elect_member a w w' P q now Hm Hf Hh) as [Hm' Hrun]. rewrite <- Hv in Hrun.
    eexists. split; [eapply exec_cons; [apply (step_elect n a (election_of w) (election_of w')); [by apply Hlook|done]|constructor]|].
    by apply (related_insert c n a w' P q).
  - destruct (quiet_member i a w w' P q Hm Hq Hi Hh) as (q' & Hm' & He').
    exists n. split; [constructor|]. apply (related_insert c n a w' P q'); try done.
    rewrite He'. symmetry. apply insert_id. by apply Hlook.
Qed.

Lemma crun_simulated l c c' : crun l c c' → ∀ n, related c n → ∃ n', exec l n n' ∧ related c' n'.
Proof.
  induction 1 as [c|l1 l2 c c1 c2 Hs _ IH]; intros n Hr; [exists n; split; [constructor|done]|].
  destruct (cstep_simulated l1 c c1 n Hr Hs) as (n1 & Hx1 & Hr1). destruct (IH n1 Hr1) as (n2 & Hx2 & Hr2).
  exists n2. split; [|done]. apply exec_app. eauto.
Qed.
(** ** Agreement *)

(** What the daemons may have heard before: of each other, and heights that
    are not the maximum of their type. *)
Definition plausible_table (c : cluster) (P : gmap mkey awdl_peer) : Prop :=
  ∀ x p, P !! x = Some p → is_valid p ≠ 0 → is_Some (c_worlds c !! x) ∧ height (election p) < 2 ^ 32 - 1.

Definition elections (c : cluster) : nodes := election_of <$> c_worlds c.

Record cluster_ok (c : cluster) : Prop := {
  cok_members a w : c_worlds c !! a = Some w →
    ∃ P q, member a w P q ∧ plausible_table c P ∧ height (election_of w) < 2 ^ 32 - 1;
  cok_air : c_air c = ∅ }.

(** The abstract network of a cluster. *)
Lemma related_exists c : cluster_ok c →
  ∃ n, related c n ∧ an_nodes n = elections c ∧ everywhere (elections c) (plausible (elections c)) n.
Proof.
  intros [Hm Hair].
  assert (∃ V : gmap mkey nodes, ∀ a w, c_worlds c !! a = Some w →
    ∃ P q, member a w P q ∧ plausible_table c P ∧ V !! a = Some (view_of P)) as [V HV].
  { clear Hair. revert Hm. generalize (plausible_table c). intros Q. induction (c_worlds c) as [|a w m Ha IH] using map_ind; intros Hm.
    - exists ∅. intros a w Hw. by apply lookup_empty_Some in Hw.
    - destruct IH as [V HV].
      { intros x y Hx. apply Hm. rewrite lookup_insert_ne; [done|]. intros ->. congruence. }
      destruct (Hm a w) as (P & q & HP & HQ & _); [apply lookup_insert_eq|].
      exists (<[a := view_of P]> V). intros x y [[<- <-]|[Hne Hx]]%lookup_insert_Some.
      + exists P, q. by rewrite lookup_insert_eq.
      + rewrite lookup_insert_ne by done. by apply HV. }
  exists (mk_anet (elections c) ∅ V). split; [|split; [done|]].
  - constructor; [done| |intros b fcs sent; rewrite Hair; by intros ?%lookup_empty_Some].
    intros a w Hw. destruct (HV a w Hw) as (P & q & HP & _ & Hv). exists P, q. split; [done|]. unfold view_at. simpl. by rewrite Hv.
  - assert (∀ x, is_Some (c_worlds c !! x) → is_Some (elections c !! x)) as Hdom.
    { intros x [w Hw]. unfold elections. rewrite lookup_fmap, Hw. by eexists. }
    split; [|split].
    + intros x s Hx. cbn [an_nodes] in Hx. unfold elections in Hx. rewrite lookup_fmap in Hx. apply fmap_Some in Hx as (w & Hw & ->).
      destruct (Hm x w Hw) as (P & q & [Hd _ Hsp _] & _ & Hh). split; [by apply Hdom; eexists|].
      split; [apply Hsp|]. split; [|done]. apply (sok_election _ _ (dok_state _ _ _ Hd)).
    + intros x s Hx. cbn [an_air] in Hx. by apply lookup_empty_Some in Hx.
    + intros a x s [e Ha] _ Hx. unfold elections in Ha. rewrite lookup_fmap in Ha. apply fmap_Some in Ha as (w & Hw & _).
      destruct (HV a w Hw) as (P & q & [Hd _ _ _] & Hpl & Hv). unfold view_at in Hx. cbn [an_views] in Hx. rewrite Hv in Hx.
      cbv [default id] in Hx. unfold view_of in Hx. rewrite lookup_omap in Hx. apply bind_Some in Hx as (p & Hp & Hs).
      destruct (is_valid p =? 0) eqn:E; [done|]. injection Hs as <-.
      destruct (Hpl x p Hp) as [Hx1 Hx2]; [lia|]. destruct (sok_peers_ok _ _ (dok_state _ _ _ Hd) x p Hp).
      split; [by apply Hdom|]. done.
Qed.

(** A cluster with plausible states, in the abstract network. *)
Lemma related_agree c n ls rest c' :
  related c n → an_nodes n = elections c → everywhere (elections c) (plausible (elections c)) n → c_worlds c ≠ ∅ →
  Forall (epoch (elections c)) ls → length ls = 13%nat → crun (concat ls ++ rest) c c' →
  ∃ b, leader (elections c) b ∧ ∀ a w, c_worlds c' !! a = Some w → follows b a (st_election (d_awdl (w_daemon w))).
Proof.
  intros Hr Hn Hp Hne He Hlen Hrun.
  destruct (crun_simulated _ c c' Hrun n Hr) as (n' & Hx & Hr').
  destruct (epochs_agree n ls rest n') as (b & Hb & Hf); rewrite ?Hn; try done.
  { unfold elections. by rewrite fmap_empty_iff. }
  rewrite Hn in Hb. exists b. split; [done|]. intros a w Hw. apply Hf. rewrite (rel_nodes _ _ Hr'), lookup_fmap, Hw. done.
Qed.

(** Daemons in range of each other agree on a master.  Start any number
    of them in any well-formed states, with whatever they heard before of
    each other, and let each handle its events: the action frames it sends
    and receives from the bytes on the air, data frames and any others that
    leave its peers alone, packets of its host, channel switches, its timers,
    in any order and with any losses, as long as no peer expires and the
    signal of none is rejected.  Once the run contains thirteen epochs (in
    each of which the timers have run every election, then every daemon has
    sent an action frame, then every daemon has received one of every other
    and has a valid entry for it), all follow the one with the greatest own
    counter, metric and address, and keep doing so. *)
Theorem cluster_agrees c ls rest c' :
  cluster_ok c → c_worlds c ≠ ∅ →
  Forall (epoch (elections c)) ls → length ls = 13%nat → crun (concat ls ++ rest) c c' →
  ∃ b, leader (elections c) b ∧ ∀ a w, c_worlds c' !! a = Some w → follows b a (st_election (d_awdl (w_daemon w))).
Proof.
  intros Hok. destruct (related_exists c Hok) as (n & Hr & Hn & Hp). by apply (related_agree c n).
Qed.
End cluster.

(** ** Runs exist

    Two daemons that know each other, on a channel and with a radio, can
    always take the steps of an epoch. *)

Section ready.
Context `{CallocBounded} `{MallocOk} `{RxEnvOk} `{IoEnv} `{StackEnvOk} `{RadiotapOk}.

(** A daemon on a channel, with a radio. *)
Record able (w : world) : Prop := {
  abl_chan : let ch := st_channel (d_awdl (w_daemon w)) in (awdl_chan_num (ch_current ch) (ch_enc ch) >? 0) = true;
  abl_radio : (wlan_handle (d_io (w_daemon w)) =? 0) = false;
  abl_fcs : ieee_fcs (d_ieee80211 (w_daemon w)) = false;
  abl_filter : filter_rssi (d_awdl (w_daemon w)) = 0;
  abl_timeout : ps_timeout (st_peers (d_awdl (w_daemon w))) = 2000000 }.

Lemma elect_able a w P q now :
  able w → member a w P q →
  ∃ w', handle (PeerExpired now) w = Done w' ∧ able w' ∧ member a w' (fresh_since (u64 (now - 2000000)) P) q.
Proof.
  intros Ha Hm. destruct (clean_peers_spec w P q now (mem_ok _ _ _ _ Hm)) as (ps & e & l & E & _).
  set (w' := mk_world _ _ _) in E. exists w'. split; [exact E|].
  pose proof (expire_member a w w' P q now Hm E) as [Hm' _]. rewrite (abl_timeout _ Ha) in Hm'.
  split; [|exact Hm']. destruct Ha. by constructor.
Qed.

Lemma announce_able a w P q now :
  able w → member a w P q → ∃ w' sent rest q', handle (MifExpired now now now) w = Done w' ∧
    w_trace w' = w_trace w ++ PcapInject sent :: rest ∧ bytes_ok sent ∧ (length sent <= 1000)%nat ∧
    (∃ s, announcement AWDL_ACTION_MIF a s false sent) ∧ able w' ∧ member a w' P q'.
Proof.
  intros [Hc Hr Hf Hfi Hto] Hm. pose proof (mem_ok _ _ _ _ Hm) as Hd. set (s := d_awdl (w_daemon w)) in *.
  destruct (send_action_spec w _ q AWDL_ACTION_MIF now now Hd) as (name & Hn & Hl & E). fold s in Hn, E.
  assert (state_ok s P) as Hs by apply Hd. set (ieee := d_ieee80211 (w_daemon w)) in *.
  destruct (action_frame_facts s _ name Hs Hn Hl (ieee_sequence_number ieee) AWDL_ACTION_MIF now now) as [Hb Hlen].
  destruct (init_full_action_frame_spec s _ name stack_block ieee AWDL_ACTION_MIF now now Hs Hn Hl) as [Htx _];
    [rewrite stack_length; lia|].
  unfold action_frame_for in E. rewrite Hf in E, Htx. unfold with_fcs in E, Htx. rewrite app_nil_r in E, Htx.
  set (f := action_frame _ _ _ _ _ _) in *. clearbody f. unfold wlan_send in E. rewrite Hr in E. cbn [fst] in E.
  cbn zeta in Hc.
  pose (w1 := with_trace (w_trace w ++ [PcapInject f]) (with_daemon (with_awdl (count incr_tx_action s)
    (with_ieee80211 (ieee80211_state_next_sequence_number ieee).2 (w_daemon w))) w)).
  assert (∃ after, handle (MifExpired now now now) w = Done (emit (TimerStart MIF_TIMER after 0) w1)) as [after Hh].
  { eexists. unfold handle, awdl_send_mif. fold s. rewrite Hc, E. reflexivity. }
  destruct (quiet_member (MifExpired now now now) a w _ _ q Hm I I Hh) as (q' & Hm' & _).
  exists (emit (TimerStart MIF_TIMER after 0) w1), f, [TimerStart MIF_TIMER after 0], q'.
  split; [exact Hh|]. split; [cbn; by rewrite <- app_assoc|]. split; [done|]. split; [done|]. split; [|split; [by constructor|done]].
  exists (st_election s), s, P, name, ieee, now, now, stack_block. eexists _, _, _.
  split; [done|]. split; [done|]. split; [done|]. split; [apply Hm|]. split; [done|].
  split; [rewrite stack_length; lia|]. split; [by right|]. split; [exact Htx|]. rewrite Nat2Z.id, take_app_length, length_app. split; [done|].
  split; [lia|done].
Qed.

(** The daemon [a] has heard of [b] at [t] or later. *)
Record ready (a b : mkey) (w : world) (t : Z) : Prop := {
  rdy_member : ∃ p q, member a w {[ b := p ]} q ∧ t <= last_update p;
  rdy_able : able w }.

Lemma elect_ready a b w t now :
  ready a b w t → 2000000 <= now < 2 ^ 64 → now - 2000000 <= t →
  all_fresh w now ∧ ∃ w', handle (PeerExpired now) w = Done w' ∧ ready a b w' t.
Proof.
  intros [(p & q & Hm & Ht) Ha] Hnow Hle.
  assert (fresh_since (u64 (now - 2000000)) {[ b := p ]} = {[ b := p ]}) as Hfresh.
  { apply map_filter_id. intros k x [<- <-]%lookup_singleton_Some. simpl. rewrite u64_id by (unfold is_u64; lia). lia. }
  split.
  - intros P R. rewrite (abl_timeout _ Ha). pose proof (sok_peers _ _ (dok_state _ _ _ (mem_ok _ _ _ _ Hm))) as R'.
    assert (P = {[b := p]}) as -> by (by rewrite (rep_peers _ _ R), <- (rep_peers _ _ R')). done.
  - destruct (elect_able a w _ q now Ha Hm) as (w' & E & Ha' & Hm'). rewrite Hfresh in Hm'.
    exists w'. split; [exact E|]. constructor; [by exists p, q|done].
Qed.

Lemma announce_ready a b w t now :
  ready a b w t → ∃ w' sent rest, handle (MifExpired now now now) w = Done w' ∧
    w_trace w' = w_trace w ++ PcapInject sent :: rest ∧ bytes_ok sent ∧ (length sent <= 1000)%nat ∧
    (∃ s, announcement AWDL_ACTION_MIF a s false sent) ∧ ready a b w' t.
Proof.
  intros [(p & q & Hm & Ht) Ha].
  destruct (announce_able a w _ q now Ha Hm) as (w' & sent & rest & q' & E & Htr & Hb & Hl & Hs & Ha' & Hm').
  exists w', sent, rest. split_and!; try done. constructor; [by exists p, q'|done].
Qed.

Lemma hear_ready a b w t s sent packet flags rssi now :
  ready a b w t → a ≠ b → announcement AWDL_ACTION_MIF b s false sent →
  received (buf_of packet) (on_air sent (Z.of_nat (length sent))) rssi flags →
  has_flag flags IEEE80211_RADIOTAP_F_FCS = false →
  rssi_rejects (d_awdl (w_daemon w)) b rssi = Some false ∧
  ∃ w', handle (WlanReady (Some packet) now) w = Done w' ∧ knows w' b = true ∧ trusts w' b = true ∧ ready a b w' now.
Proof.
  intros [(p & q & Hm & Ht) [Hc Hr Hf Hfi Hto]] Hne Hann Hrcv Hflag.
  assert (rssi_rejects (d_awdl (w_daemon w)) b rssi = Some false) as Hrssi.
  { rewrite (rssi_rejects_spec _ {[ b := p ]}) by apply Hm. by rewrite Hfi. }
  split; [done|].
  destruct (announcement_heard AWDL_ACTION_MIF a b w _ q s false sent packet rssi flags now Hm Hne Hann Hrcv Hflag Hrssi)
    as (w' & E & Hw' & [(p' & Hm' & Hs & Hch & Hlast & _ & _ & Hval)|[Hnone _]]); [|by rewrite lookup_singleton_eq in Hnone].
  rewrite insert_singleton_eq in Hm'. exists w'. pose proof (mem_ok _ _ _ _ Hm') as Hd'. split; [done|]. split; [|split].
  - rewrite (knows_in_table _ _ _ _ Hd'), lookup_singleton_eq. apply bool_decide_eq_true. by eexists.
  - rewrite (trusts_in_table _ _ _ _ p' Hd') by apply lookup_singleton_eq. specialize (Hval eq_refl). lia.
  - constructor; [exists p', q; split; [done|lia]|].
    destruct Hs. constructor; try congruence; try (rewrite Hw'; done). cbn zeta. by rewrite Hch.
Qed.
End ready.

(** ** Two concrete daemons *)

#[local] Existing Instances small_calloc small_calloc_bounded sample_malloc sample_malloc_ok sample_rx_env
  sample_rx_env_ok sample_io_env sample_stack sample_stack_ok rt_standard rt_standard_ok.

Definition two_worlds (wa wb : world) : gmap mkey world := <[sample_self := wa]> {[ sample_key := wb ]}.

Lemma two_worlds_self wa wb x : <[sample_self := x]> (two_worlds wa wb) = two_worlds x wb.
Proof. apply insert_insert_eq. Qed.
Lemma two_worlds_key wa wb x : <[sample_key := x]> (two_worlds wa wb) = two_worlds wa x.
Proof. unfold two_worlds. rewrite insert_insert_ne by done. by rewrite insert_singleton_eq. Qed.

(** Both heard each other at [t] or later. *)
Definition both_ready (wa wb : world) (t : Z) : Prop :=
  ready sample_self sample_key wa t ∧ ready sample_key sample_self wb t.

Lemma turn_crun air wa wb t now :
  both_ready wa wb t → 2000000 <= now < 2 ^ 64 → now - 2000000 <= t →
  ∃ wa' wb' air', crun turn (mk_cluster (two_worlds wa wb) air) (mk_cluster (two_worlds wa' wb') air') ∧
    both_ready wa' wb' now.
Proof.
  intros [Ra Rb] Hnow Ht.
  assert (∀ x y, two_worlds x y !! sample_self = Some x) as La by (intros; apply lookup_insert_eq).
  assert (∀ x y, two_worlds x y !! sample_key = Some y) as Lb by done.
  destruct (elect_ready _ _ _ _ _ Ra Hnow Ht) as (Fa & wa1 & Ea & Ra1).
  destruct (elect_ready _ _ _ _ _ Rb Hnow Ht) as (Fb & wb1 & Eb & Rb1).
  destruct (announce_ready _ _ _ _ now Ra1) as (wa2 & sa & ra & Aa & Ta & Ba & Sa & [ea Na] & Ra2).
  destruct (announce_ready _ _ _ _ now Rb1) as (wb2 & sb & rb & Ab & Tb & Bb & Sb & [eb Nb] & Rb2).
  destruct (hear_ready _ _ _ _ eb sb (card sb) 0 0 now Ra2) as (Xa & wa3 & Ha & Ka & Va & Ra3); try done; [by apply card_received|].
  destruct (hear_ready _ _ _ _ ea sa (card sa) 0 0 now Rb2) as (Xb & wb3 & Hb & Kb & Vb & Rb3); try done; [by apply card_received|].
  exists wa3, wb3, (<[sample_key := (false, sb)]> (<[sample_self := (false, sa)]> air)). split; [|done].
  pose proof (abl_fcs _ (rdy_able _ _ _ _ Ra1)) as Ga. pose proof (abl_fcs _ (rdy_able _ _ _ _ Rb1)) as Gb.
  eapply (crun_cons [_]); [by apply (c_elect _ _ wa wa1 now)|]. cbn [c_worlds c_air]. rewrite two_worlds_self.
  eapply (crun_cons [_]); [by apply (c_elect _ _ wb wb1 now)|]. cbn [c_worlds c_air]. rewrite two_worlds_key.
  eapply (crun_cons [_]); [by apply (c_announce _ _ wa1 wa2 (MifExpired now now now) sa ra)|]. cbn [c_worlds c_air]. rewrite two_worlds_self, Ga.
  eapply (crun_cons [_]); [by apply (c_announce _ _ wb1 wb2 (MifExpired now now now) sb rb)|]. cbn [c_worlds c_air]. rewrite two_worlds_key, Gb.
  eapply (crun_cons [_]).
  { replace [Hears sample_self sample_key] with (if trusts wa3 sample_key then [Hears sample_self sample_key] else []) by (by rewrite Va).
    apply (c_hear _ _ _ wa2 wa3 false sb (card sb) 0 0 now); try done; [by apply lookup_insert_eq|by apply card_received]. }
  cbn [c_worlds c_air]. rewrite two_worlds_self. eapply (crun_cons [_] []).
  { replace [Hears sample_key sample_self] with (if trusts wb3 sample_self then [Hears sample_key sample_self] else []) by (by rewrite Vb).
    apply (c_hear _ _ _ wb2 wb3 false sa (card sa) 0 0 now); try done; [|by apply card_received].
    cbn [c_air]. by rewrite lookup_insert_ne, lookup_insert_eq. }
  cbn [c_worlds c_air]. rewrite two_worlds_key. constructor.
Qed.

(** Turns a second apart. *)
Lemma turns_crun k : ∀ air wa wb t now,
  both_ready wa wb t → 2000000 <= now → now - 2000000 <= t → now + 1000000 * Z.of_nat k <= 2 ^ 64 →
  ∃ c', crun (concat (replicate k turn)) (mk_cluster (two_worlds wa wb) air) c'.
Proof.
  induction k as [|k IH]; intros air wa wb t now R Hnow Ht Hk; cbn [replicate concat]; [eexists; constructor|].
  destruct (turn_crun air wa wb t now R) as (wa' & wb' & air' & C & R'); [lia..|].
  destruct (IH air' wa' wb' now (now + 1000000) R') as [c' C']; [lia..|]. exists c'. by eapply crun_app.
Qed.

(** [receiver] and [sender_state] of EndToEnd on channel 6, without the
    filter for weak signals. *)
Definition world_self : world :=
  mk_world (with_awdl (with_filter_rssi 0 (tuned CHAN_OPCLASS_6 receiver)) (sample_daemon None [])) [] [].
Definition world_key : world :=
  mk_world (with_awdl (with_filter_rssi 0 (tuned CHAN_OPCLASS_6 sender_state)) (w_daemon sender_world)) [] [].

Lemma world_self_member : member sample_self world_self {[ sample_key := sample_peer ]} [].
Proof.
  constructor.
  - eapply daemon_ok_awdl; [apply (sample_daemon_ok None []); [simpl; lia|constructor|discriminate]|].
    apply state_ok_filter, state_ok_tuned; [exact receiver_ok|split; simpl; int_lia].
  - constructor.
  - by constructor.
  - by rewrite lookup_singleton_ne.
Qed.

Lemma world_key_member : member sample_key world_key {[ sample_self := near_peer ]} [].
Proof.
  constructor.
  - eapply daemon_ok_awdl; [exact sender_ok|]. apply state_ok_filter, state_ok_tuned; [apply sender_ok|split; simpl; int_lia].
  - constructor.
  - by constructor.
  - by rewrite lookup_singleton_ne.
Qed.

Definition sample_cluster : cluster := mk_cluster (two_worlds world_self world_key) ∅.

Lemma sample_cluster_ok : cluster_ok sample_cluster.
Proof.
  constructor; [|done]. intros a w. cbn [sample_cluster c_worlds]. unfold two_worlds.
  intros [[<- <-]|[_ [<- <-]%lookup_singleton_Some]]%lookup_insert_Some.
  - exists {[ sample_key := sample_peer ]}, []. split; [apply world_self_member|]. split; [|simpl; lia].
    intros x p [<- <-]%lookup_singleton_Some _. split; [by exists world_key|simpl; lia].
  - exists {[ sample_self := near_peer ]}, []. split; [apply world_key_member|]. split; [|simpl; lia].
    intros x p [<- <-]%lookup_singleton_Some _. split; [exists world_self; apply lookup_insert_eq|simpl; lia].
Qed.

Lemma sample_cluster_runs : ∃ c', crun (concat (replicate 13 turn)) sample_cluster c'.
Proof.
  apply (turns_crun 13 ∅ world_self world_key 0 2000000); [|lia..]. split; constructor; try done.
  - exists sample_peer, []. split; [apply world_self_member|]. vm_compute. discriminate.
  - exists near_peer, []. split; [apply world_key_member|]. vm_compute. discriminate.
Qed.
