(* ===== verification/Survivors.v ===== *)
(** * Survivors: daemons that disappear (src/daemon/core.c, src/peers.c, src/election.c)

    The cluster again, without the demand that no peer expires: daemons come
    and go, the timers remove the peers that have not been heard of, and
    elections run on whatever is left.  Once those that have gone have
    expired everywhere, the others agree on a master among them. *)

From Stdlib Require Import ZArith QArith Lia ZifyBool.
From stdpp Require Import base tactics numbers list gmap relations.
From S2P Require Import Prelude Wire CircularBuffer HashMap Sync Channel Election Peers ElectionRun ElectionNet ElectionAsync.
From S2P Require Import State Schedule Frame Radiotap Tx Rx TxRx Amsdu Io Daemon DaemonRun DaemonTimers DaemonSafe EndToEnd Follow Cluster.

Local Open Scope Z_scope.

(** The cluster without the daemons of [gone] and their frames. *)
Definition without (gone : gset mkey) (c : cluster) : cluster :=
  mk_cluster (filter (λ kv, kv.1 ∉ gone) (c_worlds c)) (filter (λ kv, kv.1 ∉ gone) (c_air c)).

(** No daemon left has one of [gone] in its table. *)
Definition forgotten (gone : gset mkey) (c : cluster) : Prop :=
  ∀ a w x, c_worlds c !! a = Some w → a ∉ gone → x ∈ gone → knows w x = false.

Section survivors.
Context `{CallocBounded} `{MallocOk} `{RxEnvOk} `{IoEnv} `{StackEnvOk} `{RadiotapOk}.

(** Any step of a cluster, and elections at any time. *)
Inductive lstep : cluster → cluster → Prop :=
  | l_cstep l c c' : cstep l c c' → lstep c c'
  | l_expire c a w w' now :
      c_worlds c !! a = Some w → handle (PeerExpired now) w = Done w' →
      lstep c (mk_cluster (<[a := w']> (c_worlds c)) (c_air c)).

(** What all steps keep, for the daemons [N]. *)
Definition sound (N : nodes) (c : cluster) : Prop :=
  ∃ n, related c n ∧ everywhere N (plausible N) n ∧ ∀ x, is_Some (N !! x) → is_Some (c_worlds c !! x).

Lemma view_of_fresh cutoff P x s : view_of (fresh_since cutoff P) !! x = Some s → view_of P !! x = Some s.
Proof.
  unfold view_of. rewrite !lookup_omap. intros (p & Hp & Hs)%bind_Some.
  apply map_lookup_filter_Some in Hp as [Hp _]. by rewrite Hp.
Qed.

Lemma expire_sound N c a w w' now :
  sound N c → c_worlds c !! a = Some w → handle (PeerExpired now) w = Done w' →
  sound N (mk_cluster (<[a := w']> (c_worlds c)) (c_air c)).
Proof.
  intros (n & Hr & (Hn & Ha & Hv) & Hd) Hw Hh. pose proof Hr as [Hnodes Hmem Hair].
  destruct (Hmem a w Hw) as (P & q & Hm & Hview). destruct (expire_member a w w' P q now Hm Hh) as [Hm' Hrun].
  set (P' := fresh_since _ P) in *. set (n1 := mk_anet (an_nodes n) (an_air n) (<[a := view_of P']> (an_views n))).
  assert (view_at n1 a = view_of P') as Hn1 by (unfold n1; by rewrite view_insert, decide_True).
  assert (everywhere N (plausible N) n1) as He1.
  { split_and!; [done..|]. intros x y t Hx Hne. unfold n1. rewrite view_insert. destruct (decide (a = x)) as [<-|]; [|by apply Hv].
    intros Ht%view_of_fresh. apply (Hv a); [done..|]. by rewrite Hview. }
  exists (mk_anet (<[a := election_of w']> (an_nodes n)) (an_air n) (an_views n1)). split; [|split].
  - apply (related_insert c n a w' P' q); try done. intros x Hx.
    change (view_at n1 x = view_at n x). unfold n1. by rewrite view_insert, decide_False.
  - apply (plausible_kept N (Elects a) n1); [done|]. apply (step_elect n1 a (election_of w)).
    + cbn [n1 an_nodes]. by rewrite Hnodes, lookup_fmap, Hw.
    + by rewrite Hn1.
  - intros x Hx. cbn [c_worlds]. apply lookup_insert_is_Some'. right. by apply Hd.
Qed.

Lemma lstep_sound N c c' : lstep c c' → sound N c → sound N c'.
Proof.
  intros [l c1 c2 Hstep|c1 a w w' now Hw Hh] Hs; [|exact (expire_sound N c1 a w w' now Hs Hw Hh)].
  destruct Hs as (n & Hr & He & Hd). destruct (cstep_simulated l c1 c2 n Hr Hstep) as (n' & Hx & Hr').
  exists n'. split; [done|]. split; [eapply exec_keeps; [|exact Hx|done]; intros; by eapply plausible_kept|].
  intros x Hx'. specialize (Hd x Hx'). destruct Hstep; cbn [c_worlds]; apply lookup_insert_is_Some'; by right.
Qed.

Lemma lrun_sound N c c' : rtc lstep c c' → sound N c → sound N c'.
Proof. induction 1 as [|c c1 c2 Hs _ IH]; [done|]. intros Hc. by apply IH, (lstep_sound N c). Qed.

(** The abstract network of those that are left. *)
Lemma sound_without N gone c :
  sound N c → forgotten gone c →
  let N' := elections (without gone c) in
  ∃ n, related (without gone c) n ∧ an_nodes n = N' ∧ everywhere N' (plausible N') n.
Proof.
  intros (n & [Hnodes Hmem Hair] & (Hn & Ha & Hv) & Hd) Hg N'.
  assert (∀ x, is_Some (N' !! x) ↔ is_Some (c_worlds c !! x) ∧ x ∉ gone) as HN'.
  { intros x. unfold N', elections, without. cbn [c_worlds]. rewrite lookup_fmap, fmap_is_Some. split.
    - intros [w [Hw Hx]%map_lookup_filter_Some]. split; [by eexists|done].
    - intros [[w Hw] Hx]. exists w. by apply map_lookup_filter_Some. }
  assert (∀ x t, plausible N x t → x ∉ gone → plausible N' x t) as Hpl.
  { intros x t (Hx & Ht) Hx'. split; [|done]. apply HN'. split; [by apply Hd|done]. }
  exists (mk_anet N' (filter (λ kv, kv.1 ∉ gone) (an_air n)) (an_views n)). split; [|split; [done|split; [|split]]].
  - constructor; [done|..]; cbn [without c_worlds c_air an_air].
    + intros a w [Hw _]%map_lookup_filter_Some. by apply Hmem.
    + intros b fcs sent [Hb Hx]%map_lookup_filter_Some. destruct (Hair b fcs sent Hb) as (s & type & Hs & Hann).
      exists s, type. split; [by apply map_lookup_filter_Some|done].
  - intros x t Hx. cbn [an_nodes] in Hx. assert (is_Some (N' !! x)) as Hal by by eexists. apply HN' in Hal as [_ Hxg].
    apply Hpl; [|done]. apply Hn. rewrite Hnodes. revert Hx. unfold N', elections, without. cbn [c_worlds].
    rewrite !lookup_fmap. intros (w & [Hw _]%map_lookup_filter_Some & ->)%fmap_Some. by rewrite Hw.
  - intros x t [Hx Hxg]%map_lookup_filter_Some. apply Hpl; [by apply Ha|done].
  - intros a x t Hal Hne Ht. change (view_at n a !! x = Some t) in Ht. apply HN' in Hal as [[w Hw] Hag].
    assert (x ∉ gone) as Hxg.
    { intros Hx. destruct (Hmem a w Hw) as (P & q & Hm & Hview). specialize (Hg a w x Hw Hag Hx).
      rewrite (knows_in_table w x P q (mem_ok _ _ _ _ Hm)) in Hg. apply bool_decide_eq_false in Hg.
      rewrite Hview in Ht. unfold view_of in Ht. rewrite lookup_omap in Ht. apply bind_Some in Ht as (p & Hp & _).
      apply Hg. by eexists. }
    apply Hpl; [|done]. apply (Hv a x t); [|done..]. destruct (Hn a (election_of w)) as [? _]; [|done].
    by rewrite Hnodes, lookup_fmap, Hw.
Qed.

(** C7: those that stay agree when others disappear.  Let any daemons run in
    any way, sending, hearing and electing, with peers that expire at any
    time; then let some of them, the master or not, be gone: no table of
    the others has them any more.  The others, whatever claims of the vanished
    master still circulate among them, agree after thirteen more epochs on
    the one with the greatest own counter, metric and address among
    themselves. *)
Theorem survivors_agree c gone c1 ls rest c' :
  cluster_ok c → rtc lstep c c1 → forgotten gone c1 →
  let left := without gone c1 in
  c_worlds left ≠ ∅ → Forall (epoch (elections left)) ls → length ls = 13%nat → crun (concat ls ++ rest) left c' →
  ∃ b, leader (elections left) b ∧ ∀ a w, c_worlds c' !! a = Some w → follows b a (st_election (d_awdl (w_daemon w))).
Proof.
  intros Hok Hrun Hg left Hne He Hlen Hx.
  assert (sound (elections c) c1) as Hs.
  { assert (sound (elections c) c) as Hstart.
    { destruct (related_exists c Hok) as (n & Hr & _ & Hp). exists n. split; [done|]. split; [done|].
      intros x. unfold elections. rewrite lookup_fmap. by rewrite fmap_is_Some. }
    exact (lrun_sound _ _ _ Hrun Hstart). }
  destruct (sound_without _ gone c1 Hs Hg) as (n & Hr & Hn & Hp). fold left in Hr, Hn, Hp.
  by apply (related_agree left n ls rest c').
Qed.
End survivors.

(** ** Two concrete daemons, one of which disappears *)

#[local] Existing Instances small_calloc small_calloc_bounded sample_malloc sample_malloc_ok sample_rx_env
  sample_rx_env_ok sample_io_env sample_stack sample_stack_ok rt_standard rt_standard_ok.

(** An epoch of a daemon alone. *)
Definition solo : list label := [Elects sample_self; Announces sample_self].

Lemma solo_is_epoch N : (∀ x, alive N x → x = sample_self) → epoch N solo.
Proof.
  intros Hx. exists [Elects sample_self], [Announces sample_self], []. split; [done|]. split_and!.
  - intros a ->%Hx. left.
  - intros a ->%Hx. left.
  - by intros a x ->%Hx ->%Hx.
Qed.

Lemma solo_crun air w q (now : Z) :
  able w → member sample_self w ∅ q →
  ∃ w' air' q', crun solo (mk_cluster {[ sample_self := w ]} air) (mk_cluster {[ sample_self := w' ]} air') ∧
    able w' ∧ member sample_self w' ∅ q'.
Proof.
  intros Ha Hm. destruct (elect_able sample_self w ∅ q now Ha Hm) as (w1 & E & Ha1 & Hm1).
  change (fresh_since (u64 (now - 2000000)) ∅) with (∅ : gmap mkey awdl_peer) in Hm1.
  destruct (announce_able sample_self w1 ∅ q now Ha1 Hm1) as (w2 & sent & rest & q' & Ea & Htr & _ & _ & _ & Ha2 & Hm2).
  exists w2, (<[sample_self := (false, sent)]> air), q'. split; [|done].
  eapply (crun_cons [_] [_]).
  { apply (c_elect (mk_cluster {[ sample_self := w ]} air) sample_self w w1 now); [apply lookup_singleton_eq| |exact E].
    intros P R. pose proof (sok_peers _ _ (dok_state _ _ _ (mem_ok _ _ _ _ Hm))) as R'.
    assert (P = ∅) as -> by (by rewrite (rep_peers _ _ R), <- (rep_peers _ _ R')). done. }
  cbn [c_worlds c_air]. rewrite insert_singleton_eq. eapply (crun_cons [_] []).
  { apply (c_announce _ sample_self w1 w2 (MifExpired now now now) sent rest); [apply lookup_singleton_eq|done|exact Ea|exact Htr]. }
  cbn [c_worlds c_air]. rewrite insert_singleton_eq, (abl_fcs _ Ha1). constructor.
Qed.

Lemma solos_crun k : ∀ air w q, able w → member sample_self w ∅ q →
  ∃ c', crun (concat (replicate k solo)) (mk_cluster {[ sample_self := w ]} air) c' ∧ is_Some (c_worlds c' !! sample_self).
Proof.
  induction k as [|k IH]; intros air w q Ha Hm; cbn [replicate concat].
  - eexists. split; [constructor|]. cbn [c_worlds]. rewrite lookup_singleton_eq. by eexists.
  - destruct (solo_crun air w q 0 Ha Hm) as (w' & air' & q' & C & Ha' & Hm').
    destruct (IH air' w' q' Ha' Hm') as (c' & C' & Hs). exists c'. split; [by eapply crun_app|done].
Qed.

Lemma world_self_able : able world_self.
Proof. by constructor. Qed.

Lemma survivors_agree_witness :
  ∃ w c', handle (PeerExpired 5000000) world_self = Done w ∧
    crun (concat (replicate 13 solo)) (without {[ sample_key ]} (mk_cluster (two_worlds w world_key) ∅)) c' ∧
    ∃ w', c_worlds c' !! sample_self = Some w' ∧ follows sample_self sample_self (st_election (d_awdl (w_daemon w'))).
Proof.
  destruct (elect_able sample_self world_self _ [] 5000000 world_self_able world_self_member) as (w & E & Ha & Hm).
  change (fresh_since (u64 (5000000 - 2000000)) {[ sample_key := sample_peer ]}) with (∅ : gmap mkey awdl_peer) in Hm.
  set (c1 := mk_cluster (two_worlds w world_key) ∅).
  assert (c_worlds (without {[ sample_key ]} c1) = {[ sample_self := w ]}) as Hleft.
  { apply map_eq. intros x. cbn [without c_worlds c1]. unfold two_worlds. apply option_eq. intros v.
    rewrite map_lookup_filter_Some, lookup_insert_Some, !lookup_singleton_Some, not_elem_of_singleton. cbn [fst]. split.
    - intros [[Hx|(_ & Hx & _)] Hn]; [exact Hx|destruct (Hn (eq_sym Hx))].
    - intros [<- <-]. split; [left; split; reflexivity|discriminate]. }
  assert (without {[ sample_key ]} c1 = mk_cluster {[ sample_self := w ]} ∅) as Heq.
  { rewrite <- Hleft. reflexivity. }
  destruct (solos_crun 13 ∅ w [] Ha Hm) as (c' & C & [w' Hw']). rewrite <- Heq in C.
  exists w, c'. split; [exact E|]. split; [exact C|]. exists w'. split; [exact Hw'|].
  destruct (survivors_agree sample_cluster {[ sample_key ]} c1 (replicate 13 solo) [] c') as (b & Hb & Hf).
  - exact sample_cluster_ok.
  - apply rtc_once. replace c1 with (mk_cluster (<[sample_self := w]> (c_worlds sample_cluster)) (c_air sample_cluster)).
    + apply (l_expire sample_cluster sample_self world_self w 5000000); [apply lookup_insert_eq|exact E].
    + cbn [sample_cluster c_worlds c_air]. by rewrite two_worlds_self.
  - intros a v x Hv Hag Hx%elem_of_singleton. subst x. cbn [c1 c_worlds] in Hv. unfold two_worlds in Hv.
    apply lookup_insert_Some in Hv as [[<- <-]|[_ [<- _]%lookup_singleton_Some]]; [|by destruct Hag; apply elem_of_singleton].
    rewrite (knows_in_table w sample_key ∅ [] (mem_ok _ _ _ _ Hm)). reflexivity.
  - rewrite Hleft. apply map_non_empty_singleton.
  - apply Forall_replicate. unfold elections. rewrite Hleft, map_fmap_singleton.
    apply solo_is_epoch. intros x [t [Hx _]%lookup_singleton_Some]. exact (eq_sym Hx).
  - reflexivity.
  - rewrite app_nil_r. exact C.
  - assert (b = sample_self) as ->.
    { destruct Hb as (sb & Hsb & _). unfold elections in Hsb. rewrite Hleft, map_fmap_singleton in Hsb.
      apply lookup_singleton_Some in Hsb as [Hsb _]. exact (eq_sym Hsb). }
    exact (Hf sample_self w' Hw').
Defined.
