(* ===== verification/Owl.v ===== *)
(** * Owl: the program (src/daemon/owl.c)

    The command line, the detachment from the terminal and the start of the
    daemon.  What [getopt] returns is the input, a list of option characters
    with their arguments; a copy into an array that is too small and a number
    [atoi] cannot represent are undefined ([None]).  [main] is followed up to
    the event loop, whose events are those of Daemon; [main_end] is what
    follows it. *)

From Stdlib Require Import ZArith QArith Lia ZifyBool Ascii String.
From stdpp Require Import base tactics numbers list gmap sets.
From S2P Require Import Prelude Wire CircularBuffer HashMap Sync Channel Election Peers Memory ElectionRun.
From S2P Require Import State Schedule Frame Radiotap Tx Rx Print Log Io Daemon DaemonRun DaemonTimers DaemonSafe.
From S2P Require Import Os Netutils IoInit Calls.

Local Open Scope Z_scope.

Definition EXIT_SUCCESS : Z := 0.
Definition EXIT_FAILURE : Z := 1.

(** The code of a character. *)
Definition chr (a : ascii) : Z := Z.of_N (N_of_ascii a).

Definition text (s : string) : list Z := chr <$> list_ascii_of_string s.

Definition DEFAULT_AWDL_DEVICE : list Z := text "awdl0".

(** ** The command line *)

(** The local variables of [main]. *)
Record options := mk_options {
  o_daemon : bool;
  o_dump : bool;
  o_chan_num : Z;
  o_log_level : Z;
  o_filter_rssi : Z;
  o_no_monitor_mode : bool;
  o_wlan : list Z;
  o_host : list Z }.

Definition default_options : options :=
  mk_options false false 6 LOG_INFO 1 false [] DEFAULT_AWDL_DEVICE.

(** [isspace] in the C locale. *)
Definition isspace (c : Z) : bool := (c =? 32) || (9 <=? c) && (c <=? 13).
Definition isdigit (c : Z) : bool := (chr "0" <=? c) && (c <=? chr "9").

Fixpoint atoi_digits (s : list Z) (acc : Z) : Z :=
  match s with
  | c :: s => if isdigit c then atoi_digits s (acc * 10 + (c - chr "0")) else acc
  | [] => acc
  end.

Fixpoint skip_spaces (s : list Z) : list Z :=
  match s with
  | c :: s' => if isspace c then skip_spaces s' else s
  | [] => []
  end.

Definition atoi (s : list Z) : option Z :=
  let v := match skip_spaces s with
           | c :: s' => if c =? chr "-" then - atoi_digits s' 0
                        else if c =? chr "+" then atoi_digits s' 0
                        else atoi_digits (c :: s') 0
           | [] => 0
           end in
  if (INT_MIN <=? v) && (v <=? INT_MAX) then Some v else None.

(** How [main] ends, or the world the event loop starts in. *)
Inductive finish :=
  | Exited (code : Z)
  | Aborted
  | Running (w : world).

(** The body of the loop: [inl] leaves the program, after a message on the
    standard error if there is one.  With ['?'], [optarg] is the character in
    [optopt]. *)
Definition parse_option (c : Z) (optarg : list Z) (o : options) : option (list (list Z) * finish + options) :=
  let '(mk_options daemon dump chan_num log_level filter_rssi no_monitor_mode wlan host) := o in
  if c =? chr "D" then
    Some (inr (mk_options true dump chan_num log_level filter_rssi no_monitor_mode wlan host))
  else if c =? chr "c" then
    n ← atoi optarg;
    Some (inr (mk_options daemon dump n log_level filter_rssi no_monitor_mode wlan host))
  else if c =? chr "d" then
    Some (inr (mk_options daemon true chan_num log_level filter_rssi no_monitor_mode wlan host))
  else if c =? chr "f" then
    Some (inr (mk_options daemon dump chan_num log_level 0 no_monitor_mode wlan host))
  else if c =? chr "v" then
    Some (inr (mk_options daemon dump chan_num (if log_level <? LOG_TRACE then log_level + 1 else log_level)
      filter_rssi no_monitor_mode wlan host))
  else if c =? chr "i" then
    w ← strcpy PATH_MAX optarg;
    Some (inr (mk_options daemon dump chan_num log_level filter_rssi no_monitor_mode w host))
  else if c =? chr "h" then
    h ← strcpy IFNAMSIZ optarg;
    Some (inr (mk_options daemon dump chan_num log_level filter_rssi no_monitor_mode wlan h))
  else if c =? chr "N" then
    Some (inr (mk_options daemon dump chan_num log_level filter_rssi true wlan host))
  else if c =? chr "?" then
    let stderr := if decide (optarg = [chr "i"])
                  then [text "Option -" ++ optarg ++ text " needs to specify a wireless interface." ++ [10]] else [] in
    Some (inl (stderr, Exited EXIT_FAILURE))
  else Some (inl ([], Aborted)).

(** The loop, on what [getopt] returns before it returns -1. *)
Fixpoint parse_options (opts : list (Z * list Z)) (o : options) : option (list (list Z) * finish + options) :=
  match opts with
  | [] => Some (inr o)
  | (c, optarg) :: opts =>
      r ← parse_option c optarg o;
      match r with inl f => Some (inl f) | inr o => parse_options opts o end
  end.

(** The logger once the options were read. *)
Definition main_logger (o : options) : logger := log_set_level (o_log_level o) logger_init.

(** The [switch] on the channel number. *)
Definition select_chan (chan_num : Z) : option awdl_chan :=
  if chan_num =? 6 then Some CHAN_OPCLASS_6
  else if chan_num =? 44 then Some CHAN_OPCLASS_44
  else if chan_num =? 149 then Some CHAN_OPCLASS_149
  else None.

Definition banner : list Z := concat ((λ s, text s ++ [10]) <$> [
  "              .oOXWMMMMWXOx:";
  "         .oOOOx:'''''''''''':OOOx:";
  "      oXOo'      ........      ':OXx.";
  "           .oOOO''''''''''OOOo.";
  "        oXOo'                'oOO:";
  "             :oOOOOXXXXOOOOo:.";
  "          oXO:'            ':OXo";
  "              .:xOXXXXXXOx:.";
  "          .xXMMMMMMMMMMMMMMMMXx.";
  "  'XWWWWWWMMMMMMMMMMMMMMMMMMMMMMWWWWWWX'";
  "    oWMMMMMMMMMMMMMMMMMMMMMMMMMMMMMMWo";
  "     OMMMMMMWWMMMMMMMMMMMMMMWWWMMMMMO";
  "    OMMWx'      'xWMMMMWx'      'oXMMO";
  "   :MW:            oMMx            'WM:";
  "   XM'    .xOOo.    :o     .xOOo.    WX";
  "   WX    :MMMMMX          :MMMMMX    xW";
  "   XW    'WMMMMX   .xx.   'WMMMWX    XX";
  "   'Wx    'xWMx'   OMMO    'xWMx'   xM'";
  "    'XX:           'XX'           :XX'";
  "      'xXOx:..................:xXWx'";
  "         'xXMMMMMMMMMMMMMMMMMMWO'";
  "";
  "            Open Wireless Link";
  "";
  ""]%string).

(** ** Detachment, start and end *)

Section owl.
Context `{Os} `{CallocEnv}.

(** The loop that closes the descriptors [n - 1] down to 0. *)
Fixpoint close_down (n : nat) : M net unit :=
  match n with
  | O => mret tt
  | S n => _ ← sys (close (Z.of_nat n)); close_down n
  end.

(** Leaving early is [exit]. *)
Definition daemonize : M net unit :=
  pid ← sys fork;
  guard_ret (pid <? 0) EXIT_FAILURE;;
  guard_ret (pid >? 0) EXIT_SUCCESS;;
  r ← sys setsid;
  guard_ret (r <? 0) EXIT_FAILURE;;
  _ ← sys (signal_ignore SIGCHLD);
  _ ← sys (signal_ignore SIGHUP);
  pid ← sys fork;
  guard_ret (pid <? 0) EXIT_FAILURE;;
  guard_ret (pid >? 0) EXIT_SUCCESS;;
  _ ← sys (umask 0);
  _ ← sys (chdir [chr "/"]);
  max ← sys sysconf_open_max;
  close_down (Z.to_nat (max + 1));;
  _ ← sys openlog;
  mret tt.

(** The exit code of a part of the program that may leave it. *)
Definition exits (m : M net unit) : M net (option Z) := λ s,
  match m s with
  | None => None
  | Some (s', inl code) => Some (s', inr (Some code))
  | Some (s', inr _) => Some (s', inr None)
  end.

(** [awdl_init] with the calls whose results [Daemon.awdl_init] takes. *)
Definition awdl_init_calls (io : io_state) (wlan host : list Z) (chan : awdl_chan) (dump : bool) (now : Z)
    (mem : awdl_state) (ring : list buf) : M net (Z + daemon_state) :=
  err ← fn netutils_init;
  if err <? 0 then mret (inl err) else
  r ← io_state_init io wlan host AWDL_BSSID;
  let '(io, io_err) := r in
  if io_err <? 0 then mret (inl io_err) else
  h ← get_hostname (HOST_NAME_LENGTH_MAX + 1);
  let '(name_err, hostname) := h in
  lift (awdl_init err (inr io) (if name_err <? 0 then inl name_err else inr hostname) chan dump now mem ring).

(** [cbuf] and [buffer] are the blocks of the queue. *)
Definition awdl_free (h : mem) (cbuf buffer : Z) (d : daemon_state) : M net mem :=
  h ← lift (circular_buf_free h cbuf buffer);
  io_state_free (d_io d);;
  netutils_cleanup;;
  mret h.

Definition set_no_monitor_mode (b : bool) (i : io_state) : io_state :=
  mk_io (wlan_handle i) (wlan_ifname i) (wlan_ifindex i) (host_ifname i) (host_ifindex i) (if_ether_addr i)
    (wlan_fd i) (host_fd i) b (wlan_is_file i).

(** [io], [mem] and [ring] are what the memory of [state] held. *)
Definition main (opts : list (Z * list Z)) (io : io_state) (now : Z) (mem : awdl_state) (ring : list buf) :
    M net finish :=
  r ← lift (parse_options opts default_options);
  match r with
  | inl (stderr, f) => mapM (λ t, sys (fprintf_stderr t)) stderr;; mret f
  | inr o =>
      _ ← sys (printf banner);
      left ← (if o_daemon o then exits daemonize else mret None);
      match left with
      | Some code => mret (Exited code)
      | None =>
          match select_chan (o_chan_num o) with
          | None => mret (Exited EXIT_FAILURE)
          | Some chan =>
              if (length (o_wlan o) =? 0)%nat then mret (Exited EXIT_FAILURE) else
              let io := set_no_monitor_mode (o_no_monitor_mode o) io in
              r ← awdl_init_calls io (o_wlan o) (o_host o) chan (o_dump o) now mem ring;
              match r with
              | inl _ => mret (Exited EXIT_FAILURE)
              | inr d =>
                  mret (Running (awdl_schedule
                    (mk_world (with_awdl (with_filter_rssi (o_filter_rssi o) (d_awdl d)) d) [] [])))
              end
          end
      end
  end.

(** The rest of [main], from the world the event loop starts in; what
    [ev_run] does is a parameter, and [h] are the live blocks when it
    returns. *)
Definition main_end (ev_run : world → M net world) (h : mem) (cbuf buffer : Z) (w : world) : M net (mem * finish) :=
  w ← ev_run w;
  h ← awdl_free h cbuf buffer (w_daemon w);
  mret (h, Exited EXIT_SUCCESS).
End owl.

(** ** Properties *)

(** *** The command line *)

(** What the loop guarantees of the options. *)
Record options_ok (o : options) : Prop := {
  oo_wlan : Z.of_nat (length (o_wlan o)) < PATH_MAX;
  oo_host : Z.of_nat (length (o_host o)) < IFNAMSIZ;
  oo_level : LOG_INFO <= o_log_level o <= LOG_TRACE;
  oo_filter : o_filter_rssi o = 0 ∨ o_filter_rssi o = 1 }.

Lemma strcpy_spec size src out : strcpy size src = Some out → out = src ∧ Z.of_nat (length src) < size.
Proof. unfold strcpy. destruct (_ <? _) eqn:E; [|done]. intros [= <-]. split; [done|lia]. Qed.

Lemma parse_option_ok c a o o' : options_ok o → parse_option c a o = Some (inr o') → options_ok o'.
Proof.
  intros [Hw Hh Hl Hf]. destruct o as [dm du n lv fi nm w h]. unfold parse_option. simpl in *.
  repeat match goal with |- (if ?b then _ else _) = _ → _ => destruct b end;
    try (intros [= <-]; constructor; simpl; first [done | lia | by left | by right]).
  - destruct (atoi a) as [m|]; [|done]. intros [= <-]. by constructor.
  - intros [= <-]. constructor; simpl; try done. unfold LOG_INFO, LOG_TRACE in *. destruct (lv <? 8) eqn:E; lia.
  - destruct (strcpy PATH_MAX a) eqn:E; [|done]. apply strcpy_spec in E as [-> ?]. intros [= <-]. by constructor.
  - destruct (strcpy IFNAMSIZ a) eqn:E; [|done]. apply strcpy_spec in E as [-> ?]. intros [= <-]. by constructor.
Qed.

Lemma parse_options_ok opts : ∀ o o', options_ok o → parse_options opts o = Some (inr o') → options_ok o'.
Proof.
  induction opts as [|[c a] opts IH]; intros o o' Ho; simpl; [by intros [= <-]|].
  destruct (parse_option c a o) as [[f|o1]|] eqn:E; [done| |done]. apply IH. by eapply parse_option_ok.
Qed.

Lemma default_options_ok : options_ok default_options.
Proof. constructor; [reflexivity..|split; vm_compute; discriminate|by right]. Qed.

(** How often [-v] was given. *)
Definition count_v (opts : list (Z * list Z)) : Z := Z.of_nat (length (filter (λ o, o.1 = chr "v") opts)).

Lemma parse_option_level c a o o' : parse_option c a o = Some (inr o') → o_log_level o <= LOG_TRACE →
  o_log_level o' = Z.min LOG_TRACE (o_log_level o + count_v [(c, a)]).
Proof.
  destruct o as [dm du n lv fi nm w h]. unfold parse_option, LOG_TRACE. cbn [o_log_level]. intros E Hl.
  unfold count_v. rewrite filter_cons. cbn [fst].
  destruct (decide (c = chr "v")) as [->|Hc].
  - injection E as <-. simpl. split_ifs; lia.
  - rewrite (proj2 (Z.eqb_neq c (chr "v")) Hc) in E.
    assert (o_log_level o' = lv) as ->; [|simpl; lia]. revert E.
    repeat match goal with |- (if ?b then _ else _) = _ → _ => destruct b end; try by intros [= <-].
    + by destruct (atoi a) as [m|]; [intros [= <-]|].
    + by destruct (strcpy PATH_MAX a); [intros [= <-]|].
    + by destruct (strcpy IFNAMSIZ a); [intros [= <-]|].
Qed.

Lemma parse_options_level opts : ∀ o o', parse_options opts o = Some (inr o') → o_log_level o <= LOG_TRACE →
  o_log_level o' = Z.min LOG_TRACE (o_log_level o + count_v opts).
Proof.
  induction opts as [|[c a] opts IH]; intros o o'; simpl.
  - intros [= <-] Hl. unfold count_v. simpl. lia.
  - destruct (parse_option c a o) as [[f|o1]|] eqn:E; [done| |done]. simpl. intros Hp Hl.
    pose proof (parse_option_level c a o o1 E Hl) as H1. rewrite (IH o1 o' Hp) by (rewrite H1; lia).
    unfold count_v in *. rewrite filter_cons in *. destruct (decide _); simpl in *; lia.
Qed.

(** The option [-v] sets what the log shows.  After the options were
    read, a message is written exactly if its level is at most [LOG_INFO],
    or, with [-v] given [n] times, at most [n] above it. *)
Theorem verbosity opts o level file line lt msg :
  parse_options opts default_options = Some (inr o) → LOG_EMERG <= level <= LOG_TRACE →
  ∃ effects rc, log_log false (main_logger o) level file line lt msg = Some (effects, rc) ∧
    (level <= LOG_INFO + count_v opts → rc = 1 ∧ ∃ name, on_stderr effects = [plain_line name lt msg]) ∧
    (LOG_INFO + count_v opts < level → rc = 0 ∧ effects = []).
Proof.
  intros Hp Hl. pose proof (parse_options_level opts default_options o Hp ltac:(vm_compute; discriminate)) as Hlev.
  cbn [default_options o_log_level] in Hlev. destruct (decide (level <= LOG_INFO + count_v opts)) as [Hle|Hgt].
  - destruct (log_log_shown (main_logger o) level file line lt msg Hl) as (name & _ & ->); [simpl; lia|].
    eexists _, _. split; [done|]. split; [|lia]. intros _. split; [done|]. by exists name.
  - rewrite log_log_hidden by (simpl; lia). eexists _, _. split; [done|]. split; [lia|done].
Qed.

(** *** The start *)

(** What the interfaces guarantee of names and addresses. *)
Class OsSane `{Os} : Prop := {
  sane_names : ∀ l, Z.of_nat (length (os_name l)) < IFNAMSIZ;
  sane_addr : ∀ l, addr_ok (os_bytes l);
  sane_host : ∀ l, bytes_ok (os_hostname l) ∧ (length (os_hostname l) <= 64)%nat }.

(** What the types say of the memory of the state: arrays of the right size,
    and bytes where the address and the name are. *)
Record memory_ok (io : io_state) (now : Z) (mem : awdl_state) (ring : list buf) : Prop := {
  mo_addr : addr_ok (if_ether_addr io);
  mo_now : is_u64 now;
  mo_name : Z.of_nat (length (st_name mem)) = HOST_NAME_LENGTH_MAX + 1 ∧ bytes_ok (st_name mem);
  mo_chan : length (ch_sequence (st_channel mem)) = AWDL_CHANSEQ_LENGTH;
  mo_ring : length ring = 16%nat }.

(** What makes the start undefined: there is no memory for the first table of
    peers, or the kernel denies a link ([link_refusal] of IoInit). *)
Definition start_trouble `{Os} `{CallocEnv} : Prop :=
  calloc_ok INITIAL_SIZE = false ∨ ∃ l c, link_refusal c (os_result l c) = true.

Lemma select_chan_ok n chan : select_chan n = Some chan →
  (chan_ok chan ∧ tunable (awdl_chan_num chan AWDL_CHAN_ENC_OPCLASS)) ∧ n ∈ [6; 44; 149].
Proof.
  unfold select_chan. destruct (n =? 6) eqn:E6; [|destruct (n =? 44) eqn:E44; [|destruct (n =? 149) eqn:E149; [|done]]];
    intros [= <-]; (split; [split; [split; simpl; int_lia|eexists; split; [reflexivity|discriminate]]|]); [assert (n = 6) as -> by lia|assert (n = 44) as -> by lia
    |assert (n = 149) as -> by lia]; set_solver.
Qed.

Section runs.
Context `{OsSane} `{CallocBounded} `{MallocOk} `{RxEnvOk} `{IoEnv} `{StackEnvOk} `{RadiotapOk}.

Lemma close_down_run n s : ∃ s', close_down n s = Some (s', inr tt).
Proof. revert s. induction n as [|n IH]; intros s; [by eexists|]. cbn [close_down]. rewrite sys_bind. apply IH. Qed.

(** It closes [2] if [n] is above, and opens nothing. *)
Lemma close_down_2 n : ∀ s, ∃ s', close_down n s = Some (s', inr tt) ∧
  ∃ l, n_log s' = n_log s ++ l ∧ Forall (λ c, obtains c.1 c.2 = None) l ∧ ((2 < n)%nat → ∃ r, (close 2, r) ∈ l).
Proof.
  induction n as [|n IH]; intros s.
  - eexists. split; [done|]. exists []. rewrite app_nil_r. split; [done|]. split; [done|lia].
  - cbn [close_down]. rewrite sys_bind. set (r := os_result _ _).
    destruct (IH (with_log (n_log s ++ [(close (Z.of_nat n), r)]) s)) as (s' & -> & l & Hl & Hf & Hc2).
    eexists. split; [done|]. exists ((close (Z.of_nat n), r) :: l). split; [by rewrite Hl; simpl; rewrite <- app_assoc|].
    split; [by constructor|]. intros Hn. destruct (decide (n = 2%nat)) as [->|Hne]; [exists r; by left|].
    destruct Hc2 as [r' Hr']; [lia|]. exists r'. by right.
Qed.

(** Once [daemonize] has returned in the process that goes on, the descriptor
    of the standard error was closed and no descriptor obtained since: the
    next one the system hands out may be 2, where [log_log] writes to. *)
Lemma daemonize_closes_stderr s s' :
  (∀ l, 2 <= os_result l sysconf_open_max) → daemonize s = Some (s', inr tt) →
  ∃ pre r post, n_log s' = pre ++ (close 2, r) :: post ∧ Forall (λ c, obtains c.1 c.2 = None) post.
Proof.
  intros Hmax. unfold daemonize, guard_ret.
  repeat match goal with
  | |- (sys sysconf_open_max ≫= _) _ = _ → _ => fail 1
  | |- (sys _ ≫= _) _ = _ → _ => rewrite sys_bind
  | |- ((if ?b then return_with _ else _) ≫= _) _ = _ → _ => destruct b; [done|]
  | |- (mret _ ≫= ?f) ?s = _ → _ => change ((mret tt ≫= f) s) with (f tt s); cbv beta
  end.
  rewrite sys_bind. match goal with |- context [os_result ?l sysconf_open_max] => specialize (Hmax l); set (max := os_result l sysconf_open_max) in * end.
  set (s1 := with_log _ _). unfold mbind at 1, M_bind at 1.
  destruct (close_down_2 (Z.to_nat (max + 1)) s1) as (s2 & -> & l & Hl & Hf & Hc2).
  destruct Hc2 as [r Hr]; [lia|]. apply list_elem_of_split in Hr as (l1 & l2 & ->).
  intros [= <-]. simpl. rewrite Hl. exists (n_log s1 ++ l1), r, (l2 ++ [(openlog, os_result (n_log s1 ++ l1 ++ (close 2, r) :: l2) openlog)]).
  split; [by rewrite <- !app_assoc|]. apply Forall_app in Hf as [_ Hf]. apply Forall_cons in Hf as [_ Hf].
  apply Forall_app. split; [done|]. by constructor.
Qed.

(** A part of the program that goes on or leaves it with an exit status. *)
Definition leaves {A} (m : M net A) : Prop :=
  ∀ s, ∃ s' r, m s = Some (s', r) ∧ match r with inl c => c = EXIT_SUCCESS ∨ c = EXIT_FAILURE | inr _ => True end.

Lemma leaves_bind {A B} (m : M net A) (f : A → M net B) : leaves m → (∀ a, leaves (f a)) → leaves (m ≫= f).
Proof.
  intros Hm Hf s. destruct (Hm s) as (s1 & [c|a] & E & Hc); unfold mbind, M_bind; rewrite E; [by eexists _, _|].
  apply Hf.
Qed.

Lemma daemonize_leaves : leaves daemonize.
Proof.
  unfold daemonize, guard_ret.
  repeat match goal with
  | |- leaves (_ ≫= _) => apply leaves_bind; [|intros ?]
  | |- leaves (sys _) => by intros s; eexists _, _
  | |- leaves (if ?b then return_with _ else _) =>
      intros s; destruct b; eexists _, _; (split; [reflexivity|]); simpl; auto
  | |- leaves (close_down ?n) => intros s; destruct (close_down_run n s) as [s' E]; by eexists _, _
  | |- leaves (mret _) => by intros s; eexists _, _
  end.
Qed.

Lemma daemonize_run s : ∃ s' c, exits daemonize s = Some (s', inr c) ∧
  match c with Some code => code = EXIT_SUCCESS ∨ code = EXIT_FAILURE | None => True end.
Proof.
  destruct (daemonize_leaves s) as (s' & [c|[]] & E & Hc); unfold exits; rewrite E; by eexists _, _.
Qed.

Lemma safe_any_sys c : safe (λ _, True) (sys c) (λ _, True).
Proof. intros s _. by eexists _, _. Qed.

Lemma safe_any_fn m : safe (λ _, True) m (λ _, True) → safe (λ _, True) (fn m) (λ _, True).
Proof.
  intros Hm s _. destruct (Hm s I) as (s' & r & E & _). unfold fn, run. rewrite E. destruct r; by eexists _, _.
Qed.

Lemma netutils_init_run s : ∃ s' err, fn netutils_init s = Some (s', inr err).
Proof.
  assert (safe (λ _, True) netutils_init (λ _, True)) as Hs.
  { unfold netutils_init, nlroute_init, nl80211_init.
    repeat match goal with
    | |- safe _ (_ ≫= _) _ => eapply safe_bind; [|intros ? _]
    | |- safe _ (if ?b then _ else _) _ => destruct b
    | |- safe _ (sys _) _ => apply safe_any_sys
    | |- safe _ (fn _) _ => apply safe_any_fn
    | |- safe _ get_st _ => by apply (safe_get _ (λ _, True))
    | |- safe _ (modify _) _ => by apply (safe_modify _ _ (λ _, True))
    | |- safe _ (guard_ret _ _) _ => by eapply safe_weaken; [apply safe_guard|]
    | |- safe _ (mret _) _ => by apply safe_ret
    end. }
  unfold fn. destruct (safe_run _ _ _ s Hs I) as (s' & r & -> & _). by eexists _, _.
Qed.

Lemma awdl_init_calls_run io wlan host chan dump now mem ring s :
  memory_ok io now mem ring → chan_ok chan ∧ tunable (awdl_chan_num chan AWDL_CHAN_ENC_OPCLASS) →
  Z.of_nat (length wlan) < PATH_MAX → Z.of_nat (length host) < IFNAMSIZ →
  (∃ s' r, awdl_init_calls io wlan host chan dump now mem ring s = Some (s', inr r) ∧
    match r with
    | inl _ => True
    | inr d => ∃ netutils io' l, start_ok io' (os_hostname l) chan now mem ring ∧
        awdl_init netutils (inr io') (inr (os_hostname l)) chan dump now mem ring = Some (inr d)
    end) ∨
  (awdl_init_calls io wlan host chan dump now mem ring s = None ∧ start_trouble).
Proof.
  intros [Ha Hn [Hl Hb] Hc Hr] Hch Hw Hh. unfold awdl_init_calls.
  destruct (netutils_init_run s) as (s1 & err & E1). rewrite (bind_run _ _ _ _ _ E1).
  destruct (err <? 0) eqn:Ee; [left; by eexists _, _|].
  destruct (io_state_init_run io wlan host AWDL_BSSID s1 Hw Hh sane_names) as [(s2 & io' & err2 & E2 & _ & Haddr)|[E2 (l & c & Ht)]].
  2: { right. unfold mbind, M_bind. rewrite E2. split; [done|]. right. eauto. }
  rewrite (bind_run _ _ _ _ _ E2). destruct (err2 <? 0); [left; by eexists _, _|].
  unfold get_hostname, mbind, M_bind, sys, get_st, mret, M_ret, lift. cbn [n_log with_log]. set (r := os_result _ _). clearbody r.
  destruct (r <? 0) eqn:Er.
  { left. rewrite Er. unfold awdl_init. rewrite Ee. by eexists _, _. }
  change (0 <? 0) with false. cbv iota. match goal with |- context [os_hostname ?l] => generalize l end. intros l.
  destruct (calloc_ok INITIAL_SIZE) eqn:Hal.
  - left. assert (start_ok io' (os_hostname l) chan now mem ring) as Hs.
    { constructor; try done; [|apply sane_host]. destruct Haddr as [->|[l' ->]]; [done|apply sane_addr]. }
    destruct (awdl_init_total err io' (os_hostname l) chan dump now mem ring Hs) as (d & Hd & _); [lia|].
    rewrite Hd. eexists _, _. split; [reflexivity|]. by eexists _, _, _.
  - right. split; [|by left]. unfold awdl_init, awdl_init_state, awdl_peer_state_init, awdl_peers_init, hashmap_new.
    rewrite Ee, Hal. by destruct (strncpy _ _ _), (awdl_version 3 4), (awdl_chanseq_init_static _ _).
Qed.

(** Messages are written in order. *)
Lemma print_messages ts : ∀ s, ∃ s' l, mapM (λ t, sys (fprintf_stderr t)) ts s = Some (s', inr l) ∧
  (n_log s').*1 = (n_log s).*1 ++ (fprintf_stderr <$> ts).
Proof.
  induction ts as [|t ts IH]; intros s; cbn [mapM].
  - eexists _, _. split; [reflexivity|]. by rewrite app_nil_r.
  - rewrite sys_bind. set (r := os_result _ _). destruct (IH (with_log (n_log s ++ [(fprintf_stderr t, r)]) s)) as (s' & l & E & L).
    rewrite (bind_run _ _ _ _ _ E). eexists _, _. split; [reflexivity|]. rewrite L. cbn [n_log with_log].
    by rewrite fmap_app, <- app_assoc.
Qed.

(** How [main] ends once the options are known. *)
Definition main_result (mem : awdl_state) (o : options) (f : finish) : Prop :=
  match f with
  | Aborted => False
  | Exited code => code = EXIT_FAILURE ∨ (o_daemon o = true ∧ code = EXIT_SUCCESS)
  | Running w =>
      ((∀ l, name_ends (os_hostname l) mem) → reachable w) ∧ o_wlan o ≠ [] ∧ filter_rssi (d_awdl (w_daemon w)) = o_filter_rssi o ∧
      ∃ chan, select_chan (o_chan_num o) = Some chan ∧ o_chan_num o ∈ [6; 44; 149] ∧
        ch_sequence (st_channel (d_awdl (w_daemon w))) = replicate AWDL_CHANSEQ_LENGTH chan
  end.

End runs.

(** ** A concrete command line *)

#[global] Instance broken_radio_sane : @OsSane broken_radio.
Proof.
  constructor; intros l; [reflexivity|split; [reflexivity|solve_list]|split; [solve_list|simpl; lia]].
Qed.

(** [-i a -c 44 -f -v]. *)
Definition sample_options : list (Z * list Z) :=
  [(chr "i", [97]); (chr "c", [chr "4"; chr "4"]); (chr "f", []); (chr "v", [])].

Lemma verbosity_witness :
  ∃ o effects, parse_options sample_options default_options = Some (inr o) ∧
    log_log false (main_logger o) LOG_DEBUG [] 1 sample_tm [104; 105] = Some (effects, 1) ∧
    LOG_DEBUG <= LOG_INFO + count_v sample_options.
Proof.
  destruct (parse_options sample_options default_options) as [[f|o]|] eqn:E; [vm_compute in E; discriminate| |vm_compute in E; discriminate].
  destruct (verbosity sample_options o LOG_DEBUG [] 1 sample_tm [104; 105] E) as (effects & rc & Hl & Hs & _).
  - vm_compute. split; discriminate.
  - destruct Hs as [-> _]; [vm_compute; discriminate|]. exists o, effects. split; [reflexivity|]. split; [exact Hl|].
    vm_compute. discriminate.
Defined.

