(* ===== verification/Shutdown.v ===== *)
(** * Shutdown: what the program holds, from its start to its end

    [main] obtains two netlink sockets, a capture handle and the virtual
    device; [awdl_free] gives them back.  The event loop in between is a
    parameter that calls the handlers ([handle_calls] of Traces), whose calls
    release what they obtain and leave the sockets alone ([performs_ran] of
    Calls). *)

From Stdlib Require Import ZArith QArith Lia ZifyBool Ascii.
From stdpp Require Import base tactics numbers list gmap sets relations.
From S2P Require Import Prelude Wire CircularBuffer HashMap Sync Channel Election Peers Memory ElectionRun.
From S2P Require Import State Schedule Frame Radiotap Tx Rx Print Log Io Daemon DaemonRun DaemonTimers DaemonSafe.
From S2P Require Import Os Netutils IoInit Dump Calls Traces Owl.

Local Open Scope Z_scope.

(** ** Inversion of runs *)

Lemma bind_inv {S A B} (m : M S A) (f : A → M S B) s s' b :
  (m ≫= f) s = Some (s', inr b) → ∃ s1 a, m s = Some (s1, inr a) ∧ f a s1 = Some (s', inr b).
Proof.
  unfold mbind, M_bind. destruct (m s) as [[s1 [z|a]]|]; [discriminate| |discriminate]. eauto.
Qed.

(** ** Sockets *)

Section parts.
Context `{Os}.

Lemma bad_format_keeps {A} : keeps (A := A) bad_format.
Proof. apply keeps_lift. Qed.

Lemma link_updown_keeps ifindex up : keeps (link_updown ifindex up).
Proof. unfold link_updown. keeps_steps. Qed.

Lemma set_monitor_mode_keeps ifindex : keeps (set_monitor_mode ifindex).
Proof. unfold set_monitor_mode, monitor_out. keeps_steps. Qed.

Lemma open_tun_keeps dev self : keeps (open_tun dev self).
Proof. unfold open_tun. keeps_steps. Qed.

Lemma open_nonblocking_device_keeps dev bssid : keeps (open_nonblocking_device dev bssid).
Proof. unfold open_nonblocking_device. keeps_steps. Qed.

Lemma io_state_init_keeps st wlan host bssid : keeps (io_state_init st wlan host bssid).
Proof.
  unfold io_state_init, io_state_init_wlan, io_state_init_wlan_try_savefile, open_savefile, io_state_init_host,
    link_down, link_up, link_ether_addr_get.
  repeat (keeps_steps; try first [apply bad_format_keeps | apply link_updown_keeps | apply set_monitor_mode_keeps | apply open_tun_keeps
    | apply open_nonblocking_device_keeps]).
Qed.
End parts.

(** ** Objects *)

(** What a run holds apart from the link objects, which the functions that
    configure a link do not release. *)
Definition is_link (x : resource) : bool := match x with RLink _ => true | _ => false end.
Definition kept (l : call_log) (xs : list resource) : Prop :=
  ∀ x, is_link x = false → balance l x = foldr (λ y n, is_res (Some y) x + n) 0 xs.

(** Handles without a descriptor, which are lost. *)
Definition lost_handles (l : call_log) (lost : list resource) : Prop :=
  Forall (λ x, ∃ h r, x = RPcap h ∧ (pcap_get_selectable_fd h, r) ∈ l ∧ r < 0) lost.

Lemma held_kept l xs : held l xs → kept l xs.
Proof. intros Hh x _. apply Hh. Qed.

Lemma foldr_res_app xs ys x :
  foldr (λ y n, is_res (Some y) x + n) 0 (xs ++ ys) =
  foldr (λ y n, is_res (Some y) x + n) 0 xs + foldr (λ y n, is_res (Some y) x + n) 0 ys.
Proof. induction xs as [|y xs IH]; simpl; lia. Qed.

Lemma kept_app l1 l2 xs ys : kept l1 xs → kept l2 ys → kept (l1 ++ l2) (xs ++ ys).
Proof. intros H1 H2 x Hx. rewrite balance_app, (H1 x Hx), (H2 x Hx), foldr_res_app. done. Qed.

(** Releasing the objects at the front of the list. *)
Lemma kept_releases l l' xs ys : kept l (xs ++ ys) →
  (∀ x, balance l' x = - foldr (λ y n, is_res (Some y) x + n) 0 xs) → kept (l ++ l') ys.
Proof. intros Hk Hr x Hx. rewrite balance_app, (Hk x Hx), Hr, foldr_res_app. lia. Qed.

(** The same up to the order. *)
Lemma kept_perm l xs ys : xs ≡ₚ ys → kept l xs → kept l ys.
Proof.
  intros Hp Hk x Hx. rewrite (Hk x Hx). clear Hk. induction Hp; simpl; lia.
Qed.

Lemma lost_handles_app l l' lost : lost_handles l lost → lost_handles (l ++ l') lost.
Proof. intros Hl. eapply Forall_impl; [exact Hl|]. intros x (h & r & -> & Hin & Hr). exists h, r. set_solver. Qed.

Lemma lost_handles_after l l' lost : lost_handles l lost → lost_handles (l' ++ l) lost.
Proof. intros Hl. eapply Forall_impl; [exact Hl|]. intros x (h & r & -> & Hin & Hr). exists h, r. set_solver. Qed.

(** The objects of an explicit log, links apart. *)
Ltac kept_log :=
  intros x Hx; destruct x; try discriminate Hx; clear Hx; cbn [app balance obtains releases foldr];
  repeat match goal with
  | H : (_ =? _) = _ |- _ => rewrite H
  | H : (_ <? _) = _ |- _ => rewrite H
  | |- context [is_res (if ?b then _ else _) _] => destruct b
  end;
  rewrite ?is_res_None; unfold is_res; repeat case_decide; simplify_eq; lia.

Section accounts.
Context `{Os}.

Lemma nlroute_init_ran s s' err : fn nlroute_init s = Some (s', inr err) → 0 <= err →
  ∃ l, n_log s' = n_log s ++ l ∧ kept l [RSocket (nlroute_socket s')].
Proof.
  unfold fn, run, nlroute_init, guard_ret, return_with, modify, sys, mret, M_ret, mbind, M_bind. cbn.
  set (sk := os_result _ nl_socket_alloc). clearbody sk. destruct (sk =? 0) eqn:Esk; cbn; [intros [= <- <-] []; reflexivity|].
  set (r := os_result _ (nl_connect _)). clearbody r. destruct (r =? 0) eqn:Er; cbn; [|intros [= <- <-] []; reflexivity].
  intros [= <- <-] _. cbn. rewrite <- !app_assoc. eexists. split; [reflexivity|]. kept_log.
Qed.

Lemma nl80211_init_ran s s' err : fn nl80211_init s = Some (s', inr err) → 0 <= err →
  nlroute_socket s' = nlroute_socket s ∧ ∃ l, n_log s' = n_log s ++ l ∧ kept l [RSocket (nl80211_socket s')].
Proof.
  unfold fn, run, nl80211_init, guard_ret, return_with, modify, get_st, sys, mret, M_ret, mbind, M_bind. cbn.
  set (sk := os_result _ nl_socket_alloc). clearbody sk. destruct (sk =? 0) eqn:Esk; cbn; [intros [= <- <-] []; reflexivity|].
  set (r0 := os_result _ (nl_socket_set_buffer_size _ _ _)). set (r := os_result _ (genl_connect _)). clearbody r r0.
  destruct (r =? 0) eqn:Er; cbn; [|intros [= <- <-] []; reflexivity].
  set (id := os_result _ (genl_ctrl_resolve _)). clearbody id.
  destruct (id <? 0) eqn:Eid; cbn; [intros [= <- <-] []; reflexivity|].
  intros [= <- <-] _. cbn. rewrite <- !app_assoc. split; [done|]. eexists. split; [reflexivity|]. kept_log.
Qed.

Lemma netutils_init_ran s s' err : fn netutils_init s = Some (s', inr err) → 0 <= err →
  ∃ l, n_log s' = n_log s ++ l ∧ kept l [RSocket (nlroute_socket s'); RSocket (nl80211_socket s')].
Proof.
  unfold netutils_init. unfold fn at 1, run, guard_ret, return_with, mbind, M_bind, option_bind.
  destruct (fn nlroute_init s) as [[s1 [e|e]]|] eqn:E1; [unfold fn, run in E1; by destruct (nlroute_init s) as [[? []]|]| |done].
  destruct (e <? 0) eqn:Ee; [intros [= <- <-]; lia|]. unfold mret, M_ret.
  destruct (fn nl80211_init s1) as [[s2 [e2|e2]]|] eqn:E2; [unfold fn, run in E2; by destruct (nl80211_init s1) as [[? []]|]| |done].
  destruct (e2 <? 0) eqn:Ee2; [intros [= <- <-]; lia|]. intros [= <- <-] _.
  destruct (nlroute_init_ran _ _ _ E1) as (l1 & L1 & K1); [lia|].
  destruct (nl80211_init_ran _ _ _ E2) as (Hs & l2 & L2 & K2); [lia|].
  exists (l1 ++ l2). rewrite L2, L1, app_assoc. split; [done|]. rewrite Hs.
  exact (kept_app _ _ [_] [_] K1 K2).
Qed.
Lemma try_savefile_ran st s s' st' e : io_state_init_wlan_try_savefile st s = Some (s', inr (st', e)) →
  ∃ l, n_log s' = n_log s ++ l ∧
    if e =? 0 then kept l [RPcap (wlan_handle st')] else ∃ lost, kept l lost ∧ lost_handles l lost.
Proof.
  unfold io_state_init_wlan_try_savefile, open_savefile, sys, mret, M_ret, mbind, M_bind. cbn.
  set (h := os_result _ (pcap_open_offline _)). clearbody h. destruct (h =? 0) eqn:Eh; cbn.
  { intros [= <- <- <-]. eexists. split; [reflexivity|]. exists []. split; [kept_log|constructor]. }
  set (fd := os_result _ (pcap_get_selectable_fd _)). clearbody fd.
  assert (∀ l, fd < 0 → l = [(pcap_open_offline (wlan_ifname st), h); (pcap_get_selectable_fd h, fd)] →
    ∃ lost, kept l lost ∧ lost_handles l lost) as Hlost.
  { intros l Hfd ->. exists [RPcap h]. split; [kept_log|]. constructor; [|constructor]. exists h, fd. split; [done|]. split; [set_solver|done]. }
  destruct (fd =? -1) eqn:Efd; cbn.
  { intros [= <- <- <-]. cbn. rewrite <- app_assoc. eexists. split; [reflexivity|]. apply Hlost; [lia|reflexivity]. }
  destruct (fd <? 0) eqn:Ef; intros [= <- <- <-]; cbn; rewrite <- app_assoc; (eexists; split; [reflexivity|]).
  - if_false. apply Hlost; [lia|reflexivity].
  - kept_log.
Qed.

Lemma link_updown_ran ifindex up s s' r : fn (link_updown ifindex up) s = Some (s', inr r) →
  ∃ l, n_log s' = n_log s ++ l ∧ kept l [].
Proof.
  unfold fn, run, link_updown, guard_ret, return_with, get_st, sys, lift, nonnull, mret, M_ret, mbind, M_bind. cbn.
  set (old := os_result _ (rtnl_link_get_kernel _ _ _)). clearbody old. destruct (old <? 0) eqn:Eo; cbn.
  { intros [= <- <-]. cbn. eexists. split; [reflexivity|]. kept_log. }
  set (req := os_result _ rtnl_link_alloc). clearbody req. destruct (req =? 0) eqn:Er; cbn; [done|].
  intros [= <- <-]. cbn. rewrite <- ?app_assoc. eexists. split; [reflexivity|]. kept_log.
Qed.

Lemma link_ether_addr_get_ran name addr s s' r : link_ether_addr_get name addr s = Some (s', inr r) →
  ∃ l, n_log s' = n_log s ++ l ∧ kept l [].
Proof.
  unfold link_ether_addr_get, get_st, sys, lift, nonnull, mret, M_ret, mbind, M_bind. cbn.
  set (old := os_result _ (rtnl_link_get_kernel _ _ _)). clearbody old. destruct (old <? 0) eqn:Eo; cbn.
  { intros [= <- <-]. cbn. eexists. split; [reflexivity|]. kept_log. }
  set (a := os_result _ (rtnl_link_get_addr _)). clearbody a. destruct (a =? 0) eqn:Ea; cbn; [done|].
  intros [= <- <-]. cbn. rewrite <- ?app_assoc. eexists. split; [reflexivity|]. kept_log.
Qed.

Lemma set_monitor_mode_ran ifindex s s' r : set_monitor_mode ifindex s = Some (s', inr r) →
  ∃ l, n_log s' = n_log s ++ l ∧ kept l [].
Proof.
  intros E. destruct (set_monitor_mode_clean ifindex s) as (s1 & r1 & l & E1 & L & K). rewrite E in E1.
  injection E1 as <- <-. exists l. split; [done|by apply held_kept].
Qed.

Lemma open_device_ran dev bssid s s' r : open_nonblocking_device dev bssid s = Some (s', inr r) → 0 <= r.1 →
  ∃ l h, n_log s' = n_log s ++ l ∧ r.2 = Some h ∧ kept l [RPcap h].
Proof.
  intros E Hr. destruct (open_nonblocking_device_run dev bssid s) as (s1 & r1 & l & E1 & L & _ & K). rewrite E in E1.
  injection E1 as <- <-. destruct r.2 as [h|]; [|lia]. exists l, h. split; [done|]. split; [done|apply held_kept, K].
Qed.

Lemma open_tun_ran dev self s s' r : (∀ l, Z.of_nat (length (os_name l)) < IFNAMSIZ) →
  open_tun dev self s = Some (s', inr r) → 0 <= r.1 →
  ∃ l, n_log s' = n_log s ++ l ∧ kept l [RFd r.1].
Proof.
  intros Hn E Hr. destruct (open_tun_run dev self s Hn) as (s1 & r1 & l & E1 & L & K). rewrite E in E1.
  injection E1 as <- <-. replace (r.1 <? 0) with false in K by lia. exists l. split; [done|by apply held_kept].
Qed.
(** From one state to another the program obtained [xs], and [lost] without
    keeping a pointer. *)
Definition grew (s s' : net) (xs lost : list resource) : Prop :=
  ∃ l, n_log s' = n_log s ++ l ∧ kept l (xs ++ lost) ∧ lost_handles l lost.

Lemma grew_kept s s' xs : (∃ l, n_log s' = n_log s ++ l ∧ kept l xs) → grew s s' xs [].
Proof. intros (l & L & K). exists l. rewrite app_nil_r. split; [done|]. split; [done|constructor]. Qed.

Lemma grew_trans s s1 s2 xs ys lost lost' :
  grew s s1 xs lost → grew s1 s2 ys lost' → grew s s2 (xs ++ ys) (lost ++ lost').
Proof.
  intros (l & L & K & Hl) (l' & L' & K' & Hl'). exists (l ++ l'). rewrite L', L, app_assoc. split; [done|]. split.
  - eapply kept_perm; [|apply (kept_app _ _ _ _ K K')]. solve_Permutation.
  - apply Forall_app. split; [by apply lost_handles_app|by apply lost_handles_after].
Qed.

(** A step that obtains nothing. *)
Lemma grew_step s s1 s2 xs lost : grew s s1 xs lost → (∃ l, n_log s2 = n_log s1 ++ l ∧ kept l []) → grew s s2 xs lost.
Proof.
  intros Hg Hk. rewrite <- (app_nil_r xs), <- (app_nil_r lost). eapply grew_trans; [exact Hg|by apply grew_kept].
Qed.

Lemma sys_ran c s s' r : sys c s = Some (s', inr r) → obtains c r = None → releases c = None →
  ∃ l, n_log s' = n_log s ++ l ∧ kept l [].
Proof.
  intros [= <- <-] Ho Hr. eexists. split; [reflexivity|]. intros x _. cbn. by rewrite Ho, Hr, is_res_None.
Qed.

Lemma io_state_init_wlan_ran st wlan bssid s s' st' :
  io_state_init_wlan st wlan bssid s = Some (s', inr (st', 0)) → 0 <= wlan_fd st' →
  ∃ lost, grew s s' [RPcap (wlan_handle st')] lost.
Proof.
  intros Hr Hfd. unfold io_state_init_wlan in Hr.
  apply bind_inv in Hr as (s0 & name & E0 & Hr). unfold lift in E0. destruct (strcpy PATH_MAX wlan); [|discriminate].
  injection E0 as <- <-.
  apply bind_inv in Hr as (s1 & [st1 e1] & E1 & Hr). destruct (try_savefile_ran _ _ _ _ _ E1) as (l1 & L1 & K1).
  destruct (e1 =? 0). { injection Hr as <- <-. exists []. apply grew_kept. eauto. }
  destruct K1 as (lost & K1 & Hlost). assert (grew s s1 [] lost) as G by by exists l1.
  apply bind_inv in Hr as (s2 & index & E2 & Hr). apply (grew_step _ _ s2) in G; [|by eapply sys_ran].
  destruct (index =? 0); [discriminate|].
  apply bind_inv in Hr as (s3 & r3 & E3 & Hr). apply (grew_step _ _ s3) in G; [|by eapply link_updown_ran].
  destruct (r3 <? 0) eqn:E; [discriminate|clear E].
  apply bind_inv in Hr as (s4 & r4 & E4 & Hr). apply (grew_step _ _ s4) in G.
  2: { revert E4. match goal with |- (if ?b then _ else _) _ = _ → _ => destruct b end; [intros [= <- <-]|apply set_monitor_mode_ran]. exists [].
       rewrite app_nil_r. done. }
  destruct (r4 <? 0) eqn:E; [injection Hr as _ _ ?; lia|clear E].
  apply bind_inv in Hr as (s5 & r5 & E5 & Hr). apply (grew_step _ _ s5) in G; [|by eapply link_updown_ran].
  destruct (r5 <? 0) eqn:E; [discriminate|clear E].
  apply bind_inv in Hr as (s6 & r6 & E6 & Hr).
  destruct (wlan_fd (with_wlan_fd r6 _) <? 0) eqn:Ef; [injection Hr as _ <- _; lia|].
  destruct (open_device_ran _ _ _ _ _ E6) as (l6 & h & L6 & H6 & K6); [cbn in Ef; lia|].
  assert (grew s s6 [RPcap h] lost) as G6.
  { rewrite <- (app_nil_r lost). apply (grew_trans _ _ _ [] _ _ _ G). apply grew_kept. eauto. }
  apply bind_inv in Hr as (s7 & [e7 addr] & E7 & Hr). apply (grew_step _ _ s7) in G6; [|by eapply link_ether_addr_get_ran].
  exists lost. destruct (e7 <? 0); [injection Hr as <- <- _|injection Hr as <- <-]; cbn; by rewrite H6.
Qed.

Lemma io_state_init_ran st wlan host bssid s s' st' : (∀ l, Z.of_nat (length (os_name l)) < IFNAMSIZ) → host ≠ [] →
  io_state_init st wlan host bssid s = Some (s', inr (st', 0)) → 0 <= wlan_fd st' →
  ∃ lost, 0 <= host_fd st' ∧ grew s s' [RPcap (wlan_handle st'); RFd (host_fd st')] lost.
Proof.
  intros Hn Hne Hr Hfd. unfold io_state_init in Hr.
  apply bind_inv in Hr as (s1 & [st1 e1] & E1 & Hr). destruct (e1 =? 0) eqn:E; cbn [negb] in Hr; [|injection Hr as _ _ ?; lia].
  assert (e1 = 0) as -> by lia. clear E.
  apply bind_inv in Hr as (s2 & [st2 e2] & E2 & Hr). destruct (e2 =? 0) eqn:E; cbn [negb] in Hr; [injection Hr as <- <-|injection Hr as _ _ ?; lia].
  assert (e2 = 0) as -> by lia. clear E. unfold io_state_init_host in E2.
  destruct host as [|c host]; [done|]. cbn [length Nat.ltb Nat.leb] in E2.
  apply bind_inv in E2 as (s3 & name & E3 & E2). unfold lift in E3. destruct (strcpy IFNAMSIZ (c :: host)); [|discriminate].
  injection E3 as <- <-. apply bind_inv in E2 as (s4 & [fd dev] & E4 & E2).
  destruct (fd <? 0) eqn:Ef; [injection E2 as _ _ ?; lia|].
  destruct (open_tun_ran _ _ _ _ _ Hn E4) as (l4 & L4 & K4); [cbn; lia|].
  apply bind_inv in E2 as (s5 & index & E5 & E2). destruct (index =? 0); [discriminate|]. injection E2 as <- <-.
  destruct (io_state_init_wlan_ran _ _ _ _ _ _ E1 Hfd) as [lost G].
  exists lost. cbn [host_fd wlan_handle with_host_fd with_host_ifname with_host_ifindex]. split; [lia|].
  apply (grew_step _ s4); [|by eapply sys_ran]. rewrite <- (app_nil_r lost).
  apply (grew_trans _ _ _ [_] [_] _ _ G). apply grew_kept. eauto.
Qed.
End accounts.

(** ** The event loop *)

Section loop.
Context `{Os} `{CallocEnv} `{MallocEnv} `{RxEnv} `{IoEnv} `{StackEnv} `{Radiotap} (dump_file : list Z).

(** One event, handled with its calls. *)
Definition event_step (c c' : world * net) : Prop :=
  ∃ i, handle_calls dump_file i c.1 c.2 = Done c'.

(** The devices and the sockets stay, and nothing else is held. *)
Lemma event_step_ran c c' : event_step c c' →
  d_io (w_daemon c'.1) = d_io (w_daemon c.1) ∧ sockets c'.2 = sockets c.2 ∧
  ∃ l, n_log c'.2 = n_log c.2 ++ l ∧ neutral l.
Proof.
  destruct c as [w n], c' as [w' n']. intros [i Hi]. unfold handle_calls in Hi. cbn [fst snd] in *.
  destruct (handle i w) as [w1| |] eqn:Hw; [|discriminate..]. cbn [mbind outcome_bind] in Hi.
  destruct (performs _ _ n) as [[n1 r]|] eqn:Hp; [|discriminate]. injection Hi as <- <-.
  split; [by apply (handle_appends i w)|]. by apply performs_ran in Hp as [_ Hp].
Qed.

Lemma events_ran c c' : rtc event_step c c' →
  d_io (w_daemon c'.1) = d_io (w_daemon c.1) ∧ sockets c'.2 = sockets c.2 ∧
  ∃ l, n_log c'.2 = n_log c.2 ++ l ∧ neutral l.
Proof.
  induction 1 as [c|c c1 c2 Hev _ (I2 & K2 & l2 & L2 & N2)].
  { split; [done|]. split; [done|]. exists []. by rewrite app_nil_r. }
  destruct (event_step_ran _ _ Hev) as (I1 & K1 & l1 & L1 & N1).
  split; [congruence|]. split; [congruence|]. exists (l1 ++ l2). rewrite L2, L1, app_assoc. split; [done|]. by apply held_after.
Qed.

(** What the program relies on of [ev_run]: it calls the handlers it was
    given, one after the other. *)
Class EventLoop (ev_run : world → M net world) : Prop :=
  loop_events w s s' w' : ev_run w s = Some (s', inr w') → rtc event_step (w, s) (w', s').
End loop.

(** ** The whole program *)

(** The blocks of the queue, when there was memory for the array: whatever was
    allocated and freed meanwhile, exactly they are freed. *)
Lemma queue_released `{BlockOk} (ring : list buf) h h1 cbuf buffer q h2 :
  circular_buf_init_m 16 ring h = Some (h1, cbuf, buffer, q) → buffer ≠ NULL → cbuf ∈ h2 → buffer ∈ h2 →
  circular_buf_init 16 ring = Some q ∧ circular_buf_free h2 cbuf buffer = Some (h2 ∖ {[buffer]} ∖ {[cbuf]}).
Proof.
  unfold circular_buf_init_m. change (16 =? 0) with false. unfold malloc_block at 1. destruct (malloc_fails h); [done|].
  pose proof (block_nonnull h) as Hn. pose proof (block_fresh h) as Hf. if_false. unfold malloc_block.
  set (h' := {[block_at h]} ∪ h). pose proof (block_nonnull h') as Hn'. pose proof (block_fresh h') as Hf'.
  destruct (malloc_fails h'); (destruct (circular_buf_init 16 ring) as [c|]; [|discriminate]); intros [= <- <- <- <-] Hb Hc2 Hb2; [done|].
  split; [done|]. unfold circular_buf_free, free_block. do 2 if_false. rewrite bool_decide_true by done.
  cbn [mbind option_bind]. rewrite bool_decide_true; [done|]. set_solver.
Qed.

Lemma queue_blocks_live `{BlockOk} (ring : list buf) h h1 cbuf buffer q :
  circular_buf_init_m 16 ring h = Some (h1, cbuf, buffer, q) → buffer ≠ NULL → cbuf ∈ h1 ∧ buffer ∈ h1.
Proof.
  unfold circular_buf_init_m. change (16 =? 0) with false. unfold malloc_block at 1. destruct (malloc_fails h); [done|].
  pose proof (block_nonnull h) as Hn. if_false. unfold malloc_block.
  destruct (malloc_fails _); (destruct (circular_buf_init 16 ring) as [c|]; [|discriminate]); intros [= <- <- <- <-] Hb; [done|].
  set_solver.
Qed.

Section whole.
Context `{OsSane} `{CallocEnv} `{MallocEnv} `{RxEnv} `{IoEnv} `{StackEnv} `{Radiotap} (dump_file : list Z).

Lemma awdl_init_calls_ran io wlan host chan dump now mem ring s s' d :
  Z.of_nat (length wlan) < PATH_MAX → Z.of_nat (length host) < IFNAMSIZ → host ≠ [] →
  awdl_init_calls io wlan host chan dump now mem ring s = Some (s', inr (inr d)) → 0 <= wlan_fd (d_io d) →
  circular_buf_init 16 ring = Some (d_queue d) ∧ 0 <= host_fd (d_io d) ∧
  ∃ lost, grew s s' ([RSocket (nlroute_socket s'); RSocket (nl80211_socket s')] ++
    [RPcap (wlan_handle (d_io d)); RFd (host_fd (d_io d))]) lost.
Proof.
  intros Hw Hh Hne Hr Hfd. unfold awdl_init_calls in Hr.
  apply bind_inv in Hr as (s1 & err & E1 & Hr). destruct (err <? 0) eqn:Ee; [discriminate|].
  apply bind_inv in Hr as (s2 & [io' io_err] & E2 & Hr). destruct (io_err <? 0) eqn:Eio; [discriminate|].
  apply bind_inv in Hr as (s3 & [name_err hostname] & E3 & Hr). unfold lift, awdl_init in Hr. rewrite Ee in Hr.
  destruct (name_err <? 0); [discriminate|].
  destruct (awdl_init_state _ _ _ _ _) as [[a ?]|]; [|discriminate]. cbn [mbind option_bind] in Hr.
  destruct (circular_buf_init 16 ring) as [q|]; [|discriminate]. injection Hr as <- <-. cbn [d_io d_queue] in *.
  destruct (io_state_init_run io wlan host AWDL_BSSID s1 Hw Hh sane_names) as [(s2' & io2 & err2 & E2' & Herr & _)|[E2' _]];
    rewrite E2 in E2'; [|discriminate E2']. injection E2' as <- <- <-. assert (io_err = 0) as -> by lia.
  destruct (io_state_init_ran _ _ _ _ _ _ _ sane_names Hne E2 Hfd) as (lost & Hhost & G2).
  split; [done|]. split; [done|]. exists lost.
  assert (sockets s3 = sockets s1) as [= -> ->].
  { apply bind_inv in E3 as (s4 & r4 & [= <- <-] & [= <- _ _]). exact (io_state_init_keeps _ _ _ _ _ _ _ E2). }
  apply (grew_step _ s2).
  - destruct (netutils_init_ran _ _ _ E1) as (l1 & L1 & K1); [lia|].
    apply (grew_trans _ s1 _ _ _ [] _); [|exact G2]. apply grew_kept. eauto.
  - apply bind_inv in E3 as (s4 & r4 & E4 & [= <- _ _]). by eapply sys_ran.
Qed.

(** Where [awdl_init] starts: behind the banner and, with [-D], in the process
    that goes on. *)
Definition detached (o : options) (s s0 : net) : Prop :=
  let s := with_log (n_log s ++ [(printf banner, os_result (n_log s) (printf banner))]) s in
  if o_daemon o then exits daemonize s = Some (s0, inr None) else s0 = s.

Lemma main_running opts o io now mem ring s s' w :
  parse_options opts default_options = Some (inr o) → main opts io now mem ring s = Some (s', inr (Running w)) →
  ∃ s0 chan d, detached o s s0 ∧
    awdl_init_calls (set_no_monitor_mode (o_no_monitor_mode o) io) (o_wlan o) (o_host o) chan (o_dump o) now mem ring s0 =
      Some (s', inr (inr d)) ∧
    w = awdl_schedule (mk_world (with_awdl (with_filter_rssi (o_filter_rssi o) (d_awdl d)) d) [] []).
Proof.
  intros Hp Hr. unfold main in Hr. rewrite Hp, lift_bind, sys_bind in Hr.
  apply bind_inv in Hr as (s0 & left & E0 & Hr). destruct left as [code|]; [discriminate|].
  destruct (select_chan _) as [chan|]; [|discriminate]. destruct (_ =? 0)%nat; [discriminate|].
  apply bind_inv in Hr as (s1 & r & E1 & Hr). destruct r as [e|d]; [discriminate|]. injection Hr as <- <-.
  exists s0, chan, d. split; [|split; [exact E1|done]]. unfold detached. destruct (o_daemon o); [exact E0|].
  by injection E0 as <-.
Qed.
(** The four calls of [awdl_free]. *)
Lemma awdl_free_ran h h' cbuf buffer d s : circular_buf_free h cbuf buffer = Some h' → 0 <= host_fd (d_io d) →
  ∃ s' l, awdl_free h cbuf buffer d s = Some (s', inr h') ∧ n_log s' = n_log s ++ l ∧
    ∀ x, balance l x = - foldr (λ y n, is_res (Some y) x + n) 0
      ([RSocket (nlroute_socket s); RSocket (nl80211_socket s)] ++ [RPcap (wlan_handle (d_io d)); RFd (host_fd (d_io d))]).
Proof.
  intros Hq Hfd. unfold awdl_free, io_state_free, netutils_cleanup, nlroute_free, nl80211_free. rewrite Hq, lift_bind.
  unfold sys, get_st, mret, M_ret, mbind, M_bind. cbn. eexists _, _. split; [reflexivity|]. cbn. rewrite <- !app_assoc.
  split; [reflexivity|]. intros x. cbn [app balance obtains releases]. replace (host_fd (d_io d) <? 0) with false by lia.
  rewrite is_res_None. lia.
Qed.

(** C9: what is released when the program ends. Let it get to its event loop
    with the radio open, a name for the virtual device and memory for the ring
    of the queue, and let the loop handle any events and return with the blocks
    of the queue still allocated. Then [main] returns [EXIT_SUCCESS], and among
    the sockets, descriptors, capture handles and whatever else the program
    obtained from the system since it started, or with [-D] since it detached,
    everything is released exactly once, except for the handle of a capture
    file that has no descriptor, and the link objects. Of the memory exactly
    the two blocks of the queue are freed: whatever else is allocated when the
    loop returns, the table of peers, the peers and the frames that wait, is
    not. *)
Theorem program_releases ev_run opts o io now mem ring s s1 w h h1 cbuf buffer q s2 w' h2 :
  EventLoop dump_file ev_run → ∀ `{BlockOk},
  parse_options opts default_options = Some (inr o) → o_host o ≠ [] →
  main opts io now mem ring s = Some (s1, inr (Running w)) → 0 <= wlan_fd (d_io (w_daemon w)) →
  circular_buf_init_m 16 ring h = Some (h1, cbuf, buffer, q) → buffer ≠ NULL →
  ev_run w s1 = Some (s2, inr w') → cbuf ∈ h2 → buffer ∈ h2 →
  d_queue (w_daemon w) = q ∧
  ∃ s0 s3 h3 l lost, detached o s s0 ∧
    main_end ev_run h2 cbuf buffer w s1 = Some (s3, inr (h3, Exited EXIT_SUCCESS)) ∧
    n_log s3 = n_log s0 ++ l ∧ kept l lost ∧ lost_handles l lost ∧
    ∀ p, p ∈ h3 ↔ p ∈ h2 ∧ p ≠ cbuf ∧ p ≠ buffer.
Proof.
  intros Hloop EB HB Hp Hne Hm Hfd Hq Hb Hrun Hc2 Hb2.
  pose proof (parse_options_ok _ _ _ default_options_ok Hp) as Ho.
  destruct (main_running _ _ _ _ _ _ _ _ _ Hp Hm) as (s0 & chan & d & Hdet & Hi & ->).
  destruct (queue_released _ _ _ _ _ _ h2 Hq Hb Hc2 Hb2) as [Hqi Hqf].
  destruct (awdl_init_calls_ran _ _ _ _ _ _ _ _ _ _ _ (oo_wlan o Ho) (oo_host o Ho) Hne Hi Hfd) as (Hqd & Hhost & lost & G).
  rewrite Hqi in Hqd. injection Hqd as ->. split; [done|].
  destruct (events_ran _ _ _ (loop_events _ _ _ _ _ Hrun)) as (Hio & Hsock & l2 & L2 & N2). cbn in Hio, L2.
  injection Hsock as Hs1 Hs2.
  rewrite <- Hs1, <- Hs2 in G. apply (grew_step _ _ s2) in G; [|exists l2; split; [done|by apply held_kept]].
  destruct G as (l & L & K & Hlost).
  destruct (awdl_free_ran h2 _ cbuf buffer (w_daemon w') s2 Hqf) as (s3 & l3 & E3 & L3 & B3); [by rewrite Hio|].
  rewrite Hio in B3. eexists s0, s3, _, (l ++ l3), lost. split; [exact Hdet|]. split.
  { unfold main_end. rewrite (bind_run _ _ _ _ _ Hrun), (bind_run _ _ _ _ _ E3). done. }
  split; [by rewrite L3, L, app_assoc|]. split; [by eapply kept_releases|]. split; [by apply lost_handles_app|].
  intros p. rewrite !elem_of_difference, !not_elem_of_singleton. tauto.
Qed.
End whole.

(** ** A concrete session *)

(** Everything works; the radio has the descriptor 4. *)
Definition working_radio : Os := {|
  os_result := λ l c, match c with
    | pcap_create _ => 1
    | pcap_get_selectable_fd _ => 4
    | _ => @os_result broken_radio l c
    end;
  os_bytes := @os_bytes sample_os;
  os_name := @os_name sample_os;
  os_hostname := @os_hostname sample_os;
  os_flags := @os_flags sample_os;
  os_messages := @os_messages sample_os;
  DLT_IEEE802_11_RADIO := 0 |}.

#[global] Instance working_radio_sane : @OsSane working_radio.
Proof.
  constructor; intros l; [reflexivity|split; [reflexivity|solve_list]|split; [solve_list|simpl; lia]].
Qed.

(** A loop that reports one packet of the host, and then the signal. *)
Definition short_loop (w : world) : M net world := λ s,
  match @handle small_calloc sample_malloc sample_rx_env sample_io_env sample_stack rt_standard (HostArrives [inr [1; 2]]) w with
  | Done w1 =>
      match @handle small_calloc sample_malloc sample_rx_env sample_io_env sample_stack rt_standard StatsSignal w1 with
      | Done w2 => Some (s, inr w2)
      | _ => None
      end
  | _ => None
  end.

Lemma short_loop_ok :
  @EventLoop working_radio small_calloc sample_malloc sample_rx_env sample_io_env sample_stack rt_standard [100] short_loop.
Proof.
  intros w s s' w' [= <- <-].
  assert (∀ w1 n, drop (length (w_trace w1)) (w_trace w1) = [] →
    @performs working_radio [100] (drop (length (w_trace w1)) (w_trace w1)) n = Some (n, inr tt)) as Hnone
    by (intros w1 n ->; done).
  eapply rtc_l.
  { exists (HostArrives [inr [1; 2]]). unfold handle_calls. cbn [fst snd handle mbind outcome_bind].
    cbn [w_trace]. rewrite Hnone by apply drop_all. reflexivity. }
  eapply rtc_l; [|apply rtc_refl]. exists StatsSignal. unfold handle_calls. cbn [fst snd handle mbind outcome_bind].
  rewrite (Hnone (mk_world (w_daemon w) (w_trace w) (w_pending w ++ [inr [1; 2]]))) by apply drop_all. reflexivity.
Qed.

(** [-i a]: started and ended. *)
Lemma program_releases_witness :
  ∃ s1 w h1 cbuf buffer q s3 h3 l lost,
    @main working_radio small_calloc [(chr "i", [97])] blank_io 1000 blank_memory (replicate 16 (buf_of [])) sample_net =
      Some (s1, inr (Running w)) ∧
    @circular_buf_init_m sample_blocks _ 16 (replicate 16 (buf_of [])) {[5]} = Some (h1, cbuf, buffer, q) ∧
    @main_end working_radio short_loop ({[77]} ∪ h1) cbuf buffer w s1 = Some (s3, inr (h3, Exited EXIT_SUCCESS)) ∧
    n_log s3 = n_log sample_net ++ [(printf banner, 0)] ++ l ∧ kept l lost ∧ lost_handles l lost.
Proof.
  destruct (@main working_radio small_calloc [(chr "i", [97])] blank_io 1000 blank_memory (replicate 16 (buf_of [])) sample_net)
    as [[s1 [z|[c| |w]]]|] eqn:Em; [vm_compute in Em; discriminate..| |vm_compute in Em; discriminate].
  assert (wlan_fd (d_io (w_daemon w)) = 4) as Hfd by (vm_compute in Em; injection Em as _ <-; reflexivity).
  destruct (@queue_memory_balanced sample_blocks sample_blocks_ok _ 16 (replicate 16 (buf_of [])) {[5]})
    as (h1 & cbuf & buffer & q & Hq & Hfree); [lia|reflexivity|reflexivity|].
  assert (buffer ≠ NULL) as Hb.
  { intros ->. change (malloc_fails _) with false in Hfree. unfold circular_buf_free in Hfree.
    destruct (cbuf =? NULL); discriminate Hfree. }
  destruct (@queue_blocks_live sample_blocks sample_blocks_ok _ _ _ _ _ _ Hq Hb) as [Hc1 Hb1].
  destruct (@program_releases working_radio working_radio_sane small_calloc sample_malloc sample_rx_env sample_io_env
    sample_stack rt_standard [100] short_loop [(chr "i", [97])] (mk_options false false 6 6 1 false [97] DEFAULT_AWDL_DEVICE)
    blank_io 1000 blank_memory (replicate 16 (buf_of [])) sample_net s1 w {[5]} h1 cbuf buffer q s1
    (mk_world (w_daemon w) (w_trace w) (w_pending w ++ [inr [1; 2]])) ({[77]} ∪ h1) short_loop_ok sample_blocks sample_blocks_ok)
    as (_ & s0 & s3 & h3 & l & lost & Hd & Hend & L & K & Hl & _).
  - vm_compute. reflexivity.
  - discriminate.
  - exact Em.
  - rewrite Hfd. lia.
  - exact Hq.
  - exact Hb.
  - reflexivity.
  - apply elem_of_union_r, Hc1.
  - apply elem_of_union_r, Hb1.
  - exists s1, w, h1, cbuf, buffer, q, s3, h3, l, lost. split; [reflexivity|]. split; [exact Hq|]. split; [exact Hend|].
    split; [|split; [exact K|exact Hl]]. rewrite L. cbn [detached o_daemon] in Hd. rewrite Hd. reflexivity.
Defined.
